(** * Dispatch: recurrence, template rendering and dispatch rollover

    A shallow embedding of the calendar, recurrence, template and dispatch
    code of the Dispatch application, followed by the properties proved
    about it.

    Conventions.
    - A JavaScript string is a [string]: a sequence of code units below
      U+0100.  Strings with other code units are outside the model; a
      JSON escape above U+00FF is read as U+00FF, which the validation of
      a rule does not tell apart from the code unit it stands for.
    - Every [Date] built by the embedded code is a UTC midnight, so a valid
      [Date] is its day number since 1970-01-01 (its time value is
      [86400000 * day]); an invalid [Date] is [None].
    - A JavaScript number is kept as far as the code looks at it: an exact
      integer, or something that [Number.isInteger] rejects. *)

From Stdlib Require Import ZArith Lia List Bool String Ascii.
Import ListNotations.
Set Warnings "-register-all".
Local Open Scope string_scope.
Local Open Scope Z_scope.

(* ================================================================== *)
(** * Part I: the embedding *)
(* ================================================================== *)

(** ** Characters and strings *)

Module Str.

Definition code (c : ascii) : Z := Z.of_nat (nat_of_ascii c).

Definition isDigit (c : ascii) : bool := (48 <=? code c) && (code c <=? 57).

Definition digitVal (c : ascii) : Z := code c - 48.

Definition digitChar (n : Z) : ascii := ascii_of_nat (Z.to_nat (48 + n mod 10)).

(** The double quote, written by its code. *)
Definition dquote : ascii := ascii_of_nat 34.

(** Reads a run of decimal digits, most significant first. *)
Fixpoint readDigits (acc : Z) (s : string) : Z :=
  match s with
  | EmptyString => acc
  | String c s' => readDigits (10 * acc + digitVal c) s'
  end.

Fixpoint allDigits (s : string) : bool :=
  match s with
  | EmptyString => true
  | String c s' => isDigit c && allDigits s'
  end.

(** [n] written with exactly [w] decimal digits (the low [w] digits). *)
Fixpoint fixedDigits (w : nat) (n : Z) (acc : string) : string :=
  match w with
  | O => acc
  | S w' => fixedDigits w' (n / 10) (String (digitChar n) acc)
  end.

(** The decimal digits of a non-negative integer, without leading zeros. *)
Fixpoint posDigits (fuel : nat) (n : Z) (acc : string) : string :=
  match fuel with
  | O => acc
  | S f =>
      let acc' := String (digitChar n) acc in
      if n <? 10 then acc' else posDigits f (n / 10) acc'
  end.

(** [String(n)] for an integer [n]. *)
Definition ofInt (n : Z) : string :=
  if n <? 0 then String "-" (posDigits (S (Z.to_nat (Z.log2 (- n)))) (- n) "")
  else posDigits (S (Z.to_nat (Z.log2 n))) n "".

Fixpoint repeat (c : ascii) (n : nat) : string :=
  match n with
  | O => EmptyString
  | S n' => String c (repeat c n')
  end.

(** [s.padStart(w, "0")]. *)
Definition padStart0 (w : nat) (s : string) : string :=
  (repeat "0" (w - String.length s) ++ s)%string.

(** [s.slice(0, n)]. *)
Fixpoint take (n : nat) (s : string) : string :=
  match n, s with
  | S n', String c s' => String c (take n' s')
  | _, _ => EmptyString
  end.

Fixpoint drop (n : nat) (s : string) : string :=
  match n, s with
  | S n', String _ s' => drop n' s'
  | _, _ => s
  end.

(** [s.slice(-n)]. *)
Definition takeLast (n : nat) (s : string) : string :=
  drop (String.length s - n) s.

(** WhiteSpace and LineTerminator code units below U+0100. *)
Definition isSpace (c : ascii) : bool :=
  let k := code c in
  (k =? 9) || (k =? 10) || (k =? 11) || (k =? 12) || (k =? 13)
  || (k =? 32) || (k =? 160).

Fixpoint trimStart (s : string) : string :=
  match s with
  | String c s' => if isSpace c then trimStart s' else s
  | EmptyString => EmptyString
  end.

(** Drops trailing white space; the result of the recursive call is empty
    exactly when the rest of the string is white space. *)
Fixpoint trimEnd (s : string) : string :=
  match s with
  | EmptyString => EmptyString
  | String c s' =>
      match trimEnd s' with
      | EmptyString => if isSpace c then EmptyString else String c EmptyString
      | t => String c t
      end
  end.

Definition trim (s : string) : string := trimEnd (trimStart s).

Definition lowerChar (c : ascii) : ascii :=
  let k := code c in
  if ((65 <=? k) && (k <=? 90))
     || ((192 <=? k) && (k <=? 222) && negb (k =? 215))
  then ascii_of_nat (nat_of_ascii c + 32) else c.

Fixpoint toLowerCase (s : string) : string :=
  match s with
  | EmptyString => EmptyString
  | String c s' => String (lowerChar c) (toLowerCase s')
  end.

(** [s.split(sep)] for a one-character separator. *)
Fixpoint splitOn (sep : ascii) (s : string) : list string :=
  match s with
  | EmptyString => [EmptyString]
  | String c s' =>
      if Ascii.eqb c sep then EmptyString :: splitOn sep s'
      else match splitOn sep s' with
           | [] => [String c EmptyString]
           | p :: ps => String c p :: ps
           end
  end.

(** [s] starts with [p]; [ci] compares ASCII letters regardless of case,
    as the [i] flag of a regular expression does for a literal. *)
Fixpoint startsWith (ci : bool) (p s : string) : option string :=
  match p, s with
  | EmptyString, _ => Some s
  | String a p', String b s' =>
      if (if ci then Ascii.eqb (lowerChar a) (lowerChar b) && (code b <? 128)
                     || Ascii.eqb a b
          else Ascii.eqb a b)
      then startsWith ci p' s' else None
  | _, EmptyString => None
  end.

End Str.

(** ** ECMAScript time values, at day granularity *)

Module JsDate.

(** [DayFromYear(y)], [DaysInYear(y)] and [YearFromTime(t)] of the
    ECMAScript specification; [d] is a day number, [Day(t)]. *)
Definition DayFromYear (y : Z) : Z :=
  365 * (y - 1970) + (y - 1969) / 4 - (y - 1901) / 100 + (y - 1601) / 400.

Definition InLeapYear (y : Z) : bool :=
  (y mod 4 =? 0) && (negb (y mod 100 =? 0) || (y mod 400 =? 0)).

Definition DaysInYear (y : Z) : Z := if InLeapYear y then 366 else 365.

(** The largest [y] with [DayFromYear y <= d]: an estimate from the mean
    year length, corrected by at most one year. *)
Definition YearFromDay (d : Z) : Z :=
  let y := 1970 + (400 * d) / 146097 in
  if d <? DayFromYear y then y - 1
  else if DayFromYear (y + 1) <=? d then y + 1
  else y.

(** Days of the year before month [m] (0 = January ... 11 = December;
    12 gives the length of the year). *)
Definition monthStart (leap : bool) (m : Z) : Z :=
  let l := if leap then 1 else 0 in
  match m with
  | 0 => 0
  | 1 => 31
  | 2 => 59 + l
  | 3 => 90 + l
  | 4 => 120 + l
  | 5 => 151 + l
  | 6 => 181 + l
  | 7 => 212 + l
  | 8 => 243 + l
  | 9 => 273 + l
  | 10 => 304 + l
  | 11 => 334 + l
  | _ => 365 + l
  end.

Definition DaysInMonth (y m : Z) : Z :=
  monthStart (InLeapYear y) (m + 1) - monthStart (InLeapYear y) m.

Definition DayWithinYear (d : Z) : Z := d - DayFromYear (YearFromDay d).

(** [MonthFromTime(t)]. *)
Definition MonthFromDay (d : Z) : Z :=
  let k := DayWithinYear d in
  let l := InLeapYear (YearFromDay d) in
  if k <? monthStart l 1 then 0
  else if k <? monthStart l 2 then 1
  else if k <? monthStart l 3 then 2
  else if k <? monthStart l 4 then 3
  else if k <? monthStart l 5 then 4
  else if k <? monthStart l 6 then 5
  else if k <? monthStart l 7 then 6
  else if k <? monthStart l 8 then 7
  else if k <? monthStart l 9 then 8
  else if k <? monthStart l 10 then 9
  else if k <? monthStart l 11 then 10
  else 11.

(** [DateFromTime(t)]. *)
Definition DateFromDay (d : Z) : Z :=
  DayWithinYear d
  - monthStart (InLeapYear (YearFromDay d)) (MonthFromDay d) + 1.

(** [WeekDay(t)]: 0 is Sunday; 1970-01-01 was a Thursday. *)
Definition WeekDay (d : Z) : Z := (d + 4) mod 7.

(** [MakeDay(year, month, date)]: months outside 0..11 carry into the
    year, and [date] may lie outside the month. *)
Definition MakeDay (year month date : Z) : Z :=
  let ym := year + month / 12 in
  let mn := month mod 12 in
  DayFromYear ym + monthStart (InLeapYear ym) mn + date - 1.

(** The year adjustment of [Date.UTC]: 0..99 mean 1900..1999. *)
Definition MakeFullYear (y : Z) : Z :=
  if (0 <=? y) && (y <=? 99) then 1900 + y else y.

(** [TimeClip]: a day number past [+-100,000,000] is not a time value. *)
Definition TimeClip (d : Z) : option Z :=
  if (Z.abs d <=? 100000000) then Some d else None.

(** [Date.UTC(year, month, date)] on integers, before [TimeClip]. *)
Definition UTC (year month date : Z) : Z :=
  MakeDay (MakeFullYear year) month date.

(** Methods of a valid [Date] at UTC midnight. *)
Definition getUTCFullYear (t : Z) : Z := YearFromDay t.
Definition getUTCMonth (t : Z) : Z := MonthFromDay t.
Definition getUTCDate (t : Z) : Z := DateFromDay t.
Definition getUTCDay (t : Z) : Z := WeekDay t.

Definition setUTCDate (t dt : Z) : Z :=
  MakeDay (YearFromDay t) (MonthFromDay t) dt.

Definition setUTCMonth (t m : Z) : Z :=
  MakeDay (YearFromDay t) m (DateFromDay t).

(** The year field of [toISOString]: four digits for years 0..9999,
    otherwise a sign and six digits. *)
Definition isoYear (y : Z) : string :=
  if (0 <=? y) && (y <=? 9999) then Str.fixedDigits 4 y ""
  else String (if y <? 0 then "-"%char else "+"%char)
              (Str.fixedDigits 6 (Z.abs y) "").

(** [date.toISOString()] of a valid UTC midnight. *)
Definition toISOString (t : Z) : string :=
  (isoYear (YearFromDay t) ++ "-"
   ++ Str.fixedDigits 2 (MonthFromDay t + 1) "" ++ "-"
   ++ Str.fixedDigits 2 (DateFromDay t) "" ++ "T00:00:00.000Z")%string.

(** The date-time parser on [YYYY-MM-DDT00:00:00.000Z], as Node's V8 does
    it: the month must be 1..12 and the day 1..31, and a day past the end
    of the month rolls over into the next month.  (An engine that rejects
    such a day instead yields an invalid [Date]; the callers below treat
    both outcomes alike.) *)
Definition parseUtcMidnight (y m d : Z) : option Z :=
  if (1 <=? m) && (m <=? 12) && (1 <=? d) && (d <=? 31)
  then Some (MakeDay y (m - 1) d) else None.

End JsDate.

(** ** JavaScript values and [JSON] *)

Module Js.

(** A number, as far as [Number.isInteger] and integer comparisons see it:
    an exact integer, or a value that is not an integer (a fraction, an
    infinity or NaN). *)
Inductive Num : Type :=
| NInt (z : Z)
| NOther.

Inductive Value : Type :=
| Undefined
| Null
| Bool (b : bool)
| Number (n : Num)
| Str (s : string)
| Array (xs : list Value)
| Object (fields : list (string * Value)).

(** [fields[key]] of a plain object: the own property, or [undefined]. *)
Fixpoint getField (key : string) (fields : list (string * Value)) : Value :=
  match fields with
  | [] => Undefined
  | (k, v) :: rest => if String.eqb k key then v else getField key rest
  end.

(** Defining a property: an existing key keeps its place and takes the
    new value, a new key goes last. *)
Fixpoint setField (key : string) (v : Value) (fields : list (string * Value))
  : list (string * Value) :=
  match fields with
  | [] => [(key, v)]
  | (k, w) :: rest =>
      if String.eqb k key then (k, v) :: rest
      else (k, w) :: setField key v rest
  end.

(** [value.key] for a value that passed [isObject]: arrays have neither
    of the properties read by the embedded code. *)
Definition get (v : Value) (key : string) : Value :=
  match v with
  | Object fields => getField key fields
  | _ => Undefined
  end.

(** [typeof value === "object" && value !== null]. *)
Definition isObject (v : Value) : bool :=
  match v with
  | Array _ | Object _ => true
  | _ => false
  end.

End Js.

(** [JSON.parse] (ECMA-404): [None] stands for the [SyntaxError] it
    throws.  A number literal is read exactly and is an integer when its
    decimal value is one; literals that merely round to an integer in
    binary64 are outside this model. *)

Module Json.

Import Js.

Inductive Res (A : Type) : Type :=
| Ok (a : A)
| SyntaxError
| OutOfFuel.
Arguments Ok {A} a.
Arguments SyntaxError {A}.
Arguments OutOfFuel {A}.

Definition isWs (c : ascii) : bool :=
  let k := Str.code c in (k =? 32) || (k =? 9) || (k =? 10) || (k =? 13).

Fixpoint skipWs (s : string) : string :=
  match s with
  | String c s' => if isWs c then skipWs s' else s
  | EmptyString => EmptyString
  end.

Definition hexVal (c : ascii) : option Z :=
  let k := Str.code c in
  if (48 <=? k) && (k <=? 57) then Some (k - 48)
  else if (65 <=? k) && (k <=? 70) then Some (k - 55)
  else if (97 <=? k) && (k <=? 102) then Some (k - 87)
  else None.

(** The code unit of a [\uXXXX] escape, capped at U+00FF. *)
Definition unitOfCode (k : Z) : ascii :=
  ascii_of_nat (Z.to_nat (Z.min k 255)).

(** The characters of a string literal after its opening quote, up to
    and including the closing quote. *)
Fixpoint parseChars (s : string) : option (string * string) :=
  match s with
  | EmptyString => None
  | String c s' =>
      if Ascii.eqb c Str.dquote then Some (EmptyString, s')
      else if Str.code c <? 32 then None
      else if Ascii.eqb c "\" then
        match s' with
        | String e s'' =>
            let simple (x : ascii) :=
              match parseChars s'' with
              | Some (t, rest) => Some (String x t, rest)
              | None => None
              end in
            if Ascii.eqb e Str.dquote then simple Str.dquote
            else if Ascii.eqb e "\" then simple "\"%char
            else if Ascii.eqb e "/" then simple "/"%char
            else if Ascii.eqb e "b" then simple (ascii_of_nat 8)
            else if Ascii.eqb e "f" then simple (ascii_of_nat 12)
            else if Ascii.eqb e "n" then simple (ascii_of_nat 10)
            else if Ascii.eqb e "r" then simple (ascii_of_nat 13)
            else if Ascii.eqb e "t" then simple (ascii_of_nat 9)
            else if Ascii.eqb e "u" then
              match s'' with
              | String h1 (String h2 (String h3 (String h4 s3))) =>
                  match hexVal h1, hexVal h2, hexVal h3, hexVal h4 with
                  | Some a, Some b, Some c', Some d =>
                      match parseChars s3 with
                      | Some (t, rest) =>
                          Some (String (unitOfCode (((a * 16 + b) * 16 + c') * 16 + d)) t,
                                rest)
                      | None => None
                      end
                  | _, _, _, _ => None
                  end
              | _ => None
              end
            else None
        | EmptyString => None
        end
      else
        match parseChars s' with
        | Some (t, rest) => Some (String c t, rest)
        | None => None
        end
  end.

(** A maximal run of digits and what follows it. *)
Fixpoint spanDigits (s : string) : string * string :=
  match s with
  | String c s' =>
      if Str.isDigit c then let (d, r) := spanDigits s' in (String c d, r)
      else (EmptyString, s)
  | EmptyString => (EmptyString, EmptyString)
  end.

(** The value of [mant * 10^scale]. *)
Definition decimal (neg : bool) (mant scale : Z) : Num :=
  let sgn (z : Z) := if neg then - z else z in
  if 0 <=? scale then NInt (sgn (mant * 10 ^ scale))
  else if mant mod 10 ^ (- scale) =? 0 then NInt (sgn (mant / 10 ^ (- scale)))
  else NOther.

(** The first character of [s], if it is [c], and the rest. *)
Definition eat (c : ascii) (s : string) : option string :=
  match s with
  | String x r => if Ascii.eqb x c then Some r else None
  | EmptyString => None
  end.

(** A number literal: [-? int frac? exp?], [int] without a leading zero
    unless it is [0]. *)
Definition parseNumber (s : string) : option (Num * string) :=
  let (neg, s1) :=
    match eat "-" s with
    | Some r => (true, r)
    | None => (false, s)
    end in
  let (int, s2) := spanDigits s1 in
  match int with
  | EmptyString => None
  | String i0 irest =>
      if Ascii.eqb i0 "0" && negb (String.eqb irest "") then
        (* a leading zero ends the integer part: what follows is left over *)
        Some (decimal neg 0 0, (irest ++ s2)%string)
      else
        let fracOk :=
          match eat "." s2 with
          | Some r =>
              let (fr, s3) := spanDigits r in
              match fr with
              | EmptyString => None
              | _ => Some (fr, s3)
              end
          | None => Some (EmptyString, s2)
          end in
        match fracOk with
        | None => None
        | Some (fr, s3) =>
            let withExp (r : string) :=
              let (eneg, r1) :=
                match eat "-" r, eat "+" r with
                | Some q, _ => (true, q)
                | None, Some q => (false, q)
                | None, None => (false, r)
                end in
              let (ex, s4) := spanDigits r1 in
              match ex with
              | EmptyString => None
              | _ =>
                  let e := Str.readDigits 0 ex in
                  Some ((if eneg then - e else e), s4)
              end in
            let expOk :=
              match eat "e" s3, eat "E" s3 with
              | Some r, _ => withExp r
              | None, Some r => withExp r
              | None, None => Some (0, s3)
              end in
            match expOk with
            | None => None
            | Some (e, s4) =>
                Some (decimal neg (Str.readDigits 0 (int ++ fr))
                        (e - Z.of_nat (String.length fr)),
                      s4)
            end
        end
  end.

(** A value that is neither an object, an array nor a string: a literal
    name or a number. *)
Definition parseScalar (s : string) : option (Value * string) :=
  match Str.startsWith false "true" s, Str.startsWith false "false" s,
        Str.startsWith false "null" s with
  | Some rest, _, _ => Some (Bool true, rest)
  | _, Some rest, _ => Some (Bool false, rest)
  | _, _, Some rest => Some (Null, rest)
  | None, None, None =>
      match parseNumber s with
      | Some (n, rest) => Some (Number n, rest)
      | None => None
      end
  end.

Definition lift {A : Type} (o : option A) : Res A :=
  match o with
  | Some a => Ok a
  | None => SyntaxError
  end.

Fixpoint parseValue (fuel : nat) (s : string) {struct fuel}
  : Res (Value * string) :=
  match fuel with
  | O => OutOfFuel
  | S f =>
      let s0 := skipWs s in
      match eat "{" s0, eat "[" s0, eat Str.dquote s0 with
      | Some r, _, _ =>
          match eat "}" (skipWs r) with
          | Some r' => Ok (Object [], r')
          | None => parseMembers f [] r
          end
      | None, Some r, _ =>
          match eat "]" (skipWs r) with
          | Some r' => Ok (Array [], r')
          | None => parseElements f [] r
          end
      | None, None, Some r =>
          match parseChars r with
          | Some (t, rest) => Ok (Str t, rest)
          | None => SyntaxError
          end
      | None, None, None => lift (parseScalar s0)
      end
  end

(** The elements of an array after [[], with those read so far in
    reverse. *)
with parseElements (fuel : nat) (acc : list Value) (s : string) {struct fuel}
  : Res (Value * string) :=
  match fuel with
  | O => OutOfFuel
  | S f =>
      match parseValue f s with
      | Ok (v, rest) =>
          match eat "," (skipWs rest), eat "]" (skipWs rest) with
          | Some r, _ => parseElements f (v :: acc) r
          | None, Some r => Ok (Array (rev (v :: acc)), r)
          | None, None => SyntaxError
          end
      | SyntaxError => SyntaxError
      | OutOfFuel => OutOfFuel
      end
  end

(** The members of an object after [{]. *)
with parseMembers (fuel : nat) (acc : list (string * Value)) (s : string)
  {struct fuel} : Res (Value * string) :=
  match fuel with
  | O => OutOfFuel
  | S f =>
      match eat Str.dquote (skipWs s) with
      | None => SyntaxError
      | Some r =>
          match parseChars r with
          | None => SyntaxError
          | Some (key, rest) =>
              match eat ":" (skipWs rest) with
              | None => SyntaxError
              | Some r1 =>
                  match parseValue f r1 with
                  | Ok (v, rest1) =>
                      match eat "," (skipWs rest1), eat "}" (skipWs rest1) with
                      | Some r2, _ => parseMembers f (setField key v acc) r2
                      | None, Some r2 => Ok (Object (setField key v acc), r2)
                      | None, None => SyntaxError
                      end
                  | SyntaxError => SyntaxError
                  | OutOfFuel => OutOfFuel
                  end
              end
          end
      end
  end.

(** Each call reads at least one character before the next but one call. *)
Definition fuelFor (s : string) : nat := 2 * String.length s + 2.

Definition parseWith (fuel : nat) (s : string) : Res Value :=
  match parseValue fuel s with
  | Ok (v, rest) =>
      match skipWs rest with
      | EmptyString => Ok v
      | _ => SyntaxError
      end
  | SyntaxError => SyntaxError
  | OutOfFuel => OutOfFuel
  end.

(** [JSON.parse(text)]; [None] is the thrown [SyntaxError]. *)
Definition parse (s : string) : option Value :=
  match parseWith (fuelFor s) s with
  | Ok v => Some v
  | _ => None
  end.

End Json.

(** ** Recurrence rules and dates: [src/lib/task-recurrence.ts] *)

Module Recurrence.

Import Js JsDate.

(** [TASK_RECURRENCE_TYPES], [TASK_RECURRENCE_BEHAVIORS] and
    [TASK_CUSTOM_RECURRENCE_UNITS]. *)
Inductive TaskRecurrenceType : Type :=
| TNone | TDaily | TWeekly | TMonthly | TCustom.

Inductive TaskRecurrenceBehavior : Type :=
| AfterCompletion | DuplicateOnSchedule.

Inductive TaskCustomRecurrenceUnit : Type :=
| UDay | UWeek | UMonth.

Record TaskCustomRecurrenceRule : Type := mkRule {
  interval : Z;
  unit : TaskCustomRecurrenceUnit
}.

Definition unitName (u : TaskCustomRecurrenceUnit) : string :=
  match u with
  | UDay => "day"
  | UWeek => "week"
  | UMonth => "month"
  end.

(** [typeof unitRaw === "string" && UNITS.includes(unitRaw)]. *)
Definition unitOfValue (v : Value) : option TaskCustomRecurrenceUnit :=
  match v with
  | Str s =>
      if String.eqb s "day" then Some UDay
      else if String.eqb s "week" then Some UWeek
      else if String.eqb s "month" then Some UMonth
      else None
  | _ => None
  end.

(** The checks made on a value that is not a string. *)
Definition parseRuleObject (value : Value) : option TaskCustomRecurrenceRule :=
  if negb (isObject value) then None
  else
    let intervalRaw := get value "interval" in
    let unitRaw := get value "unit" in
    match intervalRaw with
    | Number (NInt i) =>
        if (i <? 1) || (365 <? i) then None
        else match unitOfValue unitRaw with
             | Some u => Some (mkRule i u)
             | None => None
             end
    | _ => None
    end.

(** [parseTaskCustomRecurrenceRule]: a string is parsed as JSON and the
    function calls itself on the result; a [SyntaxError] is caught.  Each
    nested string is shorter than the text it was read from, which bounds
    the depth by [fuel]. *)
Fixpoint parseRuleFuel (fuel : nat) (value : Value)
  : option TaskCustomRecurrenceRule :=
  match value with
  | Str s =>
      match fuel with
      | O => None
      | S f =>
          match Json.parse s with
          | Some v => parseRuleFuel f v
          | None => None
          end
      end
  | _ => parseRuleObject value
  end.

Definition depthBound (value : Value) : nat :=
  match value with
  | Str s => S (String.length s)
  | _ => O
  end.

Definition parseTaskCustomRecurrenceRule (value : Value)
  : option TaskCustomRecurrenceRule :=
  parseRuleFuel (depthBound value) value.

(** [JSON.stringify(rule)] of a rule record. *)
Definition serializeTaskCustomRecurrenceRule (rule : TaskCustomRecurrenceRule)
  : string :=
  let q := String Str.dquote EmptyString in
  ("{" ++ q ++ "interval" ++ q ++ ":" ++ Str.ofInt (interval rule) ++ ","
   ++ q ++ "unit" ++ q ++ ":" ++ q ++ unitName (unit rule) ++ q ++ "}")%string.

(** The test [/^\d{4}-\d{2}-\d{2}$/] together with the three numbers the
    date parser reads from a string that passes it. *)
Definition isoFields (value : string) : option (Z * Z * Z) :=
  match value with
  | String y1 (String y2 (String y3 (String y4 (String s1
      (String m1 (String m2 (String s2 (String d1 (String d2 EmptyString))))))))) =>
      if Str.isDigit y1 && Str.isDigit y2 && Str.isDigit y3 && Str.isDigit y4
         && Ascii.eqb s1 "-"
         && Str.isDigit m1 && Str.isDigit m2
         && Ascii.eqb s2 "-"
         && Str.isDigit d1 && Str.isDigit d2
      then Some (Str.readDigits 0 (String y1 (String y2 (String y3 (String y4 "")))),
                 Str.readDigits 0 (String m1 (String m2 "")),
                 Str.readDigits 0 (String d1 (String d2 "")))
      else None
  | _ => None
  end.

Definition toIsoDate (date : Z) : string :=
  Str.take 10 (toISOString date).

Definition parseIsoDate (value : string) : option Z :=
  match isoFields value with
  | None => None
  | Some (y, m, d) =>
      match parseUtcMidnight y m d with
      | None => None
      | Some date =>
          if String.eqb (toIsoDate date) value then Some date else None
      end
  end.

Definition addMonthsClamped (date amount : Z) : Z :=
  let next := date in
  let originalDay := getUTCDate next in
  let next := setUTCDate next 1 in
  let next := setUTCMonth next (getUTCMonth next + amount) in
  let lastDay :=
    getUTCDate (UTC (getUTCFullYear next) (getUTCMonth next + 1) 0) in
  setUTCDate next (Z.min originalDay lastDay).

Definition getResolvedTaskRecurrenceRule
  (recurrenceType : TaskRecurrenceType) (recurrenceRule : Value)
  : option TaskCustomRecurrenceRule :=
  match recurrenceType with
  | TNone => None
  | TDaily => Some (mkRule 1 UDay)
  | TWeekly => Some (mkRule 1 UWeek)
  | TMonthly => Some (mkRule 1 UMonth)
  | TCustom => parseTaskCustomRecurrenceRule recurrenceRule
  end.

Definition getNextTaskRecurrenceDate
  (anchorIsoDate : string) (recurrenceType : TaskRecurrenceType)
  (recurrenceRule : Value) : option string :=
  match getResolvedTaskRecurrenceRule recurrenceType recurrenceRule with
  | None => None
  | Some resolvedRule =>
      match parseIsoDate anchorIsoDate with
      | None => None
      | Some anchorDate =>
          let next := anchorDate in
          match unit resolvedRule with
          | UDay =>
              Some (toIsoDate
                      (setUTCDate next (getUTCDate next + interval resolvedRule)))
          | UWeek =>
              Some (toIsoDate
                      (setUTCDate next
                         (getUTCDate next + interval resolvedRule * 7)))
          | UMonth =>
              Some (toIsoDate (addMonthsClamped next (interval resolvedRule)))
          end
      end
  end.

(** [!next]: [null] and the empty string are falsy. *)
Definition truthy (next : option string) : option string :=
  match next with
  | Some EmptyString => None
  | _ => next
  end.

(** The body of the [for] loop, with [n] iterations left. *)
Fixpoint onOrAfterLoop (n : nat) (target : Z)
  (recurrenceType : TaskRecurrenceType) (recurrenceRule : Value)
  (cursor : string) : option string :=
  match n with
  | O => None
  | S n' =>
      match parseIsoDate cursor with
      | None => None
      | Some cursorDate =>
          if target <=? cursorDate then Some cursor
          else
            match truthy (getNextTaskRecurrenceDate cursor recurrenceType
                            recurrenceRule) with
            | None => None
            | Some next =>
                onOrAfterLoop n' target recurrenceType recurrenceRule next
            end
      end
  end.

Definition getNextTaskRecurrenceOnOrAfter
  (anchorIsoDate : string) (recurrenceType : TaskRecurrenceType)
  (recurrenceRule : Value) (onOrAfterIsoDate : string) : option string :=
  match parseIsoDate onOrAfterIsoDate with
  | None => None
  | Some target =>
      onOrAfterLoop 4000 target recurrenceType recurrenceRule anchorIsoDate
  end.

End Recurrence.

(** ** The host: clock, time-zone database and [Intl] formatter *)

(** What the embedded code asks of the JavaScript runtime.  An instant is
    a time value in milliseconds; an invalid [Date] is [None]. *)
Record Host : Type := mkHost {
  (** [new Intl.DateTimeFormat("en-US", { timeZone })] does not throw *)
  tzSupported : string -> bool;
  (** [Intl.DateTimeFormat().resolvedOptions().timeZone]; [None] when the
      call throws *)
  runtimeTimeZone : option string;
  (** the [type] and [value] of the parts that the formatter of a zone
      gives for an instant *)
  formatToParts : string -> Z -> list (string * string);
  (** the time value of [new Date()] *)
  now : Z;
  (** the time value of [new Date(text)] *)
  dateParse : string -> option Z
}.

(** The result of code that may throw. *)
Inductive Outcome (A : Type) : Type :=
| Returns (a : A)
| Throws (message : string).
Arguments Returns {A} a.
Arguments Throws {A} message.

Definition bindOutcome {A B : Type} (m : Outcome A) (k : A -> Outcome B)
  : Outcome B :=
  match m with
  | Returns a => k a
  | Throws e => Throws e
  end.

Notation "x <- m ;; k" := (bindOutcome m (fun x => k))
  (at level 61, m at next level, right associativity).

(** [Number(text)] on the strings that reach it in this code: fields cut
    from a calendar-day string.  White space is trimmed, the empty string
    is 0, an optionally signed run of digits is its value (an integer,
    unless it overflows to an infinity), and [undefined] is NaN.  [None]
    is a value that [Number.isInteger] rejects; other numeric syntax
    (fractions, exponents, hexadecimal) is not modelled and reads as
    [None]. *)
Definition jsNumber (text : option string) : option Z :=
  match text with
  | None => None
  | Some raw =>
      let t := Str.trim raw in
      let digits (neg : bool) (ds : string) :=
        if negb (String.eqb ds "") && Str.allDigits ds then
          let n := Str.readDigits 0 ds in
          if n <? 2 ^ 1024 then Some (if neg then - n else n) else None
        else None in
      match t with
      | EmptyString => Some 0
      | String c ds =>
          if Ascii.eqb c "-" then digits true ds
          else if Ascii.eqb c "+" then digits false ds
          else digits false t
      end
  end.

(** ** [src/lib/timezone.ts] *)

Module Timezone.

Import JsDate.

Definition msPerDay : Z := 86400000.

Section WithHost.

Variable host : Host.

Definition isValidTimeZone (value : string) : bool := tzSupported host value.

Definition getRuntimeTimeZone : string :=
  match runtimeTimeZone host with
  | Some resolved =>
      if negb (String.eqb resolved "") && isValidTimeZone resolved
      then resolved else "UTC"
  | None => "UTC"
  end.

Definition resolveEffectiveTimeZone (timeZone : option string) : string :=
  match timeZone with
  | Some tz =>
      let trimmed := Str.trim tz in
      if negb (String.eqb trimmed "") && isValidTimeZone trimmed
      then trimmed else getRuntimeTimeZone
  | None => getRuntimeTimeZone
  end.

(** [getIsoDateFormatter]: the cache only saves rebuilding a formatter;
    building one throws a [RangeError] for an unsupported zone. *)
Definition getIsoDateFormatter (timeZone : string) : Outcome string :=
  if tzSupported host timeZone then Returns timeZone
  else Throws "RangeError: Invalid time zone specified".

(** [parts.find((part) => part.type === kind)?.value]. *)
Fixpoint findPart (kind : string) (parts : list (string * string))
  : option string :=
  match parts with
  | [] => None
  | (ty, v) :: rest => if String.eqb ty kind then Some v else findPart kind rest
  end.

(** [!part]: a missing part and an empty one are falsy. *)
Definition missing (part : option string) : bool :=
  match part with
  | None => true
  | Some v => String.eqb v ""
  end.

(** [date.toISOString().slice(0, 10)] of an instant. *)
Definition isoDayOfInstant (date : option Z) : Outcome string :=
  match date with
  | Some t => Returns (Str.take 10 (toISOString (t / msPerDay)))
  | None => Throws "RangeError: Invalid time value"
  end.

Definition getIsoDateForTimeZone (date : option Z) (timeZone : option string)
  : Outcome string :=
  let resolved := resolveEffectiveTimeZone timeZone in
  formatter <- getIsoDateFormatter resolved ;;
  match date with
  | None => Throws "RangeError: Invalid time value"
  | Some t =>
      let parts := formatToParts host formatter t in
      let year := findPart "year" parts in
      let month := findPart "month" parts in
      let day := findPart "day" parts in
      if missing year || missing month || missing day
      then isoDayOfInstant date
      else
        match year, month, day with
        | Some y, Some m, Some d => Returns (y ++ "-" ++ m ++ "-" ++ d)%string
        | _, _, _ => isoDayOfInstant date
        end
  end.

End WithHost.

(** [addDaysToIsoDate]: the fields are cut at [-]; a string whose fields
    are not a plausible date comes back unchanged; [toISOString] throws
    when the date leaves the range of time values. *)
Definition addDaysToIsoDate (date : string) (days : Z) : Outcome string :=
  let parts := Str.splitOn "-" date in
  let year := jsNumber (nth_error parts 0) in
  let month := jsNumber (nth_error parts 1) in
  let day := jsNumber (nth_error parts 2) in
  match year, month, day with
  | Some y, Some m, Some d =>
      if (m <? 1) || (12 <? m) || (d <? 1) || (31 <? d) then Returns date
      else
        match TimeClip (UTC y (m - 1) d) with
        | None => Throws "RangeError: Invalid time value"
        | Some next =>
            match TimeClip (setUTCDate next (getUTCDate next + days)) with
            | None => Throws "RangeError: Invalid time value"
            | Some next' => Returns (Str.take 10 (toISOString next'))
            end
        end
  | _, _, _ => Returns date
  end.

End Timezone.

(** ** Template rendering: [src/lib/templates.ts] *)

Module Templates.

Import JsDate.

(** [DateParts]; a number that may be NaN is an [option Z]. *)
Record DateParts : Type := mkDateParts {
  iso : string;
  year : option Z;
  month : option Z;
  dayOfMonth : option Z;
  dayOfWeek : option Z
}.

Inductive ReferenceDate : Type :=
| RefString (text : string)
| RefDate (time : option Z)
| RefAbsent.

Record TemplateRenderOptions : Type := mkOptions {
  referenceDate : ReferenceDate;
  timeZone : option string
}.

Definition SHORT_DAY_NAMES : list string :=
  ["sun"; "mon"; "tue"; "wed"; "thu"; "fri"; "sat"].
Definition LONG_DAY_NAMES : list string :=
  ["sunday"; "monday"; "tuesday"; "wednesday"; "thursday"; "friday";
   "saturday"].
Definition SHORT_MONTH_NAMES : list string :=
  ["jan"; "feb"; "mar"; "apr"; "may"; "jun"; "jul"; "aug"; "sep"; "oct";
   "nov"; "dec"].
Definition LONG_MONTH_NAMES : list string :=
  ["january"; "february"; "march"; "april"; "may"; "june"; "july";
   "august"; "september"; "october"; "november"; "december"].

(** [names[index]]: [undefined] for NaN and for an index off the array. *)
Definition at_ (names : list string) (index : option Z) : option string :=
  match index with
  | Some i => if i <? 0 then None else nth_error names (Z.to_nat i)
  | None => None
  end.

(** [String(n)]. *)
Definition stringOf (n : option Z) : string :=
  match n with
  | Some z => Str.ofInt z
  | None => "NaN"
  end.

Definition minus1 (n : option Z) : option Z :=
  match n with
  | Some z => Some (z - 1)
  | None => None
  end.

(** [value !== name] where [name] may be [undefined]. *)
Definition differs (value : string) (name : option string) : bool :=
  match name with
  | Some s => negb (String.eqb value s)
  | None => true
  end.

(** [/^\d{4}-\d{2}-\d{2}$/.test(value)]. *)
Definition isIsoDate (value : string) : bool :=
  match Recurrence.isoFields value with
  | Some _ => true
  | None => false
  end.

(** [new Date(Date.UTC(year, month - 1, day)).getUTCDay()]. *)
Definition utcDayOfWeek (year month day : option Z) : option Z :=
  match year, month, day with
  | Some y, Some m, Some d =>
      match TimeClip (UTC y (m - 1) d) with
      | Some t => Some (getUTCDay t)
      | None => None
      end
  | _, _, _ => None
  end.

Definition parseIsoDateParts (iso : string) : DateParts :=
  let parts := Str.splitOn "-" iso in
  let year := jsNumber (nth_error parts 0) in
  let month := jsNumber (nth_error parts 1) in
  let dayOfMonth := jsNumber (nth_error parts 2) in
  mkDateParts iso year month dayOfMonth (utcDayOfWeek year month dayOfMonth).

(** The loop over the checks of [evaluateCondition]. *)
Fixpoint evaluateChecks (checks : list string) (dateParts : DateParts) : bool :=
  match checks with
  | [] => true
  | check :: rest =>
      match Str.splitOn "=" check with
      | keyRaw :: valueRaw :: _ =>
          if String.eqb keyRaw "" then false
          else
            let key := Str.toLowerCase (Str.trim keyRaw) in
            let value := Str.toLowerCase (Str.trim valueRaw) in
            if String.eqb key "day" then
              let dayShort := at_ SHORT_DAY_NAMES (dayOfWeek dateParts) in
              let dayLong := at_ LONG_DAY_NAMES (dayOfWeek dateParts) in
              let dayNumber := stringOf (dayOfWeek dateParts) in
              if differs value dayShort && differs value dayLong
                 && negb (String.eqb value dayNumber)
              then false else evaluateChecks rest dateParts
            else if String.eqb key "month" then
              let monthIndex := minus1 (month dateParts) in
              let monthShort := at_ SHORT_MONTH_NAMES monthIndex in
              let monthLong := at_ LONG_MONTH_NAMES monthIndex in
              let monthNum := stringOf (month dateParts) in
              let monthPadded := Str.padStart0 2 (stringOf (month dateParts)) in
              if differs value monthShort && differs value monthLong
                 && negb (String.eqb value monthNum)
                 && negb (String.eqb value monthPadded)
              then false else evaluateChecks rest dateParts
            else if String.eqb key "dom" then
              let dayNum := stringOf (dayOfMonth dateParts) in
              let dayPadded := Str.padStart0 2 (stringOf (dayOfMonth dateParts)) in
              if negb (String.eqb value dayNum) && negb (String.eqb value dayPadded)
              then false else evaluateChecks rest dateParts
            else if String.eqb key "year" then
              if negb (String.eqb value (stringOf (year dateParts)))
              then false else evaluateChecks rest dateParts
            else if String.eqb key "date" then
              if negb (String.eqb value (Str.toLowerCase (iso dateParts)))
              then false else evaluateChecks rest dateParts
            else false
      | _ => false
      end
  end.

(** [condition.split("&").map((part) => part.trim()).filter(Boolean)]. *)
Definition conditionChecks (condition : string) : list string :=
  filter (fun part => negb (String.eqb part ""))
         (map Str.trim (Str.splitOn "&" condition)).

Definition evaluateCondition (condition : string) (dateParts : DateParts)
  : bool :=
  match conditionChecks condition with
  | [] => false
  | checks => evaluateChecks checks dateParts
  end.

(** [[^}]+] at the start of [s], as far as it goes. *)
Fixpoint spanNotBrace (s : string) : string * string :=
  match s with
  | String c s' =>
      if Ascii.eqb c "}" then (EmptyString, s)
      else let (a, r) := spanNotBrace s' in (String c a, r)
  | EmptyString => (EmptyString, EmptyString)
  end.

(** [([\s\S]*?)\{\{\/if\}\}]: the text before the first closing tag, and
    what follows that tag. *)
Fixpoint untilClose (s : string) : option (string * string) :=
  match Str.startsWith true "{{/if}}" s with
  | Some rest => Some (EmptyString, rest)
  | None =>
      match s with
      | String c s' =>
          match untilClose s' with
          | Some (body, rest) => Some (String c body, rest)
          | None => None
          end
      | EmptyString => None
      end
  end.

(** A match of [/\{\{if:([^}]+)\}\}([\s\S]*?)\{\{\/if\}\}/i] that starts at
    the start of [s]: its two groups and the text after the match. *)
Definition matchIf (s : string) : option (string * string * string) :=
  match Str.startsWith true "{{if:" s with
  | None => None
  | Some r =>
      let (condition, r1) := spanNotBrace r in
      if String.eqb condition "" then None
      else
        match Str.startsWith false "}}" r1 with
        | None => None
        | Some r2 =>
            match untilClose r2 with
            | Some (content, rest) => Some (condition, content, rest)
            | None => None
            end
        end
  end.

(** [output.replace(conditionalPattern, callback)]: matches are sought
    from left to right and do not overlap; [skip] counts the characters
    of the current match that are still to be passed over. *)
Fixpoint replaceConditionals (dateParts : DateParts) (skip : nat) (s : string)
  : string :=
  match s with
  | EmptyString => EmptyString
  | String c s' =>
      match skip with
      | S k => replaceConditionals dateParts k s'
      | O =>
          match matchIf s with
          | Some (conditionRaw, content, rest) =>
              ((if evaluateCondition conditionRaw dateParts
                then content else "")
               ++ replaceConditionals dateParts
                    (String.length s' - String.length rest) s')%string
          | None => String c (replaceConditionals dateParts 0 s')
          end
      end
  end.

(** The [for] loop of [renderConditionalBlocks], with [n] passes left. *)
Fixpoint conditionalPasses (n : nat) (dateParts : DateParts) (output : string)
  : string :=
  match n with
  | O => output
  | S n' =>
      let next := replaceConditionals dateParts 0 output in
      if String.eqb next output then output
      else conditionalPasses n' dateParts next
  end.

Definition renderConditionalBlocks (input : string) (dateParts : DateParts)
  : string :=
  conditionalPasses 16 dateParts input.

(** The alternatives of [/YYYY|YY|MMMM|MMM|MM|M|DD|D|dddd|ddd/], in order,
    each with its entry in [tokenMap]. *)
Definition tokenMap (iso : string) : list (string * option string) :=
  let parts := Str.splitOn "-" iso in
  let year := jsNumber (nth_error parts 0) in
  let month := jsNumber (nth_error parts 1) in
  let day := jsNumber (nth_error parts 2) in
  let dayOfWeek := utcDayOfWeek year month day in
  [ ("YYYY", Some (stringOf year));
    ("YY", Some (Str.takeLast 2 (stringOf year)));
    ("MMMM", at_ LONG_MONTH_NAMES (minus1 month));
    ("MMM", at_ SHORT_MONTH_NAMES (minus1 month));
    ("MM", Some (Str.padStart0 2 (stringOf month)));
    ("M", Some (stringOf month));
    ("DD", Some (Str.padStart0 2 (stringOf day)));
    ("D", Some (stringOf day));
    ("dddd", at_ LONG_DAY_NAMES dayOfWeek);
    ("ddd", at_ SHORT_DAY_NAMES dayOfWeek) ].

(** The first alternative that matches at the start of [s], with
    [tokenMap[token] ?? token]. *)
Fixpoint matchToken (tokens : list (string * option string)) (s : string)
  : option (string * string) :=
  match tokens with
  | [] => None
  | (token, value) :: more =>
      match Str.startsWith false token s with
      | Some rest =>
          Some (match value with Some v => v | None => token end, rest)
      | None => matchToken more s
      end
  end.

Fixpoint replaceTokens (tokens : list (string * option string)) (skip : nat)
  (s : string) : string :=
  match s with
  | EmptyString => EmptyString
  | String c s' =>
      match skip with
      | S k => replaceTokens tokens k s'
      | O =>
          match matchToken tokens s with
          | Some (text, rest) =>
              (text ++ replaceTokens tokens
                         (String.length s' - String.length rest) s')%string
          | None => String c (replaceTokens tokens 0 s')
          end
      end
  end.

Definition formatIsoDate (iso format : string) : string :=
  replaceTokens (tokenMap iso) 0 format.

(** A match of [/\{\{date:([^}]+)\}\}/i] at the start of [s]. *)
Definition matchDate (s : string) : option (string * string) :=
  match Str.startsWith true "{{date:" s with
  | None => None
  | Some r =>
      let (formatRaw, r1) := spanNotBrace r in
      if String.eqb formatRaw "" then None
      else
        match Str.startsWith false "}}" r1 with
        | Some rest => Some (formatRaw, rest)
        | None => None
        end
  end.

Fixpoint replaceDates (referenceIso : string) (skip : nat) (s : string)
  : string :=
  match s with
  | EmptyString => EmptyString
  | String c s' =>
      match skip with
      | S k => replaceDates referenceIso k s'
      | O =>
          match matchDate s with
          | Some (formatRaw, rest) =>
              let format := Str.trim formatRaw in
              ((if String.eqb format "" then referenceIso
                else formatIsoDate referenceIso format)
               ++ replaceDates referenceIso
                    (String.length s' - String.length rest) s')%string
          | None => String c (replaceDates referenceIso 0 s')
          end
      end
  end.

Section WithHost.

Variable host : Host.

Definition resolveReferenceIsoDate (referenceDate : ReferenceDate)
  (timeZone : option string) : Outcome string :=
  let today := Timezone.getIsoDateForTimeZone host (Some (now host)) timeZone in
  match referenceDate with
  | RefString text =>
      let trimmed := Str.trim text in
      if isIsoDate trimmed then Returns trimmed
      else
        match dateParse host trimmed with
        | Some parsed =>
            Timezone.getIsoDateForTimeZone host (Some parsed) timeZone
        | None => today
        end
  | RefDate (Some t) => Timezone.getIsoDateForTimeZone host (Some t) timeZone
  | RefDate None => today
  | RefAbsent => today
  end.

(** [renderTemplate(input, options)]; [input] is [None] for [null] and
    [undefined]. *)
Definition renderTemplate (input : option string)
  (options : TemplateRenderOptions) : Outcome string :=
  match input with
  | None => Returns ""
  | Some EmptyString => Returns ""
  | Some text =>
      referenceIso <-
        resolveReferenceIsoDate (referenceDate options) (timeZone options) ;;
      let dateParts := parseIsoDateParts referenceIso in
      let withConditionals := renderConditionalBlocks text dateParts in
      Returns (replaceDates referenceIso 0 withConditionals)
  end.

End WithHost.

End Templates.

(** ** The store: tables and the handlers' effects *)

Module Store.

Import Recurrence.

(** Modelled from the spec: the tables [dispatches], [dispatchTasks],
    [tasks] and [projects] are declared in [db/schema], which is not among
    the sources; the columns are those the handlers read and write, with
    [id] the primary key of [dispatches], [tasks] and [projects] and
    [(dispatchId, taskId)] the primary key of [dispatchTasks].  A table is
    the list of its rows in insertion order. *)
Record Dispatch : Type := mkDispatch {
  dispatchId : string;
  dispatchUser : string;
  date : string;
  summary : option string;
  finalized : bool;
  dispatchCreatedAt : string;
  dispatchUpdatedAt : string
}.

Record Task : Type := mkTask {
  taskId : string;
  taskUser : string;
  title : string;
  description : option string;
  status : string;
  priority : string;
  dueDate : option string;
  projectId : option string;
  recurrenceType : TaskRecurrenceType;
  recurrenceBehavior : TaskRecurrenceBehavior;
  recurrenceRule : option string;
  deletedAt : option string;
  taskCreatedAt : string;
  taskUpdatedAt : string
}.

Record Project : Type := mkProject {
  projectKey : string;
  projectUser : string;
  projectDeletedAt : option string
}.

Record Db : Type := mkDb {
  dispatches : list Dispatch;
  dispatchTasks : list (string * string);
  tasks : list Task;
  projects : list Project
}.

(** What a handler does: it changes the store and returns or throws.
    The writes made before a throw stay. *)
Definition M (A : Type) : Type := Db -> Db * Outcome A.

Definition ret {A : Type} (a : A) : M A := fun db => (db, Returns a).

Definition throw {A : Type} (message : string) : M A :=
  fun db => (db, Throws message).

Definition bind {A B : Type} (m : M A) (k : A -> M B) : M B :=
  fun db =>
    match m db with
    | (db', Returns a) => k a db'
    | (db', Throws e) => (db', Throws e)
    end.

Definition read {A : Type} (q : Db -> A) : M A := fun db => (db, Returns (q db)).

Definition write (f : Db -> Db) : M Datatypes.unit :=
  fun db => (f db, Returns tt).

Definition liftOutcome {A : Type} (o : Outcome A) : M A := fun db => (db, o).

Definition isNull {A : Type} (o : option A) : bool :=
  match o with
  | None => true
  | Some _ => false
  end.

(** [!text] for a nullable string: [null] and the empty string. *)
Definition falsy (o : option string) : bool :=
  match o with
  | None => true
  | Some s => String.eqb s ""
  end.

Definition pairEqb (p q : string * string) : bool :=
  String.eqb (fst p) (fst q) && String.eqb (snd p) (snd q).

End Store.

Declare Scope store_scope.
Delimit Scope store_scope with store.
Notation "x <~ m ;; k" := (Store.bind m (fun x => k))
  (at level 61, m at next level, right associativity) : store_scope.
Notation "m ;;; k" := (Store.bind m (fun _ => k))
  (at level 61, right associativity) : store_scope.

(** ** Dispatch tools: [src/mcp-server/tools/dispatches.ts] *)

Module Dispatches.

Import Store.
Local Open Scope store_scope.

Section WithIds.

(** Modelled from the spec: the default of the [id] column of
    [dispatches], declared in [db/schema] outside the sources; the store
    picks the key of a new row. *)
Variable newDispatchId : Db -> string.

Definition nextDate (date : string) : Outcome string :=
  Timezone.addDaysToIsoDate date 1.

Definition setDispatches (f : list Dispatch -> list Dispatch) (db : Db) : Db :=
  mkDb (f (dispatches db)) (dispatchTasks db) (tasks db) (projects db).

Definition setDispatchTasks
  (f : list (string * string) -> list (string * string)) (db : Db) : Db :=
  mkDb (dispatches db) (f (dispatchTasks db)) (tasks db) (projects db).

(** [clock] is [new Date().toISOString()] at the time of the call. *)
Definition getOrCreateDispatch (clock userId date : string) : M Dispatch :=
  existing <~ read (fun db =>
    find (fun d => String.eqb (dispatchUser d) userId && String.eqb (Store.date d) date)
         (dispatches db)) ;;
  match existing with
  | Some row => ret row
  | None =>
      id <~ read newDispatchId ;;
      let created := mkDispatch id userId date None false clock clock in
      write (setDispatches (fun rows => (rows ++ [created])%list)) ;;;
      ret created
  end.

(** The dispatch with this id that belongs to the user. *)
Definition selectDispatch (userId dispatchId : string) (db : Db)
  : option Dispatch :=
  find (fun d => String.eqb (Store.dispatchId d) dispatchId
                 && String.eqb (dispatchUser d) userId)
       (dispatches db).

Definition selectLink (dispatchId taskId : string) (db : Db)
  : option (string * string) :=
  find (pairEqb (dispatchId, taskId)) (dispatchTasks db).

Definition insertLink (dispatchId taskId : string) : M Datatypes.unit :=
  write (setDispatchTasks (fun rows => (rows ++ [(dispatchId, taskId)])%list)).

(** The handler of [link-task-to-dispatch]. *)
Definition linkTaskToDispatch (userId dispatchId taskId : string)
  : M (string * string) :=
  dispatch <~ read (selectDispatch userId dispatchId) ;;
  match dispatch with
  | None => throw "Dispatch not found."
  | Some dispatch =>
      if finalized dispatch then throw "Cannot modify a finalized dispatch."
      else
        task <~ read (fun db =>
          find (fun t => String.eqb (Store.taskId t) taskId
                         && String.eqb (taskUser t) userId
                         && isNull (deletedAt t))
               (tasks db)) ;;
        match task with
        | None => throw "Task not found."
        | Some task =>
            existing <~ read (selectLink (Store.dispatchId dispatch)
                                (Store.taskId task)) ;;
            (if isNull existing
             then insertLink (Store.dispatchId dispatch) (Store.taskId task)
             else ret tt) ;;;
            ret (Store.dispatchId dispatch, Store.taskId task)
        end
  end.

(** The handler of [unlink-task-from-dispatch]. *)
Definition unlinkTaskFromDispatch (userId dispatchId taskId : string)
  : M (string * string) :=
  dispatch <~ read (selectDispatch userId dispatchId) ;;
  match dispatch with
  | None => throw "Dispatch not found."
  | Some dispatch =>
      if finalized dispatch then throw "Cannot modify a finalized dispatch."
      else
        write (setDispatchTasks
                 (filter (fun row =>
                            negb (pairEqb (Store.dispatchId dispatch, taskId) row)))) ;;;
        ret (Store.dispatchId dispatch, taskId)
  end.

(** The rows of [dispatchTasks] joined with [tasks] for one dispatch,
    without the soft-deleted tasks: the [taskId] and [status] of each. *)
Definition linkedTasks (dispatchId : string) (db : Db)
  : list (string * string) :=
  flat_map
    (fun row =>
       if String.eqb (fst row) dispatchId then
         map (fun t => (Store.taskId t, status t))
             (filter (fun t => String.eqb (Store.taskId t) (snd row)
                               && isNull (deletedAt t))
                     (tasks db))
       else [])
    (dispatchTasks db).

Definition unfinished (linked : list (string * string)) : list string :=
  map fst (filter (fun row => negb (String.eqb (snd row) "done")) linked).

(** [update(dispatches).set({ finalized: true, updatedAt }).where(id)
    .returning()]: the first of the rows changed. *)
Definition finalizeRows (clock dispatchId : string) : M (option Dispatch) :=
  let change (d : Dispatch) :=
    if String.eqb (Store.dispatchId d) dispatchId
    then mkDispatch (Store.dispatchId d) (dispatchUser d) (date d) (summary d)
           true (dispatchCreatedAt d) clock
    else d in
  write (setDispatches (map change)) ;;;
  read (fun db =>
    find (fun d => String.eqb (Store.dispatchId d) dispatchId) (dispatches db)).

(** The [for] loop over [unfinishedTaskIds]. *)
Fixpoint linkAll (nextId : string) (taskIds : list string) : M Datatypes.unit :=
  match taskIds with
  | [] => ret tt
  | taskId :: more =>
      existing <~ read (selectLink nextId taskId) ;;
      (if isNull existing then insertLink nextId taskId else ret tt) ;;;
      linkAll nextId more
  end.

Record Completed : Type := mkCompleted {
  dispatch : option Dispatch;
  rolledOver : nat;
  nextDispatchId : option string
}.

(** The handler of [complete-dispatch]; [clock] and [clockNext] are the
    two readings of the clock. *)
Definition completeDispatch (clock clockNext userId dispatchId : string)
  : M Completed :=
  dispatch <~ read (selectDispatch userId dispatchId) ;;
  match dispatch with
  | None => throw "Dispatch not found."
  | Some dispatch =>
      if finalized dispatch then throw "Dispatch is already finalized."
      else
        linked <~ read (linkedTasks (Store.dispatchId dispatch)) ;;
        let unfinishedTaskIds := unfinished linked in
        finalizedRow <~ finalizeRows clock (Store.dispatchId dispatch) ;;
        match unfinishedTaskIds with
        | [] => ret (mkCompleted finalizedRow 0%nat None)
        | _ :: _ =>
            day <~ liftOutcome (nextDate (date dispatch)) ;;
            next <~ getOrCreateDispatch clockNext userId day ;;
            linkAll (Store.dispatchId next) unfinishedTaskIds ;;;
            ret (mkCompleted finalizedRow (List.length unfinishedTaskIds)
                   (Some (Store.dispatchId next)))
        end
  end.

End WithIds.

End Dispatches.

(** ** Task writes: the MCP tools and the REST route *)

Module TaskWrites.

Import Recurrence Store.
Local Open Scope store_scope.

(** An argument that may be left out, [null], or given. *)
Inductive Field (A : Type) : Type :=
| Absent
| IsNull
| Given (a : A).
Arguments Absent {A}.
Arguments IsNull {A}.
Arguments Given {A} a.

(** The value seen by [parseTaskCustomRecurrenceRule]. *)
Definition fieldValue (f : Field Js.Value) : Js.Value :=
  match f with
  | Absent => Js.Undefined
  | IsNull => Js.Null
  | Given v => v
  end.

(** [updates]: the columns to set; [None] leaves a column as it is. *)
Record TaskUpdates : Type := mkUpdates {
  setUpdatedAt : string;
  setTitle : option string;
  setDescription : option (option string);
  setStatus : option string;
  setPriority : option string;
  setDueDate : option (option string);
  setProjectId : option (option string);
  setRecurrenceType : option TaskRecurrenceType;
  setRecurrenceBehavior : option TaskRecurrenceBehavior;
  setRecurrenceRule : option (option string)
}.

Definition orKeep {A : Type} (change : option A) (old : A) : A :=
  match change with
  | Some a => a
  | None => old
  end.

Definition applyUpdates (u : TaskUpdates) (t : Task) : Task :=
  mkTask (taskId t) (taskUser t)
    (orKeep (setTitle u) (title t))
    (orKeep (setDescription u) (description t))
    (orKeep (setStatus u) (status t))
    (orKeep (setPriority u) (priority t))
    (orKeep (setDueDate u) (dueDate t))
    (orKeep (setProjectId u) (projectId t))
    (orKeep (setRecurrenceType u) (recurrenceType t))
    (orKeep (setRecurrenceBehavior u) (recurrenceBehavior t))
    (orKeep (setRecurrenceRule u) (recurrenceRule t))
    (deletedAt t) (taskCreatedAt t) (setUpdatedAt u).

Definition setTasks (f : list Task -> list Task) (db : Db) : Db :=
  mkDb (dispatches db) (dispatchTasks db) (f (tasks db)) (projects db).

(** [update(tasks).set(updates).where(eq(tasks.id, id)).returning()]:
    the first of the rows changed. *)
Definition updateTask (id : string) (u : TaskUpdates) : M (option Task) :=
  write (setTasks (map (fun t =>
    if String.eqb (taskId t) id then applyUpdates u t else t))) ;;;
  read (fun db => find (fun t => String.eqb (taskId t) id) (tasks db)).

(** The live task with this id that belongs to the user. *)
Definition selectTask (userId id : string) (db : Db) : option Task :=
  find (fun t => String.eqb (taskId t) id && String.eqb (taskUser t) userId
                 && isNull (deletedAt t))
       (tasks db).

Definition whenGiven {A : Type} (present : bool) (a : A) : option A :=
  if present then Some a else None.

(** *** [create-task] and [update-task] of the MCP server *)

Record CreateTaskArgs : Type := mkCreateArgs {
  cTitle : string;
  cDescription : option string;
  cStatus : option string;
  cPriority : option string;
  cDueDate : option string;
  cProjectId : Field string;
  cRecurrenceType : option TaskRecurrenceType;
  cRecurrenceBehavior : option TaskRecurrenceBehavior;
  cRecurrenceRule : Field Js.Value
}.

Record UpdateTaskArgs : Type := mkUpdateArgs {
  uId : string;
  uTitle : option string;
  uDescription : option string;
  uStatus : option string;
  uPriority : option string;
  uDueDate : Field string;
  uProjectId : Field string;
  uRecurrenceType : option TaskRecurrenceType;
  uRecurrenceBehavior : option TaskRecurrenceBehavior;
  uRecurrenceRule : Field Js.Value
}.

Definition given {A : Type} (f : Field A) : option A :=
  match f with
  | Given a => Some a
  | _ => None
  end.

Definition isAbsent {A : Type} (f : Field A) : bool :=
  match f with
  | Absent => true
  | _ => false
  end.

(** A field of the arguments as a column value: [null] for [undefined]. *)
Definition nullable {A : Type} (f : Field A) : option A := given f.

(** [if (args.projectId)] and the check that follows it. *)
Definition checkProject (userId : string) (projectId : Field string)
  : M Datatypes.unit :=
  match projectId with
  | Given p =>
      if String.eqb p "" then ret tt
      else
        project <~ read (fun db =>
          find (fun r => String.eqb (projectKey r) p
                         && String.eqb (projectUser r) userId
                         && isNull (projectDeletedAt r))
               (projects db)) ;;
        match project with
        | Some _ => ret tt
        | None => throw "projectId does not match an active project for this user."
        end
  | _ => ret tt
  end.

Section WithIds.

(** Modelled from the spec: the default of the [id] column of [tasks],
    declared in [db/schema] outside the sources. *)
Variable newTaskId : Db -> string.

Definition createTask (clock userId : string) (args : CreateTaskArgs) : M Task :=
  checkProject userId (cProjectId args) ;;;
  let recurrenceType := orKeep (cRecurrenceType args) TNone in
  let recurrenceBehavior :=
    match recurrenceType with
    | TNone => AfterCompletion
    | _ => orKeep (cRecurrenceBehavior args) AfterCompletion
    end in
  recurrenceRule <~
    match recurrenceType with
    | TCustom =>
        match parseTaskCustomRecurrenceRule (fieldValue (cRecurrenceRule args)) with
        | None =>
            throw "Custom recurrence requires recurrenceRule with interval (1-365) and unit (day|week|month)."
        | Some parsed => ret (Some (serializeTaskCustomRecurrenceRule parsed))
        end
    | _ =>
        match cRecurrenceRule args with
        | Given _ => throw "recurrenceRule can only be set when recurrenceType is custom."
        | _ => ret None
        end
    end ;;
  let noDueDate :=
    match cDueDate args with
    | None => true
    | Some d => String.eqb d "" || (String.length (Str.trim d) =? 0)%nat
    end in
  let needsDueDate :=
    match recurrenceType, recurrenceBehavior with
    | TNone, _ => false
    | _, DuplicateOnSchedule => noDueDate
    | _, _ => false
    end in
  if needsDueDate
  then throw "dueDate is required when recurrenceBehavior is duplicate_on_schedule."
  else
    id <~ read newTaskId ;;
    let task :=
      mkTask id userId (Str.trim (cTitle args)) (cDescription args)
        (orKeep (cStatus args) "open") (orKeep (cPriority args) "medium")
        (cDueDate args) (nullable (cProjectId args))
        recurrenceType recurrenceBehavior recurrenceRule None clock clock in
    write (setTasks (fun rows => (rows ++ [task])%list)) ;;;
    ret task.

End WithIds.

(** [nextRecurrenceRule] after the [if (hasRecurrenceRule)] block, shared
    by [update-task] and the REST route; [None] is the rejected rule. *)
Definition ruleAfterArgument (ruleArg : Field Js.Value) (stored : option string)
  : option (option string) :=
  match ruleArg with
  | Absent => Some stored
  | IsNull => Some None
  | Given v =>
      match parseTaskCustomRecurrenceRule v with
      | None => None
      | Some parsed => Some (Some (serializeTaskCustomRecurrenceRule parsed))
      end
  end.

Definition isCustom (t : TaskRecurrenceType) : bool :=
  match t with
  | TCustom => true
  | _ => false
  end.

Definition isGiven {A : Type} (f : Field A) : bool :=
  match f with
  | Given _ => true
  | _ => false
  end.

Definition updateTaskTool (clock userId : string) (args : UpdateTaskArgs)
  : M (option Task) :=
  existing <~ read (selectTask userId (uId args)) ;;
  match existing with
  | None => throw "Task not found."
  | Some existing =>
      checkProject userId (uProjectId args) ;;;
      let hasRecurrenceType := negb (isNull (uRecurrenceType args)) in
      let hasRecurrenceBehavior := negb (isNull (uRecurrenceBehavior args)) in
      let hasRecurrenceRule := negb (isAbsent (uRecurrenceRule args)) in
      let nextRecurrenceType :=
        orKeep (uRecurrenceType args) (recurrenceType existing) in
      let nextRecurrenceBehavior :=
        orKeep (uRecurrenceBehavior args) (recurrenceBehavior existing) in
      let nextDueDate :=
        match uDueDate args with
        | Absent => dueDate existing
        | other => given other
        end in
      match ruleAfterArgument (uRecurrenceRule args) (recurrenceRule existing) with
      | None =>
          throw "recurrenceRule must include interval (1-365) and unit (day|week|month)."
      | Some nextRecurrenceRule =>
          nextRecurrenceRule <~
            (if isCustom nextRecurrenceType then
               if falsy nextRecurrenceRule
               then throw "recurrenceRule is required when recurrenceType is custom."
               else ret nextRecurrenceRule
             else if isGiven (uRecurrenceRule args)
               then throw "recurrenceRule can only be set when recurrenceType is custom."
               else ret (if hasRecurrenceType then None else nextRecurrenceRule)) ;;
          nextRecurrenceBehavior <~
            match nextRecurrenceType, nextRecurrenceBehavior with
            | TNone, _ => ret AfterCompletion
            | _, DuplicateOnSchedule =>
                if falsy nextDueDate
                then throw "dueDate is required when recurrenceBehavior is duplicate_on_schedule."
                else ret nextRecurrenceBehavior
            | _, _ => ret nextRecurrenceBehavior
            end ;;
          updateTask (uId args)
            (mkUpdates clock
               (option_map Str.trim (uTitle args))
               (option_map Some (uDescription args))
               (uStatus args)
               (uPriority args)
               (if isAbsent (uDueDate args) then None else Some (given (uDueDate args)))
               (if isAbsent (uProjectId args) then None else Some (given (uProjectId args)))
               (whenGiven hasRecurrenceType nextRecurrenceType)
               (whenGiven (hasRecurrenceBehavior || hasRecurrenceType)
                  nextRecurrenceBehavior)
               (whenGiven (hasRecurrenceRule || hasRecurrenceType)
                  nextRecurrenceRule))
      end
  end.

(** *** [PUT /api/tasks/[id]]: [src/app/api/tasks/[id]/route.ts] *)

Inductive Response : Type :=
| JsonResponse (task : option Task)
| ErrorResponse (message : string) (status : Z).

Definition VALID_STATUSES : list string := ["open"; "in_progress"; "done"].
Definition VALID_PRIORITIES : list string := ["low"; "medium"; "high"].

(** [list.includes(value)] for a list of strings. *)
Definition includes (list : list string) (v : Js.Value) : bool :=
  match v with
  | Js.Str s => existsb (String.eqb s) list
  | _ => false
  end.

Definition isUndefined (v : Js.Value) : bool :=
  match v with
  | Js.Undefined => true
  | _ => false
  end.

(** [Object.prototype.hasOwnProperty.call(body, key)] for the keys read
    here. *)
Definition hasOwn (body : Js.Value) (key : string) : bool :=
  match body with
  | Js.Object fields => existsb (fun kv => String.eqb (fst kv) key) fields
  | _ => false
  end.

(** [isTaskRecurrenceType]. *)
Definition recurrenceTypeOfValue (v : Js.Value) : option TaskRecurrenceType :=
  match v with
  | Js.Str s =>
      if String.eqb s "none" then Some TNone
      else if String.eqb s "daily" then Some TDaily
      else if String.eqb s "weekly" then Some TWeekly
      else if String.eqb s "monthly" then Some TMonthly
      else if String.eqb s "custom" then Some TCustom
      else None
  | _ => None
  end.

(** A body field that holds a string or [null], as a column value. *)
Definition stringOrNull (v : Js.Value) : option string :=
  match v with
  | Js.Str s => Some s
  | _ => None
  end.

Definition fieldOfValue (v : Js.Value) : Field Js.Value :=
  match v with
  | Js.Undefined => Absent
  | Js.Null => IsNull
  | other => Given other
  end.

(** The checks on the body that come before the store is read; the
    result is the error response, if any. *)
Definition validateBody (body : Js.Value) : option Response :=
  let title := Js.get body "title" in
  let description := Js.get body "description" in
  let status := Js.get body "status" in
  let priority := Js.get body "priority" in
  let dueDate := Js.get body "dueDate" in
  let projectId := Js.get body "projectId" in
  let recurrenceType := Js.get body "recurrenceType" in
  let isString (v : Js.Value) :=
    match v with Js.Str _ => true | _ => false end in
  let tooLong (v : Js.Value) (limit : nat) :=
    match v with
    | Js.Str s => negb (String.eqb s "") && (limit <? String.length s)%nat
    | _ => false
    end in
  let blank (v : Js.Value) :=
    match v with
    | Js.Str s => (String.length (Str.trim s) =? 0)%nat
    | _ => true
    end in
  if negb (isUndefined title) && blank title
  then Some (ErrorResponse "title must be a non-empty string" 400)
  else if tooLong title 500%nat
  then Some (ErrorResponse "title must be at most 500 characters" 400)
  else if negb (isUndefined description) && negb (isString description)
  then Some (ErrorResponse "description must be a string" 400)
  else if tooLong description 5000%nat
  then Some (ErrorResponse "description must be at most 5000 characters" 400)
  else if negb (isUndefined status) && negb (includes VALID_STATUSES status)
  then Some (ErrorResponse "Invalid status. Must be one of: open, in_progress, done" 400)
  else if negb (isUndefined priority) && negb (includes VALID_PRIORITIES priority)
  then Some (ErrorResponse "Invalid priority. Must be one of: low, medium, high" 400)
  else if isGiven (fieldOfValue dueDate) && negb (isString dueDate)
  then Some (ErrorResponse "dueDate must be a string (ISO date) or null" 400)
  else if isGiven (fieldOfValue projectId) && negb (isString projectId)
  then Some (ErrorResponse "projectId must be a string or null" 400)
  else if negb (isUndefined recurrenceType)
          && isNull (recurrenceTypeOfValue recurrenceType)
  then Some (ErrorResponse "recurrenceType must be one of: none, daily, weekly, monthly, custom" 400)
  else None.

(** The handler of [PUT]; [bodyText] is the text of the request, [id] the
    route parameter and [userId] the user of the session. *)
Definition PUT (clock userId id bodyText : string) : M Response :=
  match Json.parse bodyText with
  | None => ret (ErrorResponse "Invalid JSON body" 400)
  | Some Js.Null => throw "TypeError: Cannot destructure property of null"
  | Some body =>
      match validateBody body with
      | Some error => ret error
      | None =>
          let title := Js.get body "title" in
          let description := Js.get body "description" in
          let status := Js.get body "status" in
          let priority := Js.get body "priority" in
          let dueDate := Js.get body "dueDate" in
          let projectId := Js.get body "projectId" in
          let recurrenceType := Js.get body "recurrenceType" in
          let recurrenceRule := Js.get body "recurrenceRule" in
          project <~
            match projectId with
            | Js.Str p =>
                read (fun db =>
                  match find (fun r => String.eqb (projectKey r) p
                                       && String.eqb (projectUser r) userId)
                             (projects db) with
                  | Some _ => Some (Some p)
                  | None => None
                  end)
            | _ => ret (Some None)
            end ;;
          match project with
          | None => ret (ErrorResponse "projectId does not match an existing project" 400)
          | Some resolvedProjectId =>
              existing <~ read (selectTask userId id) ;;
              match existing with
              | None => ret (ErrorResponse "Task not found" 404)
              | Some existing =>
                  let hasRecurrenceType := hasOwn body "recurrenceType" in
                  let hasRecurrenceRule := hasOwn body "recurrenceRule" in
                  let nextRecurrenceType :=
                    if hasRecurrenceType
                    then orKeep (recurrenceTypeOfValue recurrenceType)
                                (Store.recurrenceType existing)
                    else Store.recurrenceType existing in
                  match ruleAfterArgument
                          (if hasRecurrenceRule then fieldOfValue recurrenceRule
                           else Absent)
                          (Store.recurrenceRule existing) with
                  | None =>
                      ret (ErrorResponse
                             "recurrenceRule must include interval (1-365) and unit (day|week|month)"
                             400)
                  | Some nextRecurrenceRule =>
                      if isCustom nextRecurrenceType && falsy nextRecurrenceRule
                      then ret (ErrorResponse
                                  "recurrenceRule is required when recurrenceType is custom"
                                  400)
                      else if negb (isCustom nextRecurrenceType) && hasRecurrenceRule
                              && isGiven (fieldOfValue recurrenceRule)
                      then ret (ErrorResponse
                                  "recurrenceRule can only be set when recurrenceType is custom"
                                  400)
                      else
                        let nextRecurrenceRule :=
                          if negb (isCustom nextRecurrenceType) && hasRecurrenceType
                          then None else nextRecurrenceRule in
                        updated <~ updateTask id
                          (mkUpdates clock
                             (option_map Str.trim (stringOrNull title))
                             (whenGiven (negb (isUndefined description))
                                (stringOrNull description))
                             (stringOrNull status)
                             (stringOrNull priority)
                             (whenGiven (negb (isUndefined dueDate))
                                (stringOrNull dueDate))
                             (whenGiven (negb (isUndefined projectId))
                                resolvedProjectId)
                             (whenGiven hasRecurrenceType nextRecurrenceType)
                             None
                             (whenGiven (hasRecurrenceRule || hasRecurrenceType)
                                nextRecurrenceRule)) ;;
                        ret (JsonResponse updated)
                  end
              end
          end
      end
  end.

End TaskWrites.

(** ** Notions used to state the properties *)

Module Notions.

Import JsDate Recurrence.

(** The calendar-day string of a year, a month (1..12) and a day. *)
Definition isoOfCivil (y m d : Z) : string :=
  (Str.fixedDigits 4 y "" ++ "-" ++ Str.fixedDigits 2 m "" ++ "-"
   ++ Str.fixedDigits 2 d "")%string.

(** The strings of the form [YYYY-MM-DD] that name a day of the
    calendar. *)
Definition isCalendarDay (s : string) : bool :=
  match isoFields s with
  | Some (y, m, d) =>
      (1 <=? m) && (m <=? 12) && (1 <=? d) && (d <=? DaysInMonth y (m - 1))
  | None => false
  end.

(** The month that lies [n] months after month [m] of year [y]. *)
Definition monthAfter (y m n : Z) : Z * Z := (y + (m + n) / 12, (m + n) mod 12).

(** The cursor after [k] steps of [getNextTaskRecurrenceDate], when every
    step gives one. *)
Fixpoint cursorAt (recurrenceType : TaskRecurrenceType) (recurrenceRule : Js.Value)
  (cursor : string) (k : nat) : option string :=
  match k with
  | O => Some cursor
  | S k' =>
      match truthy (getNextTaskRecurrenceDate cursor recurrenceType recurrenceRule) with
      | Some next => cursorAt recurrenceType recurrenceRule next k'
      | None => None
      end
  end.

(** The cursor is a calendar day on or after the day [target]. *)
Definition reaches (target : Z) (cursor : option string) : Prop :=
  exists s d, cursor = Some s /\ parseIsoDate s = Some d /\ target <= d.

(** A stored task without recurrence has the behavior
    [after_completion]. *)
Definition normalized (t : Store.Task) : Prop :=
  Store.recurrenceType t = TNone -> Store.recurrenceBehavior t = AfterCompletion.

(** A store with one task that recurs daily and is duplicated on
    schedule, and the request body [{"recurrenceType":"none"}]. *)
Definition scheduledTask : Store.Task :=
  Store.mkTask "t1" "u1" "Water the plants" None "open" "medium"
    (Some "2024-01-01") None TDaily DuplicateOnSchedule None None
    "2024-01-01T00:00:00.000Z" "2024-01-01T00:00:00.000Z".



(** The number of rows of [dispatchTasks] that link a pair. *)
Definition linkCount (p : string * string) (db : Store.Db) : nat :=
  List.length (filter (Store.pairEqb p) (Store.dispatchTasks db)).

(** A dispatch once [complete-dispatch] has finalized it. *)
Definition finalizedAt (clock : string) (d : Store.Dispatch) : Store.Dispatch :=
  Store.mkDispatch (Store.dispatchId d) (Store.dispatchUser d) (Store.date d)
    (Store.summary d) true (Store.dispatchCreatedAt d) clock.

(** The store after the dispatch with key [id] has been finalized. *)
Definition finalizeIn (clock id : string) (db : Store.Db) : Store.Db :=
  Dispatches.setDispatches
    (map (fun d => if String.eqb (Store.dispatchId d) id
                   then finalizedAt clock d else d))
    db.

(** The linked tasks of a dispatch that are neither soft-deleted nor
    done. *)
Definition pending (dispatchId : string) (db : Store.Db) : list string :=
  Dispatches.unfinished (Dispatches.linkedTasks dispatchId db).

(** A store with an open dispatch for 2024-02-28 that links three tasks,
    one of them done. *)
Definition planTask (id status : string) : Store.Task :=
  Store.mkTask id "u1" id None status "medium" None None TNone AfterCompletion
    None None "2024-02-28T08:00:00.000Z" "2024-02-28T08:00:00.000Z".

Definition planDispatch : Store.Dispatch :=
  Store.mkDispatch "d1" "u1" "2024-02-28" None false
    "2024-02-28T08:00:00.000Z" "2024-02-28T08:00:00.000Z".

Definition planDb : Store.Db :=
  Store.mkDb
    [planDispatch]
    [("d1", "t1"); ("d1", "t2"); ("d1", "t3")]
    [planTask "t1" "done"; planTask "t2" "open"; planTask "t3" "in_progress"]
    [].


(** The keys that a condition may test. *)
Definition recognizedKey (key : string) : bool :=
  String.eqb key "day" || String.eqb key "month" || String.eqb key "dom"
  || String.eqb key "year" || String.eqb key "date".

(** The key of a clause [key=value], as [evaluateCondition] reads it. *)
Definition checkKey (check : string) : string :=
  match Str.splitOn "=" check with
  | keyRaw :: _ => Str.toLowerCase (Str.trim keyRaw)
  | [] => EmptyString
  end.

Definition isNone {A : Type} (o : option A) : bool :=
  match o with
  | None => true
  | Some _ => false
  end.

(** Text in which no conditional block and no date token starts. *)
Fixpoint plainText (s : string) : bool :=
  match s with
  | EmptyString => true
  | String _ s' =>
      isNone (Templates.matchIf s) && isNone (Templates.matchDate s)
      && plainText s'
  end.

(** Text without an opening brace. *)
Fixpoint braceFree (s : string) : bool :=
  match s with
  | EmptyString => true
  | String c s' => negb (Ascii.eqb c "{") && braceFree s'
  end.

(** Text without a closing brace. *)
Fixpoint closeFree (s : string) : bool :=
  match s with
  | EmptyString => true
  | String c s' => negb (Ascii.eqb c "}") && closeFree s'
  end.
















(** A host that knows the zone UTC only, at the instant 0. *)
Definition utcHost : Host :=
  mkHost (fun tz => String.eqb tz "UTC") None
    (fun _ _ => [("month", "01"); ("literal", "/"); ("day", "01");
                 ("literal", "/"); ("year", "1970")])
    0 (fun _ => None).

(** A block with an unknown key around a block of its own. *)
Definition nestedTemplate : string :=
  "{{if:foo=bar}}A{{if:day=sat}}B{{/if}}C{{/if}}".

(** A value that is a string. *)
Definition isStr (v : Js.Value) : bool :=
  match v with
  | Js.Str _ => true
  | _ => false
  end.

Definition unitEqb (a b : TaskCustomRecurrenceUnit) : bool :=
  match a, b with
  | UDay, UDay | UWeek, UWeek | UMonth, UMonth => true
  | _, _ => false
  end.

(** The round trip of the rule with interval [n] and unit [u]. *)
Definition roundTrips (n : nat) (u : TaskCustomRecurrenceUnit) : bool :=
  match parseTaskCustomRecurrenceRule
          (Js.Str (serializeTaskCustomRecurrenceRule (mkRule (Z.of_nat n) u))) with
  | Some r => (interval r =? Z.of_nat n) && unitEqb (unit r) u
  | None => false
  end.

End Notions.

(** ** Recurrence labels and previews:
    [describeTaskRecurrence] of [src/lib/task-recurrence.ts] and
    [src/lib/task-recurrence-preview.ts] *)

Module Preview.

Import Js JsDate Recurrence.

(** [isTaskRecurrenceBehavior]. *)
Definition isTaskRecurrenceBehavior (v : Value) : option TaskRecurrenceBehavior :=
  match v with
  | Str s =>
      if String.eqb s "after_completion" then Some AfterCompletion
      else if String.eqb s "duplicate_on_schedule" then Some DuplicateOnSchedule
      else None
  | _ => None
  end.

Definition describeTaskRecurrence (recurrenceType : TaskRecurrenceType)
  (recurrenceRule : Value) : string :=
  match getResolvedTaskRecurrenceRule recurrenceType recurrenceRule with
  | None => "No recurrence"
  | Some resolved =>
      if interval resolved =? 1 then
        match unit resolved with
        | UDay => "Every day"
        | UWeek => "Every week"
        | UMonth => "Every month"
        end
      else
        ("Every " ++ Str.ofInt (interval resolved) ++ " "
         ++ unitName (unit resolved) ++ "s")%string
  end.

(** The column [recurrenceRule] of a task as the value handed to the
    recurrence functions: a string or [null]. *)
Definition ruleValue (rule : option string) : Value :=
  match rule with
  | Some text => Str text
  | None => Null
  end.

Record TaskRecurrencePreview : Type := mkPreview {
  cadence : string;
  next : option string;
  detail : string
}.

Section WithHost.

Variable host : Host.

(** [new Date().toISOString().slice(0, 10)]. *)
Definition getTodayIsoDate : string :=
  Str.take 10 (toISOString (now host / Timezone.msPerDay)).

Definition getTaskRecurrencePreview (task : Store.Task) : TaskRecurrencePreview :=
  let cadence :=
    describeTaskRecurrence (Store.recurrenceType task)
      (ruleValue (Store.recurrenceRule task)) in
  let todayIsoDate := getTodayIsoDate in
  match Store.recurrenceBehavior task with
  | AfterCompletion =>
      let next :=
        getNextTaskRecurrenceDate
          (match Store.dueDate task with
           | Some due => due
           | None => todayIsoDate
           end)
          (Store.recurrenceType task) (ruleValue (Store.recurrenceRule task)) in
      mkPreview cadence next
        (match truthy next with
         | Some day =>
             ("If completed today, next occurrence is " ++ day ++ ".")%string
         | None => "Set a valid recurrence rule to preview the next occurrence."
         end)
  | DuplicateOnSchedule =>
      let next :=
        match Store.dueDate task with
        | Some due =>
            if String.eqb due "" then None
            else getNextTaskRecurrenceOnOrAfter due (Store.recurrenceType task)
                   (ruleValue (Store.recurrenceRule task)) todayIsoDate
        | None => None
        end in
      mkPreview cadence next
        (if Store.falsy (Store.dueDate task)
         then "Add a due date to anchor schedule-based duplicates."
         else
           match truthy next with
           | Some day => ("Next scheduled duplicate: " ++ day ++ ".")%string
           | None => "Unable to calculate the next duplicate date."
           end)
  end.

End WithHost.

End Preview.

(** ** The other dispatch tools of [src/mcp-server/tools/dispatches.ts] *)

Module DispatchTools.

Import Store Dispatches.
Local Open Scope store_scope.

(** The columns of [users] that the dispatch tools read.  The table
    is only read here, so it is a parameter of the handlers and not part
    of the store they change. *)
Record User : Type := mkUser {
  userKey : string;
  userTimeZone : option string
}.

Section WithHost.

Variable host : Host.
Variable newDispatchId : Db -> string.
Variable users : list User.

Definition getUserTimeZone (userId : string) : option string :=
  match find (fun u => String.eqb (userKey u) userId) users with
  | Some user => userTimeZone user
  | None => None
  end.

(** [getIsoDateForTimeZone(new Date(), timeZone ?? null)]. *)
Definition todayISODate (timeZone : option string) : Outcome string :=
  Timezone.getIsoDateForTimeZone host (Some (now host)) timeZone.

(** The handler of [get-today-dispatch]; [clock] is the time stamp of a
    row it creates. *)
Definition getTodayDispatch (clock userId : string) : M Dispatch :=
  let userTimeZone := getUserTimeZone userId in
  today <~ liftOutcome (todayISODate userTimeZone) ;;
  getOrCreateDispatch newDispatchId clock userId today.

(** [update(dispatches).set({ summary, updatedAt }).where(id).returning()]:
    the first of the rows changed. *)
Definition summarizeRows (clock dispatchId text : string) : M (option Dispatch) :=
  let change (d : Dispatch) :=
    if String.eqb (Store.dispatchId d) dispatchId
    then mkDispatch (Store.dispatchId d) (dispatchUser d) (date d) (Some text)
           (finalized d) (dispatchCreatedAt d) clock
    else d in
  write (setDispatches (map change)) ;;;
  read (fun db =>
    find (fun d => String.eqb (Store.dispatchId d) dispatchId) (dispatches db)).

(** The handler of [update-dispatch-summary]; [clock] is the time stamp
    of a dispatch it creates for today and [clockUpdate] the one of the
    update.  An absent or empty [dispatchId] means today's dispatch. *)
Definition updateDispatchSummary (clock clockUpdate userId text : string)
  (dispatchId : option string) : M (option Dispatch) :=
  let userTimeZone := getUserTimeZone userId in
  dispatch <~
    (if falsy dispatchId then
       today <~ liftOutcome (todayISODate userTimeZone) ;;
       created <~ getOrCreateDispatch newDispatchId clock userId today ;;
       ret (Some created)
     else
       match dispatchId with
       | Some id => read (selectDispatch userId id)
       | None => ret None
       end) ;;
  match dispatch with
  | None => throw "Dispatch not found."
  | Some dispatch =>
      if finalized dispatch
      then throw "Cannot update summary on a finalized dispatch."
      else summarizeRows clockUpdate (Store.dispatchId dispatch) text
  end.

End WithHost.

End DispatchTools.

(** ** The other task handlers: [complete-task] and [delete-task] of the
    MCP server, [GET] and [DELETE] of [src/app/api/tasks/[id]/route.ts] *)

Module TaskTools.

Import Recurrence Store TaskWrites.
Local Open Scope store_scope.

(** [and(eq(tasks.id, id), eq(tasks.userId, userId), isNull(tasks.deletedAt))]. *)
Definition isLive (userId id : string) (t : Task) : bool :=
  String.eqb (taskId t) id && String.eqb (taskUser t) userId
  && isNull (deletedAt t).

(** [set({ status: "done", updatedAt })]. *)
Definition markDone (clock : string) (t : Task) : Task :=
  mkTask (taskId t) (taskUser t) (title t) (description t) "done" (priority t)
    (dueDate t) (projectId t) (recurrenceType t) (recurrenceBehavior t)
    (recurrenceRule t) (deletedAt t) (taskCreatedAt t) clock.

(** [set({ deletedAt, updatedAt })]. *)
Definition markDeleted (deleted updated : string) (t : Task) : Task :=
  mkTask (taskId t) (taskUser t) (title t) (description t) (status t)
    (priority t) (dueDate t) (projectId t) (recurrenceType t)
    (recurrenceBehavior t) (recurrenceRule t) (Some deleted) (taskCreatedAt t)
    updated.

(** [update(tasks).set(...).where(...).returning()]: every row that
    passes [matches] is changed, and the first of the changed rows is
    returned. *)
Definition updateWhere (matches : Task -> bool) (change : Task -> Task)
  : M (option Task) :=
  first <~ read (fun db => find matches (tasks db)) ;;
  write (setTasks (map (fun t => if matches t then change t else t))) ;;;
  ret (option_map change first).

(** The handler of [complete-task]. *)
Definition completeTask (clock userId id : string) : M Task :=
  task <~ updateWhere (isLive userId id) (markDone clock) ;;
  match task with
  | None => throw "Task not found."
  | Some task => ret task
  end.

(** The handler of [delete-task]; it returns the key of the task. *)
Definition deleteTask (clock userId id : string) : M string :=
  task <~ updateWhere (isLive userId id) (markDeleted clock clock) ;;
  match task with
  | None => throw "Task not found."
  | Some task => ret (taskId task)
  end.

(** [GET /api/tasks/[id]]. *)
Definition GET (userId id : string) : M Response :=
  task <~ read (fun db => find (isLive userId id) (tasks db)) ;;
  match task with
  | None => ret (ErrorResponse "Task not found" 404)
  | Some task => ret (JsonResponse (Some task))
  end.

(** The responses of [DELETE]: [{ deleted: true }] or an error. *)
Inductive DeleteResponse : Type :=
| Deleted
| DeleteError (message : string) (status : Z).

(** [DELETE /api/tasks/[id]]; [clockDeleted] and [clockUpdated] are the
    two readings of the clock.  The task is sought among all tasks of the
    user, and a row whose [deletedAt] is empty counts as live. *)
Definition DELETE (clockDeleted clockUpdated userId id : string)
  : M DeleteResponse :=
  existing <~ read (fun db =>
    find (fun t => String.eqb (taskId t) id && String.eqb (taskUser t) userId)
         (tasks db)) ;;
  match existing with
  | None => ret (DeleteError "Task not found" 404)
  | Some existing =>
      if negb (falsy (deletedAt existing))
      then ret (DeleteError "Task not found" 404)
      else
        write (setTasks (map (fun t =>
          if String.eqb (taskId t) id
          then markDeleted clockDeleted clockUpdated t else t))) ;;;
        ret Deleted
  end.

End TaskTools.

(** ** Notions used to state the further properties *)

Module MoreNotions.

Import JsDate Recurrence.

(** The days that a rule in days or weeks moves on. *)
Definition stepDays (r : TaskCustomRecurrenceRule) : Z :=
  match unit r with
  | UDay => interval r
  | UWeek => 7 * interval r
  | UMonth => 0
  end.

(** The first day of the month that is [k] months after January of the
    year 0. *)
Definition firstOfMonth (k : Z) : Z := MakeDay 0 k 1.

(** The number of steps of [s] days that it takes from day [a] to reach
    day [t] or pass it. *)
Definition stepsTo (a t s : Z) : Z := (t - a + s - 1) / s.

(** A rule as the argument [recurrenceRule] of a tool: an object with
    the two properties. *)
Definition ruleArgument (r : TaskCustomRecurrenceRule) : Js.Value :=
  Js.Object [("interval", Js.Number (Js.NInt (interval r)));
             ("unit", Js.Str (unitName (unit r)))].

(** Text in which no closing tag of a conditional block starts. *)
Fixpoint closesNowhere (s : string) : bool :=
  Notions.isNone (Str.startsWith true "{{/if}}" s)
  && match s with
     | EmptyString => true
     | String _ s' => closesNowhere s'
     end.

(** The keys of [dispatches] are unique, and no user has two dispatches
    for one date. *)
Definition wellKeyed (db : Store.Db) : Prop :=
  NoDup (map Store.dispatchId (Store.dispatches db))
  /\ NoDup (map (fun d => (Store.dispatchUser d, Store.date d))
                (Store.dispatches db)).

(** The store [db'] differs from [db] in nothing that belongs to a user
    other than [userId]: the dispatches of the others are the same, so
    are the tasks and projects, and so are the links of every dispatch
    key that is not the key of a dispatch of [userId]. *)
Definition sameForOthers (userId : string) (db db' : Store.Db) : Prop :=
  (forall r, Store.dispatchUser r <> userId ->
             (In r (Store.dispatches db') <-> In r (Store.dispatches db)))
  /\ Store.tasks db' = Store.tasks db
  /\ Store.projects db' = Store.projects db
  /\ (forall p,
        (forall r, In r (Store.dispatches db') -> Store.dispatchUser r = userId ->
                   Store.dispatchId r <> fst p) ->
        (In p (Store.dispatchTasks db') <-> In p (Store.dispatchTasks db))).

(** A dispatch after [update-dispatch-summary] has written the summary
    [text] to the rows with key [key]. *)
Definition summarized (clock key text : string) (d : Store.Dispatch)
  : Store.Dispatch :=
  if String.eqb (Store.dispatchId d) key
  then Store.mkDispatch (Store.dispatchId d) (Store.dispatchUser d)
         (Store.date d) (Some text) (Store.finalized d)
         (Store.dispatchCreatedAt d) clock
  else d.

(** No live task has the key [id]. *)
Definition gone (id : string) (db : Store.Db) : Prop :=
  forall t, In t (Store.tasks db) -> Store.taskId t = id ->
            Store.deletedAt t <> None.

(** The stored rule of a task is null or the text of a rule with an
    interval of 1 to 365, and a custom recurrence has a rule. *)
Definition ruleInOrder (t : Store.Task) : Prop :=
  (Store.recurrenceRule t = None
   \/ exists r, 1 <= interval r <= 365
                /\ Store.recurrenceRule t = Some (serializeTaskCustomRecurrenceRule r))
  /\ (Store.recurrenceType t = TCustom -> Store.recurrenceRule t <> None).

(** A task that recurs and is duplicated on schedule has a due date. *)
Definition anchored (t : Store.Task) : Prop :=
  Store.recurrenceType t <> TNone ->
  Store.recurrenceBehavior t = DuplicateOnSchedule ->
  Store.falsy (Store.dueDate t) = false.

(** A call that has not returned has left the store as it was. *)
Definition failsCleanly {A : Type} (m : Store.M A) : Prop :=
  forall db, fst (m db) = db \/ exists a, snd (m db) = Returns a.

(** A key that no dispatch of the store has: it is longer than each of
    them. *)
Definition freshId (db : Store.Db) : string :=
  String "d" (String.concat "" (map Store.dispatchId (Store.dispatches db))).


(** The arguments of [create-task] for a task that is duplicated every
    third day, and the task that comes of them. *)
Definition wateringArgs : TaskWrites.CreateTaskArgs :=
  TaskWrites.mkCreateArgs " Water the plants " None None None
    (Some "2024-03-02") TaskWrites.Absent (Some TCustom)
    (Some DuplicateOnSchedule)
    (TaskWrites.Given (ruleArgument (mkRule 3 UDay))).

Definition wateringTask : Store.Task :=
  Store.mkTask "t4" "u1" "Water the plants" None "open" "medium"
    (Some "2024-03-02") None TCustom DuplicateOnSchedule
    (Some (serializeTaskCustomRecurrenceRule (mkRule 3 UDay)))
    None "2024-03-01T09:00:00.000Z" "2024-03-01T09:00:00.000Z".

(** The arguments of [update-task] that make the task [t2] a weekly one
    that is duplicated on schedule. *)
Definition weeklyArgs : TaskWrites.UpdateTaskArgs :=
  TaskWrites.mkUpdateArgs "t2" None None None None
    (TaskWrites.Given "2024-03-04") TaskWrites.Absent (Some TWeekly)
    (Some DuplicateOnSchedule) TaskWrites.Absent.

(** A body of [PUT] that sets a custom recurrence of two weeks. *)
Definition customBody : string :=
  let q := String Str.dquote EmptyString in
  ("{" ++ q ++ "recurrenceType" ++ q ++ ":" ++ q ++ "custom" ++ q ++ ","
   ++ q ++ "recurrenceRule" ++ q ++ ":{" ++ q ++ "interval" ++ q ++ ":2,"
   ++ q ++ "unit" ++ q ++ ":" ++ q ++ "week" ++ q ++ "}}")%string.

(** The store of [planDb] with an open dispatch of the same user for the
    next day, 2024-02-29, that links no task. *)
Definition nextDispatch : Store.Dispatch :=
  Store.mkDispatch "d2" "u1" "2024-02-29" None false
    "2024-02-28T09:00:00.000Z" "2024-02-28T09:00:00.000Z".

Definition twoDayDb : Store.Db :=
  Store.mkDb [Notions.planDispatch; nextDispatch]
    (Store.dispatchTasks Notions.planDb) (Store.tasks Notions.planDb) [].

(** The rules with an interval of 1 to 365. *)
Definition allRules : list TaskCustomRecurrenceRule :=
  flat_map (fun n => map (mkRule (Z.of_nat n)) [UDay; UWeek; UMonth])
           (seq 1 365).

Definition ruleEqb (a b : TaskCustomRecurrenceRule) : bool :=
  (interval a =? interval b) && Notions.unitEqb (unit a) (unit b).

(** No two of the rules in [rules] have the same label. *)
Definition labelsDiffer (rules : list TaskCustomRecurrenceRule) : bool :=
  let labelled :=
    map (fun r => (r, Preview.describeTaskRecurrence TCustom (ruleArgument r)))
        rules in
  forallb (fun p =>
    forallb (fun q => implb (String.eqb (snd p) (snd q)) (ruleEqb (fst p) (fst q)))
            labelled)
    labelled.

End MoreNotions.

(* ================================================================== *)
(** * Part II: properties *)
(* ================================================================== *)

Import Notions.

(** Linear arithmetic with division and remainder by constants. *)
Ltac zlia := Z.to_euclidean_division_equations; lia.

(** ** The calendar *)

Section CalendarFacts.

Import JsDate.

Lemma DayFromYear_succ (y : Z) :
  DayFromYear (y + 1) = DayFromYear y + DaysInYear y.
Proof.
  unfold DayFromYear, DaysInYear, InLeapYear.
  destruct (y mod 4 =? 0) eqn:E4; destruct (y mod 100 =? 0) eqn:E100;
    destruct (y mod 400 =? 0) eqn:E400; cbn [andb orb negb];
    rewrite ?Z.eqb_eq, ?Z.eqb_neq in *; zlia.
Qed.

Lemma DaysInYear_cases (y : Z) : DaysInYear y = 365 \/ DaysInYear y = 366.
Proof. unfold DaysInYear. destruct (InLeapYear y); auto. Qed.

Lemma DayFromYear_lt (y y' : Z) : y < y' -> DayFromYear y + 365 <= DayFromYear y'.
Proof. unfold DayFromYear. zlia. Qed.

Lemma YearFromDay_spec (d : Z) :
  DayFromYear (YearFromDay d) <= d < DayFromYear (YearFromDay d + 1).
Proof.
  unfold YearFromDay.
  destruct (d <? DayFromYear _) eqn:E1;
    [| destruct (DayFromYear _ <=? d) eqn:E2];
    rewrite ?Z.ltb_lt, ?Z.ltb_ge, ?Z.leb_le, ?Z.leb_gt in *;
    unfold DayFromYear in *; zlia.
Qed.

(** [YearFromDay d] is the only year whose days include [d]. *)
Lemma YearFromDay_unique (d y : Z) :
  DayFromYear y <= d < DayFromYear (y + 1) -> YearFromDay d = y.
Proof.
  intros H. pose proof (YearFromDay_spec d) as S.
  destruct (Z.lt_trichotomy (YearFromDay d) y) as [L | [E | G]]; [| exact E |].
  - pose proof (DayFromYear_lt (YearFromDay d) y L).
    assert (YearFromDay d + 1 <= y) as Le by lia.
    destruct (Z.eq_dec (YearFromDay d + 1) y) as [E | N]; [rewrite E in S; lia |].
    pose proof (DayFromYear_lt (YearFromDay d + 1) y ltac:(lia)). lia.
  - assert (y + 1 <= YearFromDay d) as Le by lia.
    destruct (Z.eq_dec (y + 1) (YearFromDay d)) as [E | N]; [rewrite E in H; lia |].
    pose proof (DayFromYear_lt (y + 1) (YearFromDay d) ltac:(lia)). lia.
Qed.

Lemma monthStart_leap (l : bool) (m : Z) :
  0 <= m <= 12 ->
  monthStart l m = monthStart false m + (if l then (if 2 <=? m then 1 else 0) else 0).
Proof.
  intros H.
  assert (m = 0 \/ m = 1 \/ m = 2 \/ m = 3 \/ m = 4 \/ m = 5 \/ m = 6 \/ m = 7
          \/ m = 8 \/ m = 9 \/ m = 10 \/ m = 11 \/ m = 12) as C by lia.
  destruct l; repeat (destruct C as [-> | C]; [reflexivity |]); subst; reflexivity.
Qed.

Lemma DaysInMonth_range (y m : Z) : 0 <= m <= 11 -> 28 <= DaysInMonth y m <= 31.
Proof.
  intros H. unfold DaysInMonth.
  assert (m = 0 \/ m = 1 \/ m = 2 \/ m = 3 \/ m = 4 \/ m = 5 \/ m = 6 \/ m = 7
          \/ m = 8 \/ m = 9 \/ m = 10 \/ m = 11) as C by lia.
  destruct (InLeapYear y);
    repeat (destruct C as [-> | C]; [cbn; lia |]); subst; cbn; lia.
Qed.

Lemma monthStart_year (y : Z) : monthStart (InLeapYear y) 12 = DaysInYear y.
Proof. unfold DaysInYear. destruct (InLeapYear y); reflexivity. Qed.

(** The civil date of a day number made from a civil date. *)
Lemma civil_of_MakeDay (y m dt : Z) :
  0 <= m <= 11 -> 1 <= dt <= DaysInMonth y m ->
  YearFromDay (MakeDay y m dt) = y
  /\ MonthFromDay (MakeDay y m dt) = m
  /\ DateFromDay (MakeDay y m dt) = dt.
Proof.
  intros Hm Hd.
  assert (MakeDay y m dt = DayFromYear y + monthStart (InLeapYear y) m + dt - 1) as E.
  { unfold MakeDay. rewrite Z.div_small, Z.mod_small by lia.
    rewrite Z.add_0_r. reflexivity. }
  assert (YearFromDay (MakeDay y m dt) = y) as Y.
  { apply YearFromDay_unique. rewrite E, DayFromYear_succ, <- monthStart_year.
    unfold DaysInMonth in Hd.
    assert (m = 0 \/ m = 1 \/ m = 2 \/ m = 3 \/ m = 4 \/ m = 5 \/ m = 6 \/ m = 7
            \/ m = 8 \/ m = 9 \/ m = 10 \/ m = 11) as C by lia.
    destruct (InLeapYear y);
      repeat (destruct C as [-> | C]; [cbn in *; lia |]); subst; cbn in *; lia. }
  assert (MonthFromDay (MakeDay y m dt) = m) as M.
  { unfold MonthFromDay, DayWithinYear. rewrite Y, E.
    unfold DaysInMonth in Hd.
    assert (m = 0 \/ m = 1 \/ m = 2 \/ m = 3 \/ m = 4 \/ m = 5 \/ m = 6 \/ m = 7
            \/ m = 8 \/ m = 9 \/ m = 10 \/ m = 11) as C by lia.
    destruct (InLeapYear y);
      repeat (destruct C as [-> | C];
              [cbn in *;
               repeat match goal with
                      | |- context [?a <? ?b] =>
                          destruct (Z.ltb_spec a b); try lia
                      end; reflexivity |]);
      subst; cbn in *;
      repeat match goal with
             | |- context [?a <? ?b] => destruct (Z.ltb_spec a b); try lia
             end; reflexivity. }
  split; [exact Y | split; [exact M |]].
  unfold DateFromDay, DayWithinYear. rewrite M, Y, E. lia.
Qed.

Lemma MonthFromDay_range (d : Z) : 0 <= MonthFromDay d <= 11.
Proof.
  unfold MonthFromDay.
  repeat match goal with
         | |- context [if ?c then _ else _] => destruct c
         end; lia.
Qed.

(** Every day number is made from its own civil date. *)
Lemma MakeDay_of_civil (d : Z) :
  MakeDay (YearFromDay d) (MonthFromDay d) (DateFromDay d) = d.
Proof.
  pose proof (MonthFromDay_range d) as R.
  unfold MakeDay. rewrite Z.div_small, Z.mod_small by lia.
  rewrite Z.add_0_r. unfold DateFromDay, DayWithinYear. lia.
Qed.

Lemma DateFromDay_range (d : Z) :
  1 <= DateFromDay d <= DaysInMonth (YearFromDay d) (MonthFromDay d).
Proof.
  pose proof (YearFromDay_spec d) as S.
  rewrite DayFromYear_succ, <- monthStart_year in S.
  unfold DateFromDay, DaysInMonth, MonthFromDay, DayWithinYear in *.
  destruct (InLeapYear (YearFromDay d));
    repeat match goal with
           | |- context [?a <? ?b] => destruct (Z.ltb_spec a b)
           end; cbn in *; lia.
Qed.

(** Years do not decrease with the days. *)
Lemma YearFromDay_mono (d d' : Z) : d <= d' -> YearFromDay d <= YearFromDay d'.
Proof.
  intros L. pose proof (YearFromDay_spec d) as [A _].
  pose proof (YearFromDay_spec d') as [_ B].
  destruct (Z.le_gt_cases (YearFromDay d) (YearFromDay d')) as [H | H];
    [exact H |].
  exfalso.
  pose proof (DayFromYear_lt (YearFromDay d') (YearFromDay d) H) as M.
  assert (YearFromDay d' + 1 <= YearFromDay d) as M' by lia.
  destruct (Z.eq_dec (YearFromDay d' + 1) (YearFromDay d)) as [E | N].
  - rewrite E in B. lia.
  - pose proof (DayFromYear_lt (YearFromDay d' + 1) (YearFromDay d) ltac:(lia)).
    lia.
Qed.

End CalendarFacts.

(** ** Calendar-day strings *)

Section IsoStringFacts.

Import JsDate Recurrence Notions.

Lemma code_range (c : ascii) : 0 <= Str.code c < 256.
Proof.
  unfold Str.code. pose proof (nat_ascii_bounded c). lia.
Qed.

Lemma code_digitChar (n : Z) : Str.code (Str.digitChar n) = 48 + n mod 10.
Proof.
  unfold Str.code, Str.digitChar.
  rewrite nat_ascii_embedding by zlia. zlia.
Qed.

Lemma isDigit_digitChar (n : Z) : Str.isDigit (Str.digitChar n) = true.
Proof.
  unfold Str.isDigit. rewrite code_digitChar.
  apply andb_true_iff; split; apply Z.leb_le; zlia.
Qed.

Lemma digitVal_digitChar (n : Z) : Str.digitVal (Str.digitChar n) = n mod 10.
Proof. unfold Str.digitVal. rewrite code_digitChar. lia. Qed.

Lemma digitVal_range (c : ascii) :
  Str.isDigit c = true -> 0 <= Str.digitVal c <= 9.
Proof.
  unfold Str.isDigit, Str.digitVal. intros H.
  apply andb_true_iff in H. destruct H as [A B].
  apply Z.leb_le in A, B. lia.
Qed.

Lemma digitChar_digitVal (c : ascii) (k : Z) :
  Str.isDigit c = true -> k mod 10 = Str.digitVal c -> Str.digitChar k = c.
Proof.
  intros H E. pose proof (digitVal_range c H) as R.
  unfold Str.digitChar. rewrite E. unfold Str.digitVal, Str.code in *.
  replace (48 + (Z.of_nat (nat_of_ascii c) - 48)) with (Z.of_nat (nat_of_ascii c)) by lia.
  rewrite Nat2Z.id. apply ascii_nat_embedding.
Qed.

Lemma readDigits_cons (acc : Z) (c : ascii) (s : string) :
  Str.readDigits acc (String c s) = Str.readDigits (10 * acc + Str.digitVal c) s.
Proof. reflexivity. Qed.

Lemma readDigits_nil (acc : Z) : Str.readDigits acc "" = acc.
Proof. reflexivity. Qed.

Lemma toIsoDate_civil (t : Z) :
  0 <= YearFromDay t <= 9999 ->
  toIsoDate t = isoOfCivil (YearFromDay t) (MonthFromDay t + 1) (DateFromDay t).
Proof.
  intros H. unfold toIsoDate, toISOString, isoYear, isoOfCivil.
  replace ((0 <=? YearFromDay t) && (YearFromDay t <=? 9999)) with true
    by (symmetry; apply andb_true_iff; split; apply Z.leb_le; lia).
  reflexivity.
Qed.

Lemma isoFields_isoOfCivil (y m d : Z) :
  0 <= y <= 9999 -> 0 <= m <= 99 -> 0 <= d <= 99 ->
  isoFields (isoOfCivil y m d) = Some (y, m, d).
Proof.
  intros Hy Hm Hd. unfold isoOfCivil.
  cbn [Str.fixedDigits String.append isoFields].
  rewrite !isDigit_digitChar. cbn [andb Ascii.eqb Bool.eqb].
  rewrite !readDigits_cons, !readDigits_nil.
  rewrite !digitVal_digitChar.
  f_equal. f_equal; [f_equal |]; zlia.
Qed.

Lemma Some_fields (a b c a' b' c' : Z) :
  Some (a, b, c) = Some (a', b', c') -> a = a' /\ b = b' /\ c = c'.
Proof. intros H. injection H as -> -> ->. auto. Qed.

(** A string that passes the pattern is the string of its own fields. *)
Lemma isoOfCivil_isoFields (s : string) (y m d : Z) :
  isoFields s = Some (y, m, d) ->
  s = isoOfCivil y m d /\ 0 <= y <= 9999 /\ 0 <= m <= 99 /\ 0 <= d <= 99.
Proof.
  unfold isoFields.
  destruct s as [| y1 [| y2 [| y3 [| y4 [| s1 [| m1 [| m2 [| s2 [| d1 [| d2 [| ? ?]]]]]]]]]]];
    try discriminate.
  destruct (Str.isDigit y1) eqn:Y1; [| discriminate].
  destruct (Str.isDigit y2) eqn:Y2; [| discriminate].
  destruct (Str.isDigit y3) eqn:Y3; [| discriminate].
  destruct (Str.isDigit y4) eqn:Y4; [| discriminate].
  destruct (Ascii.eqb_spec s1 "-"%char) as [-> | N1]; [| discriminate].
  destruct (Str.isDigit m1) eqn:M1; [| discriminate].
  destruct (Str.isDigit m2) eqn:M2; [| discriminate].
  destruct (Ascii.eqb_spec s2 "-"%char) as [-> | N2]; [| discriminate].
  destruct (Str.isDigit d1) eqn:D1; [| discriminate].
  destruct (Str.isDigit d2) eqn:D2; [| discriminate].
  cbn [andb]. rewrite !readDigits_cons, !readDigits_nil.
  intros H. apply Some_fields in H. destruct H as (Ey & Em & Ed).
  pose proof (digitVal_range _ Y1). pose proof (digitVal_range _ Y2).
  pose proof (digitVal_range _ Y3). pose proof (digitVal_range _ Y4).
  pose proof (digitVal_range _ M1). pose proof (digitVal_range _ M2).
  pose proof (digitVal_range _ D1). pose proof (digitVal_range _ D2).
  split; [| zlia].
  unfold isoOfCivil. cbn [Str.fixedDigits String.append].
  repeat f_equal; symmetry; apply digitChar_digitVal; trivial; zlia.
Qed.

Lemma toIsoDate_extended (t : Z) :
  ~ 0 <= YearFromDay t <= 9999 -> isoFields (toIsoDate t) = None.
Proof.
  intros H. destruct (isoFields (toIsoDate t)) as [[[y m] d] |] eqn:E; [| reflexivity].
  exfalso. apply isoOfCivil_isoFields in E. destruct E as [E _].
  revert E. unfold toIsoDate, toISOString, isoYear, isoOfCivil.
  replace ((0 <=? YearFromDay t) && (YearFromDay t <=? 9999)) with false
    by (symmetry; apply andb_false_iff;
        rewrite Z.leb_gt, Z.leb_gt; lia).
  cbn [Str.fixedDigits String.append Str.take].
  intros E. injection E as E _.
  assert (Str.code (if YearFromDay t <? 0 then "-"%char else "+"%char) < 48) as L
    by (destruct (YearFromDay t <? 0); reflexivity).
  rewrite E, code_digitChar in L. zlia.
Qed.

End IsoStringFacts.

(** ** [parseIsoDate] accepts exactly the calendar days *)

Section ParseIsoDateFacts.

Import JsDate Recurrence Notions.

Lemma parseIsoDate_toIsoDate (t : Z) :
  0 <= YearFromDay t <= 9999 -> parseIsoDate (toIsoDate t) = Some t.
Proof.
  intros H. pose proof (MonthFromDay_range t) as Rm.
  pose proof (DateFromDay_range t) as Rd.
  pose proof (DaysInMonth_range (YearFromDay t) (MonthFromDay t) Rm) as Rl.
  unfold parseIsoDate. rewrite (toIsoDate_civil t H) at 1.
  rewrite isoFields_isoOfCivil by lia.
  unfold parseUtcMidnight.
  replace ((1 <=? MonthFromDay t + 1) && (MonthFromDay t + 1 <=? 12)
           && (1 <=? DateFromDay t) && (DateFromDay t <=? 31)) with true
    by (symmetry; rewrite !andb_true_iff, !Z.leb_le; lia).
  replace (MonthFromDay t + 1 - 1) with (MonthFromDay t) by lia.
  rewrite MakeDay_of_civil, String.eqb_refl. reflexivity.
Qed.

Lemma parseIsoDate_Some (s : string) (t : Z) :
  parseIsoDate s = Some t -> s = toIsoDate t /\ 0 <= YearFromDay t <= 9999.
Proof.
  unfold parseIsoDate.
  destruct (isoFields s) as [[[y m] d] |] eqn:F; [| discriminate].
  destruct (parseUtcMidnight y m d) as [t0 |]; [| discriminate].
  destruct (String.eqb_spec (toIsoDate t0) s) as [E | N]; [| discriminate].
  intros H. injection H as <-. split; [symmetry; exact E |].
  destruct (Z_le_dec 0 (YearFromDay t0)) as [A |];
    [destruct (Z_le_dec (YearFromDay t0) 9999) as [B |] |]; [lia | |];
    rewrite <- E, toIsoDate_extended in F by lia; discriminate.
Qed.

Lemma parseIsoDate_calendar (s : string) :
  isCalendarDay s = true -> exists t, parseIsoDate s = Some t.
Proof.
  unfold isCalendarDay.
  destruct (isoFields s) as [[[y m] d] |] eqn:F; [| discriminate].
  rewrite !andb_true_iff, !Z.leb_le. intros [[[M1 M2] D1] D2].
  destruct (isoOfCivil_isoFields s y m d F) as (E & Ry & _ & _).
  destruct (civil_of_MakeDay y (m - 1) d ltac:(lia) ltac:(lia)) as (Cy & Cm & Cd).
  exists (MakeDay y (m - 1) d).
  assert (toIsoDate (MakeDay y (m - 1) d) = s) as T.
  { rewrite toIsoDate_civil by (rewrite Cy; lia).
    rewrite Cy, Cm, Cd, E. f_equal. lia. }
  rewrite <- T at 1. apply parseIsoDate_toIsoDate. rewrite Cy. lia.
Qed.

Lemma parseIsoDate_not_calendar (s : string) :
  isCalendarDay s = false -> parseIsoDate s = None.
Proof.
  intros H. destruct (parseIsoDate s) as [t |] eqn:P; [| reflexivity].
  exfalso. apply parseIsoDate_Some in P. destruct P as [E R].
  pose proof (MonthFromDay_range t) as Rm.
  pose proof (DateFromDay_range t) as Rd.
  pose proof (DaysInMonth_range (YearFromDay t) (MonthFromDay t) Rm) as Rl.
  revert H. unfold isCalendarDay.
  rewrite E, toIsoDate_civil, isoFields_isoOfCivil by lia.
  replace (MonthFromDay t + 1 - 1) with (MonthFromDay t) by lia.
  replace ((1 <=? MonthFromDay t + 1) && (MonthFromDay t + 1 <=? 12)
           && (1 <=? DateFromDay t)
           && (DateFromDay t <=? DaysInMonth (YearFromDay t) (MonthFromDay t)))
    with true by (symmetry; rewrite !andb_true_iff, !Z.leb_le; lia).
  discriminate.
Qed.

(** A calendar-day string names one day only. *)
Lemma toIsoDate_parses_back (t t' : Z) :
  parseIsoDate (toIsoDate t) = Some t' -> t' = t.
Proof.
  intros P.
  assert (0 <= YearFromDay t <= 9999 \/ ~ 0 <= YearFromDay t <= 9999) as [R | R]
    by lia.
  - rewrite (parseIsoDate_toIsoDate t R) in P. congruence.
  - unfold parseIsoDate in P. rewrite (toIsoDate_extended t R) in P.
    discriminate P.
Qed.

End ParseIsoDateFacts.

(** ** Next occurrence *)

Section RecurrenceFacts.

Import JsDate Recurrence Notions.

(** Day [dt] of the month of [t], whatever [dt] is. *)
Lemma setUTCDate_MakeDay (t dt : Z) :
  setUTCDate t dt = t + (dt - getUTCDate t).
Proof.
  unfold setUTCDate, getUTCDate.
  pose proof (MakeDay_of_civil t) as E. unfold MakeDay in *. lia.
Qed.

(** Adding days: [setUTCDate(getUTCDate() + n)] moves [n] days on. *)
Lemma setUTCDate_add (t n : Z) : setUTCDate t (getUTCDate t + n) = t + n.
Proof. rewrite setUTCDate_MakeDay. lia. Qed.

(** Month lengths survive the year adjustment of [Date.UTC], except for
    February of the year 0. *)
Lemma DaysInMonth_MakeFullYear (y m : Z) :
  0 <= m <= 11 -> ~ (y = 0 /\ m = 1) ->
  DaysInMonth (MakeFullYear y) m = DaysInMonth y m.
Proof.
  intros Hm N. unfold MakeFullYear.
  destruct ((0 <=? y) && (y <=? 99)) eqn:R; [| reflexivity].
  apply andb_true_iff in R. rewrite !Z.leb_le in R.
  unfold DaysInMonth.
  assert (m = 1 \/ m <> 1) as [-> | M] by lia.
  - assert (InLeapYear (1900 + y) = InLeapYear y) as ->; [| reflexivity].
    unfold InLeapYear.
    assert ((1900 + y) mod 4 = y mod 4) as -> by zlia.
    assert (y mod 100 = y) as E1 by zlia.
    assert ((1900 + y) mod 100 = y) as E2 by zlia.
    assert (y mod 400 = y) as E3 by zlia.
    assert ((1900 + y) mod 400 <> 0) as E4 by zlia.
    rewrite E1, E2, E3.
    destruct (Z.eqb_spec y 0); [lia |].
    destruct (Z.eqb_spec ((1900 + y) mod 400) 0); [lia |]. reflexivity.
  - assert (m = 0 \/ m = 2 \/ m = 3 \/ m = 4 \/ m = 5 \/ m = 6 \/ m = 7
            \/ m = 8 \/ m = 9 \/ m = 10 \/ m = 11) as C by lia.
    destruct (InLeapYear (1900 + y)), (InLeapYear y);
      repeat (destruct C as [-> | C]; [reflexivity |]); subst; reflexivity.
Qed.

(** Day 0 of the next month is the last day of this one. *)
Lemma last_day_of_month (y m : Z) :
  0 <= m <= 11 -> DateFromDay (MakeDay y (m + 1) 0) = DaysInMonth y m.
Proof.
  intros Hm.
  assert (MakeDay y (m + 1) 0 = MakeDay y m (DaysInMonth y m)) as ->.
  { unfold MakeDay, DaysInMonth.
    rewrite (Z.div_small m), (Z.mod_small m), Z.add_0_r by lia.
    assert (m = 11 \/ m < 11) as [-> | L] by lia.
    - change (11 + 1) with 12. change (12 / 12) with 1. change (12 mod 12) with 0.
      rewrite DayFromYear_succ, <- monthStart_year.
      change (monthStart (InLeapYear (y + 1)) 0) with 0.
      rewrite ?Z.add_0_r. lia.
    - rewrite (Z.div_small (m + 1)), (Z.mod_small (m + 1)) by lia.
      rewrite ?Z.add_0_r. lia. }
  pose proof (DaysInMonth_range y m Hm).
  apply civil_of_MakeDay; lia.
Qed.

(** [addMonthsClamped]: the day of the month is kept, or clamped to the
    last day of the target month, as long as that month is not February
    of the year 0. *)
Lemma addMonthsClamped_spec (t n : Z) :
  let y := YearFromDay t in
  let m := MonthFromDay t in
  let d := DateFromDay t in
  let '(y', m') := monthAfter y m n in
  ~ (y' = 0 /\ m' = 1) ->
  addMonthsClamped t n = MakeDay y' m' (Z.min d (DaysInMonth y' m')).
Proof.
  cbv zeta. unfold monthAfter. intros N.
  set (y := YearFromDay t) in *. set (m := MonthFromDay t) in *.
  set (d := DateFromDay t) in *.
  set (y' := y + (m + n) / 12) in *. set (m' := (m + n) mod 12) in *.
  assert (0 <= m <= 11) as Rm by apply MonthFromDay_range.
  assert (0 <= m' <= 11) as Rm' by (subst m'; zlia).
  pose proof (DaysInMonth_range y m Rm) as Rl.
  pose proof (DaysInMonth_range y' m' Rm') as Rl'.
  destruct (civil_of_MakeDay y m 1 Rm ltac:(lia)) as (A1 & A2 & A3).
  destruct (civil_of_MakeDay y' m' 1 Rm' ltac:(lia)) as (B1 & B2 & B3).
  unfold addMonthsClamped, getUTCFullYear, getUTCMonth, getUTCDate.
  assert (setUTCDate t 1 = MakeDay y m 1) as S1 by reflexivity.
  rewrite S1, A2.
  assert (setUTCMonth (MakeDay y m 1) (m + n) = MakeDay y' m' 1) as S2.
  { unfold setUTCMonth. rewrite A1, A3. unfold MakeDay. subst y' m'.
    rewrite (Z.div_small ((m + n) mod 12)), Z.mod_mod, Z.add_0_r by zlia.
    reflexivity. }
  rewrite S2, B1, B2.
  unfold setUTCDate. rewrite B1, B2. unfold UTC.
  rewrite last_day_of_month, DaysInMonth_MakeFullYear by assumption.
  reflexivity.
Qed.

Lemma next_needs_valid_cursor (ty : TaskRecurrenceType) (rule : Js.Value)
  (cursor : string) :
  parseIsoDate cursor = None -> getNextTaskRecurrenceDate cursor ty rule = None.
Proof.
  intros H. unfold getNextTaskRecurrenceDate. rewrite H.
  destruct (getResolvedTaskRecurrenceRule ty rule); reflexivity.
Qed.

Lemma onOrAfterLoop_found (ty : TaskRecurrenceType) (rule : Js.Value) (target : Z) :
  forall (k n : nat) (cursor c : string),
    (k < n)%nat ->
    cursorAt ty rule cursor k = Some c ->
    reaches target (Some c) ->
    (forall j, (j < k)%nat -> ~ reaches target (cursorAt ty rule cursor j)) ->
    onOrAfterLoop n target ty rule cursor = Some c.
Proof.
  induction k as [| k IH]; intros n cursor c Hn Hc Hr Hmin.
  - destruct n as [| n]; [lia |].
    cbn in Hc. injection Hc as ->.
    destruct Hr as (s & d & E & P & L). injection E as <-.
    cbn [onOrAfterLoop]. rewrite P.
    destruct (Z.leb_spec target d); [reflexivity | lia].
  - destruct n as [| n]; [lia |].
    cbn [cursorAt] in Hc. cbn [onOrAfterLoop].
    destruct (parseIsoDate cursor) as [d |] eqn:P.
    + destruct (Z.leb_spec target d) as [L | L].
      * exfalso. apply (Hmin 0%nat); [lia |].
        exists cursor, d. auto.
      * destruct (truthy (getNextTaskRecurrenceDate cursor ty rule)) as [next |] eqn:T;
          [| discriminate Hc].
        apply IH; [lia | assumption | assumption |].
        intros j Hj. specialize (Hmin (S j) ltac:(lia)).
        cbn [cursorAt] in Hmin. rewrite T in Hmin. exact Hmin.
    + rewrite (next_needs_valid_cursor ty rule cursor P) in Hc. discriminate Hc.
Qed.

Lemma onOrAfterLoop_none (ty : TaskRecurrenceType) (rule : Js.Value) (target : Z) :
  forall (n : nat) (cursor : string),
    (forall k, (k < n)%nat -> ~ reaches target (cursorAt ty rule cursor k)) ->
    onOrAfterLoop n target ty rule cursor = None.
Proof.
  induction n as [| n IH]; intros cursor H; [reflexivity |].
  cbn [onOrAfterLoop].
  destruct (parseIsoDate cursor) as [d |] eqn:P; [| reflexivity].
  destruct (Z.leb_spec target d) as [L | L].
  - exfalso. apply (H 0%nat); [lia |]. exists cursor, d. auto.
  - destruct (truthy (getNextTaskRecurrenceDate cursor ty rule)) as [next |] eqn:T;
      [| reflexivity].
    apply IH. intros k Hk. specialize (H (S k) ltac:(lia)).
    cbn [cursorAt] in H. rewrite T in H. exact H.
Qed.

Lemma onOrAfterLoop_sound (ty : TaskRecurrenceType) (rule : Js.Value) (target : Z) :
  forall (n : nat) (cursor c : string),
    onOrAfterLoop n target ty rule cursor = Some c ->
    exists k, (k < n)%nat /\ cursorAt ty rule cursor k = Some c
              /\ reaches target (Some c)
              /\ forall j, (j < k)%nat -> ~ reaches target (cursorAt ty rule cursor j).
Proof.
  induction n as [| n IH]; intros cursor c H; [discriminate |].
  cbn [onOrAfterLoop] in H.
  destruct (parseIsoDate cursor) as [d |] eqn:P; [| discriminate].
  destruct (Z.leb_spec target d) as [L | L].
  - injection H as <-. exists 0%nat. repeat split; [lia | | intros j Hj; lia].
    exists cursor, d. auto.
  - destruct (truthy (getNextTaskRecurrenceDate cursor ty rule)) as [next |] eqn:T;
      [| discriminate].
    destruct (IH next c H) as (k & Hk & Hc & Hr & Hmin).
    exists (S k). repeat split; [lia | cbn [cursorAt]; rewrite T; exact Hc | exact Hr |].
    intros [| j] Hj.
    + intros (s & d' & E & P' & L'). cbn in E. injection E as <-.
      rewrite P in P'. injection P' as <-. lia.
    + cbn [cursorAt]. rewrite T. apply Hmin. lia.
Qed.

End RecurrenceFacts.

(** ** Claims about the recurrence calculator *)

Section RecurrenceClaims.

Import JsDate Recurrence Notions.

(** The next occurrence under a rule in months, wherever the lengths of
    the months are right: everywhere but February of the year 0. *)
Lemma monthly_next_clamps (ty : TaskRecurrenceType) (rule : Js.Value)
  (anchor : string) (t n : Z) :
  parseIsoDate anchor = Some t ->
  getResolvedTaskRecurrenceRule ty rule = Some (mkRule n UMonth) ->
  let '(y', m') := monthAfter (YearFromDay t) (MonthFromDay t) n in
  ~ (y' = 0 /\ m' = 1) ->
  getNextTaskRecurrenceDate anchor ty rule
  = Some (toIsoDate (MakeDay y' m' (Z.min (DateFromDay t) (DaysInMonth y' m')))).
Proof.
  intros P R. pose proof (addMonthsClamped_spec t n) as A. cbv zeta in A.
  destruct (monthAfter (YearFromDay t) (MonthFromDay t) n) as [y' m'].
  intros N. unfold getNextTaskRecurrenceDate. rewrite R, P.
  cbn [unit interval]. rewrite (A N). reflexivity.
Qed.

(** C1: the two examples of the claim hold, but the month step is wrong
    at both ends of the range of years.  February of the year 0 has 29
    days (0000-02-29 is a calendar day), yet one month after 0000-01-31,
    and after 0000-01-29, is 0000-02-28, because [Date.UTC] reads the
    year 0 as 1900 when the last day of the target month is computed.
    And one month after 9999-12-31 is the first ten characters of an
    extended-year string, which is not a calendar day. *)
Theorem month_step_wrong_at_the_ends_of_the_year_range :
  getNextTaskRecurrenceDate "2024-01-31" TMonthly Js.Null = Some "2024-02-29"
  /\ getNextTaskRecurrenceDate "2023-01-31" TMonthly Js.Null = Some "2023-02-28"
  /\ DaysInMonth 0 1 = 29
  /\ isCalendarDay "0000-01-31" = true
  /\ isCalendarDay "0000-02-29" = true
  /\ getNextTaskRecurrenceDate "0000-01-31" TMonthly Js.Null = Some "0000-02-28"
  /\ getNextTaskRecurrenceDate "0000-01-29" TMonthly Js.Null = Some "0000-02-28"
  /\ getNextTaskRecurrenceDate "9999-12-31" TMonthly Js.Null = Some "+010000-01"
  /\ isCalendarDay "+010000-01" = false.
Proof. repeat split; vm_compute; reflexivity. Qed.

(** C2: with a valid anchor and target, the search returns the anchor
    when the target is not after it; in general it returns the first
    cursor, among the anchor and its successors under
    [getNextTaskRecurrenceDate], that is on or after the target, provided
    that cursor is one of the first 4000; and it returns null when none of
    the first 4000 cursors reaches the target. *)
Theorem on_or_after_is_a_bounded_search
  (ty : TaskRecurrenceType) (rule : Js.Value) (anchor target : string) (a t : Z) :
  parseIsoDate anchor = Some a ->
  parseIsoDate target = Some t ->
  (t <= a -> getNextTaskRecurrenceOnOrAfter anchor ty rule target = Some anchor)
  /\ (forall c,
        getNextTaskRecurrenceOnOrAfter anchor ty rule target = Some c
        <-> exists k, (k < 4000)%nat
                      /\ cursorAt ty rule anchor k = Some c
                      /\ reaches t (Some c)
                      /\ forall j, (j < k)%nat ->
                                   ~ reaches t (cursorAt ty rule anchor j))
  /\ ((forall k, (k < 4000)%nat -> ~ reaches t (cursorAt ty rule anchor k)) ->
      getNextTaskRecurrenceOnOrAfter anchor ty rule target = None).
Proof.
  intros Pa Pt. unfold getNextTaskRecurrenceOnOrAfter. rewrite Pt.
  split; [| split].
  - intros L. apply (onOrAfterLoop_found ty rule t 0 4000 anchor anchor).
    + apply Nat.lt_0_succ.
    + reflexivity.
    + exists anchor, a. auto.
    + intros j Hj. inversion Hj.
  - intros c. split.
    + apply onOrAfterLoop_sound.
    + intros (k & Hk & Hc & Hr & Hmin).
      apply (onOrAfterLoop_found ty rule t k 4000 anchor c); assumption.
  - apply onOrAfterLoop_none.
Qed.

Lemma on_or_after_is_a_bounded_search_witness :
  getNextTaskRecurrenceOnOrAfter "2024-01-15" TWeekly Js.Null "2024-01-10"
  = Some "2024-01-15".
Proof.
  apply (proj1 (on_or_after_is_a_bounded_search TWeekly Js.Null
                  "2024-01-15" "2024-01-10" 19737 19732
                  ltac:(vm_compute; reflexivity) ltac:(vm_compute; reflexivity))).
  vm_compute. discriminate.
Defined.

(** The ceiling is exact: a daily rule reaches a target 3999 days after
    the anchor and gives null for a target 4000 days after it. *)
Example ceiling_of_4000_iterations :
  getNextTaskRecurrenceOnOrAfter "2024-01-01" TDaily Js.Null "2034-12-13"
  = Some "2034-12-13"
  /\ getNextTaskRecurrenceOnOrAfter "2024-01-01" TDaily Js.Null "2034-12-14"
     = None.
Proof. split; vm_compute; reflexivity. Qed.

(** C8: an anchor that is not a calendar day in the form YYYY-MM-DD has
    no next occurrence, and the search gives null when its anchor, its
    cursor or its target is such a string. *)
Theorem malformed_dates_give_null
  (ty : TaskRecurrenceType) (rule : Js.Value) (bad other : string)
  (n : nat) (target : Z) :
  isCalendarDay bad = false ->
  getNextTaskRecurrenceDate bad ty rule = None
  /\ getNextTaskRecurrenceOnOrAfter bad ty rule other = None
  /\ getNextTaskRecurrenceOnOrAfter other ty rule bad = None
  /\ onOrAfterLoop n target ty rule bad = None.
Proof.
  intros H. apply parseIsoDate_not_calendar in H.
  assert (forall k tg, onOrAfterLoop k tg ty rule bad = None) as L.
  { intros [| k] tg; [reflexivity |]. cbn [onOrAfterLoop]. rewrite H. reflexivity. }
  repeat split.
  - apply next_needs_valid_cursor. exact H.
  - unfold getNextTaskRecurrenceOnOrAfter.
    destruct (parseIsoDate other); [apply L | reflexivity].
  - unfold getNextTaskRecurrenceOnOrAfter. rewrite H. reflexivity.
  - apply L.
Qed.

Lemma malformed_dates_give_null_witness :
  getNextTaskRecurrenceDate "2024-02-30" TDaily Js.Null = None
  /\ getNextTaskRecurrenceOnOrAfter "2024-02-30" TDaily Js.Null "2024-03-01" = None
  /\ getNextTaskRecurrenceOnOrAfter "2024-03-01" TDaily Js.Null "2024-02-30" = None
  /\ onOrAfterLoop 5 0 TDaily Js.Null "2024-02-30" = None.
Proof.
  apply (malformed_dates_give_null TDaily Js.Null "2024-02-30" "2024-03-01" 5 0).
  vm_compute. reflexivity.
Defined.

(** C10: when the anchor is a calendar day on or after the target, the
    search returns the anchor even though the rule resolves to null and
    [getNextTaskRecurrenceDate] on the same arguments gives null. *)
Theorem anchor_returned_without_rule
  (ty : TaskRecurrenceType) (rule : Js.Value) (anchor target : string) (a t : Z) :
  parseIsoDate anchor = Some a ->
  parseIsoDate target = Some t ->
  t <= a ->
  getResolvedTaskRecurrenceRule ty rule = None ->
  getNextTaskRecurrenceOnOrAfter anchor ty rule target = Some anchor
  /\ getNextTaskRecurrenceDate anchor ty rule = None.
Proof.
  intros Pa Pt L R. split.
  - unfold getNextTaskRecurrenceOnOrAfter. rewrite Pt.
    change 4000%nat with (S 3999). cbn [onOrAfterLoop]. rewrite Pa.
    destruct (Z.leb_spec t a); [reflexivity | lia].
  - unfold getNextTaskRecurrenceDate. rewrite R. reflexivity.
Qed.

Lemma anchor_returned_without_rule_witness :
  (getNextTaskRecurrenceOnOrAfter "2024-05-20" TNone Js.Null "2024-05-01"
   = Some "2024-05-20"
   /\ getNextTaskRecurrenceDate "2024-05-20" TNone Js.Null = None)
  /\ (getNextTaskRecurrenceOnOrAfter "2024-05-20" TCustom (Js.Str "{oops") "2024-05-20"
      = Some "2024-05-20"
      /\ getNextTaskRecurrenceDate "2024-05-20" TCustom (Js.Str "{oops") = None).
Proof.
  split.
  - apply (anchor_returned_without_rule TNone Js.Null "2024-05-20" "2024-05-01"
             19863 19844);
      [vm_compute; reflexivity | vm_compute; reflexivity
       | vm_compute; discriminate | reflexivity].
  - apply (anchor_returned_without_rule TCustom (Js.Str "{oops")
             "2024-05-20" "2024-05-20" 19863 19863);
      [vm_compute; reflexivity | vm_compute; reflexivity
       | vm_compute; discriminate | vm_compute; reflexivity].
Defined.

End RecurrenceClaims.

(** ** Task writes and the recurrence behavior *)

Section TaskWriteClaims.

Import Recurrence Store TaskWrites Notions.

Lemma unique_key {A : Type} (key : A -> string) (rows : list A) (x y : A) :
  NoDup (map key rows) -> In x rows -> In y rows -> key x = key y -> x = y.
Proof.
  induction rows as [| r rows IH]; intros N Hx Hy E; [contradiction |].
  cbn in N. inversion N as [| ? ? Hn N']; subst.
  destruct Hx as [-> | Hx], Hy as [-> | Hy]; trivial.
  - exfalso. apply Hn. rewrite E. apply in_map. exact Hy.
  - exfalso. apply Hn. rewrite <- E. apply in_map. exact Hx.
  - apply IH; assumption.
Qed.

(** Case analysis on the next [match] of a handler, keeping the
    equations. *)
Ltac step :=
  match goal with
  | H : (_, _) = (_, _) |- _ => inversion H; subst; clear H
  | H : context [match ?x with _ => _ end] |- _ => destruct x eqn:?
  | |- context [match ?x with _ => _ end] => destruct x eqn:?
  end.

Lemma checkProject_reads (userId : string) (projectId : Field string)
  (db db' : Db) (r : Outcome Datatypes.unit) :
  checkProject userId projectId db = (db', r) -> db' = db.
Proof.
  unfold checkProject, bind, read, ret, throw. intros H.
  repeat step; reflexivity.
Qed.

(** [create-task] stores a normalized task, and stores nothing when it
    throws. *)
Lemma createTask_normalized (newTaskId : Db -> string) (clock userId : string)
  (args : CreateTaskArgs) (db : Db) :
  match createTask newTaskId clock userId args db with
  | (db', Returns t) => normalized t /\ tasks db' = (tasks db ++ [t])%list
  | (db', Throws _) => db' = db
  end.
Proof.
  unfold createTask.
  set (rt := orKeep (cRecurrenceType args) TNone).
  set (rb := match rt with TNone => AfterCompletion | _ => _ end).
  assert (rt = TNone -> rb = AfterCompletion) as N by (subst rb; intros ->; reflexivity).
  clearbody rb. clearbody rt.
  unfold bind, read, write, ret, throw.
  destruct (checkProject userId (cProjectId args) db) as [db1 [[] | e]] eqn:C;
    apply checkProject_reads in C; subst db1; [| reflexivity].
  repeat step; try reflexivity;
    (split; [exact N || (intros E; discriminate E) | reflexivity]).
Qed.

Lemma selectTask_Some (userId id : string) (db : Db) (t : Task) :
  selectTask userId id db = Some t -> In t (tasks db) /\ taskId t = id.
Proof.
  unfold selectTask. intros H. apply find_some in H. destruct H as [I C].
  split; [exact I |].
  apply andb_true_iff in C. destruct C as [C _].
  apply andb_true_iff in C. destruct C as [C _].
  apply String.eqb_eq. exact C.
Qed.

(** Setting columns of the row with a given key keeps the table
    normalized when the changed row is. *)
Lemma updateTask_normalized (id : string) (u : TaskUpdates) (db db' : Db)
  (r : Outcome (option Task)) (existing : Task) :
  NoDup (map taskId (tasks db)) ->
  Forall normalized (tasks db) ->
  In existing (tasks db) -> taskId existing = id ->
  normalized (applyUpdates u existing) ->
  updateTask id u db = (db', r) ->
  Forall normalized (tasks db').
Proof.
  intros N F I E A H. unfold updateTask, bind, write, read in H.
  injection H as <- _. cbn [setTasks tasks].
  apply Forall_forall. intros t' Ht'. apply in_map_iff in Ht'.
  destruct Ht' as (t & <- & Ht).
  destruct (String.eqb_spec (taskId t) id) as [K | K].
  - assert (t = existing) as -> by (apply (unique_key taskId (tasks db)); congruence).
    exact A.
  - rewrite Forall_forall in F. apply F. exact Ht.
Qed.

(** [update-task] keeps the table normalized. *)
Lemma updateTaskTool_keeps_normalized (clock userId : string)
  (args : UpdateTaskArgs) (db db' : Db) (r : Outcome (option Task)) :
  NoDup (map taskId (tasks db)) ->
  Forall normalized (tasks db) ->
  updateTaskTool clock userId args db = (db', r) ->
  Forall normalized (tasks db').
Proof.
  intros N F H. unfold updateTaskTool in H.
  unfold bind at 1 in H. unfold read at 1 in H.
  destruct (selectTask userId (uId args) db) as [existing |] eqn:S.
  2:{ unfold throw in H. injection H as <- _. exact F. }
  apply selectTask_Some in S. destruct S as [I E].
  assert (normalized existing) as Nx by (rewrite Forall_forall in F; apply F, I).
  unfold bind at 1 in H.
  destruct (checkProject userId (uProjectId args) db) as [db1 [[] | e]] eqn:C;
    apply checkProject_reads in C; subst db1.
  2:{ injection H as <- _. exact F. }
  destruct (ruleAfterArgument (uRecurrenceRule args) (recurrenceRule existing))
    as [nextRule |].
  2:{ unfold throw in H. injection H as <- _. exact F. }
  set (nextT := orKeep (uRecurrenceType args) (recurrenceType existing)) in *.
  set (nextB := orKeep (uRecurrenceBehavior args) (recurrenceBehavior existing)) in *.
  (* the rule *)
  unfold bind at 1 in H.
  match type of H with
  | context [match ?m db with _ => _ end] =>
      destruct (m db) as [db1 [rule' | e]] eqn:R
  end.
  2:{ injection H as <- _.
      revert R. unfold ret, throw.
      repeat match goal with
             | |- context [if ?c then _ else _] => destruct c
             end; intros [= <- _]; exact F. }
  assert (db1 = db) as ->.
  { revert R. unfold ret, throw.
    repeat match goal with
           | |- context [if ?c then _ else _] => destruct c
           end; intros [= <- _]; reflexivity. }
  clear R.
  (* the behavior *)
  unfold bind at 1 in H.
  match type of H with
  | context [match ?m db with _ => _ end] =>
      destruct (m db) as [db1 [behavior' | e]] eqn:B
  end.
  2:{ injection H as <- _.
      revert B. unfold ret, throw.
      destruct nextT, nextB;
        repeat match goal with
               | |- context [if ?c then _ else _] => destruct c
               end; intros [= <- _]; exact F. }
  assert (db1 = db /\ (nextT = TNone -> behavior' = AfterCompletion)) as [-> Nb].
  { revert B. unfold ret, throw.
    destruct nextT, nextB;
      repeat match goal with
             | |- context [if ?c then _ else _] => destruct c
             end; intros [= <- <-]; split; trivial; discriminate. }
  clear B.
  eapply updateTask_normalized; [exact N | exact F | exact I | exact E | | exact H].
  unfold normalized, applyUpdates. cbn [recurrenceType recurrenceBehavior
    setRecurrenceType setRecurrenceBehavior].
  subst nextT. unfold normalized in Nx.
  destruct (uRecurrenceType args) as [ty |], (uRecurrenceBehavior args) as [b |];
    cbn [isNull negb orb whenGiven orKeep] in *; auto.
Qed.


End TaskWriteClaims.

(** ** Dispatches: get-or-create and links *)

Section DispatchFacts.

Import Store Dispatches Notions.

Variable newDispatchId : Db -> string.

Lemma pairEqb_eq (p q : string * string) : pairEqb p q = true <-> p = q.
Proof.
  destruct p as [a b], q as [c d]. unfold pairEqb. cbn [fst snd].
  rewrite andb_true_iff, !String.eqb_eq. split.
  - intros [-> ->]. reflexivity.
  - intros [= -> ->]. auto.
Qed.

Lemma selectLink_None (dispatchId taskId : string) (db : Db) :
  selectLink dispatchId taskId db = None <->
  ~ In (dispatchId, taskId) (dispatchTasks db).
Proof.
  unfold selectLink. split.
  - intros H I. apply (find_none _ _ H) in I.
    assert (pairEqb (dispatchId, taskId) (dispatchId, taskId) = true) as E
      by (apply pairEqb_eq; reflexivity).
    congruence.
  - intros H. destruct (find _ _) as [p |] eqn:F; [| reflexivity].
    apply find_some in F. destruct F as [I E].
    apply pairEqb_eq in E. subst p. contradiction.
Qed.

Lemma filter_none {A : Type} (f : A -> bool) (l : list A) :
  (forall x, In x l -> f x = false) -> filter f l = [].
Proof.
  induction l as [| a l IH]; intros H; [reflexivity |].
  cbn. rewrite (H a) by (left; reflexivity).
  apply IH. intros x Hx. apply H. right. exact Hx.
Qed.

Lemma filter_all {A : Type} (f : A -> bool) (l : list A) :
  (forall x, In x l -> f x = true) -> filter f l = l.
Proof.
  induction l as [| a l IH]; intros H; [reflexivity |].
  cbn. rewrite (H a) by (left; reflexivity).
  f_equal. apply IH. intros x Hx. apply H. right. exact Hx.
Qed.

Lemma linkCount_absent (p : string * string) (db : Db) :
  ~ In p (dispatchTasks db) -> linkCount p db = 0%nat.
Proof.
  intros H. unfold linkCount. rewrite filter_none; [reflexivity |].
  intros x Hx. destruct (pairEqb p x) eqn:E; [| reflexivity].
  apply pairEqb_eq in E. subst x. contradiction.
Qed.

Lemma linkCount_present (p : string * string) (db : Db) :
  In p (dispatchTasks db) -> (1 <= linkCount p db)%nat.
Proof.
  unfold linkCount. induction (dispatchTasks db) as [| q l IH]; [contradiction |].
  intros [-> | H]; cbn.
  - replace (pairEqb p p) with true by (symmetry; apply pairEqb_eq; reflexivity).
    cbn. lia.
  - destruct (pairEqb p q); cbn; [lia | auto].
Qed.

Lemma getOrCreateDispatch_found (clock userId date : string) (db : Db)
  (row : Dispatch) :
  find (fun d => String.eqb (dispatchUser d) userId && String.eqb (Store.date d) date)
       (dispatches db) = Some row ->
  getOrCreateDispatch newDispatchId clock userId date db = (db, Returns row).
Proof.
  intros F. unfold getOrCreateDispatch, bind, read. rewrite F. reflexivity.
Qed.

Lemma getOrCreateDispatch_created (clock userId date : string) (db : Db) :
  find (fun d => String.eqb (dispatchUser d) userId && String.eqb (Store.date d) date)
       (dispatches db) = None ->
  let created := mkDispatch (newDispatchId db) userId date None false clock clock in
  getOrCreateDispatch newDispatchId clock userId date db
  = (setDispatches (fun rows => (rows ++ [created])%list) db, Returns created).
Proof.
  intros F. unfold getOrCreateDispatch, bind, read, write, ret. rewrite F.
  reflexivity.
Qed.

Lemma find_app_new {A : Type} (f : A -> bool) (l : list A) (a : A) :
  find f l = None -> f a = true -> find f (l ++ [a]) = Some a.
Proof.
  induction l as [| x l IH]; cbn; intros N T.
  - rewrite T. reflexivity.
  - destruct (f x); [discriminate | auto].
Qed.

(** [getOrCreateDispatch] always returns a row and touches only the
    table of dispatches. *)
Lemma getOrCreateDispatch_returns (clock userId date : string) (db : Db) :
  exists db1 row,
    getOrCreateDispatch newDispatchId clock userId date db = (db1, Returns row)
    /\ dispatchTasks db1 = dispatchTasks db
    /\ tasks db1 = tasks db.
Proof.
  destruct (find (fun d => String.eqb (dispatchUser d) userId
                           && String.eqb (Store.date d) date)
                 (dispatches db)) as [row |] eqn:F.
  - exists db, row. rewrite (getOrCreateDispatch_found _ _ _ _ row F). auto.
  - eexists. eexists. rewrite (getOrCreateDispatch_created clock _ _ _ F).
    cbv zeta. split; [reflexivity |]. split; reflexivity.
Qed.

(** C4: two calls of [getOrCreateDispatch] for the same user and date
    return the same row, the second call changes nothing, and a row is
    added at most once, only when none existed; linking a pair twice
    succeeds both times, the second time without any change, and leaves
    exactly one link row when the pair had at most one; unlinking a pair
    that is not linked changes nothing. *)
Theorem dispatch_operations_are_idempotent
  (clock1 clock2 userId date dispatchId taskId : string) (db : Db) :
  (exists db1 row,
     getOrCreateDispatch newDispatchId clock1 userId date db = (db1, Returns row)
     /\ getOrCreateDispatch newDispatchId clock2 userId date db1 = (db1, Returns row)
     /\ dispatchUser row = userId /\ Store.date row = date
     /\ (dispatches db1 = dispatches db
         \/ (dispatches db1 = (dispatches db ++ [row])%list
             /\ forall d, In d (dispatches db) ->
                          ~ (dispatchUser d = userId /\ Store.date d = date))))
  /\ (forall db1 p,
        linkTaskToDispatch userId dispatchId taskId db = (db1, Returns p) ->
        p = (dispatchId, taskId)
        /\ linkTaskToDispatch userId dispatchId taskId db1 = (db1, Returns p)
        /\ In p (dispatchTasks db1)
        /\ (In p (dispatchTasks db) -> db1 = db)
        /\ ((linkCount p db <= 1)%nat -> linkCount p db1 = 1%nat))
  /\ (forall db1 r,
        unlinkTaskFromDispatch userId dispatchId taskId db = (db1, r) ->
        ~ In (dispatchId, taskId) (dispatchTasks db) -> db1 = db).
Proof.
  split; [| split].
  - destruct (find (fun d => String.eqb (dispatchUser d) userId
                             && String.eqb (Store.date d) date)
                   (dispatches db)) as [row |] eqn:F.
    + exists db, row.
      rewrite !(getOrCreateDispatch_found _ _ _ _ row F).
      apply find_some in F. destruct F as [_ C].
      apply andb_true_iff in C. rewrite !String.eqb_eq in C.
      repeat split; try tauto; left; reflexivity.
    + rewrite (getOrCreateDispatch_created clock1 _ _ _ F). cbv zeta.
      set (row := mkDispatch (newDispatchId db) userId date None false clock1 clock1).
      exists (setDispatches (fun rows => (rows ++ [row])%list) db), row.
      repeat split.
      * apply getOrCreateDispatch_found. cbn [setDispatches dispatches].
        apply find_app_new; [exact F |].
        cbn. rewrite !String.eqb_refl. reflexivity.
      * right. split; [reflexivity |].
        intros d Hd [E1 E2]. apply (find_none _ _ F) in Hd.
        rewrite E1, E2, !String.eqb_refl in Hd. discriminate.
  - intros db1 p H. unfold linkTaskToDispatch in H.
    unfold bind at 1 in H. unfold read at 1 in H.
    destruct (selectDispatch userId dispatchId db) as [d |] eqn:Sd;
      [| discriminate H].
    destruct (finalized d) eqn:Fd; [discriminate H |].
    unfold bind at 1 in H. unfold read at 1 in H.
    destruct (find _ (tasks db)) as [t |] eqn:St; [| discriminate H].
    assert (Store.dispatchId d = dispatchId) as Ed.
    { apply find_some in Sd. destruct Sd as [_ C].
      apply andb_true_iff in C. apply String.eqb_eq. tauto. }
    assert (Store.taskId t = taskId) as Et.
    { apply find_some in St. destruct St as [_ C].
      rewrite !andb_true_iff in C. apply String.eqb_eq. tauto. }
    rewrite Ed, Et in H.
    unfold bind, read, ret in H.
    (* the second call sees the same dispatch and task *)
    assert (forall links,
              linkTaskToDispatch userId dispatchId taskId
                (mkDb (dispatches db) links (tasks db) (projects db))
              = (if isNull (find (pairEqb (dispatchId, taskId)) links)
                 then mkDb (dispatches db) (links ++ [(dispatchId, taskId)])%list
                        (tasks db) (projects db)
                 else mkDb (dispatches db) links (tasks db) (projects db),
                 Returns (dispatchId, taskId))) as Again.
    { intros links. unfold linkTaskToDispatch, bind, read, ret, selectDispatch,
        selectLink, insertLink, write, setDispatchTasks.
      cbn [dispatches tasks dispatchTasks projects].
      unfold selectDispatch in Sd. rewrite Sd, Fd.
      cbn [dispatches tasks dispatchTasks projects]. rewrite St.
      cbn [dispatches tasks dispatchTasks projects]. rewrite Ed, Et.
      destruct (find (pairEqb (dispatchId, taskId)) links); reflexivity. }
    destruct (selectLink dispatchId taskId db) as [l |] eqn:Sl.
    + (* already linked *)
      cbn [isNull] in H. injection H as <- <-.
      assert (In (dispatchId, taskId) (dispatchTasks db)) as I.
      { unfold selectLink in Sl. apply find_some in Sl. destruct Sl as [I E].
        apply pairEqb_eq in E. subst l. exact I. }
      repeat split; trivial.
      * destruct db as [ds ls ts ps]. cbn [dispatches dispatchTasks tasks projects] in *.
        rewrite Again. unfold selectLink in Sl. cbn [dispatchTasks] in Sl.
        rewrite Sl. reflexivity.
      * intros L. pose proof (linkCount_present _ _ I). lia.
    + (* a new link *)
      cbn [isNull] in H. unfold insertLink, write in H. injection H as <- <-.
      pose proof (proj1 (selectLink_None _ _ _) Sl) as NI.
      repeat split.
      * unfold setDispatchTasks. rewrite Again.
        rewrite find_app_new;
          [reflexivity | exact Sl | apply pairEqb_eq; reflexivity].
      * cbn [setDispatchTasks dispatchTasks]. apply in_or_app. right. left. reflexivity.
      * intros I. contradiction.
      * intros _. unfold linkCount. cbn [setDispatchTasks dispatchTasks].
        rewrite filter_app, length_app.
        fold (linkCount (dispatchId, taskId) db).
        rewrite (linkCount_absent _ _ NI). cbn [filter].
        replace (pairEqb (dispatchId, taskId) (dispatchId, taskId)) with true
          by (symmetry; apply pairEqb_eq; reflexivity).
        reflexivity.
  - intros db1 r H NI. unfold unlinkTaskFromDispatch in H.
    unfold bind at 1 in H. unfold read at 1 in H.
    destruct (selectDispatch userId dispatchId db) as [d |] eqn:Sd.
    2:{ injection H as <- _. reflexivity. }
    destruct (finalized d); [injection H as <- _; reflexivity |].
    assert (Store.dispatchId d = dispatchId) as Ed.
    { apply find_some in Sd. destruct Sd as [_ C].
      apply andb_true_iff in C. apply String.eqb_eq. tauto. }
    unfold bind, write, ret in H. injection H as <- _.
    destruct db as [ds ls ts ps]. unfold setDispatchTasks.
    cbn [dispatches dispatchTasks tasks projects] in *. f_equal.
    apply filter_all. intros x Hx. rewrite Ed.
    destruct (pairEqb (dispatchId, taskId) x) eqn:E; [| reflexivity].
    apply pairEqb_eq in E. subst x. contradiction.
Qed.

End DispatchFacts.

Lemma dispatch_operations_are_idempotent_witness :
  linkCount ("d1", "t9")
    (Dispatches.setDispatchTasks (fun rows => (rows ++ [("d1", "t9")])%list)
       (Store.mkDb (Store.dispatches Notions.planDb) (Store.dispatchTasks Notions.planDb)
          [Notions.planTask "t9" "open"] []))
  = 1%nat.
Proof.
  destruct (dispatch_operations_are_idempotent (fun _ => "d2") "c1" "c2" "u1"
              "2024-02-28" "d1" "t9"
              (Store.mkDb (Store.dispatches Notions.planDb)
                 (Store.dispatchTasks Notions.planDb)
                 [Notions.planTask "t9" "open"] []))
    as (_ & L & _).
  destruct (L _ _ ltac:(vm_compute; reflexivity)) as (_ & _ & _ & _ & C).
  apply C. vm_compute. apply le_S, le_n.
Defined.

(** ** Completing a dispatch *)

Section CompleteDispatchFacts.

Import Store Dispatches TaskWrites.

Variable newDispatchId : Db -> string.

(** The loop links every task of the list to the next dispatch once,
    and touches nothing else. *)
Lemma linkAll_spec (nextId : string) (taskIds : list string) :
  forall db,
  exists db',
    linkAll nextId taskIds db = (db', Returns tt)
    /\ dispatches db' = dispatches db
    /\ tasks db' = tasks db
    /\ projects db' = projects db
    /\ (forall p, In p (dispatchTasks db') <->
                  In p (dispatchTasks db)
                  \/ exists t, In t taskIds /\ p = (nextId, t))
    /\ (NoDup (dispatchTasks db) -> NoDup (dispatchTasks db')).
Proof.
  induction taskIds as [| t ts IH]; intros db.
  - exists db. cbn [linkAll]. unfold ret.
    repeat split; trivial.
    + intros H. left. exact H.
    + intros [H | (t & [] & _)]. exact H.
  - cbn [linkAll]. unfold bind at 1. unfold read at 1.
    destruct (selectLink nextId t db) as [l |] eqn:S; cbn [isNull].
    + unfold bind at 1. unfold ret at 1.
      destruct (IH db) as (db' & E & D & T & P & L & N).
      exists db'. rewrite E. repeat split; trivial.
      * intros H. apply L in H. destruct H as [H | (t' & I & ->)]; [left; exact H |].
        right. exists t'. split; [right; exact I | reflexivity].
      * intros [H | (t' & [<- | I] & ->)].
        -- apply L. left. exact H.
        -- apply L. left. unfold selectLink in S. apply find_some in S.
           destruct S as [I E']. apply pairEqb_eq in E'. subst l. exact I.
        -- apply L. right. exists t'. auto.
    + unfold bind at 1. unfold insertLink, write.
      set (db1 := setDispatchTasks (fun rows => (rows ++ [(nextId, t)])%list) db).
      destruct (IH db1) as (db' & E & D & T & P & L & N).
      exists db'. rewrite E. repeat split; trivial.
      * intros H. apply L in H. destruct H as [H | (t' & I & ->)].
        -- subst db1. cbn [setDispatchTasks dispatchTasks] in H.
           apply in_app_or in H. destruct H as [H | [<- | []]]; [left; exact H |].
           right. exists t. split; [left; reflexivity | reflexivity].
        -- right. exists t'. split; [right; exact I | reflexivity].
      * intros H. apply L. subst db1. cbn [setDispatchTasks dispatchTasks].
        destruct H as [H | (t' & [<- | I] & ->)].
        -- left. apply in_or_app. left. exact H.
        -- left. apply in_or_app. right. left. reflexivity.
        -- right. exists t'. auto.
      * intros Nd. apply N. subst db1. cbn [setDispatchTasks dispatchTasks].
        apply NoDup_app; [exact Nd | repeat constructor; intros [] |].
        intros x Hx [<- | []].
        apply (proj1 (selectLink_None nextId t db) S). exact Hx.
Qed.

Lemma find_by_key (id : string) (rows : list Dispatch) (d : Dispatch) :
  NoDup (map dispatchId rows) -> In d rows -> dispatchId d = id ->
  find (fun x => String.eqb (dispatchId x) id) rows = Some d.
Proof.
  induction rows as [| r rows IH]; intros N I E; [contradiction |].
  cbn [find]. destruct (String.eqb_spec (dispatchId r) id) as [K | K].
  - f_equal. apply (unique_key dispatchId (r :: rows)); trivial;
      [left; reflexivity | congruence].
  - destruct I as [-> | I]; [contradiction |].
    cbn in N. inversion N as [| ? ? _ N']. apply IH; assumption.
Qed.

Lemma find_map_same {A : Type} (f : A -> bool) (g : A -> A) (l : list A) :
  (forall x, f (g x) = f x) -> find f (map g l) = option_map g (find f l).
Proof.
  intros H. induction l as [| a l IH]; [reflexivity |].
  cbn. rewrite H. destruct (f a); [reflexivity | exact IH].
Qed.

(** The row returned by the update is the dispatch, finalized. *)
Lemma finalizeRows_spec (clock id : string) (db : Db) (d : Dispatch) :
  NoDup (map dispatchId (dispatches db)) ->
  In d (dispatches db) -> dispatchId d = id ->
  finalizeRows clock id db = (finalizeIn clock id db, Returns (Some (finalizedAt clock d))).
Proof.
  intros N I E. unfold finalizeRows, bind, write, read.
  fold (finalizeIn clock id db). f_equal. f_equal.
  unfold finalizeIn. cbn [setDispatches dispatches].
  rewrite find_map_same.
  - rewrite (find_by_key id _ d N I E). cbn [option_map].
    rewrite (proj2 (String.eqb_eq _ _) E). reflexivity.
  - intros x. destruct (String.eqb (dispatchId x) id) eqn:K; [| exact K].
    cbn. exact K.
Qed.

Lemma selectDispatch_Some (userId id : string) (db : Db) (d : Dispatch) :
  selectDispatch userId id db = Some d ->
  In d (dispatches db) /\ dispatchId d = id /\ dispatchUser d = userId.
Proof.
  unfold selectDispatch. intros H. apply find_some in H. destruct H as [I C].
  apply andb_true_iff in C. rewrite !String.eqb_eq in C. tauto.
Qed.

(** The tasks that roll over are those linked to the dispatch that are
    neither soft-deleted nor done. *)
Lemma pending_spec (id t : string) (db : Db) :
  In t (pending id db) <->
  In (id, t) (dispatchTasks db)
  /\ exists task, In task (tasks db) /\ taskId task = t
                  /\ deletedAt task = None /\ status task <> "done".
Proof.
  unfold pending, unfinished, linkedTasks. rewrite in_map_iff. split.
  - intros ([t' st] & <- & H). apply filter_In in H. destruct H as [H Nd].
    apply in_flat_map in H. destruct H as ([i k] & L & H). cbn [fst snd] in *.
    destruct (String.eqb_spec i id) as [-> | K]; [| contradiction].
    apply in_map_iff in H. destruct H as (task & [= <- <-] & H).
    apply filter_In in H. destruct H as [T C].
    apply andb_true_iff in C. destruct C as [C1 C2].
    apply String.eqb_eq in C1. subst k.
    split; [exact L |]. exists task. repeat split; trivial.
    + destruct (deletedAt task); [discriminate | reflexivity].
    + intros E. rewrite E in Nd. discriminate.
  - intros (L & task & T & <- & D & S).
    exists (taskId task, status task). split; [reflexivity |].
    apply filter_In. split.
    + apply in_flat_map. exists (id, taskId task). split; [exact L |].
      cbn [fst snd]. rewrite String.eqb_refl.
      apply in_map_iff. exists task. split; [reflexivity |].
      apply filter_In. split; [exact T |].
      rewrite String.eqb_refl, D. reflexivity.
    + cbn [snd]. destruct (String.eqb_spec (status task) "done"); [contradiction |].
      reflexivity.
Qed.



(** [complete-dispatch] on an open dispatch, after the dispatch has been
    finalized: what is left to do depends on the pending tasks. *)
Lemma completeDispatch_open (clock clockNext userId id : string) (db : Db)
  (d : Dispatch) :
  selectDispatch userId id db = Some d ->
  NoDup (map dispatchId (dispatches db)) ->
  finalized d = false ->
  completeDispatch newDispatchId clock clockNext userId id db
  = match pending id db with
    | [] => (finalizeIn clock id db,
             Returns (mkCompleted (Some (finalizedAt clock d)) 0 None))
    | _ :: _ =>
        bind (liftOutcome (nextDate (date d)))
          (fun day =>
             bind (getOrCreateDispatch newDispatchId clockNext userId day)
               (fun next =>
                  bind (linkAll (dispatchId next) (pending id db))
                    (fun _ =>
                       ret (mkCompleted (Some (finalizedAt clock d))
                              (List.length (pending id db))
                              (Some (dispatchId next))))))
          (finalizeIn clock id db)
    end.
Proof.
  intros S N F. pose proof (selectDispatch_Some _ _ _ _ S) as (I & E & U).
  unfold completeDispatch. unfold bind at 1. unfold read at 1. rewrite S, F.
  unfold bind at 1. unfold read at 1. rewrite E.
  fold (pending id db).
  unfold bind at 1. rewrite (finalizeRows_spec clock id db d N I E).
  destruct (pending id db); reflexivity.
Qed.

(** The rollover to the dispatch of [day]: the dispatch of the user for
    that date is taken from the store, or made when there is none, and
    each pending task is linked to it. *)
Lemma completeDispatch_rolls (clock clockNext userId id day : string) (db : Db)
  (d : Dispatch) :
  selectDispatch userId id db = Some d ->
  NoDup (map dispatchId (dispatches db)) ->
  finalized d = false ->
  pending id db <> [] ->
  nextDate (date d) = Returns day ->
  let existing :=
    find (fun r => String.eqb (dispatchUser r) userId && String.eqb (date r) day)
         (dispatches (finalizeIn clock id db)) in
  let next :=
    match existing with
    | Some row => row
    | None => mkDispatch (newDispatchId (finalizeIn clock id db)) userId day
                None false clockNext clockNext
    end in
  exists db',
    completeDispatch newDispatchId clock clockNext userId id db
    = (db',
       Returns (mkCompleted (Some (finalizedAt clock d))
                  (List.length (pending id db)) (Some (dispatchId next))))
    /\ dispatches db'
       = (dispatches (finalizeIn clock id db)
          ++ match existing with Some _ => [] | None => [next] end)%list
    /\ tasks db' = tasks db
    /\ projects db' = projects db
    /\ (forall p, In p (dispatchTasks db') <->
                  In p (dispatchTasks db)
                  \/ exists t, In t (pending id db) /\ p = (dispatchId next, t))
    /\ (NoDup (dispatchTasks db) -> NoDup (dispatchTasks db')).
Proof.
  intros S N F P D existing next.
  rewrite (completeDispatch_open _ _ _ _ _ _ S N F).
  destruct (pending id db) as [| t0 ts] eqn:Pe; [contradiction |].
  unfold bind at 1. unfold liftOutcome. rewrite D.
  unfold bind at 1.
  assert (exists db1,
            getOrCreateDispatch newDispatchId clockNext userId day
              (finalizeIn clock id db) = (db1, Returns next)
            /\ dispatches db1
               = (dispatches (finalizeIn clock id db)
                  ++ match existing with Some _ => [] | None => [next] end)%list
            /\ dispatchTasks db1 = dispatchTasks db
            /\ tasks db1 = tasks db /\ projects db1 = projects db)
    as (db1 & G & Gd & Gl & Gt & Gp).
  { subst next existing.
    destruct (find _ (dispatches (finalizeIn clock id db))) as [row |] eqn:Fd.
    - exists (finalizeIn clock id db).
      rewrite (getOrCreateDispatch_found newDispatchId _ _ _ _ row Fd), app_nil_r.
      auto.
    - eexists. rewrite (getOrCreateDispatch_created newDispatchId clockNext _ _ _ Fd).
      cbv zeta. split; [reflexivity |]. auto. }
  rewrite G.
  destruct (linkAll_spec (dispatchId next) (t0 :: ts) db1)
    as (db' & La & Ld & Lt & Lp & Ll & Ln).
  exists db'. unfold bind at 1. rewrite La. unfold ret.
  split; [reflexivity |]. split; [rewrite Ld; exact Gd |].
  split; [rewrite Lt; exact Gt |]. split; [rewrite Lp; exact Gp |].
  split.
  - intros p. rewrite Ll, Gl. reflexivity.
  - intros Nd. apply Ln. rewrite Gl. exact Nd.
Qed.

End CompleteDispatchFacts.

(** ** The day after a calendar day *)

Section NextDateFacts.

Import JsDate Recurrence Timezone.

Lemma digit_not_space (c : ascii) : Str.isDigit c = true -> Str.isSpace c = false.
Proof.
  unfold Str.isDigit, Str.isSpace. intros H.
  apply andb_true_iff in H. rewrite !Z.leb_le in H.
  repeat (apply orb_false_iff; split); apply Z.eqb_neq; lia.
Qed.

Lemma digit_not_sign (c : ascii) :
  Str.isDigit c = true -> Ascii.eqb c "-" = false /\ Ascii.eqb c "+" = false.
Proof.
  intros H. split; apply Ascii.eqb_neq; intros ->; vm_compute in H; discriminate.
Qed.

Lemma trimEnd_digits (s : string) : Str.allDigits s = true -> Str.trimEnd s = s.
Proof.
  induction s as [| c s IH]; [reflexivity |].
  cbn [Str.allDigits Str.trimEnd]. intros H.
  apply andb_true_iff in H. destruct H as [C A].
  rewrite (IH A), (digit_not_space c C). destruct s; reflexivity.
Qed.

(** [Number] reads a short run of digits as its decimal value. *)
Lemma jsNumber_digits (c : ascii) (s : string) :
  Str.allDigits (String c s) = true ->
  0 <= Str.readDigits 0 (String c s) < 2 ^ 1024 ->
  jsNumber (Some (String c s)) = Some (Str.readDigits 0 (String c s)).
Proof.
  intros A R. pose proof A as A'. cbn [Str.allDigits] in A'.
  apply andb_true_iff in A'. destruct A' as [C _].
  unfold jsNumber, Str.trim. cbn [Str.trimStart].
  rewrite (digit_not_space c C), (trimEnd_digits _ A).
  destruct (digit_not_sign c C) as [-> ->].
  rewrite A. cbn [String.eqb negb andb].
  destruct (Z.ltb_spec (Str.readDigits 0 (String c s)) (2 ^ 1024)); [reflexivity | lia].
Qed.

Lemma splitOn_cons_digit (c : ascii) (s : string) :
  Str.isDigit c = true ->
  Str.splitOn "-" (String c s)
  = match Str.splitOn "-" s with
    | [] => [String c EmptyString]
    | p :: ps => String c p :: ps
    end.
Proof.
  intros H. cbn [Str.splitOn]. destruct (digit_not_sign c H) as [-> _]. reflexivity.
Qed.

Lemma splitOn_cons_dash (s : string) :
  Str.splitOn "-" (String "-" s) = EmptyString :: Str.splitOn "-" s.
Proof. reflexivity. Qed.

(** The fields that [addDaysToIsoDate] cuts from a calendar-day string
    are those the date pattern reads. *)
Lemma splitOn_isoOfCivil (y m d : Z) :
  Str.splitOn "-" (isoOfCivil y m d)
  = [Str.fixedDigits 4 y ""; Str.fixedDigits 2 m ""; Str.fixedDigits 2 d ""].
Proof.
  unfold isoOfCivil. cbn [Str.fixedDigits String.append].
  repeat (rewrite splitOn_cons_digit by apply isDigit_digitChar)
  || rewrite splitOn_cons_dash.
  repeat first [rewrite splitOn_cons_digit by apply isDigit_digitChar
               | rewrite splitOn_cons_dash].
  reflexivity.
Qed.

Lemma DayFromYear_bounds (y : Z) :
  0 <= y <= 9999 -> -720000 <= DayFromYear y <= 2933000.
Proof. unfold DayFromYear. intros H. zlia. Qed.

Lemma monthStart_bounds (l : bool) (m : Z) : 0 <= monthStart l m <= 366.
Proof.
  unfold monthStart.
  destruct l, m as [| p | p]; try (cbn; lia);
    repeat (destruct p as [p | p |]; try (cbn; lia)).
Qed.

(** On a string of the form [YYYY-MM-DD] with a month 1..12 and a day
    1..31, [addDaysToIsoDate] does not throw: it returns the string of the
    day [days] after the date that [Date.UTC] makes of the fields. *)
Lemma addDaysToIsoDate_fields (s : string) (y m d days : Z) :
  isoFields s = Some (y, m, d) ->
  1 <= m <= 12 -> 1 <= d <= 31 -> -1000 <= days <= 1000 ->
  addDaysToIsoDate s days
  = Returns (toIsoDate (UTC y (m - 1) d + days)).
Proof.
  intros F Hm Hd Hn.
  destruct (isoOfCivil_isoFields s y m d F) as (E & Ry & Rm & Rd).
  pose proof (isoFields_isoOfCivil y m d Ry Rm Rd) as F'.
  unfold addDaysToIsoDate. rewrite E, splitOn_isoOfCivil.
  cbn [nth_error].
  revert F'. unfold isoOfCivil, isoFields.
  cbn [Str.fixedDigits String.append].
  rewrite !isDigit_digitChar. cbn [andb Ascii.eqb Bool.eqb].
  intros F'. apply Some_fields in F'. destruct F' as (Ey & Em & Ed).
  rewrite !jsNumber_digits;
    try (cbn [Str.allDigits]; rewrite !isDigit_digitChar; reflexivity);
    try (rewrite ?Ey, ?Em, ?Ed; split; [lia |];
         apply Z.lt_trans with 10000; [lia | reflexivity]).
  rewrite Ey, Em, Ed.
  replace ((m <? 1) || (12 <? m) || (d <? 1) || (31 <? d)) with false
    by (symmetry; rewrite !orb_false_iff, !Z.ltb_ge; lia).
  assert (-800000 <= UTC y (m - 1) d <= 3000000) as B.
  { unfold UTC, MakeDay, MakeFullYear.
    rewrite (Z.div_small (m - 1)), (Z.mod_small (m - 1)), Z.add_0_r by lia.
    pose proof (monthStart_bounds
                  (InLeapYear (if (0 <=? y) && (y <=? 99) then 1900 + y else y))
                  (m - 1)).
    destruct ((0 <=? y) && (y <=? 99)) eqn:C.
    - apply andb_true_iff in C. rewrite !Z.leb_le in C.
      pose proof (DayFromYear_bounds (1900 + y) ltac:(lia)). lia.
    - pose proof (DayFromYear_bounds y Ry). lia. }
  unfold TimeClip.
  replace (Z.abs (UTC y (m - 1) d) <=? 100000000) with true
    by (symmetry; apply Z.leb_le; lia).
  rewrite setUTCDate_add.
  replace (Z.abs (UTC y (m - 1) d + days) <=? 100000000) with true
    by (symmetry; apply Z.leb_le; lia).
  unfold toIsoDate. reflexivity.
Qed.


(** Every calendar day has a next date. *)
Lemma nextDate_returns (s : string) :
  isCalendarDay s = true -> exists day, Dispatches.nextDate s = Returns day.
Proof.
  unfold isCalendarDay.
  destruct (isoFields s) as [[[y m] d] |] eqn:F; [| discriminate].
  rewrite !andb_true_iff, !Z.leb_le. intros [[[M1 M2] D1] D2].
  pose proof (DaysInMonth_range y (m - 1) ltac:(lia)).
  eexists. unfold Dispatches.nextDate.
  apply (addDaysToIsoDate_fields s y m d 1 F); lia.
Qed.

End NextDateFacts.

(** ** The rollover to the next day *)

Section RolloverClaim.

Import JsDate Recurrence Store Dispatches.

Variable newDispatchId : Db -> string.




End RolloverClaim.

Section RolloverExample.

Import JsDate Recurrence Store Dispatches.


(** The example of the specification: of three linked tasks one is done;
    completing the dispatch finalizes it, creates the dispatch of the next
    day, links the two other tasks to it and reports two tasks rolled
    over; completing it again throws and changes nothing. *)
Example rollover_of_three_tasks :
  let after :=
    mkDb
      [finalizedAt "2024-02-28T22:00:00.000Z" planDispatch;
       mkDispatch "d2" "u1" "2024-02-29" None false
         "2024-02-28T22:00:01.000Z" "2024-02-28T22:00:01.000Z"]
      [("d1", "t1"); ("d1", "t2"); ("d1", "t3"); ("d2", "t2"); ("d2", "t3")]
      (tasks planDb) [] in
  completeDispatch (fun _ => "d2") "2024-02-28T22:00:00.000Z"
    "2024-02-28T22:00:01.000Z" "u1" "d1" planDb
  = (after,
     Returns (mkCompleted
                (Some (finalizedAt "2024-02-28T22:00:00.000Z" planDispatch))
                2 (Some "d2")))
  /\ completeDispatch (fun _ => "d3") "2024-02-28T23:00:00.000Z"
       "2024-02-28T23:00:01.000Z" "u1" "d1" after
     = (after, Throws "Dispatch is already finalized.").
Proof. split; vm_compute; reflexivity. Qed.


End RolloverExample.

(** ** Conditions of template blocks *)

Section ConditionFacts.

Import Templates.

(** A clause with an unknown key makes the checks fail, wherever it
    stands among them. *)
Lemma unknown_key_fails (checks : list string) (dateParts : DateParts)
  (check : string) :
  In check checks -> recognizedKey (checkKey check) = false ->
  evaluateChecks checks dateParts = false.
Proof.
  intros I U. induction checks as [| c rest IH]; [contradiction |].
  cbn [evaluateChecks].
  destruct (Str.splitOn "=" c) as [| keyRaw [| valueRaw more]] eqn:S;
    try reflexivity.
  destruct (String.eqb keyRaw ""); [reflexivity |].
  destruct I as [-> | I].
  - unfold checkKey in U. rewrite S in U. unfold recognizedKey in U.
    rewrite !orb_false_iff in U. destruct U as ((((-> & ->) & ->) & ->) & ->).
    reflexivity.
  - specialize (IH I).
    repeat match goal with
           | |- (if ?c then _ else _) = false => destruct c; try reflexivity
           end; exact IH.
Qed.

(** The clauses are a conjunction: the checks hold exactly when the
    first holds and the others do. *)
Lemma evaluateChecks_and (check : string) (rest : list string)
  (dateParts : DateParts) :
  evaluateChecks (check :: rest) dateParts
  = evaluateChecks [check] dateParts && evaluateChecks rest dateParts.
Proof.
  cbn [evaluateChecks].
  destruct (Str.splitOn "=" check) as [| keyRaw [| valueRaw more]];
    try reflexivity.
  repeat match goal with
         | |- context [if ?c then _ else _] => destruct c; try reflexivity
         end.
Qed.

Lemma evaluateChecks_all (checks : list string) (dateParts : DateParts) :
  evaluateChecks checks dateParts
  = forallb (fun check => evaluateChecks [check] dateParts) checks.
Proof.
  induction checks as [| c rest IH]; [reflexivity |].
  rewrite evaluateChecks_and, IH. reflexivity.
Qed.

(** A condition with an unknown key in any clause is false, on every
    date. *)
Lemma unknown_key_condition_false (condition : string) (dateParts : DateParts)
  (check : string) :
  In check (conditionChecks condition) ->
  recognizedKey (checkKey check) = false ->
  evaluateCondition condition dateParts = false.
Proof.
  intros I U. unfold evaluateCondition.
  destruct (conditionChecks condition) as [| c rest] eqn:C; [reflexivity |].
  apply (unknown_key_fails _ _ check I U).
Qed.

(** A condition holds exactly when it has a clause and every clause
    holds. *)
Lemma condition_is_conjunction (condition : string) (dateParts : DateParts) :
  evaluateCondition condition dateParts
  = negb (Nat.eqb (List.length (conditionChecks condition)) 0)
    && forallb (fun check => evaluateChecks [check] dateParts)
               (conditionChecks condition).
Proof.
  unfold evaluateCondition. rewrite <- evaluateChecks_all.
  destruct (conditionChecks condition); reflexivity.
Qed.

End ConditionFacts.

(** ** Replacing blocks and tokens *)

Section TemplateFacts.

Import Templates.

Lemma append_assoc (a b c : string) : ((a ++ b) ++ c = a ++ (b ++ c))%string.
Proof. induction a as [| x a IH]; cbn; [reflexivity | rewrite IH; reflexivity]. Qed.

Lemma append_nil_r (a : string) : (a ++ "")%string = a.
Proof. induction a as [| x a IH]; cbn; [reflexivity | rewrite IH; reflexivity]. Qed.

Lemma length_append (a b : string) :
  String.length (a ++ b) = (String.length a + String.length b)%nat.
Proof. induction a as [| x a IH]; cbn; [reflexivity | rewrite IH; reflexivity]. Qed.

Lemma lowerChar_brace (c : ascii) : Str.lowerChar c = "{"%char -> c = "{"%char.
Proof.
  destruct c as [[] [] [] [] [] [] [] []]; vm_compute; intros H;
    try reflexivity; discriminate H.
Qed.

(** A literal that begins with an opening brace does not match text that
    begins with another character. *)
Lemma startsWith_other (ci : bool) (p s : string) (c : ascii) :
  Ascii.eqb c "{" = false -> Str.startsWith ci (String "{" p) (String c s) = None.
Proof.
  intros H. cbn [Str.startsWith].
  assert (Ascii.eqb "{" c = false) as H' by (rewrite Ascii.eqb_sym; exact H).
  rewrite H'.
  destruct ci; [| reflexivity].
  destruct (Ascii.eqb (Str.lowerChar "{") (Str.lowerChar c)) eqn:E; [| reflexivity].
  apply Ascii.eqb_eq in E. symmetry in E. change (Str.lowerChar "{") with "{"%char in E.
  apply lowerChar_brace in E. subst c. discriminate H.
Qed.

Lemma matchIf_other (c : ascii) (s : string) :
  Ascii.eqb c "{" = false -> matchIf (String c s) = None.
Proof.
  intros H. unfold matchIf.
  change "{{if:" with (String "{" "{if:").
  rewrite (startsWith_other true _ s c H). reflexivity.
Qed.

Lemma matchDate_other (c : ascii) (s : string) :
  Ascii.eqb c "{" = false -> matchDate (String c s) = None.
Proof.
  intros H. unfold matchDate.
  change "{{date:" with (String "{" "{date:").
  rewrite (startsWith_other true _ s c H). reflexivity.
Qed.

Lemma braceFree_plain (s : string) : braceFree s = true -> plainText s = true.
Proof.
  induction s as [| c s IH]; [reflexivity |].
  cbn [braceFree plainText]. intros H. apply andb_true_iff in H.
  destruct H as [C B]. apply negb_true_iff in C.
  rewrite (matchIf_other c s C), (matchDate_other c s C), (IH B). reflexivity.
Qed.

Lemma braceFree_append (a b : string) :
  braceFree (a ++ b) = braceFree a && braceFree b.
Proof.
  induction a as [| x a IH]; cbn; [reflexivity |].
  rewrite IH, andb_assoc. reflexivity.
Qed.

(** Text without blocks is left as it is. *)
Lemma replaceConditionals_plain (dateParts : DateParts) (s : string) :
  plainText s = true -> replaceConditionals dateParts 0 s = s.
Proof.
  induction s as [| c s IH]; [reflexivity |].
  cbn [plainText replaceConditionals]. intros H.
  rewrite !andb_true_iff in H. destruct H as [[A _] P].
  destruct (matchIf (String c s)); [discriminate A |].
  rewrite (IH P). reflexivity.
Qed.

(** Text without date tokens is left as it is. *)
Lemma replaceDates_plain (referenceIso s : string) :
  plainText s = true -> replaceDates referenceIso 0 s = s.
Proof.
  induction s as [| c s IH]; [reflexivity |].
  cbn [plainText replaceDates]. intros H.
  rewrite !andb_true_iff in H. destruct H as [[_ A] P].
  destruct (matchDate (String c s)); [discriminate A |].
  rewrite (IH P). reflexivity.
Qed.

Lemma conditionalPasses_fixed (n : nat) (dateParts : DateParts) (s : string) :
  replaceConditionals dateParts 0 s = s -> conditionalPasses n dateParts s = s.
Proof.
  intros H. destruct n as [| n]; [reflexivity |].
  cbn [conditionalPasses]. rewrite H, String.eqb_refl. reflexivity.
Qed.

Lemma conditionalPasses_settles (n : nat) (dateParts : DateParts) (s : string) :
  let next := replaceConditionals dateParts 0 s in
  replaceConditionals dateParts 0 next = next ->
  conditionalPasses (S (S n)) dateParts s = next.
Proof.
  cbv zeta. intros H. cbn [conditionalPasses].
  destruct (String.eqb_spec (replaceConditionals dateParts 0 s) s) as [E | _].
  - symmetry. exact E.
  - rewrite H, String.eqb_refl. reflexivity.
Qed.

Lemma replaceConditionals_braceFree_prefix (dateParts : DateParts) (pre s : string) :
  braceFree pre = true ->
  replaceConditionals dateParts 0 (pre ++ s)
  = (pre ++ replaceConditionals dateParts 0 s)%string.
Proof.
  induction pre as [| c pre IH]; [reflexivity |].
  cbn [braceFree String.append]. intros H. apply andb_true_iff in H.
  destruct H as [C B]. apply negb_true_iff in C.
  cbn [replaceConditionals]. rewrite (matchIf_other c _ C), (IH B). reflexivity.
Qed.

(** The characters of a match are passed over. *)
Lemma replaceConditionals_skip (dateParts : DateParts) (x y : string) :
  replaceConditionals dateParts (String.length x) (x ++ y)
  = replaceConditionals dateParts 0 y.
Proof.
  induction x as [| c x IH]; cbn [String.length String.append].
  - destruct y; reflexivity.
  - cbn [replaceConditionals]. exact IH.
Qed.

Lemma startsWith_suffix (ci : bool) (p s r : string) :
  Str.startsWith ci p s = Some r ->
  exists x, s = (x ++ r)%string /\ String.length x = String.length p.
Proof.
  revert s. induction p as [| a p IH]; intros s H.
  - cbn in H. injection H as <-. exists EmptyString. auto.
  - destruct s as [| b s]; [discriminate H |]. cbn [Str.startsWith] in H.
    destruct (if ci then _ else _); [| discriminate H].
    destruct (IH s H) as (x & -> & L).
    exists (String b x). cbn. auto.
Qed.

Lemma spanNotBrace_suffix (s : string) :
  s = (fst (spanNotBrace s) ++ snd (spanNotBrace s))%string.
Proof.
  induction s as [| c s IH]; [reflexivity |].
  cbn [spanNotBrace]. destruct (Ascii.eqb c "}"); [reflexivity |].
  destruct (spanNotBrace s) as [a r]. cbn [fst snd String.append] in *.
  f_equal. exact IH.
Qed.

Lemma untilClose_suffix (s body rest : string) :
  untilClose s = Some (body, rest) -> exists x, s = (x ++ rest)%string.
Proof.
  revert body. induction s as [| c s IH]; intros body H.
  - cbn in H. discriminate H.
  - cbn [untilClose] in H.
    destruct (Str.startsWith true "{{/if}}" (String c s)) as [r |] eqn:W.
    + injection H as _ <-. destruct (startsWith_suffix _ _ _ _ W) as (x & E & _).
      exists x. exact E.
    + destruct (untilClose s) as [[b r] |]; [| discriminate H].
      injection H as _ <-. destruct (IH b eq_refl) as (x & ->).
      exists (String c x). reflexivity.
Qed.

(** What follows a match is a proper suffix of the text. *)
Lemma matchIf_suffix (s condition content rest : string) :
  matchIf s = Some (condition, content, rest) ->
  exists c x, s = String c (x ++ rest).
Proof.
  unfold matchIf. intros H.
  destruct (Str.startsWith true "{{if:" s) as [r |] eqn:W; [| discriminate H].
  destruct (startsWith_suffix _ _ _ _ W) as (x0 & -> & L0).
  pose proof (spanNotBrace_suffix r) as E1.
  destruct (spanNotBrace r) as [cnd r1]. cbn [fst snd] in E1.
  destruct (String.eqb cnd ""); [discriminate H |].
  destruct (Str.startsWith false "}}" r1) as [r2 |] eqn:W2; [| discriminate H].
  destruct (startsWith_suffix _ _ _ _ W2) as (x2 & -> & _).
  destruct (untilClose r2) as [[b rs] |] eqn:U; [| discriminate H].
  injection H as _ _ <-. destruct (untilClose_suffix _ _ _ U) as (x3 & ->).
  destruct x0 as [| c x0]; [discriminate L0 |].
  exists c, (x0 ++ cnd ++ x2 ++ x3)%string. subst r.
  cbn [String.append]. rewrite !append_assoc. reflexivity.
Qed.

(** The replacement at a match: the block gives way to its body or to
    nothing, and the replacement goes on after the block. *)
Lemma replaceConditionals_match (dateParts : DateParts)
  (s condition content rest : string) :
  matchIf s = Some (condition, content, rest) ->
  replaceConditionals dateParts 0 s
  = ((if evaluateCondition condition dateParts then content else "")
     ++ replaceConditionals dateParts 0 rest)%string.
Proof.
  intros M. destruct (matchIf_suffix _ _ _ _ M) as (c & x & ->).
  cbn [replaceConditionals]. rewrite M. f_equal.
  rewrite length_append.
  replace (String.length x + String.length rest - String.length rest)%nat
    with (String.length x) by lia.
  apply replaceConditionals_skip.
Qed.

Lemma spanNotBrace_condition (condition rest : string) :
  closeFree condition = true ->
  spanNotBrace (condition ++ "}}" ++ rest) = (condition, ("}}" ++ rest)%string).
Proof.
  induction condition as [| c condition IH]; [reflexivity |].
  cbn [closeFree]. intros H.
  apply andb_true_iff in H. destruct H as [C F]. apply negb_true_iff in C.
  change ((String c condition ++ "}}" ++ rest)%string)
    with (String c (condition ++ "}}" ++ rest)).
  cbn [spanNotBrace]. rewrite C, (IH F). reflexivity.
Qed.

Lemma untilClose_body (body post : string) :
  braceFree body = true ->
  untilClose (body ++ "{{/if}}" ++ post) = Some (body, post).
Proof.
  induction body as [| c body IH]; [reflexivity |].
  cbn [braceFree]. intros H. apply andb_true_iff in H.
  destruct H as [C B]. apply negb_true_iff in C.
  change ((String c body ++ "{{/if}}" ++ post)%string)
    with (String c (body ++ "{{/if}}" ++ post)).
  cbn [untilClose].
  rewrite (startsWith_other true "{/if}}" _ c C), (IH B). reflexivity.
Qed.

Lemma matchIf_flat (condition body post : string) :
  closeFree condition = true -> condition <> "" -> braceFree body = true ->
  matchIf ("{{if:" ++ condition ++ "}}" ++ body ++ "{{/if}}" ++ post)
  = Some (condition, body, post).
Proof.
  intros Hc Hne Hb. unfold matchIf.
  change (Str.startsWith true "{{if:"
            ("{{if:" ++ condition ++ "}}" ++ body ++ "{{/if}}" ++ post))
    with (Some (condition ++ "}}" ++ body ++ "{{/if}}" ++ post)%string).
  cbv beta iota. rewrite (spanNotBrace_condition _ _ Hc).
  destruct (String.eqb_spec condition ""); [contradiction |].
  change (Str.startsWith false "}}" ("}}" ++ body ++ "{{/if}}" ++ post))
    with (Some (body ++ "{{/if}}" ++ post)%string).
  cbv beta iota. rewrite (untilClose_body _ _ Hb). reflexivity.
Qed.

(** A block without braces in its body, in text without other braces:
    the body stays when the condition holds, and the whole block goes
    when it does not. *)
Lemma flat_block_renders (dateParts : DateParts) (pre condition body post : string) :
  braceFree pre = true -> closeFree condition = true -> condition <> "" ->
  braceFree body = true -> braceFree post = true ->
  renderConditionalBlocks
    (pre ++ "{{if:" ++ condition ++ "}}" ++ body ++ "{{/if}}" ++ post) dateParts
  = (pre ++ (if evaluateCondition condition dateParts then body else "")
     ++ post)%string.
Proof.
  intros Hpre Hc Hne Hb Hpost.
  set (repl := if evaluateCondition condition dateParts then body else "").
  assert (replaceConditionals dateParts 0
            (pre ++ "{{if:" ++ condition ++ "}}" ++ body ++ "{{/if}}" ++ post)
          = (pre ++ repl ++ post)%string) as Pass.
  { rewrite (replaceConditionals_braceFree_prefix _ _ _ Hpre). f_equal.
    rewrite (replaceConditionals_match _ _ _ _ _ (matchIf_flat _ _ post Hc Hne Hb)).
    fold repl. f_equal.
    apply replaceConditionals_plain, braceFree_plain, Hpost. }
  unfold renderConditionalBlocks. change 16%nat with (S (S 14)).
  rewrite conditionalPasses_settles; rewrite Pass; [reflexivity |].
  apply replaceConditionals_plain, braceFree_plain.
  rewrite !braceFree_append, Hpre, Hpost.
  subst repl. destruct (evaluateCondition condition dateParts); [rewrite Hb |];
    reflexivity.
Qed.

End TemplateFacts.

(** ** Templates piece by piece *)

Section PieceFacts.

Import Templates.
















(** *** The closing tag of a block *)











(** *** One pass over the blocks *)







(** *** The date tokens *)










End PieceFacts.

(** ** Claims about the template renderer *)

Section TemplateClaims.

Import Templates.

Lemma resolveEffectiveTimeZone_supported (host : Host) (tz : option string) :
  tzSupported host "UTC" = true ->
  tzSupported host (Timezone.resolveEffectiveTimeZone host tz) = true.
Proof.
  intros U.
  assert (tzSupported host (Timezone.getRuntimeTimeZone host) = true) as R.
  { unfold Timezone.getRuntimeTimeZone, Timezone.isValidTimeZone.
    destruct (runtimeTimeZone host) as [r |]; [| exact U].
    destruct (negb (String.eqb r "")); cbn [andb]; [| exact U].
    destruct (tzSupported host r) eqn:S; [exact S | exact U]. }
  unfold Timezone.resolveEffectiveTimeZone, Timezone.isValidTimeZone.
  destruct tz as [z |]; [| exact R].
  destruct (negb (String.eqb (Str.trim z) "")); cbn [andb]; [| exact R].
  destruct (tzSupported host (Str.trim z)) eqn:S; [exact S | exact R].
Qed.





(** An unknown token stays as it is beside tokens that are replaced. *)
Example unknown_token_beside_known_ones :
  renderTemplate utcHost
    (Some "{{foo}} {{date:YYYY}}{{if:day=sat}} {{bar}}{{/if}} {{date:}}")
    (mkOptions (RefString "2026-02-21") None)
  = Returns "{{foo}} 2026 {{bar}} {{date:}}".
Proof. vm_compute. reflexivity. Qed.

(** A block with an unknown key and no brace in its body is removed
    whole from text without other braces. *)
Lemma unknown_key_flat_block_removed (dateParts : DateParts)
  (pre condition body post check : string) :
  braceFree pre = true -> closeFree condition = true -> condition <> "" ->
  braceFree body = true -> braceFree post = true ->
  In check (conditionChecks condition) ->
  recognizedKey (checkKey check) = false ->
  renderConditionalBlocks
    (pre ++ "{{if:" ++ condition ++ "}}" ++ body ++ "{{/if}}" ++ post) dateParts
  = (pre ++ post)%string.
Proof.
  intros Hpre Hc Hne Hb Hpost I K.
  rewrite flat_block_renders by assumption.
  rewrite (unknown_key_condition_false condition dateParts check I K).
  reflexivity.
Qed.

(** C5: a condition with the unknown key [foo] is false on every date
    and the example of the specification renders as [Text], but a block
    with an unknown key is not removed whole when its body holds a block
    of its own: the match ends at the first closing tag, so the rest of
    the body and the outer closing tag stay in the output, on every
    date. *)
Theorem nested_block_with_unknown_key_leaks :
  (forall dateParts, evaluateCondition "foo=bar" dateParts = false)
  /\ (forall dateParts, evaluateCondition "day=sat&foo=bar" dateParts = false)
  /\ renderTemplate utcHost (Some "Text{{if:foo=bar}} Hidden{{/if}}")
       (mkOptions (RefString "2026-02-21") None) = Returns "Text"
  /\ (forall dateParts,
        renderConditionalBlocks nestedTemplate dateParts = "C{{/if}}")
  /\ renderTemplate utcHost (Some nestedTemplate)
       (mkOptions (RefString "2026-02-21") None) = Returns "C{{/if}}".
Proof.
  split; [| split; [| split; [| split]]].
  - intros dateParts.
    apply (unknown_key_condition_false _ _ "foo=bar"); [left |]; reflexivity.
  - intros dateParts.
    apply (unknown_key_condition_false _ _ "foo=bar");
      [right; left |]; reflexivity.
  - vm_compute. reflexivity.
  - intros dateParts.
    unfold renderConditionalBlocks, nestedTemplate.
    change 16%nat with (S (S 14)).
    assert (replaceConditionals dateParts 0
              "{{if:foo=bar}}A{{if:day=sat}}B{{/if}}C{{/if}}" = "C{{/if}}") as Pass.
    { rewrite (replaceConditionals_match dateParts
                 "{{if:foo=bar}}A{{if:day=sat}}B{{/if}}C{{/if}}"
                 "foo=bar" "A{{if:day=sat}}B" "C{{/if}}"
                 ltac:(vm_compute; reflexivity)).
      rewrite (unknown_key_condition_false "foo=bar" dateParts "foo=bar");
        [reflexivity | left; reflexivity | reflexivity]. }
    rewrite conditionalPasses_settles; rewrite Pass; reflexivity.
  - vm_compute. reflexivity.
Qed.

End TemplateClaims.

(** ** Custom recurrence rules and their stored form *)

Section RuleFacts.

Import Js Json Recurrence.

Lemma skipWs_length (s : string) : (String.length (skipWs s) <= String.length s)%nat.
Proof.
  induction s as [| c s IH]; [apply le_n |].
  cbn [skipWs]. destruct (isWs c); cbn [String.length]; lia.
Qed.

Lemma eat_length (c : ascii) (s r : string) :
  eat c s = Some r -> String.length s = S (String.length r).
Proof.
  destruct s as [| x s]; [discriminate |]. cbn [eat].
  destruct (Ascii.eqb x c); [| discriminate]. intros [= ->]. reflexivity.
Qed.

(** A string literal is longer than the string it denotes. *)
Lemma parseChars_length (n : nat) :
  forall s t rest,
    (String.length s <= n)%nat -> parseChars s = Some (t, rest) ->
    (String.length t + String.length rest < String.length s)%nat.
Proof.
  induction n as [| n IH]; intros s t rest L H.
  - destruct s; [discriminate H | cbn in L; lia].
  - destruct s as [| c s]; [discriminate H |].
    cbn [String.length] in L. cbn [parseChars] in H.
    destruct (Ascii.eqb c Str.dquote).
    { injection H as <- <-. cbn. lia. }
    destruct (Str.code c <? 32); [discriminate H |].
    destruct (Ascii.eqb c "\").
    + destruct s as [| e s]; [discriminate H |]. cbn [String.length] in *.
      assert (forall x : ascii,
                match parseChars s with
                | Some (t0, rest0) => Some (String x t0, rest0)
                | None => None
                end = Some (t, rest) ->
                (String.length t + String.length rest < S (S (String.length s)))%nat)
        as Simple.
      { intros x Hx. destruct (parseChars s) as [[t0 r0] |] eqn:P; [| discriminate Hx].
        injection Hx as <- <-. specialize (IH s t0 r0 ltac:(lia) P).
        cbn [String.length]. lia. }
      repeat match type of H with
             | (if ?b then _ else _) = _ =>
                 destruct b; [apply (Simple _ H) |]
             end.
      destruct (Ascii.eqb e "u"); [| discriminate H].
      destruct s as [| h1 [| h2 [| h3 [| h4 s3]]]]; try discriminate H.
      destruct (hexVal h1), (hexVal h2), (hexVal h3), (hexVal h4);
        try discriminate H.
      destruct (parseChars s3) as [[t0 r0] |] eqn:P; [| discriminate H].
      injection H as <- <-. cbn [String.length] in *.
      specialize (IH s3 t0 r0 ltac:(lia) P). lia.
    + destruct (parseChars s) as [[t0 r0] |] eqn:P; [| discriminate H].
      injection H as <- <-. specialize (IH s t0 r0 ltac:(lia) P).
      cbn [String.length]. lia.
Qed.

(** Arrays and objects are what the two loops of the parser return. *)
Lemma parse_loops_shape (f : nat) :
  (forall acc s v rest, parseElements f acc s = Ok (v, rest) -> isStr v = false)
  /\ (forall acc s v rest, parseMembers f acc s = Ok (v, rest) -> isStr v = false).
Proof.
  induction f as [| f [IHe IHm]]; [split; intros; discriminate |].
  split; intros acc s v rest H.
  - cbn [parseElements] in H.
    destruct (parseValue f s) as [[v0 r0] | |]; try discriminate H.
    destruct (eat "," (skipWs r0)); [apply (IHe _ _ _ _ H) |].
    destruct (eat "]" (skipWs r0)); [| discriminate H].
    injection H as <- _. reflexivity.
  - cbn [parseMembers] in H.
    destruct (eat Str.dquote (skipWs s)); [| discriminate H].
    destruct (parseChars s0) as [[key r0] |]; [| discriminate H].
    destruct (eat ":" (skipWs r0)); [| discriminate H].
    destruct (parseValue f s1) as [[v0 r1] | |]; try discriminate H.
    destruct (eat "," (skipWs r1)); [apply (IHm _ _ _ _ H) |].
    destruct (eat "}" (skipWs r1)); [| discriminate H].
    injection H as <- _. reflexivity.
Qed.

Lemma parseScalar_shape (s : string) (v : Value) (rest : string) :
  parseScalar s = Some (v, rest) -> isStr v = false.
Proof.
  unfold parseScalar.
  destruct (Str.startsWith false "true" s); [intros [= <- _]; reflexivity |].
  destruct (Str.startsWith false "false" s); [intros [= <- _]; reflexivity |].
  destruct (Str.startsWith false "null" s); [intros [= <- _]; reflexivity |].
  destruct (parseNumber s) as [[n r] |]; [| discriminate].
  intros [= <- _]. reflexivity.
Qed.

(** A string read from a text is shorter than the text. *)
Lemma parse_depth (s : string) (v : Value) :
  Json.parse s = Some v -> (depthBound v <= String.length s)%nat.
Proof.
  unfold Json.parse, parseWith, fuelFor.
  destruct (parseValue _ s) as [[v0 rest] | |] eqn:P; try discriminate.
  destruct (skipWs rest); [| discriminate]. intros [= <-].
  destruct v0 as [| | | | t | |]; try apply Nat.le_0_l.
  replace (2 * String.length s + 2)%nat with (S (2 * String.length s + 1)) in P by lia.
  cbn [parseValue] in P.
  pose proof (skipWs_length s) as Ls.
  destruct (eat "{" (skipWs s)) as [r |].
  { destruct (eat "}" (skipWs r)); [discriminate P |].
    apply (proj2 (parse_loops_shape _)) in P. cbn in P. discriminate P. }
  destruct (eat "[" (skipWs s)) as [r |].
  { destruct (eat "]" (skipWs r)); [discriminate P |].
    apply (proj1 (parse_loops_shape _)) in P. cbn in P. discriminate P. }
  destruct (eat Str.dquote (skipWs s)) as [r |] eqn:E.
  - destruct (parseChars r) as [[t0 r0] |] eqn:C; [| discriminate P].
    injection P as <- _. apply eat_length in E.
    pose proof (parseChars_length _ r t0 r0 (le_n _) C).
    cbn [depthBound]. lia.
  - destruct (parseScalar (skipWs s)) as [[v1 r1] |] eqn:Sc; [| discriminate P].
    cbn [lift] in P. injection P as <- _.
    apply parseScalar_shape in Sc.
    destruct v1; try discriminate Sc; apply Nat.le_0_l.
Qed.

(** More fuel than [depthBound] changes nothing. *)
Lemma parseRuleFuel_enough (n : nat) :
  forall v, (depthBound v <= n)%nat ->
            parseRuleFuel n v = parseRuleFuel (depthBound v) v.
Proof.
  induction n as [n IH] using (well_founded_induction lt_wf). intros v L.
  destruct v as [| | | | s | |]; try (destruct n; reflexivity).
  cbn [depthBound] in *. destruct n as [| n]; [lia |].
  cbn [parseRuleFuel].
  destruct (Json.parse s) as [v' |] eqn:P; [| reflexivity].
  pose proof (parse_depth s v' P) as D.
  rewrite (IH n ltac:(lia) v' ltac:(lia)).
  destruct (Nat.eq_dec (String.length s) n) as [<- | N].
  - symmetry. apply IH; lia.
  - rewrite (IH (String.length s) ltac:(lia) v' D). reflexivity.
Qed.

(** A string is parsed as JSON and the result is treated as the
    argument was. *)
Lemma parseRule_of_string (s : string) :
  parseTaskCustomRecurrenceRule (Str s)
  = match Json.parse s with
    | Some v => parseTaskCustomRecurrenceRule v
    | None => None
    end.
Proof.
  unfold parseTaskCustomRecurrenceRule. cbn [depthBound parseRuleFuel].
  destruct (Json.parse s) as [v |] eqn:P; [| reflexivity].
  apply parseRuleFuel_enough, (parse_depth s v P).
Qed.

Lemma parseRule_of_other (v : Value) :
  isStr v = false -> parseTaskCustomRecurrenceRule v = parseRuleObject v.
Proof.
  unfold parseTaskCustomRecurrenceRule. destruct v; try reflexivity. discriminate.
Qed.

Lemma every_interval_round_trips :
  forallb (fun n => forallb (roundTrips n) [UDay; UWeek; UMonth]) (seq 1 365) = true.
Proof. vm_compute. reflexivity. Qed.

(** C6: a rule with an interval from 1 to 365 is read back from its
    serialized form; a string is treated as the value that [JSON.parse]
    gives, and gives null when it is not JSON; a value that is neither a
    string nor an object, an interval that is not an integer from 1 to
    365, and a unit other than day, week and month each give null. *)
Theorem custom_rule_round_trip_and_rejection :
  (forall r, 1 <= interval r <= 365 ->
             parseTaskCustomRecurrenceRule (Str (serializeTaskCustomRecurrenceRule r))
             = Some r)
  /\ (forall s, Json.parse s = None -> parseTaskCustomRecurrenceRule (Str s) = None)
  /\ (forall s v, Json.parse s = Some v ->
                  parseTaskCustomRecurrenceRule (Str s)
                  = parseTaskCustomRecurrenceRule v)
  /\ (forall v, isStr v = false -> isObject v = false ->
                parseTaskCustomRecurrenceRule v = None)
  /\ (forall v, isStr v = false ->
                (forall i, get v "interval" = Number (NInt i) -> i < 1 \/ 365 < i) ->
                parseTaskCustomRecurrenceRule v = None)
  /\ (forall v, isStr v = false -> unitOfValue (get v "unit") = None ->
                parseTaskCustomRecurrenceRule v = None).
Proof.
  repeat split.
  - intros [i u] R. cbn [interval] in R.
    pose proof every_interval_round_trips as A.
    rewrite forallb_forall in A.
    specialize (A (Z.to_nat i)
                  ltac:(apply in_seq; lia)).
    rewrite forallb_forall in A.
    assert (In u [UDay; UWeek; UMonth]) as Iu by (destruct u; cbn; auto).
    specialize (A u Iu). unfold roundTrips in A.
    rewrite Z2Nat.id in A by lia.
    destruct (parseTaskCustomRecurrenceRule _) as [[i' u'] |]; [| discriminate A].
    cbn [interval unit] in A. apply andb_true_iff in A. destruct A as [Ei Eu].
    apply Z.eqb_eq in Ei. subst i'.
    destruct u', u; try discriminate Eu; reflexivity.
  - intros s P. rewrite parseRule_of_string, P. reflexivity.
  - intros s v P. rewrite parseRule_of_string, P. reflexivity.
  - intros v S O. rewrite (parseRule_of_other v S). unfold parseRuleObject.
    rewrite O. reflexivity.
  - intros v S I. rewrite (parseRule_of_other v S). unfold parseRuleObject.
    destruct (negb (isObject v)); [reflexivity |].
    destruct (get v "interval") as [| | | [i |] | | |]; try reflexivity.
    destruct (I i eq_refl) as [L | L].
    + replace (i <? 1) with true by (symmetry; apply Z.ltb_lt; lia). reflexivity.
    + replace (365 <? i) with true by (symmetry; apply Z.ltb_lt; lia).
      rewrite orb_true_r. reflexivity.
  - intros v S U. rewrite (parseRule_of_other v S). unfold parseRuleObject.
    destruct (negb (isObject v)); [reflexivity |].
    destruct (get v "interval") as [| | | [i |] | | |]; try reflexivity.
    destruct ((i <? 1) || (365 <? i)); [reflexivity |]. rewrite U. reflexivity.
Qed.

Lemma custom_rule_round_trip_and_rejection_witness :
  parseTaskCustomRecurrenceRule
    (Str (serializeTaskCustomRecurrenceRule (mkRule 2 UWeek)))
  = Some (mkRule 2 UWeek)
  /\ parseTaskCustomRecurrenceRule (Str "{interval:2}") = None
  /\ parseTaskCustomRecurrenceRule (Number (NInt 2)) = None
  /\ parseTaskCustomRecurrenceRule
       (Object [("interval", Number (NInt 0)); ("unit", Str "day")]) = None
  /\ parseTaskCustomRecurrenceRule
       (Object [("interval", Number (NInt 2)); ("unit", Str "year")]) = None.
Proof.
  destruct custom_rule_round_trip_and_rejection as (A & B & _ & C & D & E).
  split; [apply (A (mkRule 2 UWeek)); cbn; lia |].
  split; [apply B; vm_compute; reflexivity |].
  split; [apply C; reflexivity |].
  split; [apply D; [reflexivity | intros i [= <-]; left; reflexivity] |].
  apply E; reflexivity.
Defined.

End RuleFacts.

(** ** The JSON parser never runs out of fuel *)

Section JsonFuel.

Import Js Json.

Lemma spanDigits_length (s d r : string) :
  spanDigits s = (d, r) ->
  (String.length d + String.length r = String.length s)%nat.
Proof.
  revert d r. induction s as [| c s IH]; intros d r H.
  - injection H as <- <-. reflexivity.
  - cbn [spanDigits] in H. destruct (Str.isDigit c).
    + destruct (spanDigits s) as [d0 r0]. injection H as <- <-.
      specialize (IH d0 r0 eq_refl). cbn [String.length]. lia.
    + injection H as <- <-. reflexivity.
Qed.

Lemma startsWith_length (ci : bool) (p s r : string) :
  Str.startsWith ci p s = Some r ->
  String.length s = (String.length p + String.length r)%nat.
Proof.
  intros H. destruct (startsWith_suffix ci p s r H) as (x & -> & L).
  rewrite length_append, L. reflexivity.
Qed.

Lemma parseNumber_rest (s : string) (n : Num) (rest : string) :
  parseNumber s = Some (n, rest) -> (String.length rest < String.length s)%nat.
Proof.
  unfold parseNumber. intros H.
  repeat match type of H with
         | context [match ?x with _ => _ end] =>
             lazymatch x with
             | context [match _ with _ => _ end] => fail
             | _ => idtac
             end;
             destruct x eqn:?
         end;
    try discriminate H;
    repeat match goal with
           | E : eat _ _ = Some _ |- _ => apply eat_length in E
           | E : spanDigits _ = (_, _) |- _ => apply spanDigits_length in E
           end;
    try (injection H as ? ?; subst);
    cbn [String.length] in *; rewrite ?length_append in *;
    cbn [String.length] in *; lia.
Qed.

Lemma parseScalar_rest (s : string) (v : Value) (rest : string) :
  parseScalar s = Some (v, rest) -> (String.length rest < String.length s)%nat.
Proof.
  unfold parseScalar.
  destruct (Str.startsWith false "true" s) eqn:T.
  { intros [= _ <-]. apply startsWith_length in T. cbn in T. lia. }
  destruct (Str.startsWith false "false" s) eqn:F.
  { intros [= _ <-]. apply startsWith_length in F. cbn in F. lia. }
  destruct (Str.startsWith false "null" s) eqn:N.
  { intros [= _ <-]. apply startsWith_length in N. cbn in N. lia. }
  destruct (parseNumber s) as [[n r] |] eqn:P; [| discriminate].
  intros [= _ <-]. apply (parseNumber_rest _ _ _ P).
Qed.

(** Whatever is read, something is consumed. *)
Lemma parse_rest (f : nat) :
  (forall s v rest, parseValue f s = Ok (v, rest) ->
                    (String.length rest < String.length s)%nat)
  /\ (forall acc s v rest, parseElements f acc s = Ok (v, rest) ->
                           (String.length rest < String.length s)%nat)
  /\ (forall acc s v rest, parseMembers f acc s = Ok (v, rest) ->
                           (String.length rest < String.length s)%nat).
Proof.
  induction f as [| f (IHv & IHe & IHm)];
    [repeat split; intros; discriminate |].
  repeat split.
  - intros s v rest H. cbn [parseValue] in H.
    pose proof (skipWs_length s) as Ls.
    destruct (eat "{" (skipWs s)) as [r |] eqn:E1.
    { apply eat_length in E1. pose proof (skipWs_length r) as Lr.
      destruct (eat "}" (skipWs r)) as [r' |] eqn:E2.
      - injection H as _ <-. apply eat_length in E2. lia.
      - apply IHm in H. lia. }
    destruct (eat "[" (skipWs s)) as [r |] eqn:E2.
    { apply eat_length in E2. pose proof (skipWs_length r) as Lr.
      destruct (eat "]" (skipWs r)) as [r' |] eqn:E3.
      - injection H as _ <-. apply eat_length in E3. lia.
      - apply IHe in H. lia. }
    destruct (eat Str.dquote (skipWs s)) as [r |] eqn:E3.
    { apply eat_length in E3.
      destruct (parseChars r) as [[t r0] |] eqn:C; [| discriminate H].
      injection H as _ <-.
      pose proof (parseChars_length _ r t r0 (le_n _) C). lia. }
    destruct (parseScalar (skipWs s)) as [[v0 r0] |] eqn:Sc; [| discriminate H].
    cbn [lift] in H. injection H as _ <-. apply parseScalar_rest in Sc. lia.
  - intros acc s v rest H. cbn [parseElements] in H.
    destruct (parseValue f s) as [[v0 r0] | |] eqn:P; try discriminate H.
    apply IHv in P. pose proof (skipWs_length r0) as L0.
    destruct (eat "," (skipWs r0)) as [r |] eqn:E1.
    { apply eat_length in E1. apply IHe in H. lia. }
    destruct (eat "]" (skipWs r0)) as [r |] eqn:E2; [| discriminate H].
    injection H as _ <-. apply eat_length in E2. lia.
  - intros acc s v rest H. cbn [parseMembers] in H.
    pose proof (skipWs_length s) as Ls.
    destruct (eat Str.dquote (skipWs s)) as [r |] eqn:E0; [| discriminate H].
    apply eat_length in E0.
    destruct (parseChars r) as [[key r0] |] eqn:C; [| discriminate H].
    pose proof (parseChars_length _ r key r0 (le_n _) C) as Lc.
    pose proof (skipWs_length r0) as L0.
    destruct (eat ":" (skipWs r0)) as [r1 |] eqn:E1; [| discriminate H].
    apply eat_length in E1.
    destruct (parseValue f r1) as [[v0 r2] | |] eqn:P; try discriminate H.
    apply IHv in P. pose proof (skipWs_length r2) as L2.
    destruct (eat "," (skipWs r2)) as [r3 |] eqn:E2.
    { apply eat_length in E2. apply IHm in H. lia. }
    destruct (eat "}" (skipWs r2)) as [r3 |] eqn:E3; [| discriminate H].
    injection H as _ <-. apply eat_length in E3. lia.
Qed.

Lemma parse_fuel (f : nat) :
  (forall s, (2 * String.length s + 1 <= f)%nat -> parseValue f s <> OutOfFuel)
  /\ (forall acc s, (2 * String.length s + 2 <= f)%nat ->
                    parseElements f acc s <> OutOfFuel)
  /\ (forall acc s, (2 * String.length s + 2 <= f)%nat ->
                    parseMembers f acc s <> OutOfFuel).
Proof.
  induction f as [| f (IHv & IHe & IHm)]; [repeat split; intros; lia |].
  repeat split.
  - intros s L. cbn [parseValue].
    pose proof (skipWs_length s) as Ls.
    destruct (eat "{" (skipWs s)) as [r |] eqn:E1.
    { apply eat_length in E1.
      destruct (eat "}" (skipWs r)); [discriminate |]. apply IHm. lia. }
    destruct (eat "[" (skipWs s)) as [r |] eqn:E2.
    { apply eat_length in E2.
      destruct (eat "]" (skipWs r)); [discriminate |]. apply IHe. lia. }
    destruct (eat Str.dquote (skipWs s)) as [r |].
    { destruct (parseChars r) as [[t r0] |]; discriminate. }
    destruct (parseScalar (skipWs s)) as [[v0 r0] |]; discriminate.
  - intros acc s L. cbn [parseElements].
    destruct (parseValue f s) as [[v0 r0] | |] eqn:P.
    + apply (proj1 (parse_rest f)) in P. pose proof (skipWs_length r0) as L0.
      destruct (eat "," (skipWs r0)) as [r |] eqn:E1.
      { apply eat_length in E1. apply IHe. lia. }
      destruct (eat "]" (skipWs r0)); discriminate.
    + discriminate.
    + exfalso. apply (IHv s); [lia | exact P].
  - intros acc s L. cbn [parseMembers].
    pose proof (skipWs_length s) as Ls.
    destruct (eat Str.dquote (skipWs s)) as [r |] eqn:E0; [| discriminate].
    apply eat_length in E0.
    destruct (parseChars r) as [[key r0] |] eqn:C; [| discriminate].
    pose proof (parseChars_length _ r key r0 (le_n _) C) as Lc.
    pose proof (skipWs_length r0) as L0.
    destruct (eat ":" (skipWs r0)) as [r1 |] eqn:E1; [| discriminate].
    apply eat_length in E1.
    destruct (parseValue f r1) as [[v0 r2] | |] eqn:P.
    + apply (proj1 (parse_rest f)) in P. pose proof (skipWs_length r2) as L2.
      destruct (eat "," (skipWs r2)) as [r3 |] eqn:E2.
      { apply eat_length in E2. apply IHm. lia. }
      destruct (eat "}" (skipWs r2)); discriminate.
    + discriminate.
    + exfalso. apply (IHv r1); [lia | exact P].
Qed.

(** [JSON.parse] in the model gives [None] only for a syntax error. *)
Lemma parse_never_runs_out (s : string) : parseWith (fuelFor s) s <> OutOfFuel.
Proof.
  unfold parseWith.
  destruct (parseValue (fuelFor s) s) as [[v rest] | |] eqn:P.
  - destruct (skipWs rest); discriminate.
  - discriminate.
  - exfalso. apply (proj1 (parse_fuel (fuelFor s)) s); [unfold fuelFor; lia | exact P].
Qed.

End JsonFuel.

(** ** Steps of a recurrence *)

Section StepFacts.

Import JsDate Recurrence Notions MoreNotions.

Lemma parseRuleObject_bounds (v : Js.Value) (r : TaskCustomRecurrenceRule) :
  parseRuleObject v = Some r -> 1 <= interval r <= 365.
Proof.
  unfold parseRuleObject.
  destruct (negb (Js.isObject v)); [discriminate |].
  destruct (Js.get v "interval") as [| | | [i |] | | |]; try discriminate.
  destruct (Z.ltb_spec i 1); [discriminate |].
  destruct (Z.ltb_spec 365 i); [discriminate |]. cbn [orb].
  destruct (unitOfValue (Js.get v "unit")); [| discriminate].
  intros E. injection E as <-. cbn [interval]. lia.
Qed.

Lemma parseRuleFuel_bounds (fuel : nat) :
  forall v r, parseRuleFuel fuel v = Some r -> 1 <= interval r <= 365.
Proof.
  induction fuel as [| f IH]; intros v r H.
  - destruct v; try (apply (parseRuleObject_bounds _ _ H)). discriminate H.
  - destruct v; try (apply (parseRuleObject_bounds _ _ H)).
    cbn [parseRuleFuel] in H.
    destruct (Json.parse s) as [v' |]; [| discriminate].
    apply (IH v' r H).
Qed.

(** A resolved rule has an interval of 1 to 365. *)
Lemma resolved_rule_bounds (ty : TaskRecurrenceType) (rule : Js.Value)
  (r : TaskCustomRecurrenceRule) :
  getResolvedTaskRecurrenceRule ty rule = Some r -> 1 <= interval r <= 365.
Proof.
  destruct ty; cbn [getResolvedTaskRecurrenceRule]; intros H;
    try discriminate; try (injection H as <-; cbn; lia).
  apply (parseRuleFuel_bounds _ _ _ H).
Qed.

(** The number of days that a rule in days or weeks moves on. *)
Lemma day_step (ty : TaskRecurrenceType) (rule : Js.Value) (anchor : string)
  (t n : Z) (u : TaskCustomRecurrenceUnit) :
  parseIsoDate anchor = Some t ->
  getResolvedTaskRecurrenceRule ty rule = Some (mkRule n u) ->
  u <> UMonth ->
  getNextTaskRecurrenceDate anchor ty rule
  = Some (toIsoDate (t + stepDays (mkRule n u))).
Proof.
  intros P R U. unfold getNextTaskRecurrenceDate. rewrite R, P.
  cbn [unit interval]. unfold stepDays. cbn [unit interval].
  destruct u; [| | congruence]; rewrite setUTCDate_add; do 2 f_equal; lia.
Qed.

Lemma day_step_rule (ty : TaskRecurrenceType) (rule : Js.Value) (anchor : string)
  (t : Z) (r : TaskCustomRecurrenceRule) :
  parseIsoDate anchor = Some t ->
  getResolvedTaskRecurrenceRule ty rule = Some r ->
  unit r <> UMonth ->
  getNextTaskRecurrenceDate anchor ty rule = Some (toIsoDate (t + stepDays r)).
Proof. destruct r as [n u]. apply day_step. Qed.

Lemma firstOfMonth_civil (y m : Z) :
  0 <= m <= 11 -> firstOfMonth (12 * y + m) = MakeDay y m 1.
Proof.
  intros Hm. unfold firstOfMonth, MakeDay.
  assert ((12 * y + m) / 12 = y) as -> by zlia.
  assert ((12 * y + m) mod 12 = m) as -> by zlia.
  rewrite (Z.div_small m), (Z.mod_small m) by lia.
  rewrite ?Z.add_0_l, ?Z.add_0_r. reflexivity.
Qed.

Lemma firstOfMonth_next (y m : Z) :
  0 <= m <= 11 ->
  firstOfMonth (12 * y + m + 1) = firstOfMonth (12 * y + m) + DaysInMonth y m.
Proof.
  intros Hm.
  rewrite (firstOfMonth_civil y m Hm).
  assert (m = 11 \/ m < 11) as [E | L] by lia.
  - rewrite E.
    replace (12 * y + 11 + 1) with (12 * (y + 1) + 0) by lia.
    rewrite (firstOfMonth_civil (y + 1) 0) by lia.
    unfold MakeDay, DaysInMonth.
    change (0 / 12) with 0. change (0 mod 12) with 0.
    change (11 / 12) with 0. change (11 mod 12) with 11.
    change (11 + 1) with 12.
    rewrite ?Z.add_0_r, DayFromYear_succ, <- monthStart_year.
    change (monthStart (InLeapYear (y + 1)) 0) with 0. lia.
  - replace (12 * y + m + 1) with (12 * y + (m + 1)) by lia.
    rewrite (firstOfMonth_civil y (m + 1)) by lia.
    unfold MakeDay, DaysInMonth.
    rewrite (Z.div_small m), (Z.mod_small m) by lia.
    rewrite (Z.div_small (m + 1)), (Z.mod_small (m + 1)) by lia.
    rewrite ?Z.add_0_r. lia.
Qed.

Lemma firstOfMonth_succ (k : Z) :
  firstOfMonth (k + 1) = firstOfMonth k + DaysInMonth (k / 12) (k mod 12).
Proof.
  pose proof (firstOfMonth_next (k / 12) (k mod 12) ltac:(zlia)) as H.
  replace (12 * (k / 12) + k mod 12) with k in H by zlia.
  exact H.
Qed.

Lemma firstOfMonth_later (n : nat) (k : Z) :
  firstOfMonth k + DaysInMonth (k / 12) (k mod 12)
  <= firstOfMonth (k + 1 + Z.of_nat n).
Proof.
  induction n as [| n IH].
  - rewrite Z.add_0_r, firstOfMonth_succ. lia.
  - replace (k + 1 + Z.of_nat (S n)) with ((k + 1 + Z.of_nat n) + 1) by lia.
    rewrite firstOfMonth_succ.
    pose proof (DaysInMonth_range ((k + 1 + Z.of_nat n) / 12)
                  ((k + 1 + Z.of_nat n) mod 12) ltac:(zlia)).
    lia.
Qed.

(** [addMonthsClamped] lands in the target month, on a day from 1 to the
    day of the month it started from. *)
Lemma addMonthsClamped_lands (t n : Z) :
  let k := 12 * YearFromDay t + MonthFromDay t + n in
  exists dt, 1 <= dt <= DateFromDay t
             /\ addMonthsClamped t n = firstOfMonth k + dt - 1.
Proof.
  cbv zeta.
  set (y := YearFromDay t). set (m := MonthFromDay t). set (d := DateFromDay t).
  set (y' := y + (m + n) / 12). set (m' := (m + n) mod 12).
  assert (0 <= m <= 11) as Rm by apply MonthFromDay_range.
  assert (0 <= m' <= 11) as Rm' by (subst m'; zlia).
  pose proof (DateFromDay_range t) as Rd. fold y m d in Rd.
  destruct (civil_of_MakeDay y m 1 Rm ltac:(pose proof (DaysInMonth_range y m Rm); lia))
    as (A1 & A2 & A3).
  destruct (civil_of_MakeDay y' m' 1 Rm'
              ltac:(pose proof (DaysInMonth_range y' m' Rm'); lia))
    as (B1 & B2 & B3).
  unfold addMonthsClamped, getUTCFullYear, getUTCMonth, getUTCDate.
  assert (setUTCDate t 1 = MakeDay y m 1) as S1 by reflexivity.
  rewrite S1, A2.
  assert (setUTCMonth (MakeDay y m 1) (m + n) = MakeDay y' m' 1) as S2.
  { unfold setUTCMonth. rewrite A1, A3. unfold MakeDay. subst y' m'.
    rewrite (Z.div_small ((m + n) mod 12)), Z.mod_mod, Z.add_0_r by zlia.
    reflexivity. }
  rewrite S2, B1, B2.
  unfold setUTCDate. rewrite B1, B2. unfold UTC.
  rewrite last_day_of_month by assumption. fold d.
  pose proof (DaysInMonth_range (MakeFullYear y') m' Rm') as Rl.
  exists (Z.min d (DaysInMonth (MakeFullYear y') m')).
  split; [lia |].
  replace (12 * y + m + n) with (12 * y' + m') by (subst y' m'; zlia).
  rewrite (firstOfMonth_civil y' m' Rm'). unfold MakeDay.
  rewrite (Z.div_small m'), (Z.mod_small m') by lia.
  rewrite ?Z.add_0_r. lia.
Qed.

(** A step of one or more months ends after the day it started from. *)
Lemma addMonthsClamped_later (t n : Z) : 1 <= n -> t < addMonthsClamped t n.
Proof.
  intros Hn.
  destruct (addMonthsClamped_lands t n) as (dt & Rdt & E). rewrite E.
  set (y := YearFromDay t) in *. set (m := MonthFromDay t) in *.
  assert (0 <= m <= 11) as Rm by apply MonthFromDay_range.
  pose proof (DateFromDay_range t) as Rd. fold y m in Rd.
  pose proof (MakeDay_of_civil t) as C. fold y m in C.
  pose proof (firstOfMonth_civil y m Rm) as F.
  pose proof (firstOfMonth_later (Z.to_nat (n - 1)) (12 * y + m)) as L.
  replace (12 * y + m + 1 + Z.of_nat (Z.to_nat (n - 1))) with (12 * y + m + n)
    in L by lia.
  assert ((12 * y + m) / 12 = y) as Ey by zlia.
  assert ((12 * y + m) mod 12 = m) as Em by zlia.
  rewrite Ey, Em, F in L.
  assert (t = MakeDay y m 1 + DateFromDay t - 1) as Et.
  { rewrite <- C at 1. unfold MakeDay. lia. }
  lia.
Qed.

End StepFacts.

Section StepTheorems.

Import JsDate Recurrence Notions MoreNotions.

(** X1: a rule in days or weeks moves a calendar-day anchor on by
    [interval] days, or by 7 times [interval] days, and the result is
    that calendar day as long as it is not past the year 9999. *)
Theorem day_and_week_rules_add_days
  (ty : TaskRecurrenceType) (rule : Js.Value) (anchor : string)
  (t : Z) (r : TaskCustomRecurrenceRule) :
  parseIsoDate anchor = Some t ->
  getResolvedTaskRecurrenceRule ty rule = Some r ->
  unit r <> UMonth ->
  1 <= stepDays r
  /\ getNextTaskRecurrenceDate anchor ty rule = Some (toIsoDate (t + stepDays r))
  /\ (YearFromDay (t + stepDays r) <= 9999 ->
      parseIsoDate (toIsoDate (t + stepDays r)) = Some (t + stepDays r)).
Proof.
  intros P R U.
  pose proof (resolved_rule_bounds ty rule _ R) as B.
  destruct r as [n u]. cbn [interval unit] in *.
  assert (1 <= stepDays (mkRule n u)) as S.
  { unfold stepDays. cbn [unit interval]. destruct u; try lia. congruence. }
  split; [exact S |]. split; [apply day_step; assumption |].
  intros Y. apply parseIsoDate_toIsoDate.
  destruct (parseIsoDate_Some anchor t P) as [_ Ry].
  split; [| exact Y].
  pose proof (YearFromDay_mono t (t + stepDays (mkRule n u)) ltac:(lia)).
  lia.
Qed.

Lemma day_and_week_rules_add_days_witness :
  getNextTaskRecurrenceDate "2024-02-25" TCustom
    (Js.Object [("interval", Js.Number (Js.NInt 2)); ("unit", Js.Str "week")])
  = Some "2024-03-10".
Proof.
  apply (proj1 (proj2 (day_and_week_rules_add_days TCustom
           (Js.Object [("interval", Js.Number (Js.NInt 2)); ("unit", Js.Str "week")])
           "2024-02-25" 19778 (mkRule 2 UWeek)
           ltac:(vm_compute; reflexivity) ltac:(vm_compute; reflexivity)
           ltac:(discriminate)))).
Defined.

(** The next occurrence is the ISO form of a day after the anchor. *)
Lemma next_date_shape
  (ty : TaskRecurrenceType) (rule : Js.Value) (anchor : string) (t : Z)
  (r : TaskCustomRecurrenceRule) :
  parseIsoDate anchor = Some t ->
  getResolvedTaskRecurrenceRule ty rule = Some r ->
  exists d, getNextTaskRecurrenceDate anchor ty rule = Some (toIsoDate d) /\ t < d.
Proof.
  intros P R.
  pose proof (resolved_rule_bounds ty rule r R) as B.
  destruct r as [n u]. cbn [interval] in B.
  assert (u = UMonth \/ u <> UMonth) as [-> | U]
    by (destruct u; auto; right; discriminate).
  - exists (addMonthsClamped t n). split.
    + unfold getNextTaskRecurrenceDate. rewrite R, P. reflexivity.
    + apply addMonthsClamped_later. lia.
  - exists (t + stepDays (mkRule n u)). split.
    + apply day_step; assumption.
    + unfold stepDays. cbn [unit interval]. destruct u; [lia | lia | congruence].
Qed.

(** X2: with a calendar-day anchor and a rule that resolves, there is a
    next occurrence, and it is never a calendar day on or before the
    anchor: every step moves forward. *)
Theorem next_occurrence_is_later
  (ty : TaskRecurrenceType) (rule : Js.Value) (anchor : string) (t : Z)
  (r : TaskCustomRecurrenceRule) :
  parseIsoDate anchor = Some t ->
  getResolvedTaskRecurrenceRule ty rule = Some r ->
  exists next,
    getNextTaskRecurrenceDate anchor ty rule = Some next
    /\ next <> ""
    /\ forall t', parseIsoDate next = Some t' -> t < t'.
Proof.
  intros P R.
  destruct (next_date_shape ty rule anchor t r P R) as (d & N & L).
  exists (toIsoDate d). split; [exact N |]. split.
  - unfold toIsoDate, toISOString, isoYear.
    destruct ((0 <=? YearFromDay d) && (YearFromDay d <=? 9999));
      cbn; discriminate.
  - intros t' P'. apply toIsoDate_parses_back in P'. subst t'. exact L.
Qed.

Lemma next_occurrence_is_later_witness :
  exists next,
    getNextTaskRecurrenceDate "0000-01-31" TMonthly Js.Null = Some next
    /\ next <> ""
    /\ forall t', parseIsoDate next = Some t' -> -719498 < t'.
Proof.
  apply (next_occurrence_is_later TMonthly Js.Null "0000-01-31" (-719498)
           (mkRule 1 UMonth));
    [vm_compute; reflexivity | reflexivity].
Defined.

(** X3: a result of the search is a fixed point of it: searching again
    from the day that was found, with the same rule and target, gives
    that day. *)
Theorem on_or_after_result_is_a_fixed_point
  (ty : TaskRecurrenceType) (rule : Js.Value) (anchor target found : string) :
  getNextTaskRecurrenceOnOrAfter anchor ty rule target = Some found ->
  getNextTaskRecurrenceOnOrAfter found ty rule target = Some found.
Proof.
  unfold getNextTaskRecurrenceOnOrAfter.
  destruct (parseIsoDate target) as [t |]; [| discriminate].
  intros H. apply onOrAfterLoop_sound in H.
  destruct H as (k & _ & _ & (s & d & E & P & L) & _).
  injection E as <-.
  change 4000%nat with (S 3999). cbn [onOrAfterLoop]. rewrite P.
  destruct (Z.leb_spec t d); [reflexivity | lia].
Qed.

Lemma on_or_after_result_is_a_fixed_point_witness :
  getNextTaskRecurrenceOnOrAfter "2024-01-15" TWeekly Js.Null "2024-01-10"
  = Some "2024-01-15".
Proof.
  apply (on_or_after_result_is_a_fixed_point TWeekly Js.Null
           "2024-01-01" "2024-01-10" "2024-01-15").
  vm_compute. reflexivity.
Defined.

End StepTheorems.

(** ** The search on the grid of a rule in days, labels and previews *)

Section GridFacts.

Import JsDate Recurrence Notions MoreNotions.

Lemma toIsoDate_nonempty (d : Z) : toIsoDate d <> "".
Proof.
  unfold toIsoDate, toISOString, isoYear.
  destruct ((0 <=? YearFromDay d) && (YearFromDay d <=? 9999)); cbn; discriminate.
Qed.

Lemma truthy_toIsoDate (d : Z) : truthy (Some (toIsoDate d)) = Some (toIsoDate d).
Proof.
  pose proof (toIsoDate_nonempty d) as N. unfold truthy.
  destruct (toIsoDate d); [congruence | reflexivity].
Qed.

Variable ty : TaskRecurrenceType.
Variable rule : Js.Value.
Variable r : TaskCustomRecurrenceRule.
Hypothesis resolved : getResolvedTaskRecurrenceRule ty rule = Some r.
Hypothesis inDays : unit r <> UMonth.

Lemma stepDays_positive : 1 <= stepDays r.
Proof.
  pose proof (resolved_rule_bounds ty rule r resolved) as B.
  unfold stepDays. destruct (unit r); [lia | lia | congruence].
Qed.

Lemma grid_step (cursor : string) (a : Z) :
  parseIsoDate cursor = Some a ->
  truthy (getNextTaskRecurrenceDate cursor ty rule)
  = Some (toIsoDate (a + stepDays r)).
Proof.
  intros P. rewrite (day_step_rule ty rule cursor a r P resolved inDays).
  apply truthy_toIsoDate.
Qed.

(** The cursors of a rule in days are the days of its grid, as long as
    they stay within the year 9999. *)
Lemma cursor_on_grid (j : nat) :
  forall cursor a,
    parseIsoDate cursor = Some a ->
    YearFromDay (a + Z.of_nat j * stepDays r) <= 9999 ->
    cursorAt ty rule cursor j = Some (toIsoDate (a + Z.of_nat j * stepDays r)).
Proof.
  pose proof stepDays_positive as Spos.
  induction j as [| j IH]; intros cursor a P Y.
  - cbn [cursorAt]. destruct (parseIsoDate_Some cursor a P) as [E _].
    rewrite E. do 2 f_equal. lia.
  - cbn [cursorAt]. rewrite (grid_step cursor a P).
    destruct (parseIsoDate_Some cursor a P) as [_ Ra].
    replace (a + Z.of_nat (S j) * stepDays r)
      with (a + stepDays r + Z.of_nat j * stepDays r) in * by lia.
    apply IH; [| exact Y].
    apply parseIsoDate_toIsoDate.
    pose proof (YearFromDay_mono a (a + stepDays r) ltac:(lia)).
    pose proof (YearFromDay_mono (a + stepDays r)
                  (a + stepDays r + Z.of_nat j * stepDays r) ltac:(nia)).
    lia.
Qed.

(** A cursor that exists is a day of the grid. *)
Lemma cursor_only_on_grid (j : nat) :
  forall cursor a c,
    parseIsoDate cursor = Some a ->
    cursorAt ty rule cursor j = Some c ->
    c = toIsoDate (a + Z.of_nat j * stepDays r).
Proof.
  induction j as [| j IH]; intros cursor a c P H.
  - cbn [cursorAt] in H. injection H as <-.
    destruct (parseIsoDate_Some cursor a P) as [E _].
    rewrite E at 1. f_equal. lia.
  - cbn [cursorAt] in H. rewrite (grid_step cursor a P) in H.
    replace (a + Z.of_nat (S j) * stepDays r)
      with (a + stepDays r + Z.of_nat j * stepDays r) by lia.
    destruct (parseIsoDate (toIsoDate (a + stepDays r))) as [a' |] eqn:P'.
    + pose proof (toIsoDate_parses_back _ _ P') as ->.
      apply (IH _ _ _ P' H).
    + destruct j as [| j].
      * cbn [cursorAt] in H. injection H as <-. f_equal. lia.
      * cbn [cursorAt] in H.
        rewrite (next_needs_valid_cursor ty rule _ P') in H. discriminate H.
Qed.

Lemma stepsTo_spec (a t : Z) :
  a <= t ->
  0 <= stepsTo a t (stepDays r)
  /\ t <= a + stepsTo a t (stepDays r) * stepDays r < t + stepDays r.
Proof.
  pose proof stepDays_positive as Spos. intros L. unfold stepsTo.
  set (s := stepDays r) in *.
  pose proof (Z.div_mod (t - a + s - 1) s ltac:(lia)) as D.
  pose proof (Z.mod_pos_bound (t - a + s - 1) s ltac:(lia)) as M.
  assert (0 <= (t - a + s - 1) / s) by (apply Z.div_pos; lia).
  nia.
Qed.

Lemma grid_search (anchor target : string) (a t : Z) :
  parseIsoDate anchor = Some a ->
  parseIsoDate target = Some t ->
  a <= t ->
  (stepsTo a t (stepDays r) < 4000 ->
   YearFromDay (a + stepsTo a t (stepDays r) * stepDays r) <= 9999 ->
   getNextTaskRecurrenceOnOrAfter anchor ty rule target
   = Some (toIsoDate (a + stepsTo a t (stepDays r) * stepDays r)))
  /\ (4000 <= stepsTo a t (stepDays r) ->
      getNextTaskRecurrenceOnOrAfter anchor ty rule target = None).
Proof.
  intros Pa Pt L.
  pose proof stepDays_positive as Spos.
  destruct (stepsTo_spec a t L) as (K0 & K1 & K2).
  set (k := stepsTo a t (stepDays r)) in *.
  assert (forall j c, (Z.of_nat j < k) -> cursorAt ty rule anchor j = Some c ->
                      ~ reaches t (Some c)) as Before.
  { intros j c Hj Hc (s' & d & E & P & Ld). injection E as <-.
    pose proof (cursor_only_on_grid j anchor a c Pa Hc) as ->.
    apply toIsoDate_parses_back in P. subst d. nia. }
  unfold getNextTaskRecurrenceOnOrAfter. rewrite Pt. split.
  - intros K Y.
    apply (onOrAfterLoop_found ty rule t (Z.to_nat k) 4000 anchor).
    + lia.
    + rewrite <- (Z2Nat.id k K0) at 2. apply cursor_on_grid; [exact Pa |].
      rewrite Z2Nat.id by exact K0. exact Y.
    + eexists. exists (a + k * stepDays r). split; [reflexivity |].
      split; [| lia].
      apply parseIsoDate_toIsoDate. split; [| exact Y].
      destruct (parseIsoDate_Some anchor a Pa) as [_ Ra].
      pose proof (YearFromDay_mono a (a + k * stepDays r) ltac:(nia)). lia.
    + intros j Hj H.
      destruct (cursorAt ty rule anchor j) as [c |] eqn:C.
      * apply (Before j c); [lia | exact C | exact H].
      * destruct H as (s' & d & E & _). discriminate E.
  - intros K. apply onOrAfterLoop_none. intros j Hj H.
    destruct (cursorAt ty rule anchor j) as [c |] eqn:C.
    + apply (Before j c); [lia | exact C | exact H].
    + destruct H as (s' & d & E & _). discriminate E.
Qed.

End GridFacts.

Section GridTheorems.

Import JsDate Recurrence Notions MoreNotions.

(** X4: under a rule in days or weeks, with calendar days for the anchor
    and for a target that is not before it, the search lands on the grid
    of the rule: it returns the anchor moved on by the least number [k]
    of steps that reaches the target, when [k] is below 4000 and that day
    is within the year 9999, and null when [k] is 4000 or more. *)
Theorem search_lands_on_the_grid
  (ty : TaskRecurrenceType) (rule : Js.Value) (r : TaskCustomRecurrenceRule)
  (anchor target : string) (a t : Z) :
  getResolvedTaskRecurrenceRule ty rule = Some r ->
  unit r <> UMonth ->
  parseIsoDate anchor = Some a ->
  parseIsoDate target = Some t ->
  a <= t ->
  (0 <= stepsTo a t (stepDays r)
   /\ t <= a + stepsTo a t (stepDays r) * stepDays r < t + stepDays r)
  /\ (stepsTo a t (stepDays r) < 4000 ->
      YearFromDay (a + stepsTo a t (stepDays r) * stepDays r) <= 9999 ->
      getNextTaskRecurrenceOnOrAfter anchor ty rule target
      = Some (toIsoDate (a + stepsTo a t (stepDays r) * stepDays r)))
  /\ (4000 <= stepsTo a t (stepDays r) ->
      getNextTaskRecurrenceOnOrAfter anchor ty rule target = None).
Proof.
  intros R U Pa Pt L. split.
  - apply (stepsTo_spec ty rule r R U a t L).
  - apply (grid_search ty rule r R U anchor target a t Pa Pt L).
Qed.

Lemma search_lands_on_the_grid_witness :
  getNextTaskRecurrenceOnOrAfter "2024-01-01" TWeekly Js.Null "2024-03-01"
  = Some "2024-03-04".
Proof.
  apply (proj1 (proj2 (search_lands_on_the_grid TWeekly Js.Null (mkRule 1 UWeek)
           "2024-01-01" "2024-03-01" 19723 19783
           ltac:(reflexivity) ltac:(discriminate)
           ltac:(vm_compute; reflexivity) ltac:(vm_compute; reflexivity)
           ltac:(lia))));
    vm_compute; [reflexivity | discriminate].
Defined.

End GridTheorems.

(** ** Labels and previews *)

Section LabelFacts.

Import JsDate Recurrence Notions MoreNotions Preview.

Lemma unitEqb_eq (a b : TaskCustomRecurrenceUnit) : unitEqb a b = true -> a = b.
Proof. destruct a, b; (reflexivity || discriminate). Qed.

Lemma ruleEqb_eq (a b : TaskCustomRecurrenceRule) : ruleEqb a b = true -> a = b.
Proof.
  destruct a as [n u], b as [n' u']. unfold ruleEqb. cbn [interval unit].
  intros H. apply andb_true_iff in H. destruct H as [N U].
  apply Z.eqb_eq in N. apply unitEqb_eq in U. congruence.
Qed.

Lemma unitOfValue_unitName (u : TaskCustomRecurrenceUnit) :
  unitOfValue (Js.Str (unitName u)) = Some u.
Proof. destruct u; reflexivity. Qed.

(** A rule given as an object resolves to itself. *)
Lemma ruleArgument_resolves (r : TaskCustomRecurrenceRule) :
  1 <= interval r <= 365 ->
  getResolvedTaskRecurrenceRule TCustom (ruleArgument r) = Some r.
Proof.
  intros B. destruct r as [n u]. cbn [interval] in B.
  cbn [getResolvedTaskRecurrenceRule]. unfold ruleArgument.
  cbn [interval unit]. unfold parseTaskCustomRecurrenceRule.
  cbn [depthBound parseRuleFuel]. unfold parseRuleObject.
  cbn [Js.isObject negb Js.get].
  change (Js.getField "interval" [("interval", Js.Number (Js.NInt n));
                                  ("unit", Js.Str (unitName u))])
    with (Js.Number (Js.NInt n)).
  change (Js.getField "unit" [("interval", Js.Number (Js.NInt n));
                              ("unit", Js.Str (unitName u))])
    with (Js.Str (unitName u)).
  cbv beta iota.
  destruct (Z.ltb_spec n 1); [lia |].
  destruct (Z.ltb_spec 365 n); [lia |]. cbn [orb].
  rewrite unitOfValue_unitName. reflexivity.
Qed.

(** The label depends on the resolved rule only. *)
Lemma describe_of_resolved (ty : TaskRecurrenceType) (rule : Js.Value)
  (r : TaskCustomRecurrenceRule) :
  getResolvedTaskRecurrenceRule ty rule = Some r ->
  describeTaskRecurrence ty rule = describeTaskRecurrence TCustom (ruleArgument r).
Proof.
  intros R. pose proof (resolved_rule_bounds ty rule r R) as B.
  unfold describeTaskRecurrence. rewrite R, (ruleArgument_resolves r B).
  reflexivity.
Qed.

Lemma allRules_complete (r : TaskCustomRecurrenceRule) :
  1 <= interval r <= 365 -> In r allRules.
Proof.
  intros B. destruct r as [n u]. cbn [interval] in B.
  unfold allRules. apply in_flat_map. exists (Z.to_nat n). split.
  - apply in_seq. lia.
  - rewrite Z2Nat.id by lia. destruct u; cbn; auto.
Qed.

Lemma labels_of_all_rules_differ : labelsDiffer allRules = true.
Proof. vm_compute. reflexivity. Qed.

Lemma labelsDiffer_sound (rules : list TaskCustomRecurrenceRule)
  (r1 r2 : TaskCustomRecurrenceRule) :
  labelsDiffer rules = true -> In r1 rules -> In r2 rules ->
  describeTaskRecurrence TCustom (ruleArgument r1)
  = describeTaskRecurrence TCustom (ruleArgument r2) ->
  r1 = r2.
Proof.
  intros D I1 I2 E. unfold labelsDiffer in D. cbv zeta in D.
  set (label := fun r => (r, describeTaskRecurrence TCustom (ruleArgument r))) in D.
  pose proof (proj1 (forallb_forall _ _) D (label r1) (in_map label _ _ I1)) as D1.
  cbv beta in D1.
  pose proof (proj1 (forallb_forall _ _) D1 (label r2) (in_map label _ _ I2)) as D2.
  subst label. cbn [fst snd] in D2. rewrite E, String.eqb_refl in D2.
  apply ruleEqb_eq. exact D2.
Qed.

Lemma label_of_rule_unique (r1 r2 : TaskCustomRecurrenceRule) :
  1 <= interval r1 <= 365 -> 1 <= interval r2 <= 365 ->
  describeTaskRecurrence TCustom (ruleArgument r1)
  = describeTaskRecurrence TCustom (ruleArgument r2) ->
  r1 = r2.
Proof.
  intros B1 B2.
  apply (labelsDiffer_sound allRules r1 r2 labels_of_all_rules_differ
           (allRules_complete r1 B1) (allRules_complete r2 B2)).
Qed.

Lemma label_of_rule_is_not_none (ty : TaskRecurrenceType) (rule : Js.Value)
  (r : TaskCustomRecurrenceRule) :
  getResolvedTaskRecurrenceRule ty rule = Some r ->
  describeTaskRecurrence ty rule <> "No recurrence".
Proof.
  intros R. unfold describeTaskRecurrence. rewrite R.
  destruct (interval r =? 1); [destruct (unit r); discriminate |].
  cbn. discriminate.
Qed.

End LabelFacts.

Section LabelTheorems.

Import JsDate Recurrence Notions MoreNotions Preview.

(** X5: the label of a recurrence tells the resolved rule: two
    recurrences with the same label resolve alike, the label is
    [No recurrence] exactly when no rule resolves, and a custom rule with
    interval 1 is labelled like the preset of its unit. *)
Theorem label_determines_the_rule
  (ty1 ty2 : TaskRecurrenceType) (rule1 rule2 : Js.Value) :
  (describeTaskRecurrence ty1 rule1 = describeTaskRecurrence ty2 rule2 ->
   getResolvedTaskRecurrenceRule ty1 rule1 = getResolvedTaskRecurrenceRule ty2 rule2)
  /\ (describeTaskRecurrence ty1 rule1 = "No recurrence"
      <-> getResolvedTaskRecurrenceRule ty1 rule1 = None)
  /\ describeTaskRecurrence TCustom (ruleArgument (mkRule 1 UDay))
     = describeTaskRecurrence TDaily rule1
  /\ describeTaskRecurrence TCustom (ruleArgument (mkRule 1 UWeek))
     = describeTaskRecurrence TWeekly rule1
  /\ describeTaskRecurrence TCustom (ruleArgument (mkRule 1 UMonth))
     = describeTaskRecurrence TMonthly rule1.
Proof.
  split; [| split; [| repeat split]].
  - intros E.
    destruct (getResolvedTaskRecurrenceRule ty1 rule1) as [r1 |] eqn:R1;
      destruct (getResolvedTaskRecurrenceRule ty2 rule2) as [r2 |] eqn:R2.
    + f_equal. apply label_of_rule_unique.
      * apply (resolved_rule_bounds ty1 rule1 r1 R1).
      * apply (resolved_rule_bounds ty2 rule2 r2 R2).
      * rewrite <- (describe_of_resolved ty1 rule1 r1 R1).
        rewrite <- (describe_of_resolved ty2 rule2 r2 R2). exact E.
    + exfalso. apply (label_of_rule_is_not_none ty1 rule1 r1 R1).
      rewrite E. unfold describeTaskRecurrence. rewrite R2. reflexivity.
    + exfalso. apply (label_of_rule_is_not_none ty2 rule2 r2 R2).
      rewrite <- E. unfold describeTaskRecurrence. rewrite R1. reflexivity.
    + reflexivity.
  - split.
    + intros E.
      destruct (getResolvedTaskRecurrenceRule ty1 rule1) as [r1 |] eqn:R1;
        [| reflexivity].
      exfalso. apply (label_of_rule_is_not_none ty1 rule1 r1 R1). exact E.
    + intros R. unfold describeTaskRecurrence. rewrite R. reflexivity.
Qed.

Lemma label_determines_the_rule_witness :
  getResolvedTaskRecurrenceRule TCustom
    (ruleArgument (mkRule 1 UWeek))
  = getResolvedTaskRecurrenceRule TWeekly Js.Null.
Proof.
  apply (proj1 (label_determines_the_rule TCustom TWeekly
                  (ruleArgument (mkRule 1 UWeek)) Js.Null)).
  vm_compute. reflexivity.
Defined.

End LabelTheorems.

Section PreviewTheorems.

Import JsDate Recurrence Notions MoreNotions Preview.

Lemma parseIsoDate_nonempty (s : string) (d : Z) :
  parseIsoDate s = Some d -> s <> "".
Proof. intros P E. subst s. discriminate P. Qed.

(** X6: the preview of a task that is duplicated on schedule never
    shows a day before today: a next day that it shows is a calendar day
    on or after the UTC day of the clock, it is the due date itself when
    that is a calendar day not before today, and the detail line names
    it.  Without a due date the preview shows no day. *)
Theorem schedule_preview_is_not_in_the_past (host : Host) (task : Store.Task) :
  Store.recurrenceBehavior task = DuplicateOnSchedule ->
  (forall day,
     next (getTaskRecurrencePreview host task) = Some day ->
     exists d,
       parseIsoDate day = Some d
       /\ parseIsoDate (getTodayIsoDate host) = Some (now host / Timezone.msPerDay)
       /\ now host / Timezone.msPerDay <= d
       /\ detail (getTaskRecurrencePreview host task)
          = ("Next scheduled duplicate: " ++ day ++ ".")%string)
  /\ (forall due a,
        Store.dueDate task = Some due ->
        parseIsoDate due = Some a ->
        parseIsoDate (getTodayIsoDate host) = Some (now host / Timezone.msPerDay) ->
        now host / Timezone.msPerDay <= a ->
        next (getTaskRecurrencePreview host task) = Some due)
  /\ (Store.falsy (Store.dueDate task) = true ->
      next (getTaskRecurrencePreview host task) = None
      /\ detail (getTaskRecurrencePreview host task)
         = "Add a due date to anchor schedule-based duplicates.").
Proof.
  intros B. unfold getTaskRecurrencePreview. rewrite B. cbn [next detail].
  split; [| split].
  - intros day H.
    destruct (Store.dueDate task) as [due |] eqn:D; [| discriminate H].
    destruct (String.eqb_spec due "") as [-> | N]; [discriminate H |].
    assert (Store.falsy (Some due) = false) as F.
    { cbn. apply String.eqb_neq. exact N. }
    rewrite F, H.
    unfold getNextTaskRecurrenceOnOrAfter in H.
    destruct (parseIsoDate (getTodayIsoDate host)) as [today |] eqn:T;
      [| discriminate H].
    apply onOrAfterLoop_sound in H.
    destruct H as (k & _ & _ & (s & d & E & P & L) & _). injection E as <-.
    pose proof (toIsoDate_parses_back _ _ T) as ->.
    exists d. repeat split; [exact P | exact L |].
    pose proof (parseIsoDate_nonempty day d P) as NE.
    unfold truthy. destruct day; [congruence | reflexivity].
  - intros due a D Pa T L. rewrite D.
    destruct (String.eqb_spec due "") as [-> | N]; [discriminate Pa |].
    unfold getNextTaskRecurrenceOnOrAfter. rewrite T.
    change 4000%nat with (S 3999). cbn [onOrAfterLoop]. rewrite Pa.
    destruct (Z.leb_spec (now host / Timezone.msPerDay) a); [reflexivity | lia].
  - intros F. rewrite F.
    destruct (Store.dueDate task) as [due |]; [| split; reflexivity].
    cbn in F. rewrite F. split; reflexivity.
Qed.

Lemma schedule_preview_is_not_in_the_past_witness :
  next (getTaskRecurrencePreview utcHost scheduledTask) = Some "2024-01-01".
Proof.
  apply (proj1 (proj2 (schedule_preview_is_not_in_the_past utcHost scheduledTask
                         ltac:(reflexivity))) "2024-01-01" 19723);
    vm_compute; (reflexivity || discriminate).
Defined.



End PreviewTheorems.

(** ** Adding days and resolving time zones: [src/lib/timezone.ts] *)

Section AddDaysFacts.

Import JsDate Recurrence Timezone Notions MoreNotions.

(** On a string of the form [YYYY-MM-DD] with a month 1..12 and a day
    1..31, [addDaysToIsoDate] returns the string of the day [days] after
    the date that [Date.UTC] makes of the fields, as long as that day is
    a time value. *)
Lemma addDaysToIsoDate_plausible (s : string) (y m d days : Z) :
  isoFields s = Some (y, m, d) ->
  1 <= m <= 12 -> 1 <= d <= 31 ->
  Z.abs (UTC y (m - 1) d + days) <= 100000000 ->
  addDaysToIsoDate s days = Returns (toIsoDate (UTC y (m - 1) d + days)).
Proof.
  intros F Hm Hd Hn.
  destruct (isoOfCivil_isoFields s y m d F) as (E & Ry & Rm & Rd).
  pose proof (isoFields_isoOfCivil y m d Ry Rm Rd) as F'.
  unfold addDaysToIsoDate. rewrite E, splitOn_isoOfCivil.
  cbn [nth_error].
  revert F'. unfold isoOfCivil, isoFields.
  cbn [Str.fixedDigits String.append].
  rewrite !isDigit_digitChar. cbn [andb Ascii.eqb Bool.eqb].
  intros F'. apply Some_fields in F'. destruct F' as (Ey & Em & Ed).
  rewrite !jsNumber_digits;
    try (cbn [Str.allDigits]; rewrite !isDigit_digitChar; reflexivity);
    try (rewrite ?Ey, ?Em, ?Ed; split; [lia |];
         apply Z.lt_trans with 10000; [lia | reflexivity]).
  rewrite Ey, Em, Ed.
  replace ((m <? 1) || (12 <? m) || (d <? 1) || (31 <? d)) with false
    by (symmetry; rewrite !orb_false_iff, !Z.ltb_ge; lia).
  assert (-800000 <= UTC y (m - 1) d <= 3000000) as B.
  { unfold UTC, MakeDay, MakeFullYear.
    rewrite (Z.div_small (m - 1)), (Z.mod_small (m - 1)), Z.add_0_r by lia.
    pose proof (monthStart_bounds
                  (InLeapYear (if (0 <=? y) && (y <=? 99) then 1900 + y else y))
                  (m - 1)).
    destruct ((0 <=? y) && (y <=? 99)) eqn:C.
    - apply andb_true_iff in C. rewrite !Z.leb_le in C.
      pose proof (DayFromYear_bounds (1900 + y) ltac:(lia)). lia.
    - pose proof (DayFromYear_bounds y Ry). lia. }
  unfold TimeClip.
  replace (Z.abs (UTC y (m - 1) d) <=? 100000000) with true
    by (symmetry; apply Z.leb_le; lia).
  rewrite setUTCDate_add.
  replace (Z.abs (UTC y (m - 1) d + days) <=? 100000000) with true
    by (symmetry; apply Z.leb_le; lia).
  unfold toIsoDate. reflexivity.
Qed.

Lemma isoFields_of_day (s : string) (t : Z) :
  parseIsoDate s = Some t ->
  isoFields s = Some (YearFromDay t, MonthFromDay t + 1, DateFromDay t).
Proof.
  intros P. apply parseIsoDate_Some in P. destruct P as [E R].
  pose proof (MonthFromDay_range t) as Rm.
  pose proof (DateFromDay_range t) as Rd.
  pose proof (DaysInMonth_range (YearFromDay t) (MonthFromDay t) Rm) as Rl.
  rewrite E, toIsoDate_civil by lia. apply isoFields_isoOfCivil; lia.
Qed.

(** What [Date.UTC] makes of the fields of a calendar day: the day
    itself from the year 100 on, and the same day 1900 years later
    before that. *)
Lemma UTC_of_day (t : Z) :
  UTC (YearFromDay t) (MonthFromDay t + 1 - 1) (DateFromDay t)
  = if (0 <=? YearFromDay t) && (YearFromDay t <=? 99)
    then MakeDay (1900 + YearFromDay t) (MonthFromDay t) (DateFromDay t)
    else t.
Proof.
  unfold UTC, MakeFullYear.
  replace (MonthFromDay t + 1 - 1) with (MonthFromDay t) by lia.
  destruct ((0 <=? YearFromDay t) && (YearFromDay t <=? 99)); [reflexivity |].
  apply MakeDay_of_civil.
Qed.

Lemma day_bounds (s : string) (t : Z) :
  parseIsoDate s = Some t -> -720000 <= t <= 2934000.
Proof.
  intros P. apply parseIsoDate_Some in P. destruct P as [_ R].
  pose proof (YearFromDay_spec t) as [A B].
  pose proof (DayFromYear_bounds (YearFromDay t) R).
  rewrite DayFromYear_succ in B.
  pose proof (DaysInYear_cases (YearFromDay t)). lia.
Qed.

Lemma addDaysToIsoDate_day (s : string) (t days : Z) :
  parseIsoDate s = Some t -> 100 <= YearFromDay t ->
  Z.abs (t + days) <= 100000000 ->
  addDaysToIsoDate s days = Returns (toIsoDate (t + days)).
Proof.
  intros P Y B.
  pose proof (MonthFromDay_range t) as Rm.
  pose proof (DateFromDay_range t) as Rd.
  pose proof (DaysInMonth_range (YearFromDay t) (MonthFromDay t) Rm) as Rl.
  pose proof (UTC_of_day t) as U.
  replace ((0 <=? YearFromDay t) && (YearFromDay t <=? 99)) with false in U
    by (symmetry; apply andb_false_iff; right; apply Z.leb_gt; lia).
  rewrite (addDaysToIsoDate_plausible s (YearFromDay t) (MonthFromDay t + 1)
             (DateFromDay t) days (isoFields_of_day s t P));
    rewrite ?U; try lia. reflexivity.
Qed.

End AddDaysFacts.

Section AddDaysTheorems.

Import JsDate Recurrence Timezone Notions MoreNotions.

(** X8: on a calendar day of the year 100 or later, [addDaysToIsoDate]
    moves by the given number of days, forwards or backwards, as long as
    the result is a time value; adding no days gives the day back; and
    when the first result is again a calendar day of the year 100 or
    later, adding [a] days and then [b] days is adding [a + b] days. *)
Theorem add_days_moves_a_calendar_day (s : string) (t a b : Z) :
  parseIsoDate s = Some t ->
  100 <= YearFromDay t ->
  Z.abs (t + a) <= 100000000 ->
  addDaysToIsoDate s a = Returns (toIsoDate (t + a))
  /\ addDaysToIsoDate s 0 = Returns s
  /\ (100 <= YearFromDay (t + a) <= 9999 ->
      Z.abs (t + a + b) <= 100000000 ->
      parseIsoDate (toIsoDate (t + a)) = Some (t + a)
      /\ addDaysToIsoDate (toIsoDate (t + a)) b = addDaysToIsoDate s (a + b)).
Proof.
  intros P Y B.
  pose proof (day_bounds s t P) as Bt.
  split; [| split].
  - apply addDaysToIsoDate_day; assumption.
  - rewrite (addDaysToIsoDate_day s t 0 P Y) by lia.
    rewrite Z.add_0_r. destruct (parseIsoDate_Some s t P) as [E _].
    rewrite <- E. reflexivity.
  - intros Y' B'.
    assert (parseIsoDate (toIsoDate (t + a)) = Some (t + a)) as P'
      by (apply parseIsoDate_toIsoDate; lia).
    split; [exact P' |].
    rewrite (addDaysToIsoDate_day _ (t + a) b P') by lia.
    rewrite (addDaysToIsoDate_day s t (a + b) P Y) by lia.
    do 2 f_equal. lia.
Qed.

Lemma add_days_moves_a_calendar_day_witness :
  addDaysToIsoDate "2024-03-01" (-1) = Returns "2024-02-29".
Proof.
  apply (proj1 (add_days_moves_a_calendar_day "2024-03-01" 19783 (-1) 0
                  ltac:(vm_compute; reflexivity) ltac:(vm_compute; discriminate)
                  ltac:(vm_compute; discriminate))).
Defined.

(** X9: from the year 100 on, the step of a rule in days or weeks and
    [addDaysToIsoDate] agree on every calendar day.  On a calendar day of
    the years 0 to 99 they never agree: [addDaysToIsoDate] answers with a
    day 1900 years later, because [Date.UTC] reads such a year as
    1900 + year. *)
Theorem day_rules_agree_with_add_days
  (ty : TaskRecurrenceType) (rule : Js.Value) (r : TaskCustomRecurrenceRule)
  (s : string) (t : Z) :
  parseIsoDate s = Some t ->
  getResolvedTaskRecurrenceRule ty rule = Some r ->
  unit r <> UMonth ->
  (100 <= YearFromDay t ->
   addDaysToIsoDate s (stepDays r) = Returns (toIsoDate (t + stepDays r))
   /\ getNextTaskRecurrenceDate s ty rule = Some (toIsoDate (t + stepDays r)))
  /\ (YearFromDay t <= 99 ->
      let shifted :=
        MakeDay (1900 + YearFromDay t) (MonthFromDay t) (DateFromDay t) in
      addDaysToIsoDate s (stepDays r) = Returns (toIsoDate (shifted + stepDays r))
      /\ 1900 <= YearFromDay (shifted + stepDays r)
      /\ getNextTaskRecurrenceDate s ty rule <> Some (toIsoDate (shifted + stepDays r))).
Proof.
  intros P R U.
  pose proof (day_bounds s t P) as Bt.
  pose proof (resolved_rule_bounds ty rule r R) as Br.
  assert (1 <= stepDays r <= 2555) as Bs.
  { unfold stepDays. destruct (unit r); [lia | lia | congruence]. }
  pose proof (day_step_rule ty rule s t r P R U) as N.
  split.
  - intros Y. split; [| exact N]. apply addDaysToIsoDate_day; [exact P | exact Y | lia].
  - intros Y. cbv zeta.
    destruct (parseIsoDate_Some s t P) as [_ Ry].
    pose proof (MonthFromDay_range t) as Rm.
    pose proof (DateFromDay_range t) as Rd.
    pose proof (DaysInMonth_range (YearFromDay t) (MonthFromDay t) Rm) as Rl.
    pose proof (UTC_of_day t) as V.
    replace ((0 <=? YearFromDay t) && (YearFromDay t <=? 99)) with true in V
      by (symmetry; apply andb_true_iff; rewrite !Z.leb_le; lia).
    set (shifted := MakeDay (1900 + YearFromDay t) (MonthFromDay t) (DateFromDay t))
      in *.
    assert (DayFromYear (1900 + YearFromDay t) <= shifted
            <= DayFromYear (1900 + YearFromDay t) + 400) as Bsh.
    { subst shifted. unfold MakeDay.
      rewrite (Z.div_small (MonthFromDay t)), (Z.mod_small (MonthFromDay t)),
        Z.add_0_r by lia.
      pose proof (monthStart_bounds (InLeapYear (1900 + YearFromDay t))
                    (MonthFromDay t)). lia. }
    pose proof (DayFromYear_bounds (1900 + YearFromDay t) ltac:(lia)) as Bd.
    assert (1900 <= YearFromDay (shifted + stepDays r) <= 9999) as Ysh.
    { split.
      - pose proof (YearFromDay_mono (DayFromYear (1900 + YearFromDay t))
                      (shifted + stepDays r) ltac:(lia)) as M.
        rewrite (YearFromDay_unique (DayFromYear (1900 + YearFromDay t))
                   (1900 + YearFromDay t)) in M.
        + lia.
        + rewrite DayFromYear_succ.
          pose proof (DaysInYear_cases (1900 + YearFromDay t)). lia.
      - pose proof (YearFromDay_mono (shifted + stepDays r) (DayFromYear 9000)
                      ltac:(pose proof (DayFromYear_lt (1900 + YearFromDay t + 9)
                                          9000 ltac:(lia));
                            pose proof (DayFromYear_lt (1900 + YearFromDay t)
                                          (1900 + YearFromDay t + 9) ltac:(lia));
                            assert (DayFromYear (1900 + YearFromDay t) + 3285
                                    <= DayFromYear (1900 + YearFromDay t + 9));
                            [| lia];
                            unfold DayFromYear; zlia)) as M.
        rewrite (YearFromDay_unique (DayFromYear 9000) 9000) in M
          by (vm_compute; split; [discriminate | reflexivity]).
        lia. }
    split; [| split].
    + rewrite (addDaysToIsoDate_plausible s (YearFromDay t) (MonthFromDay t + 1)
                 (DateFromDay t) (stepDays r) (isoFields_of_day s t P));
        rewrite ?V; try lia. reflexivity.
    + lia.
    + rewrite N. intros E. injection E as E.
      assert (parseIsoDate (toIsoDate (shifted + stepDays r))
              = Some (shifted + stepDays r)) as Q
        by (apply parseIsoDate_toIsoDate; lia).
      rewrite <- E in Q. apply toIsoDate_parses_back in Q.
      pose proof (YearFromDay_spec t) as [_ Sp].
      pose proof (DayFromYear_lt (YearFromDay t + 1) (1900 + YearFromDay t)
                    ltac:(lia)).
      lia.
Qed.

Lemma day_rules_agree_with_add_days_witness :
  addDaysToIsoDate "2024-12-30" 7 = Returns "2025-01-06"
  /\ getNextTaskRecurrenceDate "2024-12-30" TWeekly Js.Null = Some "2025-01-06".
Proof.
  apply (proj1 (day_rules_agree_with_add_days TWeekly Js.Null (mkRule 1 UWeek)
                  "2024-12-30" 20087
                  ltac:(vm_compute; reflexivity) ltac:(reflexivity)
                  ltac:(discriminate))).
  vm_compute. discriminate.
Defined.

End AddDaysTheorems.

Section TimeZoneTheorems.

Import JsDate Timezone Notions MoreNotions.

(** X10: when the host supports UTC, the effective time zone is always
    one that the host supports: it is the requested zone, trimmed, when
    that is not empty and is supported, and the zone of the runtime
    otherwise, which is UTC unless the runtime names a supported zone.
    The date of a valid instant in a zone is then always returned: the
    year, month and day that the formatter gives, joined by hyphens, or
    the UTC day of the instant when one of the three is missing or
    empty.  An invalid [Date] makes [getIsoDateForTimeZone] throw. *)
Theorem effective_time_zone_is_supported
  (host : Host) (requested : option string) (t : Z) :
  tzSupported host "UTC" = true ->
  tzSupported host (resolveEffectiveTimeZone host requested) = true
  /\ (forall zone,
        requested = Some zone -> Str.trim zone <> "" ->
        tzSupported host (Str.trim zone) = true ->
        resolveEffectiveTimeZone host requested = Str.trim zone)
  /\ ((requested = None
       \/ exists zone, requested = Some zone
                       /\ (Str.trim zone = ""
                           \/ tzSupported host (Str.trim zone) = false)) ->
      resolveEffectiveTimeZone host requested = getRuntimeTimeZone host)
  /\ (getRuntimeTimeZone host = "UTC"
      \/ runtimeTimeZone host = Some (getRuntimeTimeZone host))
  /\ (let parts :=
        formatToParts host (resolveEffectiveTimeZone host requested) t in
      getIsoDateForTimeZone host (Some t) requested
      = Returns
          (match findPart "year" parts, findPart "month" parts,
                 findPart "day" parts with
           | Some y, Some m, Some d =>
               if (String.eqb y "" || String.eqb m "" || String.eqb d "")%bool
               then Str.take 10 (toISOString (t / msPerDay))
               else (y ++ "-" ++ m ++ "-" ++ d)%string
           | _, _, _ => Str.take 10 (toISOString (t / msPerDay))
           end))
  /\ getIsoDateForTimeZone host None requested
     = Throws "RangeError: Invalid time value".
Proof.
  intros U.
  pose proof (resolveEffectiveTimeZone_supported host requested U) as S.
  split; [exact S |]. split; [| split; [| split; [| split]]].
  - intros zone -> N V. unfold resolveEffectiveTimeZone, isValidTimeZone.
    rewrite V. destruct (String.eqb_spec (Str.trim zone) ""); [congruence |].
    reflexivity.
  - intros [-> | (zone & -> & [E | V])]; unfold resolveEffectiveTimeZone.
    + reflexivity.
    + rewrite E. reflexivity.
    + unfold isValidTimeZone. rewrite V. rewrite andb_false_r. reflexivity.
  - unfold getRuntimeTimeZone.
    destruct (runtimeTimeZone host) as [z |]; [| left; reflexivity].
    destruct (negb (String.eqb z "") && isValidTimeZone host z);
      [right | left]; reflexivity.
  - cbv zeta. unfold getIsoDateForTimeZone, getIsoDateFormatter.
    rewrite S. cbn [bindOutcome].
    set (parts := formatToParts host (resolveEffectiveTimeZone host requested) t).
    unfold missing, isoDayOfInstant.
    destruct (findPart "year" parts) as [y |]; [| reflexivity].
    destruct (findPart "month" parts) as [m |];
      [| rewrite orb_true_r; reflexivity].
    destruct (findPart "day" parts) as [d |];
      [| rewrite orb_true_r; reflexivity].
    destruct (String.eqb y "" || String.eqb m "" || String.eqb d "")%bool;
      reflexivity.
  - unfold getIsoDateForTimeZone, getIsoDateFormatter. rewrite S. reflexivity.
Qed.

Lemma effective_time_zone_is_supported_witness :
  tzSupported utcHost (resolveEffectiveTimeZone utcHost (Some "Mars/Olympus")) = true.
Proof.
  apply (proj1 (effective_time_zone_is_supported utcHost (Some "Mars/Olympus") 0
                  ltac:(reflexivity))).
Defined.

End TimeZoneTheorems.

(** ** Conditional blocks: [renderConditionalBlocks] and [renderTemplate] *)

Section BlockFacts.

Import Templates Notions MoreNotions.

Lemma untilClose_length (s : string) :
  forall body rest,
    untilClose s = Some (body, rest) ->
    String.length s = (String.length body + 7 + String.length rest)%nat.
Proof.
  induction s as [| c s IH]; intros body rest H.
  - cbn in H. discriminate H.
  - cbn [untilClose] in H.
    destruct (Str.startsWith true "{{/if}}" (String c s)) as [r |] eqn:W.
    + injection H as <- <-. apply startsWith_length in W. exact W.
    + destruct (untilClose s) as [[b rs] |]; [| discriminate H].
      injection H as <- <-. cbn [String.length].
      rewrite (IH b rs eq_refl). reflexivity.
Qed.

(** A match is 14 characters longer than its two groups and the rest. *)
Lemma matchIf_length (s condition content rest : string) :
  matchIf s = Some (condition, content, rest) ->
  String.length s
  = (String.length condition + String.length content + String.length rest + 14)%nat.
Proof.
  unfold matchIf. intros H.
  destruct (Str.startsWith true "{{if:" s) as [r |] eqn:W; [| discriminate H].
  apply startsWith_length in W.
  pose proof (spanNotBrace_suffix r) as E1.
  destruct (spanNotBrace r) as [cnd r1]. cbn [fst snd] in E1.
  destruct (String.eqb cnd ""); [discriminate H |].
  destruct (Str.startsWith false "}}" r1) as [r2 |] eqn:W2; [| discriminate H].
  apply startsWith_length in W2.
  destruct (untilClose r2) as [[b rs] |] eqn:U; [| discriminate H].
  injection H as <- <- <-. apply untilClose_length in U.
  rewrite W, E1, length_append, W2, U. cbn [String.length]. lia.
Qed.

Lemma replaceConditionals_length (dateParts : DateParts) (n : nat) :
  forall s, (String.length s <= n)%nat ->
            (String.length (replaceConditionals dateParts 0 s) <= String.length s)%nat.
Proof.
  induction n as [| n IH]; intros s L.
  - destruct s; [cbn; lia | cbn in L; lia].
  - destruct s as [| c s]; [cbn; lia |].
    destruct (matchIf (String c s)) as [[[cnd content] rest] |] eqn:M.
    + rewrite (replaceConditionals_match _ _ _ _ _ M), length_append.
      pose proof (matchIf_length _ _ _ _ M) as E.
      pose proof (IH rest ltac:(cbn [String.length] in *; lia)).
      destruct (evaluateCondition cnd dateParts); cbn [String.length] in *; lia.
    + cbn [replaceConditionals]. rewrite M. cbn [String.length].
      pose proof (IH s ltac:(cbn [String.length] in L; lia)). lia.
Qed.

Lemma conditionalPasses_length (n : nat) (dateParts : DateParts) :
  forall s, (String.length (conditionalPasses n dateParts s) <= String.length s)%nat.
Proof.
  induction n as [| n IH]; intros s; [cbn; lia |].
  cbn [conditionalPasses].
  destruct (String.eqb (replaceConditionals dateParts 0 s) s); [lia |].
  pose proof (IH (replaceConditionals dateParts 0 s)).
  pose proof (replaceConditionals_length dateParts (String.length s) s (le_n _)).
  lia.
Qed.

Lemma closesNowhere_untilClose (s : string) :
  closesNowhere s = true -> untilClose s = None.
Proof.
  induction s as [| c s IH]; intros H.
  - reflexivity.
  - cbn [closesNowhere] in H. apply andb_true_iff in H. destruct H as [W H].
    cbn [untilClose].
    destruct (Str.startsWith true "{{/if}}" (String c s)); [discriminate W |].
    rewrite (IH H). reflexivity.
Qed.

Lemma closesNowhere_suffix (x s : string) :
  closesNowhere (x ++ s) = true -> closesNowhere s = true.
Proof.
  induction x as [| c x IH]; intros H; [exact H |].
  cbn [String.append closesNowhere] in H.
  apply andb_true_iff in H. apply IH, H.
Qed.

Lemma closesNowhere_matchIf (s : string) :
  closesNowhere s = true -> matchIf s = None.
Proof.
  intros H. unfold matchIf.
  destruct (Str.startsWith true "{{if:" s) as [r |] eqn:W; [| reflexivity].
  destruct (startsWith_suffix _ _ _ _ W) as (x0 & -> & _).
  apply closesNowhere_suffix in H.
  pose proof (spanNotBrace_suffix r) as E1.
  destruct (spanNotBrace r) as [cnd r1]. cbn [fst snd] in E1.
  destruct (String.eqb cnd ""); [reflexivity |].
  destruct (Str.startsWith false "}}" r1) as [r2 |] eqn:W2; [| reflexivity].
  destruct (startsWith_suffix _ _ _ _ W2) as (x2 & -> & _).
  rewrite E1 in H. do 2 apply closesNowhere_suffix in H.
  rewrite (closesNowhere_untilClose _ H). reflexivity.
Qed.

Lemma closesNowhere_pass (dateParts : DateParts) (s : string) :
  closesNowhere s = true -> replaceConditionals dateParts 0 s = s.
Proof.
  induction s as [| c s IH]; intros H; [reflexivity |].
  cbn [replaceConditionals]. rewrite (closesNowhere_matchIf _ H).
  cbn [closesNowhere] in H. apply andb_true_iff in H.
  rewrite (IH (proj2 H)). reflexivity.
Qed.

Lemma unclosed_blocks_pass (dateParts : DateParts) (text : string) :
  closesNowhere text = true -> renderConditionalBlocks text dateParts = text.
Proof.
  intros H. unfold renderConditionalBlocks.
  apply conditionalPasses_fixed, closesNowhere_pass, H.
Qed.

End BlockFacts.

Section BlockTheorems.

Import Templates Notions MoreNotions.

(** X11: a conditional block whose parts and surroundings hold no
    opening brace is rendered to its content when its condition holds on
    the reference date and to nothing otherwise; the text around it is
    kept. *)
Theorem flat_block_shows_content_iff_condition_holds
  (host : Host) (options : TemplateRenderOptions)
  (iso pre condition body post : string) :
  resolveReferenceIsoDate host (referenceDate options) (timeZone options)
  = Returns iso ->
  braceFree pre = true -> closeFree condition = true -> condition <> "" ->
  braceFree body = true -> braceFree post = true ->
  renderTemplate host
    (Some (pre ++ "{{if:" ++ condition ++ "}}" ++ body ++ "{{/if}}" ++ post)%string)
    options
  = Returns (pre ++ (if evaluateCondition condition (parseIsoDateParts iso)
                     then body else "") ++ post)%string.
Proof.
  intros R Hpre Hc Hne Hb Hpost. unfold renderTemplate.
  destruct (pre ++ "{{if:" ++ condition ++ "}}" ++ body ++ "{{/if}}" ++ post)%string
    as [| c s] eqn:E.
  { destruct pre; discriminate E. }
  rewrite R. cbn [bindOutcome]. rewrite <- E.
  rewrite (flat_block_renders _ pre condition body post Hpre Hc Hne Hb Hpost).
  rewrite replaceDates_plain; [reflexivity |].
  apply braceFree_plain. rewrite !braceFree_append, Hpre, Hpost.
  destruct (evaluateCondition condition (parseIsoDateParts iso));
    [rewrite Hb |]; reflexivity.
Qed.

Lemma flat_block_shows_content_iff_condition_holds_witness :
  renderTemplate utcHost
    (Some ("Plan: " ++ "{{if:" ++ "day=sat & month=feb" ++ "}}" ++ "rest"
           ++ "{{/if}}" ++ ".")%string)
    (mkOptions (RefString "2026-02-21") None)
  = Returns "Plan: rest.".
Proof.
  apply (flat_block_shows_content_iff_condition_holds utcHost
           (mkOptions (RefString "2026-02-21") None)
           "2026-02-21" "Plan: " "day=sat & month=feb" "rest" ".");
    try reflexivity.
  discriminate.
Defined.

(** X12: text in which no closing tag [{{/if}}] starts, in any case of
    its letters, passes the conditional blocks unchanged: an opening tag
    without a closing tag stays in the output as it was written. *)
Theorem unclosed_blocks_are_left_as_written
  (dateParts : DateParts) (text : string) :
  closesNowhere text = true ->
  renderConditionalBlocks text dateParts = text.
Proof.
  apply unclosed_blocks_pass.
Qed.

Lemma unclosed_blocks_are_left_as_written_witness :
  renderConditionalBlocks "{{if:day=sat}}weekend {{/fi}}"
    (parseIsoDateParts "2026-02-21")
  = "{{if:day=sat}}weekend {{/fi}}".
Proof.
  apply (unclosed_blocks_are_left_as_written (parseIsoDateParts "2026-02-21")
           "{{if:day=sat}}weekend {{/fi}}").
  reflexivity.
Defined.

(** X13: rendering the conditional blocks never makes a text longer. *)
Theorem conditional_blocks_never_lengthen_the_text
  (dateParts : DateParts) (text : string) :
  (String.length (renderConditionalBlocks text dateParts) <= String.length text)%nat.
Proof. apply conditionalPasses_length. Qed.

End BlockTheorems.

(** ** Conditions and date formats *)

Section CaseFacts.

Import Templates Notions MoreNotions.

Lemma lowerChar_idem (c : ascii) : Str.lowerChar (Str.lowerChar c) = Str.lowerChar c.
Proof. destruct c as [[] [] [] [] [] [] [] []]; reflexivity. Qed.

Lemma lowerChar_space (c : ascii) : Str.isSpace (Str.lowerChar c) = Str.isSpace c.
Proof. destruct c as [[] [] [] [] [] [] [] []]; reflexivity. Qed.

Lemma lowerChar_amp (c : ascii) : Ascii.eqb (Str.lowerChar c) "&" = Ascii.eqb c "&".
Proof. destruct c as [[] [] [] [] [] [] [] []]; reflexivity. Qed.

Lemma lowerChar_equals (c : ascii) : Ascii.eqb (Str.lowerChar c) "=" = Ascii.eqb c "=".
Proof. destruct c as [[] [] [] [] [] [] [] []]; reflexivity. Qed.

Lemma toLowerCase_idem (s : string) :
  Str.toLowerCase (Str.toLowerCase s) = Str.toLowerCase s.
Proof.
  induction s as [| c s IH]; [reflexivity |].
  cbn [Str.toLowerCase]. rewrite lowerChar_idem, IH. reflexivity.
Qed.

Lemma toLowerCase_empty (s : string) :
  String.eqb (Str.toLowerCase s) "" = String.eqb s "".
Proof. destruct s; reflexivity. Qed.

Lemma trimStart_lower (s : string) :
  Str.trimStart (Str.toLowerCase s) = Str.toLowerCase (Str.trimStart s).
Proof.
  induction s as [| c s IH]; [reflexivity |].
  cbn [Str.toLowerCase Str.trimStart]. rewrite lowerChar_space.
  destruct (Str.isSpace c); [exact IH | reflexivity].
Qed.

Lemma trimEnd_lower (s : string) :
  Str.trimEnd (Str.toLowerCase s) = Str.toLowerCase (Str.trimEnd s).
Proof.
  induction s as [| c s IH]; [reflexivity |].
  cbn [Str.toLowerCase Str.trimEnd]. rewrite IH, lowerChar_space.
  destruct (Str.trimEnd s); cbn [Str.toLowerCase];
    [destruct (Str.isSpace c) |]; reflexivity.
Qed.

Lemma trim_lower (s : string) :
  Str.trim (Str.toLowerCase s) = Str.toLowerCase (Str.trim s).
Proof. unfold Str.trim. rewrite trimStart_lower, trimEnd_lower. reflexivity. Qed.

Lemma splitOn_lower (sep : ascii) (s : string) :
  (forall c, Ascii.eqb (Str.lowerChar c) sep = Ascii.eqb c sep) ->
  Str.splitOn sep (Str.toLowerCase s) = map Str.toLowerCase (Str.splitOn sep s).
Proof.
  intros H. induction s as [| c s IH]; [reflexivity |].
  cbn [Str.toLowerCase Str.splitOn]. rewrite H, IH.
  destruct (Ascii.eqb c sep); [reflexivity |].
  destruct (Str.splitOn sep s); reflexivity.
Qed.

Lemma conditionChecks_lower (condition : string) :
  conditionChecks (Str.toLowerCase condition)
  = map Str.toLowerCase (conditionChecks condition).
Proof.
  unfold conditionChecks. rewrite (splitOn_lower "&" _ lowerChar_amp).
  induction (Str.splitOn "&" condition) as [| p ps IH]; [reflexivity |].
  cbn [map filter]. rewrite trim_lower, toLowerCase_empty.
  destruct (String.eqb (Str.trim p) ""); cbn [negb map]; rewrite IH; reflexivity.
Qed.

Lemma evaluateChecks_lower (dateParts : DateParts) (checks : list string) :
  evaluateChecks (map Str.toLowerCase checks) dateParts
  = evaluateChecks checks dateParts.
Proof.
  induction checks as [| check rest IH]; [reflexivity |].
  cbn [map evaluateChecks]. rewrite (splitOn_lower "=" _ lowerChar_equals).
  destruct (Str.splitOn "=" check) as [| keyRaw [| valueRaw more]];
    cbn [map]; try reflexivity.
  rewrite toLowerCase_empty, !trim_lower, !toLowerCase_idem, IH. reflexivity.
Qed.

Lemma evaluateCondition_lower (condition : string) (dateParts : DateParts) :
  evaluateCondition (Str.toLowerCase condition) dateParts
  = evaluateCondition condition dateParts.
Proof.
  unfold evaluateCondition. rewrite conditionChecks_lower.
  destruct (conditionChecks condition) as [| check rest] eqn:E; [reflexivity |].
  rewrite <- (evaluateChecks_lower dateParts (check :: rest)). reflexivity.
Qed.

End CaseFacts.

Section CaseTheorems.

Import Templates Notions MoreNotions.

(** X14: conditions are read without regard to the case of their
    letters: two conditions that are equal once put in lower case hold
    on the same dates, and so does a condition and its lower-case form. *)
Theorem conditions_ignore_case (c1 c2 : string) (dateParts : DateParts) :
  Str.toLowerCase c1 = Str.toLowerCase c2 ->
  evaluateCondition c1 dateParts = evaluateCondition c2 dateParts
  /\ evaluateCondition (Str.toLowerCase c1) dateParts
     = evaluateCondition c1 dateParts.
Proof.
  intros E. split; [| apply evaluateCondition_lower].
  rewrite <- (evaluateCondition_lower c1), <- (evaluateCondition_lower c2), E.
  reflexivity.
Qed.

Lemma conditions_ignore_case_witness :
  evaluateCondition "Day=SAT & MONTH=Feb" (parseIsoDateParts "2026-02-21")
  = evaluateCondition "day=sat & month=feb" (parseIsoDateParts "2026-02-21")
  /\ evaluateCondition (Str.toLowerCase "Day=SAT & MONTH=Feb")
       (parseIsoDateParts "2026-02-21")
     = evaluateCondition "Day=SAT & MONTH=Feb" (parseIsoDateParts "2026-02-21").
Proof.
  apply (conditions_ignore_case "Day=SAT & MONTH=Feb" "day=sat & month=feb"
           (parseIsoDateParts "2026-02-21")).
  reflexivity.
Defined.

End CaseTheorems.

(** ** The parts of a reference date and its formats *)

Section DatePartFacts.

Import JsDate Recurrence Templates Notions MoreNotions.

(** The three fields of a string of the form [YYYY-MM-DD], cut at the
    hyphens and read as numbers. *)
Lemma fields_as_numbers (s : string) (y m d : Z) :
  isoFields s = Some (y, m, d) ->
  jsNumber (nth_error (Str.splitOn "-" s) 0) = Some y
  /\ jsNumber (nth_error (Str.splitOn "-" s) 1) = Some m
  /\ jsNumber (nth_error (Str.splitOn "-" s) 2) = Some d.
Proof.
  intros F.
  destruct (isoOfCivil_isoFields s y m d F) as (E & Ry & Rm & Rd).
  pose proof (isoFields_isoOfCivil y m d Ry Rm Rd) as F'.
  rewrite E, splitOn_isoOfCivil. cbn [nth_error].
  revert F'. unfold isoOfCivil, isoFields.
  cbn [Str.fixedDigits String.append].
  rewrite !isDigit_digitChar. cbn [andb Ascii.eqb Bool.eqb].
  intros F'. apply Some_fields in F'. destruct F' as (Ey & Em & Ed).
  rewrite !jsNumber_digits;
    try (cbn [Str.allDigits]; rewrite !isDigit_digitChar; reflexivity);
    try (rewrite ?Ey, ?Em, ?Ed; split; [lia |];
         apply Z.lt_trans with 10000; [lia | reflexivity]).
  rewrite Ey, Em, Ed. repeat split.
Qed.

Lemma WeekDay_range (t : Z) : 0 <= WeekDay t <= 6.
Proof. unfold WeekDay. zlia. Qed.

Lemma parts_of_day (iso : string) (t : Z) :
  parseIsoDate iso = Some t -> 100 <= YearFromDay t ->
  parseIsoDateParts iso
  = mkDateParts iso (Some (YearFromDay t)) (Some (MonthFromDay t + 1))
      (Some (DateFromDay t)) (Some (WeekDay t)).
Proof.
  intros P Y.
  destruct (fields_as_numbers iso _ _ _ (isoFields_of_day iso t P)) as (Ey & Em & Ed).
  unfold parseIsoDateParts. rewrite Ey, Em, Ed. f_equal.
  unfold utcDayOfWeek. rewrite UTC_of_day.
  replace ((0 <=? YearFromDay t) && (YearFromDay t <=? 99)) with false
    by (symmetry; apply andb_false_iff; right; apply Z.leb_gt; lia).
  pose proof (day_bounds iso t P) as B. unfold TimeClip.
  replace (Z.abs t <=? 100000000) with true
    by (symmetry; apply Z.leb_le; lia).
  reflexivity.
Qed.

(** A condition on the day of the week looks at that part only. *)
Lemma day_condition_by_weekday (value iso : string) (y m d : option Z) (w k : Z) :
  0 <= w <= 6 -> 0 <= k <= 6 ->
  In (Some value) [Some (Str.ofInt k); at_ SHORT_DAY_NAMES (Some k);
                   at_ LONG_DAY_NAMES (Some k)] ->
  evaluateCondition ("day=" ++ value) (mkDateParts iso y m d (Some w)) = (k =? w).
Proof.
  intros Hw Hk Hv.
  assert (w = 0 \/ w = 1 \/ w = 2 \/ w = 3 \/ w = 4 \/ w = 5 \/ w = 6) as Cw by lia.
  assert (k = 0 \/ k = 1 \/ k = 2 \/ k = 3 \/ k = 4 \/ k = 5 \/ k = 6) as Ck by lia.
  repeat (destruct Ck as [-> | Ck]; [| try rename Ck into Ck]);
    try subst k;
    cbn in Hv;
    (destruct Hv as [Hv | [Hv | [Hv | []]]]; injection Hv as <-;
     repeat (destruct Cw as [-> | Cw]; [vm_compute; reflexivity |]);
     subst w; vm_compute; reflexivity).
Qed.

Lemma ofInt_four_digits :
  forallb (fun n => String.eqb (Str.ofInt (Z.of_nat n))
                      (Str.fixedDigits 4 (Z.of_nat n) ""))
          (seq 1000 (90 * 100)) = true.
Proof. vm_compute. reflexivity. Qed.

Lemma ofInt_short :
  forallb (fun n => (String.length (Str.ofInt (Z.of_nat n)) <=? 3)%nat) (seq 0 1000)
  = true.
Proof. vm_compute. reflexivity. Qed.

Lemma padded_two_digits :
  forallb (fun n => String.eqb (Str.padStart0 2 (Str.ofInt (Z.of_nat n)))
                      (Str.fixedDigits 2 (Z.of_nat n) ""))
          (seq 0 100) = true.
Proof. vm_compute. reflexivity. Qed.

Lemma ofInt_year (y : Z) :
  1000 <= y <= 9999 -> Str.ofInt y = Str.fixedDigits 4 y "".
Proof.
  intros H. pose proof ofInt_four_digits as A. rewrite forallb_forall in A.
  specialize (A (Z.to_nat y) ltac:(apply in_seq; lia)).
  rewrite Z2Nat.id in A by lia. apply String.eqb_eq, A.
Qed.

Lemma ofInt_early_year (y : Z) :
  0 <= y <= 999 -> (String.length (Str.ofInt y) <= 3)%nat.
Proof.
  intros H. pose proof ofInt_short as A. rewrite forallb_forall in A.
  specialize (A (Z.to_nat y) ltac:(apply in_seq; lia)).
  rewrite Z2Nat.id in A by lia. apply Nat.leb_le, A.
Qed.

Lemma padStart0_field (n : Z) :
  0 <= n <= 99 -> Str.padStart0 2 (Str.ofInt n) = Str.fixedDigits 2 n "".
Proof.
  intros H. pose proof padded_two_digits as A. rewrite forallb_forall in A.
  specialize (A (Z.to_nat n) ltac:(apply in_seq; lia)).
  rewrite Z2Nat.id in A by lia. apply String.eqb_eq, A.
Qed.

(** The format [YYYY-MM-DD] in terms of the three numbers. *)
Lemma format_year_month_day (iso : string) (y m d : Z) :
  isoFields iso = Some (y, m, d) ->
  formatIsoDate iso "YYYY-MM-DD"
  = (Str.ofInt y ++ "-" ++ Str.padStart0 2 (Str.ofInt m) ++ "-"
     ++ Str.padStart0 2 (Str.ofInt d))%string.
Proof.
  intros F. destruct (fields_as_numbers iso y m d F) as (Ey & Em & Ed).
  unfold formatIsoDate, tokenMap. cbv zeta. rewrite Ey, Em, Ed.
  generalize (utcDayOfWeek (Some y) (Some m) (Some d)). intros w.
  unfold stringOf.
  generalize (Str.ofInt y) (Str.padStart0 2 (Str.ofInt m))
    (Str.padStart0 2 (Str.ofInt d)) (Str.takeLast 2 (Str.ofInt y))
    (Str.ofInt m) (Str.ofInt d)
    (at_ LONG_MONTH_NAMES (minus1 (Some m))) (at_ SHORT_MONTH_NAMES (minus1 (Some m)))
    (at_ LONG_DAY_NAMES w) (at_ SHORT_DAY_NAMES w).
  intros sy smm sdd syy sm sd lm shm ld shd.
  cbn [replaceTokens matchToken Str.startsWith Ascii.eqb Bool.eqb String.length
       Nat.sub andb].
  rewrite append_nil_r. reflexivity.
Qed.

End DatePartFacts.

Section DatePartTheorems.

Import JsDate Recurrence Templates Notions MoreNotions.

(** X15: the date parts of a calendar day of the year 100 or later are
    its year, its month (1 to 12), its day of the month and its day of
    the week (0 is Sunday); and a condition [day=...] that names a day
    of the week by its number, its short name or its long name holds on
    exactly that day of the week. *)
Theorem date_parts_of_a_calendar_day (iso : string) (t : Z) :
  parseIsoDate iso = Some t ->
  100 <= YearFromDay t ->
  parseIsoDateParts iso
  = mkDateParts iso (Some (YearFromDay t)) (Some (MonthFromDay t + 1))
      (Some (DateFromDay t)) (Some ((t + 4) mod 7))
  /\ forall k value,
       0 <= k <= 6 ->
       In (Some value) [Some (Str.ofInt k); at_ SHORT_DAY_NAMES (Some k);
                        at_ LONG_DAY_NAMES (Some k)] ->
       evaluateCondition ("day=" ++ value) (parseIsoDateParts iso)
       = (k =? (t + 4) mod 7).
Proof.
  intros P Y. rewrite (parts_of_day iso t P Y). split; [reflexivity |].
  intros k value Hk Hv.
  apply day_condition_by_weekday; [apply WeekDay_range | exact Hk | exact Hv].
Qed.

Lemma date_parts_of_a_calendar_day_witness :
  parseIsoDateParts "2026-02-21"
  = mkDateParts "2026-02-21" (Some 2026) (Some 2) (Some 21) (Some 6).
Proof.
  apply (proj1 (date_parts_of_a_calendar_day "2026-02-21" 20505
                  ltac:(vm_compute; reflexivity) ltac:(vm_compute; discriminate))).
Defined.

(** X16: the format [YYYY-MM-DD] gives a calendar day of the years 1000
    to 9999 back as it is, so that the token [{{date:YYYY-MM-DD}}]
    renders to the reference date; for a calendar day before the year
    1000 the result is shorter than the date, because the year is
    written without leading zeros. *)
Theorem year_month_day_format_gives_the_date_back
  (host : Host) (timeZone : option string) (iso : string) (t : Z) :
  parseIsoDate iso = Some t ->
  (1000 <= YearFromDay t ->
   formatIsoDate iso "YYYY-MM-DD" = iso
   /\ renderTemplate host (Some "{{date:YYYY-MM-DD}}")
        (mkOptions (RefString iso) timeZone) = Returns iso)
  /\ (YearFromDay t < 1000 ->
      (String.length (formatIsoDate iso "YYYY-MM-DD") < String.length iso)%nat).
Proof.
  intros P.
  pose proof (isoFields_of_day iso t P) as F.
  destruct (parseIsoDate_Some iso t P) as [E Ry].
  pose proof (MonthFromDay_range t) as Rm.
  pose proof (DateFromDay_range t) as Rd.
  pose proof (DaysInMonth_range (YearFromDay t) (MonthFromDay t) Rm) as Rl.
  pose proof (format_year_month_day iso _ _ _ F) as Fm.
  rewrite !padStart0_field in Fm by lia.
  split.
  - intros Y.
    assert (formatIsoDate iso "YYYY-MM-DD" = iso) as G.
    { rewrite Fm, ofInt_year by lia.
      rewrite E, toIsoDate_civil by lia. reflexivity. }
    split; [exact G |].
    assert (Str.trim iso = iso) as T.
    { rewrite E, toIsoDate_civil by lia. unfold isoOfCivil.
      cbn [Str.fixedDigits String.append]. unfold Str.trim.
      cbn [Str.trimStart]. rewrite digit_not_space by apply isDigit_digitChar.
      cbn [Str.trimEnd].
      rewrite !digit_not_space by apply isDigit_digitChar. reflexivity. }
    unfold renderTemplate, resolveReferenceIsoDate. cbn [referenceDate].
    rewrite T. unfold isIsoDate. rewrite F. cbn [bindOutcome].
    rewrite (unclosed_blocks_pass (parseIsoDateParts iso) "{{date:YYYY-MM-DD}}" eq_refl).
    change (replaceDates iso 0 "{{date:YYYY-MM-DD}}")
      with ((if String.eqb (Str.trim "YYYY-MM-DD") "" then iso
             else formatIsoDate iso (Str.trim "YYYY-MM-DD")) ++ "")%string.
    change (Str.trim "YYYY-MM-DD") with "YYYY-MM-DD".
    cbn [String.eqb Ascii.eqb Bool.eqb]. rewrite G, append_nil_r. reflexivity.
  - intros Y. rewrite Fm.
    pose proof (ofInt_early_year (YearFromDay t) ltac:(lia)) as L.
    rewrite E, toIsoDate_civil by lia. unfold isoOfCivil.
    rewrite !length_append. cbn [Str.fixedDigits String.length]. lia.
Qed.

Lemma year_month_day_format_gives_the_date_back_witness :
  formatIsoDate "2026-02-21" "YYYY-MM-DD" = "2026-02-21"
  /\ renderTemplate utcHost (Some "{{date:YYYY-MM-DD}}")
       (mkOptions (RefString "2026-02-21") None) = Returns "2026-02-21".
Proof.
  apply (proj1 (year_month_day_format_gives_the_date_back utcHost None
                  "2026-02-21" 20505 ltac:(vm_compute; reflexivity))).
  vm_compute. discriminate.
Defined.

End DatePartTheorems.

(** ** The dispatch tools together *)

Section DispatchToolFacts.

Import Store Dispatches DispatchTools Notions MoreNotions.

Variable host : Host.
Variable newDispatchId : Db -> string.
Variable users : list User.

Lemma db_eta (db : Db) :
  mkDb (dispatches db) (dispatchTasks db) (tasks db) (projects db) = db.
Proof. destruct db. reflexivity. Qed.

Lemma find_app_found {A : Type} (f : A -> bool) (l l' : list A) (a : A) :
  find f l = Some a -> find f (l ++ l') = Some a.
Proof.
  induction l as [| x l IH]; [discriminate |].
  cbn. destruct (f x); [trivial | exact IH].
Qed.

(** Finalizing rows by key keeps the key, the user and the date of every
    row. *)
Lemma selectDispatch_finalizeIn (userId id clock key : string) (db : Db) :
  selectDispatch userId id (finalizeIn clock key db)
  = option_map (fun d => if String.eqb (dispatchId d) key
                         then finalizedAt clock d else d)
               (selectDispatch userId id db).
Proof.
  unfold selectDispatch, finalizeIn. cbn [setDispatches dispatches].
  apply find_map_same. intros x.
  destruct (String.eqb (dispatchId x) key); reflexivity.
Qed.

Lemma finalizeRows_effect (clock id : string) (db : Db) :
  exists row, finalizeRows clock id db = (finalizeIn clock id db, Returns row).
Proof. eexists. unfold finalizeRows, bind, write, read. reflexivity. Qed.

(** What a call of [complete-dispatch] that returns has done: the
    dispatch is finalized, at most one row is added to [dispatches], and
    the pending tasks are linked to the [targets], which are the dispatch
    of the next day when there are pending tasks and none otherwise. *)
Lemma completeDispatch_effect (clock clockNext userId id : string)
  (db db' : Db) (result : Completed) :
  completeDispatch newDispatchId clock clockNext userId id db
  = (db', Returns result) ->
  exists d extra targets,
    selectDispatch userId id db = Some d /\ finalized d = false
    /\ tasks db' = tasks db /\ projects db' = projects db
    /\ dispatches db' = (dispatches (finalizeIn clock id db) ++ extra)%list
    /\ (extra = []
        \/ exists day,
             extra = [mkDispatch (newDispatchId (finalizeIn clock id db))
                        userId day None false clockNext clockNext]
             /\ find (fun r => String.eqb (dispatchUser r) userId
                               && String.eqb (date r) day)
                     (dispatches (finalizeIn clock id db)) = None)
    /\ (forall next, In next targets ->
                     In next (dispatches db') /\ dispatchUser next = userId)
    /\ (forall p,
          In p (dispatchTasks db') <->
          In p (dispatchTasks db)
          \/ exists t next,
               In t (pending id db) /\ In next targets /\ p = (dispatchId next, t)).
Proof.
  unfold completeDispatch. unfold bind at 1. unfold read at 1.
  destruct (selectDispatch userId id db) as [d |] eqn:S; [| discriminate].
  destruct (selectDispatch_Some newDispatchId _ _ _ _ S) as (I & E & Ud).
  destruct (finalized d) eqn:F; [discriminate |].
  unfold bind at 1. unfold read at 1. rewrite E. fold (pending id db).
  unfold bind at 1.
  destruct (finalizeRows_effect clock id db) as (row & ->).
  intros H. exists d.
  destruct (pending id db) as [| t0 ts] eqn:Pe.
  - injection H as <- _. exists [], [].
    cbn [tasks projects finalizeIn setDispatches]. rewrite app_nil_r.
    repeat split; trivial; try contradiction.
    + left. reflexivity.
    + intros Hp. left. exact Hp.
    + intros [Hp | (t & next & [] & _)]. exact Hp.
  - unfold bind at 1 in H. unfold liftOutcome in H.
    destruct (nextDate (date d)) as [day | e] eqn:D; [| discriminate H].
    unfold bind at 1 in H.
    destruct (find (fun r => String.eqb (dispatchUser r) userId
                             && String.eqb (date r) day)
                   (dispatches (finalizeIn clock id db))) as [found |] eqn:G.
    + rewrite (getOrCreateDispatch_found newDispatchId _ _ _ _ found G) in H.
      destruct (linkAll_spec (dispatchId found) (t0 :: ts) (finalizeIn clock id db))
        as (db3 & La & Ld & Lt & Lp & Ll & _).
      unfold bind at 1 in H. rewrite La in H. injection H as <- _.
      exists [], [found]. rewrite Lt, Lp, Ld, app_nil_r.
      cbn [tasks projects dispatchTasks finalizeIn setDispatches] in *.
      apply find_some in G. destruct G as [Ig Cg].
      apply andb_true_iff in Cg. rewrite !String.eqb_eq in Cg.
      repeat split; trivial.
      * left. reflexivity.
      * destruct H as [<- | []]. exact Ig.
      * destruct H as [<- | []]. tauto.
      * intros Hp. apply Ll in Hp. destruct Hp as [Hp | (t & It & ->)];
          [left; exact Hp | right].
        exists t, found. cbn. tauto.
      * intros [Hp | (t & next & It & [<- | []] & ->)]; apply Ll;
          [left; exact Hp | right; exists t; tauto].
    + rewrite (getOrCreateDispatch_created newDispatchId clockNext _ _ _ G) in H.
      cbv zeta in H.
      set (created := mkDispatch (newDispatchId (finalizeIn clock id db))
                        userId day None false clockNext clockNext) in *.
      set (db2 := setDispatches (fun rows => (rows ++ [created])%list)
                    (finalizeIn clock id db)) in *.
      destruct (linkAll_spec (dispatchId created) (t0 :: ts) db2)
        as (db3 & La & Ld & Lt & Lp & Ll & _).
      unfold bind at 1 in H. rewrite La in H. injection H as <- _.
      exists [created], [created]. rewrite Lt, Lp, Ld.
      subst db2.
      cbn [tasks projects dispatches dispatchTasks finalizeIn setDispatches] in *.
      repeat split; trivial.
      * right. exists day. split; [reflexivity | exact G].
      * destruct H as [<- | []]. apply in_or_app. right. left. reflexivity.
      * destruct H as [<- | []]. reflexivity.
      * intros Hp. apply Ll in Hp. destruct Hp as [Hp | (t & It & ->)];
          [left; exact Hp | right].
        exists t, created. cbn. tauto.
      * intros [Hp | (t & next & It & [<- | []] & ->)]; apply Ll;
          [left; exact Hp | right; exists t; tauto].
Qed.

(** A call of [complete-dispatch] that throws has changed nothing, or
    it has finalized the dispatch and then failed to compute the next
    day. *)
Lemma completeDispatch_throws (clock clockNext userId id message : string)
  (db db' : Db) :
  completeDispatch newDispatchId clock clockNext userId id db
  = (db', Throws message) ->
  db' = db
  \/ (db' = finalizeIn clock id db
      /\ exists d, selectDispatch userId id db = Some d
                   /\ nextDate (date d) = Throws message).
Proof.
  unfold completeDispatch. unfold bind at 1. unfold read at 1.
  destruct (selectDispatch userId id db) as [d |] eqn:S;
    [| intros H; injection H as <- _; left; reflexivity].
  destruct (selectDispatch_Some newDispatchId _ _ _ _ S) as (I & E & Ud).
  destruct (finalized d) eqn:F; [intros H; injection H as <- _; left; reflexivity |].
  unfold bind at 1. unfold read at 1. rewrite E. fold (pending id db).
  unfold bind at 1.
  destruct (finalizeRows_effect clock id db) as (row & ->).
  intros H.
  destruct (pending id db) as [| t0 ts] eqn:Pe; [discriminate H |].
  unfold bind at 1 in H. unfold liftOutcome in H.
  destruct (nextDate (date d)) as [day | e] eqn:D.
  - exfalso. unfold bind at 1 in H.
    destruct (getOrCreateDispatch_returns newDispatchId clockNext userId day
                (finalizeIn clock id db)) as (db2 & next & G & _).
    rewrite G in H.
    destruct (linkAll_spec (dispatchId next) (t0 :: ts) db2) as (db3 & La & _).
    unfold bind at 1 in H. rewrite La in H. discriminate H.
  - injection H as <- <-. right. split; [reflexivity |]. exists d. auto.
Qed.

Lemma freshId_longer (db : Db) (r : Dispatch) :
  In r (dispatches db) ->
  (String.length (dispatchId r) < String.length (freshId db))%nat.
Proof.
  unfold freshId. cbn [String.length].
  induction (dispatches db) as [| x l IH]; intros H; [contradiction |].
  assert (forall a b, String.length (String.concat "" (a :: b))
                      = (String.length a + String.length (String.concat "" b))%nat)
    as C.
  { intros a [| b0 b]; cbn [String.concat]; [cbn [String.length]; lia |].
    rewrite length_append. cbn [String.append]. reflexivity. }
  cbn [map]. rewrite C. destruct H as [-> | H]; [lia |].
  specialize (IH H). lia.
Qed.

Lemma freshId_fresh (db : Db) :
  ~ In (freshId db) (map dispatchId (dispatches db)).
Proof.
  intros H. apply in_map_iff in H. destruct H as (r & E & I).
  pose proof (freshId_longer db r I) as L. rewrite E in L. lia.
Qed.

End DispatchToolFacts.

Section DispatchToolTheorems.

Import Store Dispatches DispatchTools Notions MoreNotions.

Variable host : Host.
Variable newDispatchId : Db -> string.
Variable users : list User.

Lemma link_on_finalized (userId id taskId : string) (db : Db) (d : Dispatch) :
  selectDispatch userId id db = Some d -> finalized d = true ->
  linkTaskToDispatch userId id taskId db
  = (db, Throws "Cannot modify a finalized dispatch.").
Proof.
  intros S F. unfold linkTaskToDispatch, bind at 1, read at 1. rewrite S, F.
  reflexivity.
Qed.

Lemma unlink_on_finalized (userId id taskId : string) (db : Db) (d : Dispatch) :
  selectDispatch userId id db = Some d -> finalized d = true ->
  unlinkTaskFromDispatch userId id taskId db
  = (db, Throws "Cannot modify a finalized dispatch.").
Proof.
  intros S F. unfold unlinkTaskFromDispatch, bind at 1, read at 1. rewrite S, F.
  reflexivity.
Qed.

Lemma summary_on_finalized (clock clockUpdate userId text id : string)
  (db : Db) (d : Dispatch) :
  id <> "" ->
  selectDispatch userId id db = Some d -> finalized d = true ->
  updateDispatchSummary host newDispatchId users clock clockUpdate userId text
    (Some id) db
  = (db, Throws "Cannot update summary on a finalized dispatch.").
Proof.
  intros N S F. unfold updateDispatchSummary. cbn [falsy].
  rewrite (proj2 (String.eqb_neq _ _) N).
  unfold bind at 1, read at 1. rewrite S, F. reflexivity.
Qed.

Lemma complete_on_finalized (clock clockNext userId id : string)
  (db : Db) (d : Dispatch) :
  selectDispatch userId id db = Some d -> finalized d = true ->
  completeDispatch newDispatchId clock clockNext userId id db
  = (db, Throws "Dispatch is already finalized.").
Proof.
  intros S F. unfold completeDispatch, bind at 1, read at 1. rewrite S, F.
  reflexivity.
Qed.

Lemma unique_by {A K : Type} (key : A -> K) (rows : list A) (x y : A) :
  NoDup (map key rows) -> In x rows -> In y rows -> key x = key y -> x = y.
Proof.
  induction rows as [| r rows IH]; intros N Hx Hy E; [contradiction |].
  cbn in N. inversion N as [| ? ? Hn N']; subst.
  destruct Hx as [-> | Hx], Hy as [-> | Hy]; trivial.
  - exfalso. apply Hn. rewrite E. apply in_map. exact Hy.
  - exfalso. apply Hn. rewrite <- E. apply in_map. exact Hx.
  - apply IH; assumption.
Qed.

(** The dispatch of a user for a date is found by the user and the date
    when no user has two dispatches for one date. *)
Lemma find_by_user_and_date (rows : list Dispatch) (d : Dispatch) (u : string) :
  NoDup (map (fun r => (dispatchUser r, date r)) rows) -> In d rows ->
  dispatchUser d = u ->
  find (fun r => String.eqb (dispatchUser r) u && String.eqb (date r) (date d))
       rows
  = Some d.
Proof.
  intros N I <-.
  destruct (find _ rows) as [x |] eqn:F.
  - apply find_some in F. destruct F as [Ix C].
    apply andb_true_iff in C. rewrite !String.eqb_eq in C. destruct C as [Cu Cd].
    f_equal.
    apply (unique_by (fun r => (dispatchUser r, date r)) rows); trivial.
    cbn. congruence.
  - pose proof (find_none _ _ F d I) as C. cbn in C.
    rewrite !String.eqb_refl in C. discriminate C.
Qed.

(** X17: once [complete-dispatch] has returned for a dispatch, the
    dispatch is finalized and the calls that name its key are refused:
    linking a task to it, unlinking a task from it, updating its summary
    and completing it again all throw and leave the store as it is.  The
    rollover of another dispatch is not refused: when the finalized
    dispatch is the one for the next date of an open dispatch of the
    user that has pending tasks, in a store where the keys are unique and
    no user has two dispatches for one date, completing that open
    dispatch returns the key of the finalized dispatch as
    [nextDispatchId] and links the pending tasks to it, and the dispatch
    stays finalized. *)
Theorem completed_dispatch_refuses_calls_on_its_key
  (clock clockNext clock3 clock4 userId id taskId text : string)
  (db db' : Db) (result : Completed) :
  completeDispatch newDispatchId clock clockNext userId id db
  = (db', Returns result) ->
  (exists d, selectDispatch userId id db' = Some d /\ finalized d = true)
  /\ linkTaskToDispatch userId id taskId db'
     = (db', Throws "Cannot modify a finalized dispatch.")
  /\ unlinkTaskFromDispatch userId id taskId db'
     = (db', Throws "Cannot modify a finalized dispatch.")
  /\ (id <> "" ->
      updateDispatchSummary host newDispatchId users clock3 clock4 userId text
        (Some id) db'
      = (db', Throws "Cannot update summary on a finalized dispatch."))
  /\ completeDispatch newDispatchId clock3 clock4 userId id db'
     = (db', Throws "Dispatch is already finalized.")
  /\ (forall prev p d,
        wellKeyed db' ->
        selectDispatch userId id db' = Some d ->
        selectDispatch userId prev db' = Some p -> finalized p = false ->
        nextDate (date p) = Returns (date d) ->
        pending prev db' <> [] ->
        exists db'',
          completeDispatch newDispatchId clock3 clock4 userId prev db'
          = (db'',
             Returns (mkCompleted (Some (finalizedAt clock3 p))
                        (List.length (pending prev db')) (Some id)))
          /\ selectDispatch userId id db'' = Some d
          /\ finalized d = true
          /\ forall t, In (id, t) (dispatchTasks db'') <->
                       In (id, t) (dispatchTasks db') \/ In t (pending prev db')).
Proof.
  intros H.
  destruct (completeDispatch_effect newDispatchId _ _ _ _ _ _ _ H)
    as (d & extra & targets & S & F & _ & _ & Ed & _).
  destruct (selectDispatch_Some newDispatchId _ _ _ _ S) as (_ & E & _).
  assert (selectDispatch userId id db' = Some (finalizedAt clock d)) as S'.
  { unfold selectDispatch. rewrite Ed. apply find_app_found.
    fold (selectDispatch userId id (finalizeIn clock id db)).
    rewrite selectDispatch_finalizeIn, S. cbn [option_map].
    rewrite (proj2 (String.eqb_eq _ _) E). reflexivity. }
  split; [exists (finalizedAt clock d); split; [exact S' | reflexivity] |].
  split; [apply (link_on_finalized _ _ _ _ _ S' eq_refl) |].
  split; [apply (unlink_on_finalized _ _ _ _ _ S' eq_refl) |].
  split; [intros N; apply (summary_on_finalized _ _ _ _ _ _ _ N S' eq_refl) |].
  split; [apply (complete_on_finalized _ _ _ _ _ _ S' eq_refl) |].
  intros prev p d0 [Nk Nd] Sd Sp Fp D P.
  rewrite S' in Sd. injection Sd as <-.
  destruct (selectDispatch_Some newDispatchId _ _ _ _ S') as (Id & Kd & Ud).
  destruct (selectDispatch_Some newDispatchId _ _ _ _ Sp) as (Ip & Kp & Up).
  assert (prev <> id) as Np.
  { intros ->. rewrite Sp in S'. injection S' as ->. discriminate Fp. }
  destruct (completeDispatch_rolls newDispatchId clock3 clock4 userId prev
              (date (finalizedAt clock d)) db' p Sp Nk Fp P D)
    as (db2 & C & Ed2 & _ & _ & El & _).
  assert (find (fun r => String.eqb (dispatchUser r) userId
                         && String.eqb (date r) (date (finalizedAt clock d)))
               (dispatches (finalizeIn clock3 prev db'))
          = Some (finalizedAt clock d)) as Fd.
  { unfold finalizeIn. cbn [setDispatches dispatches].
    rewrite find_map_same
      by (intros x; destruct (String.eqb (dispatchId x) prev); reflexivity).
    rewrite (find_by_user_and_date _ _ _ Nd Id Ud).
    cbn [option_map]. rewrite Kd.
    destruct (String.eqb_spec id prev) as [K | _]; [congruence | reflexivity]. }
  rewrite Fd in C, Ed2, El. rewrite Kd in C, El. rewrite app_nil_r in Ed2.
  exists db2. split; [exact C |]. split.
  { unfold selectDispatch. rewrite Ed2.
    fold (selectDispatch userId id (finalizeIn clock3 prev db')).
    rewrite selectDispatch_finalizeIn, S'. cbn [option_map]. rewrite Kd.
    destruct (String.eqb_spec id prev) as [K | _]; [congruence | reflexivity]. }
  split; [reflexivity |].
  intros t. rewrite El. split.
  - intros [L | (k & Ik & [= <-])]; [left; exact L | right; exact Ik].
  - intros [L | Ik]; [left; exact L | right; exists t; auto].
Qed.

End DispatchToolTheorems.

Lemma completed_dispatch_refuses_calls_on_its_key_witness :
  let db' :=
    fst (Dispatches.completeDispatch MoreNotions.freshId
           "2024-02-29T18:00:00.000Z" "2024-02-29T18:00:01.000Z" "u1" "d2"
           MoreNotions.twoDayDb) in
  Dispatches.linkTaskToDispatch "u1" "d2" "t2" db'
  = (db', Throws "Cannot modify a finalized dispatch.")
  /\ exists db'',
       Dispatches.completeDispatch MoreNotions.freshId
         "2024-02-29T19:00:00.000Z" "2024-02-29T19:00:01.000Z" "u1" "d1" db'
       = (db'',
          Returns (Dispatches.mkCompleted
                     (Some (Notions.finalizedAt "2024-02-29T19:00:00.000Z"
                              Notions.planDispatch))
                     2 (Some "d2")))
       /\ In ("d2", "t2") (Store.dispatchTasks db'')
       /\ In ("d2", "t3") (Store.dispatchTasks db'')
       /\ Dispatches.selectDispatch "u1" "d2" db''
          = Some (Notions.finalizedAt "2024-02-29T18:00:00.000Z"
                    MoreNotions.nextDispatch).
Proof.
  intros db'.
  destruct (completed_dispatch_refuses_calls_on_its_key Notions.utcHost
              MoreNotions.freshId [] "2024-02-29T18:00:00.000Z"
              "2024-02-29T18:00:01.000Z" "2024-02-29T19:00:00.000Z"
              "2024-02-29T19:00:01.000Z" "u1" "d2" "t2" ""
              MoreNotions.twoDayDb db'
              (Dispatches.mkCompleted
                 (Some (Notions.finalizedAt "2024-02-29T18:00:00.000Z"
                          MoreNotions.nextDispatch)) 0 None)
              ltac:(vm_compute; reflexivity))
    as (_ & L & _ & _ & _ & R).
  split; [exact L |].
  destruct (R "d1" Notions.planDispatch
              (Notions.finalizedAt "2024-02-29T18:00:00.000Z"
                 MoreNotions.nextDispatch))
    as (db2 & C & Sd & _ & Ll).
  - split; vm_compute;
      (apply NoDup_cons; [cbn; intuition discriminate |]);
      (apply NoDup_cons; [intros [] | apply NoDup_nil]).
  - vm_compute. reflexivity.
  - vm_compute. reflexivity.
  - reflexivity.
  - vm_compute. reflexivity.
  - vm_compute. discriminate.
  - exists db2. split; [exact C |].
    split; [apply Ll; right; vm_compute; auto |].
    split; [apply Ll; right; vm_compute; auto | exact Sd].
Defined.

Section DispatchEffects.

Import Store Dispatches DispatchTools Notions MoreNotions.

Variable host : Host.
Variable newDispatchId : Db -> string.
Variable users : list User.

(** What a call of [link-task-to-dispatch] has done. *)
Lemma linkTask_effect (userId id taskId : string) (db db' : Db)
  (r : Outcome (string * string)) :
  linkTaskToDispatch userId id taskId db = (db', r) ->
  (db' = db /\ exists message, r = Throws message)
  \/ (exists d,
        selectDispatch userId id db = Some d /\ finalized d = false
        /\ r = Returns (id, taskId)
        /\ ((In (id, taskId) (dispatchTasks db) /\ db' = db)
            \/ (~ In (id, taskId) (dispatchTasks db)
                /\ db' = setDispatchTasks
                           (fun rows => (rows ++ [(id, taskId)])%list) db))).
Proof.
  unfold linkTaskToDispatch. unfold bind at 1. unfold read at 1.
  destruct (selectDispatch userId id db) as [d |] eqn:S;
    [| intros H; injection H as <- <-; left; split; [reflexivity | eexists; reflexivity]].
  destruct (selectDispatch_Some newDispatchId _ _ _ _ S) as (_ & E & _).
  destruct (finalized d) eqn:F;
    [intros H; injection H as <- <-; left; split; [reflexivity | eexists; reflexivity] |].
  unfold bind at 1. unfold read at 1.
  destruct (find _ (tasks db)) as [task |] eqn:T;
    [| intros H; injection H as <- <-; left; split; [reflexivity | eexists; reflexivity]].
  apply find_some in T. destruct T as [_ C].
  apply andb_true_iff in C. destruct C as [C _].
  apply andb_true_iff in C. destruct C as [C _]. apply String.eqb_eq in C.
  rewrite E, C.
  unfold bind at 1. unfold read at 1.
  destruct (selectLink id taskId db) as [row |] eqn:L; cbn [isNull].
  - unfold bind, ret. intros H. injection H as <- <-. right. exists d.
    repeat split; trivial. left. split; [| reflexivity].
    unfold selectLink in L. apply find_some in L. destruct L as [I P].
    apply pairEqb_eq in P. subst row. exact I.
  - unfold bind, insertLink, write, ret. intros H. injection H as <- <-.
    right. exists d. repeat split; trivial. right. split; [| reflexivity].
    apply selectLink_None. exact L.
Qed.

(** What a call of [unlink-task-from-dispatch] has done. *)
Lemma unlinkTask_effect (userId id taskId : string) (db db' : Db)
  (r : Outcome (string * string)) :
  unlinkTaskFromDispatch userId id taskId db = (db', r) ->
  (db' = db /\ exists message, r = Throws message)
  \/ (exists d,
        selectDispatch userId id db = Some d /\ finalized d = false
        /\ r = Returns (id, taskId)
        /\ db' = setDispatchTasks
                   (filter (fun row => negb (pairEqb (id, taskId) row))) db).
Proof.
  unfold unlinkTaskFromDispatch. unfold bind at 1. unfold read at 1.
  destruct (selectDispatch userId id db) as [d |] eqn:S;
    [| intros H; injection H as <- <-; left; split; [reflexivity | eexists; reflexivity]].
  destruct (selectDispatch_Some newDispatchId _ _ _ _ S) as (_ & E & _).
  destruct (finalized d) eqn:F;
    [intros H; injection H as <- <-; left; split; [reflexivity | eexists; reflexivity] |].
  rewrite E. unfold bind, write, ret. intros H. injection H as <- <-.
  right. exists d. repeat split; trivial.
Qed.

Lemma In_filter_other (p q : string * string) (rows : list (string * string)) :
  q <> p ->
  (In q (filter (fun row => negb (pairEqb p row)) rows) <-> In q rows).
Proof.
  intros N. rewrite filter_In. split; [tauto |]. intros I. split; [exact I |].
  apply negb_true_iff. destruct (pairEqb p q) eqn:E; [| reflexivity].
  apply pairEqb_eq in E. congruence.
Qed.

End DispatchEffects.

Section LinkTheorems.

Import Store Dispatches DispatchTools Notions MoreNotions.

(** X18: unlinking undoes linking: after a task has been linked to a
    dispatch, unlinking it succeeds, leaves no link of the pair and
    leaves every other link as it was before the two calls; when the pair
    was not linked before, the store is the one before the two calls. *)
Theorem unlink_undoes_link
  (userId id taskId : string) (db db1 : Db) (p : string * string) :
  linkTaskToDispatch userId id taskId db = (db1, Returns p) ->
  exists db2,
    unlinkTaskFromDispatch userId id taskId db1 = (db2, Returns p)
    /\ p = (id, taskId)
    /\ ~ In p (dispatchTasks db2)
    /\ (forall q, q <> p -> (In q (dispatchTasks db2) <-> In q (dispatchTasks db)))
    /\ dispatches db2 = dispatches db /\ tasks db2 = tasks db
    /\ (~ In p (dispatchTasks db) -> db2 = db).
Proof.
  intros H.
  assert (exists d, selectDispatch userId id db = Some d /\ finalized d = false
                    /\ p = (id, taskId)
                    /\ dispatches db1 = dispatches db /\ tasks db1 = tasks db
                    /\ projects db1 = projects db
                    /\ (forall q, q <> p -> (In q (dispatchTasks db1)
                                             <-> In q (dispatchTasks db)))
                    /\ (~ In p (dispatchTasks db) ->
                        dispatchTasks db1 = (dispatchTasks db ++ [p])%list))
    as (d & S & F & Ep & D1 & T1 & P1 & L1 & N1).
  { destruct (linkTask_effect (fun _ => "") _ _ _ _ _ _ H)
      as [[_ (m & Em)] | (d & S & F & Er & [[I ->] | [Nl ->]])];
      [discriminate Em | |]; injection Er as ->; exists d.
    - repeat split; trivial; try tauto.
    - cbn [setDispatchTasks dispatches tasks projects dispatchTasks].
      split; [exact S |]. split; [exact F |]. split; [reflexivity |].
      split; [reflexivity |]. split; [reflexivity |]. split; [reflexivity |].
      split; [| reflexivity].
      intros q Nq. split.
      + intros J. apply in_app_or in J. destruct J as [J | [<- | []]];
          [exact J | congruence].
      + intros J. apply in_or_app. left. exact J. }
  subst p.
  assert (selectDispatch userId id db1 = Some d) as S1
    by (unfold selectDispatch; rewrite D1; exact S).
  eexists. split.
  - unfold unlinkTaskFromDispatch. unfold bind at 1. unfold read at 1.
    rewrite S1, F.
    destruct (selectDispatch_Some (fun _ => "") _ _ _ _ S) as (_ & E & _).
    rewrite E. unfold bind, write, ret. reflexivity.
  - unfold setDispatchTasks.
    cbn [dispatches tasks projects dispatchTasks].
    split; [reflexivity |]. split; [| split; [| split; [| split]]].
    + intros I. apply filter_In in I. destruct I as [_ C].
      apply negb_true_iff in C.
      assert (pairEqb (id, taskId) (id, taskId) = true) as R
        by (apply pairEqb_eq; reflexivity).
      congruence.
    + intros q Nq. rewrite (In_filter_other _ _ _ Nq). apply L1, Nq.
    + exact D1.
    + exact T1.
    + intros Np. rewrite (N1 Np), D1, T1, P1.
      rewrite filter_app. cbn [filter].
      assert (pairEqb (id, taskId) (id, taskId) = true) as R
        by (apply pairEqb_eq; reflexivity).
      rewrite R. cbn [negb]. rewrite app_nil_r.
      rewrite filter_all; [apply db_eta |].
      intros x Ix. apply negb_true_iff.
      destruct (pairEqb (id, taskId) x) eqn:Ex; [| reflexivity].
      apply pairEqb_eq in Ex. subst x. contradiction.
Qed.

Lemma unlink_undoes_link_witness :
  exists db2,
    unlinkTaskFromDispatch "u1" "d1" "t9"
      (setDispatchTasks (fun rows => (rows ++ [("d1", "t9")])%list)
         (mkDb (dispatches planDb) (dispatchTasks planDb) [planTask "t9" "open"] []))
    = (db2, Returns ("d1", "t9"))
    /\ ("d1", "t9") = ("d1", "t9")
    /\ ~ In ("d1", "t9") (dispatchTasks db2)
    /\ (forall q, q <> ("d1", "t9") ->
                  (In q (dispatchTasks db2) <-> In q (dispatchTasks planDb)))
    /\ dispatches db2 = dispatches planDb
    /\ tasks db2 = [planTask "t9" "open"]
    /\ (~ In ("d1", "t9") (dispatchTasks planDb) ->
        db2 = mkDb (dispatches planDb) (dispatchTasks planDb)
                [planTask "t9" "open"] []).
Proof.
  apply (unlink_undoes_link "u1" "d1" "t9"
           (mkDb (dispatches planDb) (dispatchTasks planDb)
              [planTask "t9" "open"] [])).
  vm_compute. reflexivity.
Defined.

End LinkTheorems.

Section IsolationFacts.

Import Store Dispatches DispatchTools Notions MoreNotions.

Variable host : Host.
Variable newDispatchId : Db -> string.
Variable users : list User.

Lemma sameForOthers_refl (userId : string) (db : Db) : sameForOthers userId db db.
Proof. unfold sameForOthers. repeat split; trivial. Qed.

(** Rows changed by key, when the key is the one of a dispatch of the
    user and the change keeps key and user. *)
Lemma others_keep_rows (userId key : string) (f : Dispatch -> Dispatch)
  (rows : list Dispatch) (d r : Dispatch) :
  NoDup (map dispatchId rows) ->
  In d rows -> dispatchId d = key -> dispatchUser d = userId ->
  (forall x, dispatchUser (f x) = dispatchUser x) ->
  (forall x, dispatchId x <> key -> f x = x) ->
  dispatchUser r <> userId ->
  (In r (map f rows) <-> In r rows).
Proof.
  intros N I K U Fu Fo Nr. split.
  - intros H. apply in_map_iff in H. destruct H as (x & E & Ix).
    destruct (String.eqb_spec (dispatchId x) key) as [Kx | Kx].
    + assert (x = d) as ->
        by (apply (unique_key dispatchId rows); trivial; congruence).
      exfalso. apply Nr. rewrite <- E, Fu. exact U.
    + rewrite (Fo x Kx) in E. subst x. exact Ix.
  - intros H. apply in_map_iff. exists r. split; [| exact H].
    apply Fo. intros Kr. apply Nr.
    assert (r = d) as -> by (apply (unique_key dispatchId rows); trivial; congruence).
    exact U.
Qed.

Lemma others_keep_added (userId : string) (rows : list Dispatch)
  (created r : Dispatch) :
  dispatchUser created = userId -> dispatchUser r <> userId ->
  (In r (rows ++ [created]) <-> In r rows).
Proof.
  intros U N. split.
  - intros H. apply in_app_or in H. destruct H as [H | [<- | []]];
      [exact H | contradiction].
  - intros H. apply in_or_app. left. exact H.
Qed.

Lemma finalizedAt_keeps (clock key : string) :
  (forall x, dispatchUser (if String.eqb (dispatchId x) key
                           then finalizedAt clock x else x) = dispatchUser x)
  /\ (forall x, dispatchId (if String.eqb (dispatchId x) key
                            then finalizedAt clock x else x) = dispatchId x)
  /\ (forall x, date (if String.eqb (dispatchId x) key
                      then finalizedAt clock x else x) = date x)
  /\ (forall x, dispatchId x <> key ->
                (if String.eqb (dispatchId x) key then finalizedAt clock x else x) = x).
Proof.
  repeat split; intros x; try (destruct (String.eqb (dispatchId x) key); reflexivity).
  intros N. rewrite (proj2 (String.eqb_neq _ _) N). reflexivity.
Qed.

Lemma summarized_keeps (clock key text : string) :
  (forall x, dispatchUser (summarized clock key text x) = dispatchUser x)
  /\ (forall x, dispatchId (summarized clock key text x) = dispatchId x)
  /\ (forall x, date (summarized clock key text x) = date x)
  /\ (forall x, dispatchId x <> key -> summarized clock key text x = x).
Proof.
  unfold summarized.
  repeat split; intros x; try (destruct (String.eqb (dispatchId x) key); reflexivity).
  intros N. rewrite (proj2 (String.eqb_neq _ _) N). reflexivity.
Qed.

Lemma summarizeRows_effect (clock key text : string) (db : Db) :
  summarizeRows clock key text db
  = (setDispatches (map (summarized clock key text)) db,
     Returns (find (fun d => String.eqb (dispatchId d) key)
                   (map (summarized clock key text) (dispatches db)))).
Proof. reflexivity. Qed.

(** What a call of [get-today-dispatch] has done. *)
Lemma getTodayDispatch_effect (clock userId : string) (db db' : Db)
  (r : Outcome Dispatch) :
  getTodayDispatch host newDispatchId users clock userId db = (db', r) ->
  (db' = db
   /\ ((exists message, r = Throws message)
       \/ exists row, r = Returns row /\ In row (dispatches db)
                      /\ dispatchUser row = userId
                      /\ todayISODate host (getUserTimeZone users userId)
                         = Returns (date row)))
  \/ (exists today,
        todayISODate host (getUserTimeZone users userId) = Returns today
        /\ find (fun d => String.eqb (dispatchUser d) userId
                          && String.eqb (date d) today) (dispatches db) = None
        /\ r = Returns (mkDispatch (newDispatchId db) userId today None false
                          clock clock)
        /\ db' = setDispatches
                   (fun rows => (rows ++ [mkDispatch (newDispatchId db) userId today
                                            None false clock clock])%list) db).
Proof.
  unfold getTodayDispatch. unfold bind at 1. unfold liftOutcome.
  destruct (todayISODate host (getUserTimeZone users userId)) as [today | e] eqn:T.
  - destruct (find (fun d => String.eqb (dispatchUser d) userId
                             && String.eqb (date d) today) (dispatches db))
      as [row |] eqn:G.
    + rewrite (getOrCreateDispatch_found newDispatchId _ _ _ _ row G).
      intros H. injection H as <- <-. left. split; [reflexivity |]. right.
      exists row. apply find_some in G. destruct G as [I C].
      apply andb_true_iff in C. rewrite !String.eqb_eq in C.
      destruct C as [C1 C2]. rewrite C2. auto.
    + rewrite (getOrCreateDispatch_created newDispatchId clock _ _ _ G).
      cbv zeta. intros H. injection H as <- <-. right. exists today. auto.
  - intros H. injection H as <- <-. left. split; [reflexivity |]. left.
    eexists. reflexivity.
Qed.

(** What a call of [update-dispatch-summary] has done: nothing when it
    throws; otherwise it has written the summary to the rows with the key
    of a dispatch of the user that is not finalized, which is today's
    dispatch, created first if need be, when no key was given. *)
Lemma updateDispatchSummary_effect (clock clockUpdate userId text : string)
  (key : option string) (db db' : Db) (r : Outcome (option Dispatch)) :
  updateDispatchSummary host newDispatchId users clock clockUpdate userId text
    key db = (db', r) ->
  (db' = db /\ exists message, r = Throws message)
  \/ (exists dbm d,
        (dbm = db
         \/ exists today,
              falsy key = true
              /\ find (fun d => String.eqb (dispatchUser d) userId
                                && String.eqb (date d) today) (dispatches db)
                 = None
              /\ d = mkDispatch (newDispatchId db) userId today None false
                       clock clock
              /\ dbm = setDispatches (fun rows => (rows ++ [d])%list) db)
        /\ In d (dispatches dbm) /\ dispatchUser d = userId
        /\ finalized d = false
        /\ (forall id, key = Some id -> id <> "" -> dispatchId d = id)
        /\ (falsy key = true ->
            todayISODate host (getUserTimeZone users userId) = Returns (date d))
        /\ db' = setDispatches (map (summarized clockUpdate (dispatchId d) text)) dbm
        /\ r = Returns (find (fun x => String.eqb (dispatchId x) (dispatchId d))
                             (dispatches db'))).
Proof.
  unfold updateDispatchSummary.
  destruct (falsy key) eqn:K.
  - unfold bind at 1. unfold bind at 1. unfold liftOutcome.
    destruct (todayISODate host (getUserTimeZone users userId)) as [today | e] eqn:T;
      [| intros H; injection H as <- <-; left; split; [reflexivity | eexists; reflexivity]].
    unfold bind at 1.
    destruct (find (fun d => String.eqb (dispatchUser d) userId
                             && String.eqb (date d) today) (dispatches db))
      as [row |] eqn:G.
    + rewrite (getOrCreateDispatch_found newDispatchId _ _ _ _ row G).
      unfold ret at 1.
      apply find_some in G. destruct G as [I C].
      apply andb_true_iff in C. rewrite !String.eqb_eq in C.
      destruct (finalized row) eqn:F;
        [intros H; injection H as <- <-; left; split;
         [reflexivity | eexists; reflexivity] |].
      rewrite summarizeRows_effect. intros H. injection H as <- <-.
      right. exists db, row. destruct C as [C1 C2]. rewrite C2.
      repeat split; trivial; try tauto.
      intros id -> N. cbn in K. apply String.eqb_eq in K. contradiction.
    + rewrite (getOrCreateDispatch_created newDispatchId clock _ _ _ G).
      cbv zeta. unfold ret at 1. cbn [finalized].
      rewrite summarizeRows_effect. intros H. injection H as <- <-.
      right. eexists. eexists. split; [right; exists today; repeat split; trivial |].
      cbn [setDispatches dispatches dispatchUser finalized dispatchId date].
      repeat split; trivial.
      * apply in_or_app. right. left. reflexivity.
      * intros id -> N. cbn in K. apply String.eqb_eq in K. contradiction.
  - destruct key as [id |]; [| discriminate K].
    unfold bind at 1. unfold read at 1.
    destruct (selectDispatch userId id db) as [d |] eqn:S;
      [| intros H; injection H as <- <-; left; split; [reflexivity | eexists; reflexivity]].
    destruct (selectDispatch_Some newDispatchId _ _ _ _ S) as (I & E & U).
    destruct (finalized d) eqn:F;
      [intros H; injection H as <- <-; left; split;
       [reflexivity | eexists; reflexivity] |].
    rewrite summarizeRows_effect. intros H. injection H as <- <-.
    right. exists db, d. repeat split; trivial; try tauto.
    + intros id' E' _. congruence.
    + intros K'. congruence.
Qed.

End IsolationFacts.

Section IsolationTheorems.

Import Store Dispatches DispatchTools Notions MoreNotions.

Variable host : Host.
Variable newDispatchId : Db -> string.
Variable users : list User.

Lemma NoDup_keys_added (rows : list Dispatch) (created : Dispatch) :
  NoDup (map dispatchId rows) ->
  ~ In (dispatchId created) (map dispatchId rows) ->
  NoDup (map dispatchId (rows ++ [created])).
Proof.
  intros N F. rewrite map_app. cbn [map]. apply NoDup_app; trivial.
  - constructor; [intros [] | constructor].
  - intros x Ix [<- | []]. contradiction.
Qed.

(** X19: the dispatch tools of one user change nothing that belongs to
    another user.  In a store where the keys of the dispatches are unique
    and the key for a new dispatch is not in use, whatever
    [get-today-dispatch], [update-dispatch-summary],
    [link-task-to-dispatch], [unlink-task-from-dispatch] and
    [complete-dispatch] do for a user, and whether they return or throw,
    the dispatches of the other users, the links of their dispatches,
    the tasks and the projects are afterwards what they were. *)
Theorem dispatch_tools_leave_other_users_alone
  (clock clock2 userId id taskId text : string) (key : option string)
  (db db' : Db) :
  NoDup (map dispatchId (dispatches db)) ->
  ~ In (newDispatchId db) (map dispatchId (dispatches db)) ->
  (forall r, getTodayDispatch host newDispatchId users clock userId db = (db', r) ->
             sameForOthers userId db db')
  /\ (forall r,
        updateDispatchSummary host newDispatchId users clock clock2 userId text
          key db = (db', r) ->
        sameForOthers userId db db')
  /\ (forall r, linkTaskToDispatch userId id taskId db = (db', r) ->
                sameForOthers userId db db')
  /\ (forall r, unlinkTaskFromDispatch userId id taskId db = (db', r) ->
                sameForOthers userId db db')
  /\ (forall r,
        completeDispatch newDispatchId clock clock2 userId id db = (db', r) ->
        sameForOthers userId db db').
Proof.
  intros N Fresh.
  assert (forall k d, In d (dispatches db) -> dispatchId d = k ->
                      dispatchUser d = userId ->
                      forall clk,
                        sameForOthers userId db (finalizeIn clk k db)) as Fin.
  { intros k d I K U clk. unfold sameForOthers, finalizeIn.
    cbn [setDispatches dispatches tasks projects dispatchTasks].
    destruct (finalizedAt_keeps clk k) as (Ku & _ & _ & Ko).
    split; [| repeat split; trivial].
    intros r0 Nr.
    apply (others_keep_rows userId k _ (dispatches db) d r0); trivial. }
  split; [| split; [| split; [| split]]].
  - intros r H.
    destruct (getTodayDispatch_effect _ _ _ _ _ _ _ _ H)
      as [[-> _] | (today & _ & _ & _ & ->)]; [apply sameForOthers_refl |].
    unfold sameForOthers.
    cbn [setDispatches dispatches tasks projects dispatchTasks].
    split; [| repeat split; trivial].
    intros r0 Nr. apply (others_keep_added userId); trivial.
  - intros r H.
    destruct (updateDispatchSummary_effect _ _ _ _ _ _ _ _ _ _ _ H)
      as [[-> _] | (dbm & d & Hm & I & U & F & _ & _ & -> & _)];
      [apply sameForOthers_refl |].
    destruct (summarized_keeps clock2 (dispatchId d) text) as (Ku & _ & _ & Ko).
    destruct Hm as [-> | (today & _ & G & Ed & ->)].
    + unfold sameForOthers.
      cbn [setDispatches dispatches tasks projects dispatchTasks].
      split; [| repeat split; trivial].
      intros r0 Nr.
      apply (others_keep_rows userId (dispatchId d) _ (dispatches db) d r0);
        trivial.
    + unfold sameForOthers.
      cbn [setDispatches dispatches tasks projects dispatchTasks].
      assert (NoDup (map dispatchId (dispatches db ++ [d]))) as N'.
      { apply NoDup_keys_added; [exact N |]. rewrite Ed. exact Fresh. }
      cbn [setDispatches dispatches] in I.
      split; [| repeat split; trivial].
      intros r0 Nr.
      rewrite (others_keep_rows userId (dispatchId d) _ (dispatches db ++ [d]) d r0
                 N' I eq_refl U Ku Ko Nr).
      apply (others_keep_added userId); trivial.
  - intros r H.
    destruct (linkTask_effect newDispatchId _ _ _ _ _ _ H)
      as [[-> _] | (d & S & _ & _ & [[_ ->] | [_ ->]])];
      try apply sameForOthers_refl.
    destruct (selectDispatch_Some newDispatchId _ _ _ _ S) as (I & E & U).
    unfold sameForOthers.
    cbn [setDispatchTasks dispatches tasks projects dispatchTasks].
    split; [tauto |]. split; [reflexivity |]. split; [reflexivity |].
    intros p Hp. split.
    + intros J. apply in_app_or in J. destruct J as [J | [<- | []]]; [exact J |].
      exfalso. apply (Hp d I U). exact E.
    + intros J. apply in_or_app. left. exact J.
  - intros r H.
    destruct (unlinkTask_effect newDispatchId _ _ _ _ _ _ H)
      as [[-> _] | (d & S & _ & _ & ->)]; [apply sameForOthers_refl |].
    destruct (selectDispatch_Some newDispatchId _ _ _ _ S) as (I & E & U).
    unfold sameForOthers.
    cbn [setDispatchTasks dispatches tasks projects dispatchTasks].
    split; [tauto |]. split; [reflexivity |]. split; [reflexivity |].
    intros p Hp. apply In_filter_other.
    intros ->. apply (Hp d I U). exact E.
  - intros [result | message] H.
    + destruct (completeDispatch_effect newDispatchId _ _ _ _ _ _ _ H)
        as (d & extra & targets & S & F & Et & Ep & Ed & Hx & Ht & Hl).
      destruct (selectDispatch_Some newDispatchId _ _ _ _ S) as (I & E & U).
      destruct (Fin id d I E U clock) as (Fr & _).
      unfold sameForOthers. split; [| split; [exact Et | split; [exact Ep |]]].
      * intros r Nr. rewrite Ed, <- (Fr r Nr).
        destruct Hx as [-> | (day & -> & _)]; [rewrite app_nil_r; tauto |].
        apply (others_keep_added userId); trivial.
      * intros p Hp. rewrite Hl. split; [| tauto].
        intros [J | (t & next & _ & In' & ->)]; [exact J |].
        exfalso. destruct (Ht next In') as [I' U'].
        apply (Hp next I' U'). reflexivity.
    + destruct (completeDispatch_throws newDispatchId _ _ _ _ _ _ _ H)
        as [-> | [-> (d & S & _)]]; [apply sameForOthers_refl |].
      destruct (selectDispatch_Some newDispatchId _ _ _ _ S) as (I & E & U).
      apply (Fin id d I E U clock).
Qed.

End IsolationTheorems.

Lemma dispatch_tools_leave_other_users_alone_witness :
  MoreNotions.sameForOthers "u1" Notions.planDb
    (fst (Dispatches.completeDispatch MoreNotions.freshId
            "2024-02-28T18:00:00.000Z" "2024-02-28T18:00:01.000Z" "u1" "d1"
            Notions.planDb)).
Proof.
  refine (proj2 (proj2 (proj2 (proj2
            (dispatch_tools_leave_other_users_alone Notions.utcHost
               MoreNotions.freshId [] "2024-02-28T18:00:00.000Z"
               "2024-02-28T18:00:01.000Z" "u1" "d1" "t2" "" None
               Notions.planDb _ _ (freshId_fresh Notions.planDb))))) _ _).
  - cbn. apply NoDup_cons; [intros [] | apply NoDup_nil].
  - vm_compute. reflexivity.
Defined.

Section KeyTheorems.

Import Store Dispatches DispatchTools Notions MoreNotions.

Variable host : Host.
Variable newDispatchId : Db -> string.
Variable users : list User.

Lemma keys_after_map {K : Type} (key : Dispatch -> K) (f : Dispatch -> Dispatch)
  (rows : list Dispatch) :
  (forall x, key (f x) = key x) -> map key (map f rows) = map key rows.
Proof.
  intros H. rewrite map_map. apply map_ext. exact H.
Qed.

Lemma wellKeyed_map (f : Dispatch -> Dispatch) (db : Db) :
  (forall x, dispatchId (f x) = dispatchId x) ->
  (forall x, dispatchUser (f x) = dispatchUser x) ->
  (forall x, date (f x) = date x) ->
  wellKeyed db -> wellKeyed (setDispatches (map f) db).
Proof.
  intros Hi Hu Hd [N1 N2]. unfold wellKeyed.
  cbn [setDispatches dispatches].
  rewrite (keys_after_map dispatchId f _ Hi).
  rewrite (keys_after_map (fun d => (dispatchUser d, date d)) f).
  - split; assumption.
  - intros x. rewrite Hu, Hd. reflexivity.
Qed.

Lemma wellKeyed_added (userId day : string) (created : Dispatch) (db : Db) :
  wellKeyed db ->
  ~ In (dispatchId created) (map dispatchId (dispatches db)) ->
  dispatchUser created = userId -> date created = day ->
  find (fun r => String.eqb (dispatchUser r) userId && String.eqb (date r) day)
       (dispatches db) = None ->
  wellKeyed (setDispatches (fun rows => (rows ++ [created])%list) db).
Proof.
  intros [N1 N2] Fr U D G. unfold wellKeyed. cbn [setDispatches dispatches].
  split; [apply NoDup_keys_added; assumption |].
  rewrite map_app. cbn [map]. apply NoDup_app; trivial.
  - constructor; [intros [] | constructor].
  - intros x Ix [<- | []]. apply in_map_iff in Ix.
    destruct Ix as (r & E & Ir). injection E as Eu Ed.
    pose proof (find_none _ _ G r Ir) as C. cbn beta in C.
    rewrite Eu, Ed, U, D, !String.eqb_refl in C. discriminate C.
Qed.

(** X20: the dispatch tools keep the keys in order: from a store in
    which the keys of the dispatches are unique and no user has two
    dispatches for one date, with keys for new rows that are not in use,
    every tool leaves such a store, whether it returns or throws. *)
Theorem dispatch_keys_stay_unique
  (clock clock2 userId id taskId text : string) (key : option string)
  (db db' : Db) :
  wellKeyed db ->
  (forall db0, ~ In (newDispatchId db0) (map dispatchId (dispatches db0))) ->
  (forall r, getTodayDispatch host newDispatchId users clock userId db = (db', r) ->
             wellKeyed db')
  /\ (forall r,
        updateDispatchSummary host newDispatchId users clock clock2 userId text
          key db = (db', r) ->
        wellKeyed db')
  /\ (forall r, linkTaskToDispatch userId id taskId db = (db', r) -> wellKeyed db')
  /\ (forall r, unlinkTaskFromDispatch userId id taskId db = (db', r) ->
                wellKeyed db')
  /\ (forall r,
        completeDispatch newDispatchId clock clock2 userId id db = (db', r) ->
        wellKeyed db').
Proof.
  intros W Fresh.
  assert (forall clk k, wellKeyed (finalizeIn clk k db)) as Fin.
  { intros clk k. destruct (finalizedAt_keeps clk k) as (Ku & Ki & Kd & _).
    apply wellKeyed_map; assumption. }
  split; [| split; [| split; [| split]]].
  - intros r H.
    destruct (getTodayDispatch_effect _ _ _ _ _ _ _ _ H)
      as [[-> _] | (today & _ & G & _ & ->)]; [exact W |].
    apply (wellKeyed_added userId today); trivial. apply Fresh.
  - intros r H.
    destruct (updateDispatchSummary_effect _ _ _ _ _ _ _ _ _ _ _ H)
      as [[-> _] | (dbm & d & Hm & I & U & F & _ & _ & -> & _)]; [exact W |].
    destruct (summarized_keeps clock2 (dispatchId d) text) as (Ku & Ki & Kd & _).
    apply wellKeyed_map; trivial.
    destruct Hm as [-> | (today & _ & G & Ed & ->)]; [exact W |].
    apply (wellKeyed_added userId today); trivial; rewrite Ed; trivial.
    apply Fresh.
  - intros r H.
    destruct (linkTask_effect newDispatchId _ _ _ _ _ _ H)
      as [[-> _] | (d & _ & _ & _ & [[_ ->] | [_ ->]])]; exact W.
  - intros r H.
    destruct (unlinkTask_effect newDispatchId _ _ _ _ _ _ H)
      as [[-> _] | (d & _ & _ & _ & ->)]; exact W.
  - intros [result | message] H.
    + destruct (completeDispatch_effect newDispatchId _ _ _ _ _ _ _ H)
        as (d & extra & targets & _ & _ & _ & _ & Ed & Hx & _).
      destruct Hx as [-> | (day & -> & G)].
      * rewrite app_nil_r in Ed. unfold wellKeyed. rewrite Ed. apply Fin.
      * pose proof (wellKeyed_added userId day
                      (mkDispatch (newDispatchId (finalizeIn clock id db)) userId
                         day None false clock2 clock2)
                      (finalizeIn clock id db)
                      (Fin clock id) (Fresh (finalizeIn clock id db))
                      eq_refl eq_refl G) as W'.
        unfold wellKeyed in *. rewrite Ed. exact W'.
    + destruct (completeDispatch_throws newDispatchId _ _ _ _ _ _ _ H)
        as [-> | [-> _]]; [exact W | apply Fin].
Qed.

End KeyTheorems.

Lemma dispatch_keys_stay_unique_witness :
  MoreNotions.wellKeyed
    (fst (Dispatches.completeDispatch MoreNotions.freshId
            "2024-02-28T18:00:00.000Z" "2024-02-28T18:00:01.000Z" "u1" "d1"
            Notions.planDb)).
Proof.
  refine (proj2 (proj2 (proj2 (proj2
            (dispatch_keys_stay_unique Notions.utcHost MoreNotions.freshId []
               "2024-02-28T18:00:00.000Z" "2024-02-28T18:00:01.000Z" "u1" "d1"
               "t2" "" None Notions.planDb _ _ freshId_fresh)))) _ _).
  - split; cbn; (apply NoDup_cons; [intros [] | apply NoDup_nil]).
  - vm_compute. reflexivity.
Defined.

Section SummaryTheorems.

Import Store Dispatches DispatchTools Notions MoreNotions.

Variable host : Host.
Variable newDispatchId : Db -> string.
Variable users : list User.

Lemma find_unique {A : Type} (key : A -> string) (p : A -> bool)
  (rows : list A) (d : A) :
  NoDup (map key rows) -> In d rows -> p d = true ->
  (forall x, p x = true -> key x = key d) ->
  find p rows = Some d.
Proof.
  intros N I P K.
  destruct (find p rows) as [x |] eqn:F.
  - apply find_some in F. destruct F as [Ix Px]. f_equal.
    apply (unique_key key rows); trivial. apply K, Px.
  - pose proof (find_none _ _ F d I). congruence.
Qed.

(** X21: a call of [update-dispatch-summary] that returns has written
    the summary and the time of the update to one dispatch, which
    belongs to the user, is not finalized and has the key that was given,
    or is the dispatch of today when none was given; that row is
    returned and is what a later lookup by its key finds; every other
    dispatch, every link and every task is as before. *)
Theorem summary_is_written_to_one_dispatch
  (clock clock2 userId text : string) (key : option string)
  (db db' : Db) (updated : option Dispatch) :
  NoDup (map dispatchId (dispatches db)) ->
  ~ In (newDispatchId db) (map dispatchId (dispatches db)) ->
  updateDispatchSummary host newDispatchId users clock clock2 userId text key db
  = (db', Returns updated) ->
  exists row,
    updated = Some row
    /\ summary row = Some text /\ dispatchUpdatedAt row = clock2
    /\ dispatchUser row = userId /\ finalized row = false
    /\ (forall id, key = Some id -> id <> "" -> dispatchId row = id)
    /\ (falsy key = true ->
        todayISODate host (getUserTimeZone users userId) = Returns (date row))
    /\ selectDispatch userId (dispatchId row) db' = Some row
    /\ (forall r, In r (dispatches db') -> r = row \/ In r (dispatches db))
    /\ (forall r, In r (dispatches db) -> dispatchId r <> dispatchId row ->
                  In r (dispatches db'))
    /\ dispatchTasks db' = dispatchTasks db /\ tasks db' = tasks db.
Proof.
  intros N Fresh H.
  destruct (updateDispatchSummary_effect _ _ _ _ _ _ _ _ _ _ _ H)
    as [[_ (m & Em)] | (dbm & d & Hm & I & U & F & Hk & Ht & -> & Er)];
    [discriminate Em |].
  injection Er as ->.
  set (f := summarized clock2 (dispatchId d) text) in *.
  destruct (summarized_keeps clock2 (dispatchId d) text) as (Ku & Ki & Kd & Ko).
  fold f in Ku, Ki, Kd, Ko.
  assert (NoDup (map dispatchId (dispatches dbm))) as Nm.
  { destruct Hm as [-> | (today & _ & _ & Ed & ->)]; [exact N |].
    cbn [setDispatches dispatches]. apply NoDup_keys_added; [exact N |].
    rewrite Ed. exact Fresh. }
  assert (f d = mkDispatch (dispatchId d) (dispatchUser d) (date d) (Some text)
                  (finalized d) (dispatchCreatedAt d) clock2) as Fd.
  { subst f. unfold summarized. rewrite String.eqb_refl. reflexivity. }
  exists (f d). cbn [setDispatches dispatches dispatchTasks tasks].
  split.
  { f_equal. rewrite find_map_same by (intros x; rewrite Ki; reflexivity).
    rewrite (find_unique dispatchId _ (dispatches dbm) d Nm I
               (String.eqb_refl _)
               (fun x Hx => proj1 (String.eqb_eq _ _) Hx)).
    reflexivity. }
  rewrite Fd at 1 2 3 4. cbn [summary dispatchUpdatedAt dispatchUser finalized].
  split; [reflexivity |]. split; [reflexivity |]. split; [exact U |].
  split; [exact F |]. rewrite Ki.
  split; [exact Hk |].
  split.
  { intros K. rewrite Kd. apply Ht, K. }
  split.
  { unfold selectDispatch. cbn [setDispatches dispatches].
    rewrite find_map_same by (intros x; rewrite Ki, Ku; reflexivity).
    rewrite (find_unique dispatchId _ (dispatches dbm) d Nm I).
    - reflexivity.
    - rewrite String.eqb_refl, U, String.eqb_refl. reflexivity.
    - intros x Hx. apply andb_true_iff in Hx. destruct Hx as [Hx _].
      apply String.eqb_eq, Hx. }
  assert (forall r, In r (dispatches dbm) -> r = d \/ In r (dispatches db)) as Back.
  { destruct Hm as [-> | (today & _ & _ & _ & ->)]; [tauto |].
    cbn [setDispatches dispatches]. intros r J. apply in_app_or in J.
    destruct J as [J | [<- | []]]; tauto. }
  assert (forall r, In r (dispatches db) -> In r (dispatches dbm)) as Forth.
  { destruct Hm as [-> | (today & _ & _ & _ & ->)]; [tauto |].
    cbn [setDispatches dispatches]. intros r J. apply in_or_app. tauto. }
  split.
  { intros r J. apply in_map_iff in J. destruct J as (x & <- & Ix).
    destruct (String.eqb_spec (dispatchId x) (dispatchId d)) as [E | E].
    - left. f_equal. apply (unique_key dispatchId (dispatches dbm)); trivial.
    - rewrite (Ko x E). destruct (Back x Ix) as [-> | J]; [congruence | tauto]. }
  split.
  { intros r J E. apply in_map_iff. exists r. split; [apply Ko, E | apply Forth, J]. }
  destruct Hm as [-> | (today & _ & _ & _ & ->)]; split; reflexivity.
Qed.

End SummaryTheorems.

Lemma summary_is_written_to_one_dispatch_witness :
  exists row,
    Some (Store.mkDispatch "d1" "u1" "2024-02-28" (Some "All planned.") false
            "2024-02-28T08:00:00.000Z" "2024-02-28T19:00:00.000Z") = Some row
    /\ Store.summary row = Some "All planned."
    /\ Store.dispatchUpdatedAt row = "2024-02-28T19:00:00.000Z"
    /\ Store.dispatchUser row = "u1" /\ Store.finalized row = false
    /\ (forall id, Some "d1" = Some id -> id <> "" -> Store.dispatchId row = id)
    /\ (Store.falsy (Some "d1") = true ->
        DispatchTools.todayISODate Notions.utcHost
          (DispatchTools.getUserTimeZone [] "u1") = Returns (Store.date row))
    /\ Dispatches.selectDispatch "u1" (Store.dispatchId row)
         (Dispatches.setDispatches
            (map (MoreNotions.summarized "2024-02-28T19:00:00.000Z" "d1"
                    "All planned."))
            Notions.planDb) = Some row
    /\ (forall r,
          In r (Store.dispatches
                  (Dispatches.setDispatches
                     (map (MoreNotions.summarized "2024-02-28T19:00:00.000Z" "d1"
                             "All planned."))
                     Notions.planDb)) ->
          r = row \/ In r (Store.dispatches Notions.planDb))
    /\ (forall r, In r (Store.dispatches Notions.planDb) ->
                  Store.dispatchId r <> Store.dispatchId row ->
                  In r (Store.dispatches
                          (Dispatches.setDispatches
                             (map (MoreNotions.summarized
                                     "2024-02-28T19:00:00.000Z" "d1" "All planned."))
                             Notions.planDb)))
    /\ Store.dispatchTasks
         (Dispatches.setDispatches
            (map (MoreNotions.summarized "2024-02-28T19:00:00.000Z" "d1"
                    "All planned."))
            Notions.planDb) = Store.dispatchTasks Notions.planDb
    /\ Store.tasks
         (Dispatches.setDispatches
            (map (MoreNotions.summarized "2024-02-28T19:00:00.000Z" "d1"
                    "All planned."))
            Notions.planDb) = Store.tasks Notions.planDb.
Proof.
  apply (summary_is_written_to_one_dispatch Notions.utcHost MoreNotions.freshId []
           "2024-02-28T18:59:00.000Z" "2024-02-28T19:00:00.000Z" "u1"
           "All planned." (Some "d1") Notions.planDb).
  - cbn. apply NoDup_cons; [intros [] | apply NoDup_nil].
  - apply freshId_fresh.
  - vm_compute. reflexivity.
Defined.

(** ** The task handlers together *)

Section TaskToolFacts.

Import Recurrence Store TaskWrites TaskTools Notions MoreNotions.

Lemma updateWhere_effect (matches : Task -> bool) (change : Task -> Task) (db : Db) :
  updateWhere matches change db
  = (setTasks (map (fun t => if matches t then change t else t)) db,
     Returns (option_map change (find matches (tasks db)))).
Proof. reflexivity. Qed.

Lemma map_unmatched {A : Type} (p : A -> bool) (f : A -> A) (l : list A) :
  find p l = None -> map (fun t => if p t then f t else t) l = l.
Proof.
  intros H. rewrite <- (map_id l) at 2. apply map_ext_in. intros a I.
  rewrite (find_none _ _ H a I). reflexivity.
Qed.

Lemma setTasks_same (f : list Task -> list Task) (db : Db) :
  f (tasks db) = tasks db -> setTasks f db = db.
Proof. intros E. unfold setTasks. rewrite E. apply db_eta. Qed.

Lemma isLive_spec (userId id : string) (t : Task) :
  isLive userId id t = true <->
  taskId t = id /\ taskUser t = userId /\ deletedAt t = None.
Proof.
  unfold isLive. rewrite !andb_true_iff, !String.eqb_eq.
  destruct (deletedAt t); cbn [isNull]; split; intros H; try tauto.
  - destruct H as [_ H]. discriminate H.
  - destruct H as (_ & _ & H). discriminate H.
Qed.

Lemma selectTask_isLive (userId id : string) (db : Db) :
  selectTask userId id db = find (isLive userId id) (tasks db).
Proof. reflexivity. Qed.

(** What [complete-task] does. *)
Lemma completeTask_effect (clock userId id : string) (db : Db) :
  match find (isLive userId id) (tasks db) with
  | Some t =>
      completeTask clock userId id db
      = (setTasks (map (fun x => if isLive userId id x then markDone clock x else x)) db,
         Returns (markDone clock t))
  | None => completeTask clock userId id db = (db, Throws "Task not found.")
  end.
Proof.
  unfold completeTask, bind. rewrite !updateWhere_effect.
  destruct (find (isLive userId id) (tasks db)) as [t |] eqn:F; cbn [option_map].
  - reflexivity.
  - rewrite setTasks_same by (apply map_unmatched, F). reflexivity.
Qed.

(** What [delete-task] does. *)
Lemma deleteTask_effect (clock userId id : string) (db : Db) :
  match find (isLive userId id) (tasks db) with
  | Some t =>
      deleteTask clock userId id db
      = (setTasks (map (fun x => if isLive userId id x
                                 then markDeleted clock clock x else x)) db,
         Returns id)
  | None => deleteTask clock userId id db = (db, Throws "Task not found.")
  end.
Proof.
  unfold deleteTask, bind. rewrite !updateWhere_effect.
  destruct (find (isLive userId id) (tasks db)) as [t |] eqn:F; cbn [option_map].
  - apply find_some in F. destruct F as [_ L]. apply isLive_spec in L.
    destruct L as (E & _). unfold ret. cbn [markDeleted taskId]. rewrite E.
    reflexivity.
  - rewrite setTasks_same by (apply map_unmatched, F). reflexivity.
Qed.

(** What [update(tasks).set(updates).where(id)] does. *)
Lemma updateTask_effect (id : string) (u : TaskUpdates) (db : Db) (existing : Task) :
  NoDup (map taskId (tasks db)) ->
  In existing (tasks db) -> taskId existing = id ->
  updateTask id u db
  = (setTasks (map (fun t => if String.eqb (taskId t) id
                             then applyUpdates u t else t)) db,
     Returns (Some (applyUpdates u existing))).
Proof.
  intros N I E. unfold updateTask, bind, write, read. f_equal. f_equal.
  cbn [setTasks tasks].
  rewrite find_map_same.
  - rewrite (find_unique taskId _ (tasks db) existing N I).
    + cbn [option_map]. rewrite (proj2 (String.eqb_eq _ _) E). reflexivity.
    + apply String.eqb_eq, E.
    + intros x Hx. apply String.eqb_eq in Hx. congruence.
  - intros x. destruct (String.eqb (taskId x) id) eqn:K; [| exact K].
    cbn [applyUpdates taskId]. exact K.
Qed.

(** The tasks after a change of the row with key [id]. *)
Lemma tasks_after_change (id : string) (f : Task -> Task) (db : Db)
  (existing t : Task) :
  NoDup (map taskId (tasks db)) ->
  In existing (tasks db) -> taskId existing = id ->
  In t (map (fun x => if String.eqb (taskId x) id then f x else x) (tasks db)) ->
  t = f existing \/ (In t (tasks db) /\ taskId t <> id).
Proof.
  intros N I E H. apply in_map_iff in H. destruct H as (x & <- & Ix).
  destruct (String.eqb_spec (taskId x) id) as [K | K].
  - left. f_equal. apply (unique_key taskId (tasks db)); trivial. congruence.
  - right. split; assumption.
Qed.

End TaskToolFacts.

Section TaskWriteEffects.

Import Recurrence Store TaskWrites TaskTools Notions MoreNotions.

(** What a call of [update-task] has done: nothing, unless it passes
    all the checks and reaches the update. *)
Lemma updateTaskTool_effect (clock userId : string) (args : UpdateTaskArgs)
  (db db' : Db) (r : Outcome (option Task)) :
  updateTaskTool clock userId args db = (db', r) ->
  (db' = db /\ exists message, r = Throws message)
  \/ exists existing nextRule rule' behavior' updates,
       selectTask userId (uId args) db = Some existing
       /\ ruleAfterArgument (uRecurrenceRule args) (recurrenceRule existing)
          = Some nextRule
       /\ (if isCustom (orKeep (uRecurrenceType args) (recurrenceType existing))
           then falsy nextRule = false /\ rule' = nextRule
           else rule' = if negb (isNull (uRecurrenceType args)) then None
                        else nextRule)
       /\ match orKeep (uRecurrenceType args) (recurrenceType existing),
                orKeep (uRecurrenceBehavior args) (recurrenceBehavior existing) with
          | TNone, _ => behavior' = AfterCompletion
          | _, DuplicateOnSchedule =>
              behavior' = DuplicateOnSchedule
              /\ falsy (match uDueDate args with
                        | Absent => dueDate existing
                        | other => given other
                        end) = false
          | _, AfterCompletion => behavior' = AfterCompletion
          end
       /\ setRecurrenceType updates
          = whenGiven (negb (isNull (uRecurrenceType args)))
              (orKeep (uRecurrenceType args) (recurrenceType existing))
       /\ setRecurrenceBehavior updates
          = whenGiven (negb (isNull (uRecurrenceBehavior args))
                       || negb (isNull (uRecurrenceType args))) behavior'
       /\ setRecurrenceRule updates
          = whenGiven (negb (isAbsent (uRecurrenceRule args))
                       || negb (isNull (uRecurrenceType args))) rule'
       /\ setDueDate updates
          = (if isAbsent (uDueDate args) then None
             else Some (given (uDueDate args)))
       /\ updateTask (uId args) updates db = (db', r).
Proof.
  intros H. unfold updateTaskTool in H.
  unfold bind at 1 in H. unfold read at 1 in H.
  destruct (selectTask userId (uId args) db) as [existing |] eqn:S.
  2:{ unfold throw in H. injection H as <- <-. left.
      split; [reflexivity | eexists; reflexivity]. }
  unfold bind at 1 in H.
  destruct (checkProject userId (uProjectId args) db) as [db1 [[] | e]] eqn:C;
    apply checkProject_reads in C; subst db1.
  2:{ injection H as <- <-. left. split; [reflexivity | eexists; reflexivity]. }
  destruct (ruleAfterArgument (uRecurrenceRule args) (recurrenceRule existing))
    as [nextRule |] eqn:RA.
  2:{ unfold throw in H. injection H as <- <-. left.
      split; [reflexivity | eexists; reflexivity]. }
  set (nextT := orKeep (uRecurrenceType args) (recurrenceType existing)) in *.
  set (nextB := orKeep (uRecurrenceBehavior args) (recurrenceBehavior existing)) in *.
  unfold bind at 1 in H.
  match type of H with
  | context [match ?m db with _ => _ end] =>
      destruct (m db) as [db1 [rule' | e]] eqn:R
  end.
  2:{ injection H as <- <-. left. split; [| eexists; reflexivity].
      revert R. unfold ret, throw.
      repeat match goal with
             | |- context [if ?c then _ else _] => destruct c
             end; intros [= <- _]; reflexivity. }
  assert (db1 = db
          /\ (if isCustom nextT then falsy nextRule = false /\ rule' = nextRule
              else rule' = if negb (isNull (uRecurrenceType args)) then None
                           else nextRule)) as [-> Hr].
  { revert R. unfold ret, throw.
    destruct (isCustom nextT).
    - destruct (falsy nextRule); intros [= <- <-]. auto.
    - destruct (isGiven (uRecurrenceRule args)); intros [= <- <-]. auto. }
  clear R.
  unfold bind at 1 in H.
  match type of H with
  | context [match ?m db with _ => _ end] =>
      destruct (m db) as [db1 [behavior' | e]] eqn:B
  end.
  2:{ injection H as <- <-. left. split; [| eexists; reflexivity].
      revert B. unfold ret, throw.
      destruct nextT, nextB;
        repeat match goal with
               | |- context [if ?c then _ else _] => destruct c
               end; intros [= <- _]; reflexivity. }
  assert (db1 = db
          /\ match nextT, nextB with
             | TNone, _ => behavior' = AfterCompletion
             | _, DuplicateOnSchedule =>
                 behavior' = DuplicateOnSchedule
                 /\ falsy (match uDueDate args with
                           | Absent => dueDate existing
                           | other => given other
                           end) = false
             | _, AfterCompletion => behavior' = AfterCompletion
             end) as [-> Hb].
  { revert B. unfold ret, throw.
    destruct nextT, nextB;
      repeat match goal with
             | |- context [if ?c then _ else _] => destruct c eqn:?
             end; intros [= <- <-]; auto. }
  clear B.
  right. exists existing, nextRule, rule', behavior'. eexists.
  split; [reflexivity |]. split; [exact RA |]. split; [exact Hr |].
  split; [exact Hb |].
  split; [| split; [| split; [| split; [| exact H]]]]; reflexivity.
Qed.

(** The checks of the body answer with errors only. *)
Lemma validateBody_error (body : Js.Value) (e : Response) :
  validateBody body = Some e -> forall t, Returns e <> Returns (JsonResponse t).
Proof.
  unfold validateBody. cbv zeta.
  repeat match goal with
         | |- (if ?c then _ else _) = _ -> _ =>
             destruct c; [intros [= <-] t; discriminate |]
         end.
  discriminate.
Qed.

(** What a call of [PUT] has done: nothing, unless it answers with a
    task. *)
Lemma PUT_effect (clock userId id bodyText : string) (db db' : Db)
  (r : Outcome Response) :
  PUT clock userId id bodyText db = (db', r) ->
  (db' = db /\ forall t, r <> Returns (JsonResponse t))
  \/ exists body existing nextRule rule' updates updated,
       Json.parse bodyText = Some body
       /\ selectTask userId id db = Some existing
       /\ ruleAfterArgument
            (if hasOwn body "recurrenceRule"
             then fieldOfValue (Js.get body "recurrenceRule") else Absent)
            (recurrenceRule existing) = Some nextRule
       /\ (let nextT :=
             if hasOwn body "recurrenceType"
             then orKeep (recurrenceTypeOfValue (Js.get body "recurrenceType"))
                    (recurrenceType existing)
             else recurrenceType existing in
           (if isCustom nextT then falsy nextRule = false /\ rule' = nextRule
            else rule' = if hasOwn body "recurrenceType" then None else nextRule)
           /\ setRecurrenceType updates
              = whenGiven (hasOwn body "recurrenceType") nextT)
       /\ setRecurrenceBehavior updates = None
       /\ setRecurrenceRule updates
          = whenGiven (hasOwn body "recurrenceRule" || hasOwn body "recurrenceType")
              rule'
       /\ updateTask id updates db = (db', Returns updated)
       /\ r = Returns (JsonResponse updated).
Proof.
  intros H. unfold PUT in H.
  destruct (Json.parse bodyText) as [body |] eqn:P.
  2:{ injection H as <- <-. left. split; [reflexivity | intros ?; discriminate]. }
  eassert (Main : _).
  2:{ set (shape := body) in H at 1.
      assert (shape = body) as B by reflexivity. clearbody shape.
      destruct shape; cbv iota in H;
        [| injection H as <- <-; left; split; [reflexivity | intros ?; discriminate] | ..];
        clear B; revert H; exact Main. }
  clear H. intros H.
  destruct (validateBody body) as [error |] eqn:V.
  { injection H as <- <-. left. split; [reflexivity |].
    exact (validateBody_error _ _ V). }
  unfold bind at 1 in H.
  match type of H with
  | context [match ?m db with _ => _ end] =>
      destruct (m db) as [db1 [project | e]] eqn:R
  end.
  2:{ exfalso. revert R. destruct (Js.get body "projectId"); discriminate. }
  assert (db1 = db) as ->.
  { revert R. destruct (Js.get body "projectId"); intros [= <- _]; reflexivity. }
  clear R.
  destruct project as [resolvedProjectId |].
  2:{ injection H as <- <-. left. split; [reflexivity | intros ?; discriminate]. }
  unfold bind at 1 in H. unfold read at 1 in H.
  destruct (selectTask userId id db) as [existing |] eqn:S.
  2:{ injection H as <- <-. left. split; [reflexivity | intros ?; discriminate]. }
  destruct (ruleAfterArgument _ (recurrenceRule existing)) as [nextRule |] eqn:RA.
  2:{ injection H as <- <-. left. split; [reflexivity | intros ?; discriminate]. }
  set (nextT := if hasOwn body "recurrenceType"
                then orKeep (recurrenceTypeOfValue (Js.get body "recurrenceType"))
                       (recurrenceType existing)
                else recurrenceType existing) in *.
  destruct (isCustom nextT && falsy nextRule) eqn:C1.
  { injection H as <- <-. left. split; [reflexivity | intros ?; discriminate]. }
  destruct (negb (isCustom nextT) && hasOwn body "recurrenceRule"
            && isGiven (fieldOfValue (Js.get body "recurrenceRule"))) eqn:C2.
  { injection H as <- <-. left. split; [reflexivity | intros ?; discriminate]. }
  unfold bind at 1 in H.
  match type of H with
  | context [match ?m db with _ => _ end] =>
      destruct (m db) as [db1 [updated | e]] eqn:U
  end.
  2:{ discriminate U. }
  injection H as <- <-. right.
  exists body, existing, nextRule. eexists. eexists. exists updated.
  split; [reflexivity |]. split; [reflexivity |]. split; [exact RA |].
  split; [| split; [| split; [| split; [exact U | reflexivity]]]];
    try reflexivity.
  cbv zeta. fold nextT. split; [| reflexivity].
  destruct (isCustom nextT); cbn [negb andb] in *.
  - split; [exact C1 | reflexivity].
  - reflexivity.
Qed.

End TaskWriteEffects.

(** ** Soft deletion *)

Section DeletionFacts.

Import Recurrence Store TaskWrites TaskTools Dispatches Notions MoreNotions.

(** No live task with the key is found when the tasks with the key are
    all deleted. *)
Lemma gone_not_live (userId id : string) (db : Db) :
  gone id db -> find (isLive userId id) (tasks db) = None.
Proof.
  intros G. destruct (find _ (tasks db)) as [t |] eqn:F; [| reflexivity].
  apply find_some in F. destruct F as [I L].
  apply isLive_spec in L. destruct L as (K & _ & D).
  destruct (G t I K D).
Qed.

(** The rows with the key after [delete-task] has returned. *)
Lemma deleteTask_rows (clock userId id : string) (db db' : Db) (k : string) :
  NoDup (map taskId (tasks db)) ->
  deleteTask clock userId id db = (db', Returns k) ->
  k = id
  /\ exists t, In t (tasks db) /\ isLive userId id t = true
     /\ db' = setTasks (map (fun x => if isLive userId id x
                                      then markDeleted clock clock x else x)) db
     /\ forall x, In x (tasks db') -> taskId x = id ->
                  x = markDeleted clock clock t.
Proof.
  intros N H. pose proof (deleteTask_effect clock userId id db) as E.
  destruct (find (isLive userId id) (tasks db)) as [t |] eqn:F.
  2:{ rewrite E in H. discriminate H. }
  rewrite E in H. injection H as <- <-. split; [reflexivity |].
  apply find_some in F. destruct F as [I L].
  exists t. split; [exact I |]. split; [exact L |]. split; [reflexivity |].
  intros x Ix Kx. cbn [setTasks tasks] in Ix.
  apply in_map_iff in Ix. destruct Ix as (y & <- & Iy).
  assert (taskId y = id) as Ky.
  { destruct (isLive userId id y); [exact Kx | exact Kx]. }
  assert (y = t) as ->.
  { apply (unique_key taskId (tasks db)); trivial.
    apply isLive_spec in L. destruct L as (-> & _). exact Ky. }
  rewrite L. reflexivity.
Qed.

End DeletionFacts.

Section DeletionTheorems.

Import Recurrence Store TaskWrites TaskTools Dispatches Notions MoreNotions.

(** X22: once [delete-task] has returned for a task, in a store whose
    task keys are unique, the task is not found any more, by any user:
    [GET] answers 404, [complete-task], [delete-task] and [update-task]
    throw "Task not found.", [PUT] answers with no task, a second
    [DELETE] answers 404 when the clock reading that was stored is not
    empty, linking the task throws, and no dispatch counts the task among
    its unfinished ones.  None of these calls changes the store. *)
Theorem deleted_task_is_not_found (clock userId id : string) (db db' : Db)
  (k : string) :
  NoDup (map taskId (tasks db)) ->
  deleteTask clock userId id db = (db', Returns k) ->
  k = id
  /\ gone id db'
  /\ forall u,
       GET u id db' = (db', Returns (ErrorResponse "Task not found" 404))
       /\ (forall c, completeTask c u id db' = (db', Throws "Task not found."))
       /\ (forall c, deleteTask c u id db' = (db', Throws "Task not found."))
       /\ (forall c args, uId args = id ->
             updateTaskTool c u args db' = (db', Throws "Task not found."))
       /\ (forall c body,
             fst (PUT c u id body db') = db'
             /\ forall t, snd (PUT c u id body db') <> Returns (JsonResponse t))
       /\ (clock <> "" ->
           forall c1 c2,
             DELETE c1 c2 u id db'
             = (db', Returns (DeleteError "Task not found" 404)))
       /\ (forall d, exists message,
             linkTaskToDispatch u d id db' = (db', Throws message))
       /\ (forall d, ~ In id (pending d db')).
Proof.
  intros N H. destruct (deleteTask_rows _ _ _ _ _ _ N H) as (-> & t & I & L & E & R).
  split; [reflexivity |].
  assert (gone id db') as G.
  { intros x Ix Kx. rewrite (R x Ix Kx). discriminate. }
  split; [exact G |]. intros u.
  pose proof (gone_not_live u id db' G) as F.
  split; [unfold GET, bind, read; rewrite F; reflexivity |].
  split.
  { intros c. pose proof (completeTask_effect c u id db') as C.
    rewrite F in C. exact C. }
  split.
  { intros c. pose proof (deleteTask_effect c u id db') as C.
    rewrite F in C. exact C. }
  split.
  { intros c args <-. unfold updateTaskTool. unfold bind at 1. unfold read at 1.
    rewrite selectTask_isLive, F. reflexivity. }
  split.
  { intros c body. destruct (PUT c u id body db') as [db2 r] eqn:P.
    apply PUT_effect in P. cbn [fst snd].
    destruct P as [[-> P] | (b & existing & ? & ? & ? & ? & _ & S & _)].
    - split; [reflexivity | exact P].
    - rewrite selectTask_isLive, F in S. discriminate S. }
  split.
  { intros Nc c1 c2. unfold DELETE. unfold bind at 1. unfold read at 1.
    match goal with
    | |- context [match find ?p (tasks db') with _ => _ end] =>
        destruct (find p (tasks db')) as [e |] eqn:Fe; [| reflexivity]
    end.
    apply find_some in Fe. destruct Fe as [Ie Ce].
    apply andb_true_iff in Ce. destruct Ce as [Ce _]. apply String.eqb_eq in Ce.
    rewrite (R e Ie Ce). cbn [markDeleted deletedAt falsy].
    destruct (String.eqb_spec clock ""); [contradiction | reflexivity]. }
  split.
  { intros d. unfold linkTaskToDispatch. unfold bind at 1. unfold read at 1.
    destruct (selectDispatch u d db') as [row |]; [| eexists; reflexivity].
    destruct (finalized row); [eexists; reflexivity |].
    unfold bind at 1. unfold read at 1.
    change (find _ (tasks db')) with (find (isLive u id) (tasks db')).
    rewrite F. eexists. reflexivity. }
  intros d P. apply pending_spec in P.
  destruct P as (_ & task & It & Kt & Dt & _). exact (G task It Kt Dt).
Qed.

End DeletionTheorems.

Lemma deleted_task_is_not_found_witness :
  TaskTools.GET "u1" "t2"
    (fst (TaskTools.deleteTask "2024-03-01T09:00:00.000Z" "u1" "t2"
            Notions.planDb))
  = (fst (TaskTools.deleteTask "2024-03-01T09:00:00.000Z" "u1" "t2"
            Notions.planDb),
     Returns (TaskWrites.ErrorResponse "Task not found" 404)).
Proof.
  refine (proj1 (proj2 (proj2
            (deleted_task_is_not_found "2024-03-01T09:00:00.000Z" "u1" "t2"
               Notions.planDb _ "t2" _ _)) "u1")).
  - cbn. repeat (apply NoDup_cons; [cbn; intuition discriminate |]).
    apply NoDup_nil.
  - vm_compute. reflexivity.
Defined.

(** ** Calls that fail *)

Section CreateEffect.

Import Recurrence Store TaskWrites TaskTools Dispatches Notions MoreNotions.

Variable newTaskId : Db -> string.

Lemma parsed_rule_bounds (v : Js.Value) (r : TaskCustomRecurrenceRule) :
  parseTaskCustomRecurrenceRule v = Some r -> 1 <= interval r <= 365.
Proof. apply parseRuleFuel_bounds. Qed.

Lemma serialized_rule_truthy (r : TaskCustomRecurrenceRule) :
  falsy (Some (serializeTaskCustomRecurrenceRule r)) = false.
Proof. reflexivity. Qed.

(** What a call of [create-task] has done: nothing, unless it returns
    the task that it has added. *)
Lemma createTask_effect (clock userId : string) (args : CreateTaskArgs)
  (db db' : Db) (r : Outcome Task) :
  createTask newTaskId clock userId args db = (db', r) ->
  (db' = db /\ exists message, r = Throws message)
  \/ exists t,
       r = Returns t
       /\ db' = setTasks (fun rows => (rows ++ [t])%list) db
       /\ taskId t = newTaskId db /\ taskUser t = userId
       /\ deletedAt t = None
       /\ title t = Str.trim (cTitle args)
       /\ ruleInOrder t /\ anchored t.
Proof.
  intros H. unfold createTask in H.
  unfold bind at 1 in H.
  destruct (checkProject userId (cProjectId args) db) as [db1 [[] | e]] eqn:C;
    apply checkProject_reads in C; subst db1.
  2:{ injection H as <- <-. left. split; [reflexivity | eexists; reflexivity]. }
  cbv zeta in H.
  set (ty := orKeep (cRecurrenceType args) TNone) in *.
  set (behavior := match ty with
                   | TNone => AfterCompletion
                   | _ => orKeep (cRecurrenceBehavior args) AfterCompletion
                   end) in *.
  unfold bind at 1 in H.
  match type of H with
  | context [match ?m db with _ => _ end] =>
      destruct (m db) as [db1 [rule | e]] eqn:R
  end.
  2:{ injection H as <- <-. left. split; [| eexists; reflexivity].
      revert R. unfold ret, throw.
      destruct ty; try (destruct (cRecurrenceRule args); intros [= <- _]; reflexivity).
      destruct (parseTaskCustomRecurrenceRule _); intros [= <- _]; reflexivity. }
  assert (db1 = db
          /\ (rule = None
              \/ exists p, 1 <= interval p <= 365
                           /\ rule = Some (serializeTaskCustomRecurrenceRule p))
          /\ (ty = TCustom -> rule <> None)) as (-> & Shape & Custom).
  { revert R. unfold ret, throw.
    destruct ty;
      try (destruct (cRecurrenceRule args); intros [= <- <-];
           repeat split; auto; discriminate).
    destruct (parseTaskCustomRecurrenceRule _) as [p |] eqn:P; intros [= <- <-].
    split; [reflexivity |]. split; [| discriminate].
    right. exists p. split; [apply (parsed_rule_bounds _ _ P) | reflexivity]. }
  clear R.
  match type of H with
  | (if ?c then _ else _) db = _ => destruct c eqn:Need
  end.
  { injection H as <- <-. left. split; [reflexivity | eexists; reflexivity]. }
  unfold bind, read, write, ret in H. injection H as <- <-.
  right. eexists. split; [reflexivity |]. split; [reflexivity |].
  cbn [taskId taskUser deletedAt title].
  repeat (split; [reflexivity |]).
  split.
  - split; cbn [recurrenceRule recurrenceType]; assumption.
  - intros T B. cbn [recurrenceType recurrenceBehavior dueDate] in *.
    fold behavior in B. rewrite B in Need.
    destruct ty; [contradiction | | | |];
      (destruct (cDueDate args) as [d |]; [| discriminate Need];
       cbn [falsy];
       destruct (String.eqb d ""); [discriminate Need | reflexivity]).
Qed.

End CreateEffect.

Section FailureTheorems.

Import Recurrence Store TaskWrites TaskTools Dispatches DispatchTools Notions
  MoreNotions.

Variable host : Host.
Variable newDispatchId : Db -> string.
Variable users : list User.
Variable newTaskId : Db -> string.

(** A handler with an effect lemma [E]: the case that it has returned is
    closed, the other case is left with what [E] says. *)
Ltac by_effect m E :=
  let db := fresh "db" in
  let db1 := fresh "db" in
  let r := fresh "r" in
  let H := fresh "H" in
  intros db; destruct (m db) as [db1 r] eqn:H; cbn [fst snd];
  apply E in H;
  destruct r as [a | e]; [right; exists a; reflexivity | left].

(** X23: a call of a tool that throws has changed nothing in the store.
    This holds for [create-task], [update-task], [complete-task],
    [delete-task], [get-today-dispatch], [update-dispatch-summary],
    [link-task-to-dispatch] and [unlink-task-from-dispatch].  Of the REST
    handlers, [PUT] changes nothing unless it answers with a task,
    [DELETE] changes nothing unless it answers that the task is deleted,
    and [GET] never changes anything.  [complete-dispatch] is the one
    exception: when it throws, either nothing is changed, or the
    dispatch is finalized and it is the next date that could not be
    computed. *)
Theorem failed_calls_change_nothing :
  (forall c u args, failsCleanly (createTask newTaskId c u args))
  /\ (forall c u args, failsCleanly (updateTaskTool c u args))
  /\ (forall c u id, failsCleanly (completeTask c u id))
  /\ (forall c u id, failsCleanly (deleteTask c u id))
  /\ (forall c u, failsCleanly (getTodayDispatch host newDispatchId users c u))
  /\ (forall c c' u text key,
        failsCleanly
          (updateDispatchSummary host newDispatchId users c c' u text key))
  /\ (forall u d t, failsCleanly (linkTaskToDispatch u d t))
  /\ (forall u d t, failsCleanly (unlinkTaskFromDispatch u d t))
  /\ (forall c u id body db,
        fst (PUT c u id body db) = db
        \/ exists t, snd (PUT c u id body db) = Returns (JsonResponse t))
  /\ (forall c c' u id db,
        fst (DELETE c c' u id db) = db
        \/ snd (DELETE c c' u id db) = Returns Deleted)
  /\ (forall u id db, fst (GET u id db) = db)
  /\ (forall c c' u id db,
        (exists done, snd (completeDispatch newDispatchId c c' u id db)
                      = Returns done)
        \/ fst (completeDispatch newDispatchId c c' u id db) = db
        \/ (fst (completeDispatch newDispatchId c c' u id db)
            = finalizeIn c id db
            /\ exists d message,
                 selectDispatch u id db = Some d
                 /\ nextDate (date d) = Throws message
                 /\ snd (completeDispatch newDispatchId c c' u id db)
                    = Throws message)).
Proof.
  split.
  { intros c u args. by_effect (createTask newTaskId c u args) createTask_effect.
    destruct H as [[-> _] | (t & [=] & _)]. reflexivity. }
  split.
  { intros c u args. by_effect (updateTaskTool c u args) updateTaskTool_effect.
    destruct H as [[-> _] | (? & ? & ? & ? & ? & _ & _ & _ & _ & _ & _ & _ & _ & U)];
      [reflexivity |].
    unfold updateTask, bind, write, read in U. discriminate U. }
  split.
  { intros c u id db. pose proof (completeTask_effect c u id db) as E.
    destruct (find _ (tasks db)); rewrite E; cbn [fst snd];
      [right; eexists; reflexivity | left; reflexivity]. }
  split.
  { intros c u id db. pose proof (deleteTask_effect c u id db) as E.
    destruct (find _ (tasks db)); rewrite E; cbn [fst snd];
      [right; eexists; reflexivity | left; reflexivity]. }
  split.
  { intros c u.
    by_effect (getTodayDispatch host newDispatchId users c u)
              (getTodayDispatch_effect host newDispatchId users).
    destruct H as [[-> _] | (? & _ & _ & [=] & _)]. reflexivity. }
  split.
  { intros c c' u text key.
    by_effect (updateDispatchSummary host newDispatchId users c c' u text key)
              (updateDispatchSummary_effect host newDispatchId users).
    destruct H as [[-> _] | (? & ? & _ & _ & _ & _ & _ & _ & _ & [=])].
    reflexivity. }
  split.
  { intros u d t. by_effect (linkTaskToDispatch u d t) (linkTask_effect newDispatchId).
    destruct H as [[-> _] | (? & _ & _ & [=] & _)]. reflexivity. }
  split.
  { intros u d t.
    by_effect (unlinkTaskFromDispatch u d t) (unlinkTask_effect newDispatchId).
    destruct H as [[-> _] | (? & _ & _ & [=] & _)]. reflexivity. }
  split.
  { intros c u id body db. destruct (PUT c u id body db) as [db1 r] eqn:H.
    cbn [fst snd]. apply PUT_effect in H.
    destruct H as [[-> _] | (? & ? & ? & ? & ? & updated & _ & _ & _ & _ & _ & _ & _ & ->)].
    - left. reflexivity.
    - right. exists updated. reflexivity. }
  split.
  { intros c c' u id db. destruct (DELETE c c' u id db) as [db1 r] eqn:H.
    cbn [fst snd]. revert H. unfold DELETE. unfold bind at 1. unfold read at 1.
    destruct (find _ (tasks db)) as [e |];
      [| intros [= <- _]; left; reflexivity].
    destruct (negb (falsy (deletedAt e)));
      [intros [= <- _]; left; reflexivity |].
    unfold bind, write, ret. intros [= _ <-]. right. reflexivity. }
  split.
  { intros u id db. unfold GET, bind, read.
    destruct (find _ (tasks db)); reflexivity. }
  intros c c' u id db.
  destruct (completeDispatch newDispatchId c c' u id db) as [db1 [done | message]] eqn:H;
    cbn [fst snd].
  - left. exists done. reflexivity.
  - right. apply (completeDispatch_throws newDispatchId) in H.
    destruct H as [-> | [-> (d & S & T)]]; [left; reflexivity | right].
    split; [reflexivity |]. exists d, message. auto.
Qed.

End FailureTheorems.

(** ** The recurrence of the tasks that are written *)

Section WrittenRuleFacts.

Import Recurrence Store TaskWrites TaskTools Dispatches Preview Notions
  MoreNotions.


(** The rule after the argument is of the stored form when the stored
    rule is. *)
Lemma ruleAfterArgument_shape (arg : Field Js.Value) (stored next : option string) :
  ruleAfterArgument arg stored = Some next ->
  (stored = None
   \/ exists r, 1 <= interval r <= 365
                /\ stored = Some (serializeTaskCustomRecurrenceRule r)) ->
  next = None
  \/ exists r, 1 <= interval r <= 365
               /\ next = Some (serializeTaskCustomRecurrenceRule r).
Proof.
  unfold ruleAfterArgument. destruct arg as [| | v].
  - intros [= <-] S. exact S.
  - intros [= <-] _. left. reflexivity.
  - destruct (parseTaskCustomRecurrenceRule v) as [p |] eqn:P; [| discriminate].
    intros [= <-] _. right. exists p.
    split; [apply (parsed_rule_bounds _ _ P) | reflexivity].
Qed.

(** The two handlers that update a task decide on the rule in the same
    way; [hasType] and [hasRule] tell whether the arguments name a type
    and a rule. *)
Lemma updated_rule_in_order (existing : Task) (updates : TaskUpdates)
  (arg : Field Js.Value) (hasType hasRule : bool) (nextT : TaskRecurrenceType)
  (nextRule rule' : option string) :
  ruleInOrder existing ->
  ruleAfterArgument arg (recurrenceRule existing) = Some nextRule ->
  (hasRule = false -> arg = Absent) ->
  (hasType = false -> nextT = recurrenceType existing) ->
  (if isCustom nextT then falsy nextRule = false /\ rule' = nextRule
   else rule' = if hasType then None else nextRule) ->
  setRecurrenceType updates = whenGiven hasType nextT ->
  setRecurrenceRule updates = whenGiven (hasRule || hasType) rule' ->
  ruleInOrder (applyUpdates updates existing).
Proof.
  intros [Shape Custom] RA Hr Ht C ST SR.
  pose proof (ruleAfterArgument_shape _ _ _ RA Shape) as NextShape.
  assert (recurrenceType (applyUpdates updates existing) = nextT) as ET.
  { cbn [applyUpdates recurrenceType]. rewrite ST.
    destruct hasType; [reflexivity |]. cbn [whenGiven orKeep].
    symmetry. apply Ht. reflexivity. }
  assert (recurrenceRule (applyUpdates updates existing)
          = if hasRule || hasType then rule' else recurrenceRule existing) as ER.
  { cbn [applyUpdates recurrenceRule]. rewrite SR.
    destruct (hasRule || hasType); reflexivity. }
  unfold ruleInOrder. rewrite ET, ER. split.
  - destruct (hasRule || hasType); [| exact Shape].
    destruct (isCustom nextT).
    + destruct C as [_ ->]. exact NextShape.
    + subst rule'. destruct hasType; [left; reflexivity | exact NextShape].
  - intros ->. cbn [isCustom] in C. destruct C as [F ->].
    assert (nextRule <> None) as NN by (intros ->; discriminate F).
    destruct hasRule; [exact NN |]. cbn [orb].
    destruct hasType; [exact NN |].
    rewrite (Hr eq_refl) in RA. cbn [ruleAfterArgument] in RA.
    injection RA as <-. exact NN.
Qed.

(** The rows after an update by key. *)
Lemma updateTask_rows (id : string) (u : TaskUpdates) (db db' : Db)
  (existing : Task) (r : Outcome (option Task)) :
  NoDup (map taskId (tasks db)) ->
  In existing (tasks db) -> taskId existing = id ->
  updateTask id u db = (db', r) ->
  r = Returns (Some (applyUpdates u existing))
  /\ dispatches db' = dispatches db
  /\ dispatchTasks db' = dispatchTasks db
  /\ map taskId (tasks db') = map taskId (tasks db)
  /\ In (applyUpdates u existing) (tasks db')
  /\ forall t, In t (tasks db') ->
               t = applyUpdates u existing \/ (In t (tasks db) /\ taskId t <> id).
Proof.
  intros N I K H. rewrite (updateTask_effect id u db existing N I K) in H.
  injection H as <- <-. cbn [setTasks dispatches dispatchTasks tasks].
  split; [reflexivity |]. split; [reflexivity |]. split; [reflexivity |].
  split; [| split].
  - rewrite map_map. apply map_ext. intros t.
    destruct (String.eqb_spec (taskId t) id) as [E | _]; [| reflexivity].
    cbn [applyUpdates taskId]. reflexivity.
  - apply in_map_iff. exists existing. split; [| exact I].
    rewrite K, String.eqb_refl. reflexivity.
  - intros t. apply (tasks_after_change id (applyUpdates u) db existing t N I K).
Qed.

Lemma selectTask_live (userId id : string) (db : Db) (t : Task) :
  selectTask userId id db = Some t ->
  In t (tasks db) /\ taskId t = id /\ taskUser t = userId /\ deletedAt t = None.
Proof.
  rewrite selectTask_isLive. intros F. apply find_some in F.
  destruct F as [I L]. apply isLive_spec in L. tauto.
Qed.

End WrittenRuleFacts.

Section CreateTheorems.

Import Recurrence Store TaskWrites TaskTools Dispatches Preview Notions
  MoreNotions.

Variable newTaskId : Db -> string.

Lemma find_after_rows {A : Type} (p : A -> bool) (rows : list A) (x : A) :
  (forall y, In y rows -> p y = false) ->
  find p (rows ++ [x]) = if p x then Some x else None.
Proof.
  induction rows as [| y rows IH]; intros H; [reflexivity |].
  cbn [app find]. rewrite (H y (or_introl eq_refl)).
  apply IH. intros z Iz. apply H. right. exact Iz.
Qed.

(** X24: when [create-task] returns, with a key for the new row that no
    task has, the store has one row more, the returned task, and nothing
    else is changed; the keys of the tasks stay unique; [GET] with the
    key of the task answers with that task for its user and with 404 for
    every other user; the stored rule of the task is null or a rule with
    an interval of 1 to 365, a custom recurrence has a rule, and a
    recurring task that is duplicated on schedule has a due date. *)
Theorem created_task_is_found (clock userId : string) (args : CreateTaskArgs)
  (db db' : Db) (t : Task) :
  ~ In (newTaskId db) (map taskId (tasks db)) ->
  createTask newTaskId clock userId args db = (db', Returns t) ->
  tasks db' = (tasks db ++ [t])%list
  /\ dispatches db' = dispatches db
  /\ dispatchTasks db' = dispatchTasks db
  /\ projects db' = projects db
  /\ (NoDup (map taskId (tasks db)) -> NoDup (map taskId (tasks db')))
  /\ GET userId (taskId t) db' = (db', Returns (JsonResponse (Some t)))
  /\ (forall u, u <> userId ->
        GET u (taskId t) db'
        = (db', Returns (ErrorResponse "Task not found" 404)))
  /\ ruleInOrder t /\ anchored t.
Proof.
  intros Fresh H. apply createTask_effect in H.
  destruct H as [[_ [m [=]]] | (t' & [= <-] & -> & K & U & D & _ & RO & An)].
  cbn [setTasks tasks dispatches dispatchTasks projects].
  repeat (split; [reflexivity |]).
  assert (forall u y, In y (tasks db) -> isLive u (taskId t) y = false) as Other.
  { intros u y Iy. unfold isLive.
    destruct (String.eqb_spec (taskId y) (taskId t)) as [E | _]; [| reflexivity].
    exfalso. apply Fresh. rewrite <- K, <- E. apply in_map. exact Iy. }
  split.
  { intros N. rewrite map_app. cbn [map].
    apply NoDup_app; trivial.
    - constructor; [intros [] | constructor].
    - intros x Ix [<- | []]. apply Fresh. rewrite <- K. exact Ix. }
  split.
  { unfold GET, bind, read. cbn [setTasks tasks].
    rewrite (find_after_rows _ _ _ (Other userId)).
    replace (isLive userId (taskId t) t) with true; [reflexivity |].
    symmetry. apply isLive_spec. auto. }
  split; [| auto].
  intros u Nu. unfold GET, bind, read. cbn [setTasks tasks].
  rewrite (find_after_rows _ _ _ (Other u)).
  replace (isLive u (taskId t) t) with false; [reflexivity |].
  symmetry. destruct (isLive u (taskId t) t) eqn:L; [| reflexivity].
  apply isLive_spec in L. destruct L as (_ & Eu & _). congruence.
Qed.

End CreateTheorems.

Lemma created_task_is_found_witness :
  TaskTools.GET "u1" "t4"
    (fst (TaskWrites.createTask (fun _ => "t4") "2024-03-01T09:00:00.000Z" "u1"
            MoreNotions.wateringArgs Notions.planDb))
  = (fst (TaskWrites.createTask (fun _ => "t4") "2024-03-01T09:00:00.000Z" "u1"
            MoreNotions.wateringArgs Notions.planDb),
     Returns (TaskWrites.JsonResponse (Some MoreNotions.wateringTask))).
Proof.
  refine (proj1 (proj2 (proj2 (proj2 (proj2 (proj2
            (created_task_is_found (fun _ => "t4") "2024-03-01T09:00:00.000Z"
               "u1" MoreNotions.wateringArgs Notions.planDb _
               MoreNotions.wateringTask _ _))))))).
  - cbn. intuition discriminate.
  - vm_compute. reflexivity.
Defined.

Section UpdateTheorems.

Import Recurrence Store TaskWrites TaskTools Dispatches Preview Notions
  MoreNotions.

(** X25: [update-task] keeps the recurrence of the tasks in order.  In a
    store whose task keys are unique and in which every task has a stored
    rule that is null or a rule with an interval of 1 to 365, a rule when
    its recurrence is custom, and a due date when it recurs and is
    duplicated on schedule, the same holds after the call, whatever the
    arguments and whether the call returns or throws.  The keys of the
    tasks are not changed, and when the call returns, it returns the row
    that is now stored under the key, a task of the user. *)
Theorem update_task_keeps_recurrence_in_order (clock userId : string)
  (args : UpdateTaskArgs) (db db' : Db) (r : Outcome (option Task)) :
  NoDup (map taskId (tasks db)) ->
  (forall t, In t (tasks db) -> ruleInOrder t /\ anchored t) ->
  updateTaskTool clock userId args db = (db', r) ->
  (forall t, In t (tasks db') -> ruleInOrder t /\ anchored t)
  /\ map taskId (tasks db') = map taskId (tasks db)
  /\ forall x, r = Returns x ->
       exists t, x = Some t /\ In t (tasks db') /\ taskId t = uId args
                 /\ taskUser t = userId.
Proof.
  intros N Inv H. apply updateTaskTool_effect in H.
  destruct H as [[-> [m ->]] |
                 (existing & nextRule & rule' & behavior' & updates
                  & S & RA & C & B & ST & SB & SR & SD & U)].
  { split; [exact Inv |]. split; [reflexivity |]. discriminate. }
  destruct (selectTask_live _ _ _ _ S) as (I & K & Us & _).
  destruct (updateTask_rows _ _ _ _ _ _ N I K U) as (-> & _ & _ & Keys & In' & Rows).
  destruct (Inv existing I) as [RO An].
  split; [| split; [exact Keys |]].
  2:{ intros x [= <-]. eexists. split; [reflexivity |]. split; [exact In' |].
      cbn [applyUpdates taskId taskUser]. auto. }
  intros t It. destruct (Rows t It) as [-> | [It' _]]; [| apply (Inv t It')].
  split.
  - apply (updated_rule_in_order existing updates (uRecurrenceRule args)
             (negb (isNull (uRecurrenceType args)))
             (negb (isAbsent (uRecurrenceRule args)))
             (orKeep (uRecurrenceType args) (recurrenceType existing))
             nextRule rule'); trivial.
    + destruct (uRecurrenceRule args); trivial; discriminate.
    + destruct (uRecurrenceType args); [discriminate | reflexivity].
  - unfold anchored. cbn [applyUpdates recurrenceType recurrenceBehavior dueDate].
    rewrite ST, SB, SD.
    assert (orKeep (whenGiven (negb (isNull (uRecurrenceType args)))
                      (orKeep (uRecurrenceType args) (recurrenceType existing)))
              (recurrenceType existing)
            = orKeep (uRecurrenceType args) (recurrenceType existing)) as ->
      by (destruct (uRecurrenceType args); reflexivity).
    assert (orKeep (if isAbsent (uDueDate args) then None
                    else Some (given (uDueDate args))) (dueDate existing)
            = match uDueDate args with
              | Absent => dueDate existing
              | other => given other
              end) as ->
      by (destruct (uDueDate args); reflexivity).
    intros T.
    destruct (orKeep (uRecurrenceType args) (recurrenceType existing)) eqn:ET;
      [contradiction | | | |];
      (destruct (orKeep (uRecurrenceBehavior args) (recurrenceBehavior existing))
         eqn:EB;
       [subst behavior';
        destruct (uRecurrenceBehavior args) as [b |];
        [cbn [orKeep] in EB; subst b; cbn; discriminate |];
        cbn [orKeep] in EB; rewrite EB;
        destruct (uRecurrenceType args); cbn; discriminate
       | destruct B as [_ F]; intros _; exact F]).
Qed.

(** X26: [PUT] keeps the stored rules in order.  In a store whose task
    keys are unique and in which every task has a stored rule that is
    null or a rule with an interval of 1 to 365, and a rule when its
    recurrence is custom, the same holds after the call, whatever the
    body and the answer.  The keys of the tasks are not changed, and an
    answer with a task is an answer with the row that is now stored under
    the key. *)
Theorem rest_update_keeps_rule_in_order (clock userId id bodyText : string)
  (db db' : Db) (r : Outcome Response) :
  NoDup (map taskId (tasks db)) ->
  (forall t, In t (tasks db) -> ruleInOrder t) ->
  PUT clock userId id bodyText db = (db', r) ->
  (forall t, In t (tasks db') -> ruleInOrder t)
  /\ map taskId (tasks db') = map taskId (tasks db)
  /\ forall x, r = Returns (JsonResponse x) ->
       exists t, x = Some t /\ In t (tasks db') /\ taskId t = id
                 /\ taskUser t = userId.
Proof.
  intros N Inv H. apply PUT_effect in H.
  destruct H as [[-> Nr] |
                 (body & existing & nextRule & rule' & updates & updated
                  & _ & S & RA & [C ST] & _ & SR & U & ->)].
  { split; [exact Inv |]. split; [reflexivity |].
    intros x E. destruct (Nr x E). }
  destruct (selectTask_live _ _ _ _ S) as (I & K & Us & _).
  destruct (updateTask_rows _ _ _ _ _ _ N I K U) as (Eu & _ & _ & Keys & In' & Rows).
  injection Eu as ->.
  split; [| split; [exact Keys |]].
  2:{ intros x [= <-]. eexists. split; [reflexivity |]. split; [exact In' |].
      cbn [applyUpdates taskId taskUser]. auto. }
  intros t It. destruct (Rows t It) as [-> | [It' _]]; [| apply (Inv t It')].
  apply (updated_rule_in_order existing updates
           (if hasOwn body "recurrenceRule"
            then fieldOfValue (Js.get body "recurrenceRule") else Absent)
           (hasOwn body "recurrenceType") (hasOwn body "recurrenceRule")
           (if hasOwn body "recurrenceType"
            then orKeep (recurrenceTypeOfValue (Js.get body "recurrenceType"))
                   (recurrenceType existing)
            else recurrenceType existing)
           nextRule rule'); trivial.
  - apply (Inv existing I).
  - intros ->. reflexivity.
  - intros ->. reflexivity.
Qed.


End UpdateTheorems.

Lemma plan_tasks_in_order (t : Store.Task) :
  In t (Store.tasks Notions.planDb) ->
  MoreNotions.ruleInOrder t /\ MoreNotions.anchored t.
Proof.
  intros [<- | [<- | [<- | []]]];
    (split; [split; [left; reflexivity | discriminate]
            | intros T; destruct (T eq_refl)]).
Qed.

Lemma plan_task_keys_unique :
  NoDup (map Store.taskId (Store.tasks Notions.planDb)).
Proof.
  cbn. repeat (apply NoDup_cons; [cbn; intuition discriminate |]).
  apply NoDup_nil.
Qed.

Lemma update_task_keeps_recurrence_in_order_witness :
  (forall t,
     In t (Store.tasks
             (fst (TaskWrites.updateTaskTool "2024-03-01T09:00:00.000Z" "u1"
                     MoreNotions.weeklyArgs Notions.planDb))) ->
     MoreNotions.ruleInOrder t /\ MoreNotions.anchored t)
  /\ snd (TaskWrites.updateTaskTool "2024-03-01T09:00:00.000Z" "u1"
            MoreNotions.weeklyArgs Notions.planDb)
     = Returns
         (Some (Store.mkTask "t2" "u1" "t2" None "open" "medium"
                  (Some "2024-03-04") None Recurrence.TWeekly
                  Recurrence.DuplicateOnSchedule None None
                  "2024-02-28T08:00:00.000Z" "2024-03-01T09:00:00.000Z")).
Proof.
  split; [| vm_compute; reflexivity].
  refine (proj1 (update_task_keeps_recurrence_in_order
                   "2024-03-01T09:00:00.000Z" "u1" MoreNotions.weeklyArgs
                   Notions.planDb _ _ plan_task_keys_unique plan_tasks_in_order
                   (surjective_pairing _))).
Defined.

Lemma rest_update_keeps_rule_in_order_witness :
  (forall t,
     In t (Store.tasks
             (fst (TaskWrites.PUT "2024-03-01T09:00:00.000Z" "u1" "t2"
                     MoreNotions.customBody Notions.planDb))) ->
     MoreNotions.ruleInOrder t)
  /\ In (Store.mkTask "t2" "u1" "t2" None "open" "medium" None None
           Recurrence.TCustom Recurrence.AfterCompletion
           (Some (Recurrence.serializeTaskCustomRecurrenceRule
                    (Recurrence.mkRule 2 Recurrence.UWeek)))
           None "2024-02-28T08:00:00.000Z" "2024-03-01T09:00:00.000Z")
        (Store.tasks
           (fst (TaskWrites.PUT "2024-03-01T09:00:00.000Z" "u1" "t2"
                   MoreNotions.customBody Notions.planDb))).
Proof.
  split; [| vm_compute; auto].
  refine (proj1 (rest_update_keeps_rule_in_order
                   "2024-03-01T09:00:00.000Z" "u1" "t2" MoreNotions.customBody
                   Notions.planDb _ _ plan_task_keys_unique
                   (fun t I => proj1 (plan_tasks_in_order t I))
                   (surjective_pairing _))).
Defined.


(** ** Completed tasks and the two ways to delete *)

Section CompletionTheorems.

Import Recurrence Store TaskWrites TaskTools Dispatches Notions MoreNotions.

(** X28: when [complete-task] returns for a task, in a store whose task
    keys are unique, the returned task is stored with the status done,
    no dispatch counts the task among its unfinished ones any more, and
    the unfinished tasks of every dispatch are otherwise the same; the
    dispatches and the links are not changed. *)
Theorem completed_task_is_not_pending (clock userId id : string) (db db' : Db)
  (t : Task) :
  NoDup (map taskId (tasks db)) ->
  completeTask clock userId id db = (db', Returns t) ->
  In t (tasks db') /\ taskId t = id /\ status t = "done"
  /\ dispatches db' = dispatches db
  /\ dispatchTasks db' = dispatchTasks db
  /\ forall d,
       ~ In id (pending d db')
       /\ forall other, other <> id ->
            (In other (pending d db') <-> In other (pending d db)).
Proof.
  intros N H. pose proof (completeTask_effect clock userId id db) as E.
  destruct (find (isLive userId id) (tasks db)) as [t0 |] eqn:F;
    rewrite E in H; [| discriminate H].
  injection H as <- <-.
  apply find_some in F. destruct F as [I L].
  pose proof L as L'. apply isLive_spec in L'. destruct L' as (K & _ & _).
  cbn [setTasks tasks dispatches dispatchTasks].
  split.
  { apply in_map_iff. exists t0. rewrite L. auto. }
  split; [exact K |]. split; [reflexivity |].
  split; [reflexivity |]. split; [reflexivity |].
  assert (forall y, In y (tasks db) -> taskId y = id -> y = t0) as Same.
  { intros y Iy Ky. apply (unique_key taskId (tasks db)); congruence. }
  assert (forall y, taskId y <> id -> isLive userId id y = false) as Off.
  { intros y Ny. unfold isLive.
    destruct (String.eqb_spec (taskId y) id); [contradiction | reflexivity]. }
  intros d. split.
  - intros P. apply pending_spec in P.
    destruct P as (_ & task & It & Kt & _ & St).
    cbn [setTasks tasks] in It. apply in_map_iff in It.
    destruct It as (y & <- & Iy).
    assert (taskId y = id) as Ky by (destruct (isLive userId id y); exact Kt).
    rewrite (Same y Iy Ky), L in St. apply St. reflexivity.
  - intros other No. rewrite !pending_spec.
    cbn [setTasks tasks dispatchTasks].
    split; intros (Ln & task & It & Kt & Dt & St); (split; [exact Ln |]).
    + apply in_map_iff in It. destruct It as (y & <- & Iy).
      destruct (isLive userId id y) eqn:Ly.
      * apply isLive_spec in Ly. destruct Ly as (Ky & _).
        cbn [markDone taskId] in Kt. congruence.
      * exists y. auto.
    + exists task. split; [| auto].
      apply in_map_iff. exists task. rewrite Off by congruence. auto.
Qed.

(** X29: [DELETE] of the REST route and [delete-task] delete alike.  In
    a store whose task keys are unique and in which no task has an empty
    time of deletion, the two leave the same store when they read the
    same clock, [DELETE] answers that the task is deleted exactly when
    [delete-task] returns, and it answers 404 exactly when [delete-task]
    throws "Task not found.". *)
Theorem rest_delete_agrees_with_delete_task (clock userId id : string) (db : Db) :
  NoDup (map taskId (tasks db)) ->
  (forall t, In t (tasks db) -> deletedAt t <> Some "") ->
  fst (DELETE clock clock userId id db) = fst (deleteTask clock userId id db)
  /\ (snd (DELETE clock clock userId id db) = Returns Deleted
      <-> snd (deleteTask clock userId id db) = Returns id)
  /\ (snd (DELETE clock clock userId id db)
      = Returns (DeleteError "Task not found" 404)
      <-> snd (deleteTask clock userId id db) = Throws "Task not found.").
Proof.
  intros N Ne. pose proof (deleteTask_effect clock userId id db) as E.
  destruct (DELETE clock clock userId id db) as [db1 r] eqn:D.
  revert D. unfold DELETE. unfold bind at 1. unfold read at 1.
  destruct (find (isLive userId id) (tasks db)) as [t0 |] eqn:F; rewrite E;
    cbn [fst snd].
  - apply find_some in F. destruct F as [I L].
    pose proof L as L'. apply isLive_spec in L'. destruct L' as (K & U & Dl).
    match goal with
    | |- context [match find ?p (tasks db) with _ => _ end] =>
        destruct (find p (tasks db)) as [e |] eqn:Fe
    end.
    2:{ exfalso. apply (find_none _ _ Fe) in I.
        rewrite K, U, !String.eqb_refl in I. discriminate I. }
    apply find_some in Fe. destruct Fe as [Ie Ce].
    apply andb_true_iff in Ce. destruct Ce as [Ce _]. apply String.eqb_eq in Ce.
    assert (e = t0) as -> by (apply (unique_key taskId (tasks db)); congruence).
    rewrite Dl. cbn [falsy negb]. unfold bind, write, ret.
    intros [= <- <-]. split; [| split; split; (reflexivity || discriminate)].
    unfold setTasks. f_equal. apply map_ext_in. intros y Iy.
    destruct (String.eqb_spec (taskId y) id) as [Ky | Ny].
    + assert (y = t0) as -> by (apply (unique_key taskId (tasks db)); congruence).
      rewrite L. reflexivity.
    + unfold isLive. destruct (String.eqb_spec (taskId y) id); [contradiction |].
      reflexivity.
  - match goal with
    | |- context [match find ?p (tasks db) with _ => _ end] =>
        destruct (find p (tasks db)) as [e |] eqn:Fe
    end.
    2:{ intros [= <- <-].
        split; [reflexivity | split; split; (reflexivity || discriminate)]. }
    apply find_some in Fe. destruct Fe as [Ie Ce].
    apply andb_true_iff in Ce. destruct Ce as [Ck Cu].
    destruct (deletedAt e) as [s |] eqn:De.
    + cbn [falsy]. destruct (String.eqb_spec s "") as [-> | _].
      * destruct (Ne e Ie De).
      * cbn [negb]. intros [= <- <-].
        split; [reflexivity | split; split; (reflexivity || discriminate)].
    + exfalso. apply (find_none _ _ F) in Ie. unfold isLive in Ie.
      rewrite Ck, Cu, De in Ie. discriminate Ie.
Qed.

End CompletionTheorems.

Lemma completed_task_is_not_pending_witness :
  ~ In "t2"
      (Notions.pending "d1"
         (fst (TaskTools.completeTask "2024-03-01T09:00:00.000Z" "u1" "t2"
                 Notions.planDb)))
  /\ In "t2" (Notions.pending "d1" Notions.planDb).
Proof.
  split; [| vm_compute; auto].
  refine (proj1 (proj2 (proj2 (proj2 (proj2 (proj2
            (completed_task_is_not_pending "2024-03-01T09:00:00.000Z" "u1" "t2"
               Notions.planDb _
               (Store.mkTask "t2" "u1" "t2" None "done" "medium" None None
                  Recurrence.TNone Recurrence.AfterCompletion None None
                  "2024-02-28T08:00:00.000Z" "2024-03-01T09:00:00.000Z")
               plan_task_keys_unique _))))) "d1")).
  vm_compute. reflexivity.
Defined.

Lemma rest_delete_agrees_with_delete_task_witness :
  fst (TaskTools.DELETE "2024-03-01T09:00:00.000Z" "2024-03-01T09:00:00.000Z"
         "u1" "t2" Notions.planDb)
  = fst (TaskTools.deleteTask "2024-03-01T09:00:00.000Z" "u1" "t2"
           Notions.planDb).
Proof.
  refine (proj1 (rest_delete_agrees_with_delete_task
                   "2024-03-01T09:00:00.000Z" "u1" "t2" Notions.planDb
                   plan_task_keys_unique _)).
  intros t [<- | [<- | [<- | []]]]; discriminate.
Defined.
